(* ===== verification/_CoqProject ===== *)
-Q . S2P
Prelude.v
PyInt.v
PyDiv.v
PyObj.v
Json.v
ModelHub.v
Gallery.v
Archive.v
Html.v
GalleryPage.v
Nvtop.v
HubPage.v
Serve.v
App.v
Race.v
Session.v
