(* ===== verification/Prelude.v ===== *)
(** * A verification library for the dashboards of the dotfiles repository

    The repository holds two small Flask applications that share nothing
    at run time:

    - [src/run/llama-server/app.py], the "Model Hub".  On every request
      [index] calls [get_live_data], which reads [models.yaml], probes one
      tmux session per configured model ([tmux has-session -t
      svc-<name>]), writes an [active] flag, a reachability [url] and a
      pretty-printed [config_json] into each model's dict; it then calls
      [get_nvtop_output], which runs [nvtop], decodes its output and
      removes ANSI escape sequences; and it renders a Jinja template with
      one card per model next to the snapshot.
    - [src/run/flask_img_viewer.py], the image gallery.  [index] lists the
      image files of a directory, sorts them in reverse order and renders
      one page of them with [HTML_TEMPLATE], whose script drives a
      lightbox and posts deletions; [delete_images] "archives" files by
      moving them into a hidden [.archive] directory when the server was
      started with the delete flag.

    Python code is modelled in the state-and-exception monad [PyM] of this
    file: the state survives a [raise], so effects performed before an
    exception are kept, as in Python.  Library functions the code calls
    (CPython's [int()], [bytes.decode], [re.sub], [json.dumps],
    [shutil.move], [markupsafe.escape], the browser's decoding of
    character references and JavaScript string literals) are modelled
    from their documented behaviour in the file of their caller.

    ** Files, in dependency order

    - [Prelude] (this file): Python text as lists of code points
      ([pystr]), the exceptions the code can raise, [PyM] with its laws,
      Hoare triples and the [yields] combinators (what a computation can
      return), [str(int)], [str.split(sep)[0]], [startswith]/[endswith],
      slicing with negative indices (notation [l ⟦ i ∶ j ⟧] in
      [py_scope]), the hint database [py] and the shared tactics.
    - [PyInt]: [int(str)] as CPython parses it (Unicode digits and
      spaces, sign, underscores, the 4300-digit limit), used by Flask's
      [request.args.get(..., type=int)].
    - [PyDiv]: [a / b] on two [int]s as CPython's [long_true_divide]
      computes it (the correctly rounded double, ties to even, with
      subnormals, underflow to [0.0], [OverflowError] and
      [ZeroDivisionError]) and [math.ceil] of the double: the page count
      [math.ceil(total / limit)] of the gallery.  It is the exact
      ceiling for up to [2^52] files and limits up to [2^1074]
      ([ceil_div_exact]), and for any limit once it is positive
      ([ceil_div_pos]).
    - [PyObj]: the Python heap.  Values ([pyval]) are scalars or
      references to heap objects (dicts in insertion order, lists); dict
      lookup and assignment with Python's key equality, [getitem],
      [setitem], [dict.get], [bool()], iteration with CPython's "changed
      size during iteration" check, [str()] and [repr()].  YAML documents
      are heaps in which several keys may share one dict (anchors and
      aliases), which is why the heap is explicit.  The class
      [HeapState] is the interface a handler's state offers to these
      operations; [Hub.state] is its instance.
    - [Json]: [json.dumps(obj, indent=2)] as CPython's pure-Python encoder
      computes it, as an instance of the heap walker of [PyObj].
    - [ModelHub] (Module [Hub]): [get_live_data] and the request it
      serves: the configuration outcome, the tmux probe, URL synthesis,
      the two enrichment loops; the probes issued are recorded in the state.
    - [Gallery] (Module [Gallery]): the gallery's [index]: argument
      parsing, the file filter, the reverse sort, pagination, the page
      count through [PyDiv].
    - [Archive] (Module [Archive]): [delete_images] over a file-system
      store ([gmap] from paths to files and directories): POSIX path
      resolution, [os.path.join], [os.makedirs], [shutil.move] over
      [rename(2)], and Flask's 500 on an escaping exception.
    - [Html] (Module [Html]): [markupsafe.escape] and its decoding.
    - [GalleryPage] (Module [GalleryPage]): [HTML_TEMPLATE] as rendered
      (cards, links, options) and its script as a state machine
      ([page_step] over user events, [reachable] states).  The trash
      icon's [onclick] is run when it is a call of [executeDelete] on an
      array literal of single-quoted strings ([trash_argument]); any
      other script a name puts there is left out of the model
      ([page_step] gives [None]), so the theorems over [reachable]
      assume names without quotes, backslashes or line breaks.
    - [Nvtop] (Module [Nvtop]): [get_nvtop_output]: the child's
      environment, CPython's UTF-8 decoder with [errors="ignore"], the
      ANSI regular expression as a scanner next to the language of the
      pattern, [re.sub], and the texts of the exceptions.
    - [HubPage] (Module [HubPage]): the Model Hub's [index]: the
      composition of [get_live_data], [get_nvtop_output] and the
      template, with Jinja's attribute lookup and autoescaping.
    - [Serve] (Module [Serve]): the gallery's [serve_image] (Flask's
      [send_from_directory]: werkzeug's [safe_join] with
      [posixpath.normpath], then [os.path.isfile]) over the store of
      [Archive], and the script's command line ([int()] and [choices] on
      the delete flag, [os.path.abspath], the port); [main_config_plain]
      shows that the directory it sets satisfies the assumption on
      [IMAGE_DIR] of the theorems of [Archive] and [Serve].
    - [App] (Module [App]): the gallery application as a whole: the
      three routes with werkzeug's dispatch ([handle]: [/], the
      [<path:filename>] converter of [/images/...], [/delete] for POST,
      404 and 405), [os.listdir] on the store of [Archive] ([listdir]),
      requests served in sequence ([serve_all]), and werkzeug's strict
      UTF-8 encoding of the rendered page ([encodable]); the theorems follow
      a name from the listing to the image route, and a request of the
      page ([GalleryPage]) through [delete_images] back to the listing.
    - [Race] (Module [Race]): the development server runs each request
      on its own thread; [delete_images] is cut at its store operations
      ([tstep]: the two [os.path.exists], [os.makedirs], [shutil.move])
      and two threads are interleaved by a schedule ([run_sched]).
    - [Session] (Module [Session]): the gallery in a browser tab over
      time, a step relation ([step], [run]) composing the page's script
      ([GalleryPage.page_step]), the [fetch] of [executeDelete] (started
      by the page, handled by the server ([App.handle]) when it gets to
      it, its promise settling later, in any order), [if (response.ok)
      location.reload()], and the Prev/Next links and the "Show:" menu
      as the browser follows them ([url_query]: werkzeug's parsing of
      the query).  Documents are numbered: a fetch of a document the tab
      has left is still handled but reloads nothing.

    ** What the theorems show (groups)

    - [ModelHub]: the returned keys are exactly the configured names;
      each model's [active] flag is the answer of its own probe, its
      [url] is [scheme://host:port] and [config_json] its JSON, for a
      configuration of the usual shape; a missing or broken file gives
      an empty dict and no probe; findings: aliased entries share a
      flag (shown on a sample document), a missing tmux or a scalar
      [models:] makes the handler raise, an IPv6 host is cut at its
      first colon.
    - [HubPage]: the rendered page refines the specification's view
      (per service: name, liveness, URL, link exactly when live, record);
      every text the page shows is escaped, whatever the configuration.
    - [Nvtop]: a successful snapshot shows the text with its colour
      codes removed, and a failure the text of the exception.
    - [Json]: a dict that holds itself makes [json.dumps] raise
      [ValueError] (a finding: [get_live_data] does not catch it).
    - [Gallery], [PyDiv], [PyInt]: the pages that the pagination links
      request (all with the same page count) partition the listing; the
      listing is the visible images in strictly descending order,
      whatever the order of [os.listdir]; findings: [limit = 0] raises,
      a limit beyond [2^1075] times the total reads "Page 1 of 0".
    - [Archive]: a request of plain names archives exactly those files
      and keeps the store well formed; without the flag nothing changes;
      findings: absolute names escape the image directory, a second
      archive of one name overwrites the first, a failing item leaves
      earlier moves done, a string is iterated per character.
    - [Serve]: a file [serve_image] sends always lies under [IMAGE_DIR],
      whatever the name ([..], absolute, [.] or empty components).
    - [GalleryPage]: every request the page sends names images of the
      page; the batch button is enabled exactly when a box is checked;
      the lightbox never leaves the page's images and the arrow keys
      cycle; from every reachable state each image can still be
      archived (liveness: Escape, its box alone, the batch button);
      findings: a name [x', 'y] makes its trash icon archive [x] and
      [y], a backslash makes it ask for another name.
    - [Gallery] (bounds): whatever the page number, a page of a positive
      [limit] shows at most [limit] images, and up to [2^52] files and
      limits up to [2^1074] [total_pages] is the least count whose pages
      hold all files.
    - [App]: every image a page shows is an entry of [IMAGE_DIR] and is
      served with its content (404 for a directory named like an
      image, a finding); each request the page posts, handled on the
      store the page came from, succeeds, keeps the store as the gallery
      expects it and hides exactly the requested images; a listed name
      that is not UTF-8 (a lone surrogate from [os.listdir]) makes the
      page that shows it a 500 (a finding).
    - [Race]: two first deletions can race on [.archive]:
      the second [os.makedirs] raises and that request answers 500 (a
      finding); once [.archive] exists, every schedule that gives each
      thread its operations ends as the serial execution
      (serializability), and each request finishes after its own
      operations whatever the other does (liveness).
    - [Session]: an invariant of every run of the tab (the store stays
      as the gallery expects it, the page renders [index] in a state
      its script can reach, fetches name listed images); along any run
      the listing loses exactly the names of the handled requests;
      every image a page shows can be archived end to end (liveness:
      the fetch is handled, the promise reloads the page); the links
      and the menu load the page before, after, or page 1 with the
      chosen limit (print/parse round trip of the query); finding:
      archiving the whole last page reloads a page past the end.

    ** Fuel and termination

    - [walk] (the traversal behind [repr] and [json.dumps]) carries fuel
      [S (size heap)]: each recursive call pushes onto the path a heap
      location not already on it, so the path never exceeds the heap;
      [walk_fuel_enough] proves that more fuel never changes the result.
    - [js_sq_go] (JavaScript literals) carries fuel [S (length s)]: each
      step consumes a character ([js_sq_go_fuel]); [js_sq_list] (the
      array literal) carries the length of the [onclick], as each
      element consumes at least its opening quote.
    - [PyDiv] needs no fuel: the quotient is rounded with one integer
      division at the exponent that [log2_div] computes from bit lengths.
    - [digits_aux] ([str(int)]) carries the binary size of the number,
      an upper bound on its decimal digits ([n_repr_spec]).
    - The list iteration of [PyObj] is bounded by the initial length, as
      the modelled loop bodies never change a list's length.
    - The decoders ([unescape_skip], [decode_go], [sub_go]) are
      structural, with a count of characters still to skip; so is
      [norm_go] ([posixpath.normpath]).
    - [run_thread] ([Race]) carries a number of store operations;
      [thread_fuel] ([2 n + 3] for [n] names) is enough, and more changes
      nothing ([thread_alone_refines]); under a schedule each thread's
      remaining work ([measure]) drops by one per operation it is given.

    ** Not modelled

    The Model Hub's development server (its requests share no state:
    each one reloads the configuration); for the gallery's server, only
    the interleaving of [delete_images] at the granularity of its store
    operations ([Race]; in [Session] each request is handled at once,
    and finer interleavings inside [shutil.move], [os.makedirs] or
    [os.listdir] are not modelled); URL percent-decoding and the
    browser's parsing of image URLs (names are passed to the routes as
    decoded text; [url_query] covers the page's own links, whose text
    needs no decoding); a fetch that fails on the network, the back
    button, and several tabs on one server; the full
    grammar of [argparse] (the model starts from the
    three values it collects); YAML
    parsing itself (the model starts from the object graph
    [yaml.safe_load] returns, or from its failure); floats, YAML sets and
    [bytes] ([!!binary], which [for key in models] would iterate);
    the subprocesses themselves (their outcomes are parameters); CSS,
    the refresh tag and other markup that carries no data; non-ASCII
    case folding ([str.lower] is modelled on ASCII letters); symbolic
    links, permissions and devices in the file-system store. *)

From Stdlib Require Import String Ascii ZArith NArith Zpow_facts.
From stdpp Require Export base list option numbers sets.

Declare Scope py_scope.
Delimit Scope py_scope with py.
Open Scope py_scope.

(** ** Python text

    A Python [str] is a sequence of code points. *)
Abbreviation pystr := (list N).

(** A string literal of the source, written with ASCII characters. *)
Definition ps (s : string) : pystr := map N_of_ascii (list_ascii_of_string s).
Arguments ps s%_string : simpl never.

(** [str.startswith(p)] and [str.endswith(p)]. *)
Fixpoint startswith (s p : pystr) {struct p} : bool :=
  match p with
  | [] => true
  | c :: p' =>
      match s with
      | [] => false
      | d :: s' => bool_decide (c = d) && startswith s' p'
      end
  end.

Definition endswith (s p : pystr) : bool := startswith (reverse s) (reverse p).

(** [s.split(sep)[0]]: the text before the first separator. *)
Fixpoint split_first (sep : N) (s : pystr) : pystr :=
  match s with
  | [] => []
  | c :: s' => if bool_decide (c = sep) then [] else c :: split_first sep s'
  end.

(** [str.lower()] on ASCII letters. *)
Definition lower_cp (c : N) : N := if bool_decide (65 <= c <= 90)%N then c + 32 else c.
Definition lower (s : pystr) : pystr := map lower_cp s.

(** ** [str(int)]: decimal rendering *)

(** The digits of [n], most significant first, prepended to [acc]; the
    fuel is the number of binary digits of [n], an upper bound on its
    number of decimal digits. *)
Fixpoint digits_aux (fuel : nat) (n : N) (acc : pystr) : pystr :=
  match fuel with
  | O => acc
  | S f =>
      let acc' := (48 + n mod 10)%N :: acc in
      if (n <? 10)%N then acc' else digits_aux f (n / 10)%N acc'
  end.

Definition n_repr (n : N) : pystr := digits_aux (S (N.size_nat n)) n [].

Definition z_repr (z : Z) : pystr :=
  if (z <? 0)%Z then 45%N :: n_repr (Z.to_N (- z)) else n_repr (Z.to_N z).

(** The value of a run of decimal digits read after the value [a]. *)
Definition is_digit (c : N) : bool := bool_decide (48 <= c <= 57)%N.

Fixpoint dval (a : Z) (ds : pystr) : Z :=
  match ds with
  | [] => a
  | c :: ds' => dval (a * 10 + Z.of_N (c - 48))%Z ds'
  end.

(** ** Python slicing [l[i:j]] (step 1) *)

(** A slice bound: negative bounds count from the end, then the bound is
    clamped to [0 .. len]. *)
Definition slice_bound (len i : Z) : Z :=
  if (i <? 0)%Z then Z.max 0 (i + len) else Z.min i len.

Definition py_slice {A} (l : list A) (i j : Z) : list A :=
  let n := Z.of_nat (length l) in
  let a := slice_bound n i in
  let b := slice_bound n j in
  take (Z.to_nat (b - a)) (drop (Z.to_nat a) l).

(** [l[i:j]] *)
Notation "l ⟦ i ∶ j ⟧" := (py_slice l i j) (at level 2, i at level 99, j at level 99,
  format "l ⟦ i ∶ j ⟧") : py_scope.

(** ** Exceptions and the state-and-exception monad *)

(** The Python exception classes the modelled code can raise.
    [HeapFault] is not a Python exception: it is what reading a
    dangling reference yields, and the heap invariant excludes it. *)
Inductive exn :=
  | TypeError | AttributeError | KeyError | IndexError | ValueError
  | RuntimeError | ZeroDivisionError | OSError | HeapFault
  | UndefinedError     (* jinja2.exceptions.UndefinedError *)
  | UnicodeEncodeError  (* str.encode('utf-8') of a lone surrogate *)
  | OverflowError.      (* an int quotient too large for a float *)

#[export] Instance exn_eq_dec : EqDecision exn.
Proof. solve_decision. Defined.

Inductive res (A : Type) := Ok (a : A) | Raise (e : exn).
Arguments Ok {A} a.
Arguments Raise {A} e.

#[export] Instance res_ret : MRet res := fun A a => Ok a.
#[export] Instance res_bind : MBind res := fun A B f r =>
  match r with Ok a => f a | Raise e => Raise e end.

(** [sep.join(xs)] *)
Fixpoint str_join (sep : pystr) (xs : list pystr) : pystr :=
  match xs with
  | [] => []
  | [x] => x
  | x :: xs' => x ++ sep ++ str_join sep xs'
  end.

(** A computation over state [S]: the state is returned also when an
    exception propagates, as the effects before a [raise] happened. *)
Definition PyM (S A : Type) : Type := S -> res A * S.

#[export] Instance PyM_ret {S} : MRet (PyM S) := fun A a s => (Ok a, s).
#[export] Instance PyM_bind {S} : MBind (PyM S) := fun A B f c s =>
  match c s with
  | (Ok a, s') => f a s'
  | (Raise e, s') => (Raise e, s')
  end.

Definition raise {S A} (e : exn) : PyM S A := fun s => (Raise e, s).
Definition gets {S A} (f : S -> A) : PyM S A := fun s => (Ok (f s), s).
Definition modify {S} (f : S -> S) : PyM S unit := fun s => (Ok tt, f s).

(** [try: c  except Exception: h]. *)
Definition try_except {S A} (c : PyM S A) (h : exn -> PyM S A) : PyM S A :=
  fun s => match c s with
           | (Raise e, s') => h e s'
           | r => r
           end.

(** Running a computation. *)
Definition run {S A} (c : PyM S A) (s : S) : res A * S := c s.

(** Python's [for x in xs: body(x)] over a list computed up front. *)
Fixpoint for_each {S A} (xs : list A) (body : A -> PyM S unit) : PyM S unit :=
  match xs with
  | [] => mret tt
  | x :: xs' => body x ;; for_each xs' body
  end.

(** Partial-correctness triples: from a state satisfying [P], the
    outcome (a value or an exception) and the final state satisfy [Q]. *)
Definition hoare {S A} (P : S -> Prop) (c : PyM S A) (Q : res A -> S -> Prop) : Prop :=
  forall s, P s -> Q (c s).1 (c s).2.

Create HintDb py discriminated.
Create Rewrite HintDb py.

(** ** Generic lemmas *)

Section monad_laws.
Context {S : Type}.

Lemma bind_ret {A B} (a : A) (f : A -> PyM S B) : (mret a ≫= f) = f a.
  Proof. reflexivity. Qed.

Lemma bind_run {A B} (c : PyM S A) (f : A -> PyM S B) s :
    (c ≫= f) s = match c s with
                 | (Ok a, s') => f a s'
                 | (Raise e, s') => (Raise e, s')
                 end.
  Proof. reflexivity. Qed.

Lemma bind_raise {A B} e (f : A -> PyM S B) : (raise e ≫= f) = raise e.
  Proof. reflexivity. Qed.

(** One step of a computation that returns normally, or raises. *)
Lemma bind_ok {A B} (c : PyM S A) (f : A -> PyM S B) s a s' :
  c s = (Ok a, s') -> (c ≫= f) s = f a s'.
Proof. intros H. by rewrite bind_run, H. Qed.

Lemma bind_err {A B} (c : PyM S A) (f : A -> PyM S B) s e s' :
  c s = (Raise e, s') -> (c ≫= f) s = (Raise e, s').
Proof. intros H. by rewrite bind_run, H. Qed.

Lemma bind_gets {A} (f : S -> PyM S A) s : (gets id ≫= f) s = f s s.
Proof. reflexivity. Qed.

Lemma try_ok {A} (c : PyM S A) h s a s' :
  c s = (Ok a, s') -> try_except c h s = (Ok a, s').
Proof. intros H. unfold try_except. by rewrite H. Qed.

Lemma try_err {A} (c : PyM S A) h s e s' :
  c s = (Raise e, s') -> try_except c h s = h e s'.
Proof. intros H. unfold try_except. by rewrite H. Qed.
End monad_laws.

#[export] Hint Rewrite @bind_ret @bind_raise : py.

Section hoare_rules.
Context {S : Type}.

Lemma hoare_ret {A} (P : S -> Prop) (a : A) : hoare P (mret a) (fun r s => r = Ok a /\ P s).
  Proof. intros s HP. done. Qed.

Lemma hoare_consequence {A} (P P' : S -> Prop) (Q Q' : res A -> S -> Prop) c :
    hoare P' c Q' -> (forall s, P s -> P' s) -> (forall r s, Q' r s -> Q r s) -> hoare P c Q.
  Proof. intros Hc HP HQ s Hs. auto. Qed.

  (** Sequencing: [R] describes the intermediate states after a normal
      return, and an exception of [c] must already satisfy [Q]. *)
Lemma hoare_bind {A B} (P : S -> Prop) (R : A -> S -> Prop) (Q : res B -> S -> Prop)
      (c : PyM S A) (f : A -> PyM S B) :
    hoare P c (fun r s => match r with Ok a => R a s | Raise e => Q (Raise e) s end) ->
    (forall a, hoare (R a) (f a) Q) ->
    hoare P (c ≫= f) Q.
  Proof.
    intros Hc Hf s Hs. rewrite bind_run. specialize (Hc s Hs).
    destruct (c s) as [[a|e] s']; simpl in *; [by apply Hf | done].
  Qed.

  (** A loop over a list with an invariant that survives exceptions. *)
Lemma hoare_for_each {A} (I : S -> Prop) (xs : list A) (body : A -> PyM S unit) :
    (forall x, x ∈ xs -> hoare I (body x) (fun _ s => I s)) ->
    hoare I (for_each xs body) (fun _ s => I s).
  Proof.
    induction xs as [|x xs IH]; intros Hb; simpl.
    - intros s Hs. done.
    - eapply hoare_bind with (R := fun _ s => I s).
      + eapply hoare_consequence; [apply Hb; set_solver| done |].
        by intros [] s.
      + intros []. apply IH. intros y Hy. apply Hb. set_solver.
  Qed.
End hoare_rules.

(** Close a decidable proposition about closed terms by evaluation. *)
Ltac by_decide := apply (bool_decide_unpack _); vm_compute; exact I.

(** Unfold one step of the monad on a concrete state. *)
Ltac py_step :=
  repeat first [ rewrite bind_run | progress cbn [mret PyM_ret raise gets modify] ].

Lemma startswith_app (s p : pystr) : startswith (p ++ s) p = true.
Proof. induction p as [|c p IH]; [done|]. simpl. rewrite IH. by rewrite bool_decide_true. Qed.

Lemma startswith_prefix (s p : pystr) : startswith s p = true <-> p `prefix_of` s.
Proof.
  revert s. induction p as [|c p IH]; intros s; [split; [intros _; apply prefix_nil | done]|].
  destruct s as [|d s]; cbn.
  - split; [done|]. intros H. by apply prefix_nil_inv in H.
  - rewrite andb_true_iff, bool_decide_eq_true, IH. split.
    + intros [-> H]. by apply prefix_cons.
    + intros [x Hx]. injection Hx as -> Hx. split; [done|]. by exists x.
Qed.

Lemma endswith_app (s p : pystr) : endswith (s ++ p) p = true.
Proof. unfold endswith. rewrite reverse_app. apply startswith_app. Qed.

Lemma split_first_no_sep sep (s : pystr) : sep ∉ s -> split_first sep s = s.
Proof.
  induction s as [|c s IH]; intros Hn; [done|]. simpl.
  rewrite bool_decide_false by set_solver. f_equal. apply IH. set_solver.
Qed.

Lemma split_first_app_sep sep (s t : pystr) :
  sep ∉ s -> split_first sep (s ++ sep :: t) = s.
Proof.
  induction s as [|c s IH]; intros Hn; simpl.
  - by rewrite bool_decide_true.
  - rewrite bool_decide_false by set_solver. f_equal. apply IH. set_solver.
Qed.

Lemma list_elem_of_map {A B} (f : A -> B) (l : list A) x : x ∈ l -> f x ∈ map f l.
Proof. rewrite !list_elem_of_In. apply in_map. Qed.

#[export] Hint Resolve startswith_app endswith_app list_elem_of_map : py.

(** ** Decimal rendering *)

Lemma dval_app a ds es : dval a (ds ++ es) = dval (dval a ds) es.
Proof. revert a. induction ds as [|c ds IH]; intros a; [done|]. apply IH. Qed.

Lemma digits_aux_S f n acc :
  digits_aux (S f) n acc =
  if (n <? 10)%N then (48 + n mod 10)%N :: acc else digits_aux f (n / 10)%N ((48 + n mod 10)%N :: acc).
Proof. reflexivity. Qed.

Lemma digits_aux_spec f n acc :
  (Z.of_N n < 10 ^ Z.of_nat (S f))%Z ->
  exists ds, digits_aux (S f) n acc = ds ++ acc /\ ds <> [] /\ Forall (fun c => is_digit c = true) ds /\
    forall a, dval a ds = (a * 10 ^ Z.of_nat (length ds) + Z.of_N n)%Z.
Proof.
  revert n acc. induction f as [|f IH]; intros n acc Hn; rewrite digits_aux_S;
    pose proof (N.mod_lt n 10 ltac:(lia)) as Hr; pose proof (N.div_mod n 10 ltac:(lia)) as Hdm;
    remember (n mod 10)%N as r eqn:Er; remember (n / 10)%N as q eqn:Eq; clear Er Eq;
    assert (Hc : is_digit (48 + r) = true) by (apply bool_decide_eq_true; lia);
    assert (Hv : forall a, (dval a [(48 + r)%N] = a * 10 + Z.of_N r)%Z)
      by (intros a; cbn; by replace (48 + r - 48)%N with r by lia);
    destruct (N.ltb_spec n 10) as [Hlt|Hge].
  1,3: exists [(48 + r)%N]; split; [done|]; split; [done|]; split; [by constructor|];
    intros a; rewrite Hv; cbn; lia.
  - cbn in Hn. lia.
  - destruct (IH q ((48 + r)%N :: acc)) as (ds & Hds & Hne & Hdig & Hval).
    { rewrite Nat2Z.inj_succ, Z.pow_succ_r in Hn by lia. lia. }
    exists (ds ++ [(48 + r)%N]). rewrite Hds, <- (assoc_L app). split; [done|].
    split; [by destruct ds|]. split; [apply Forall_app; split; [done | by constructor]|].
    intros a. rewrite dval_app, Hval, Hv, length_app. cbn [length].
    rewrite Nat2Z.inj_add, Z.pow_add_r by lia. nia.
Qed.

(** [str(n)] is a nonempty run of digits whose value is [n]. *)
Lemma n_repr_spec n :
  n_repr n <> [] /\ Forall (fun c => is_digit c = true) (n_repr n) /\
  forall a, dval a (n_repr n) = (a * 10 ^ Z.of_nat (length (n_repr n)) + Z.of_N n)%Z.
Proof.
  destruct (digits_aux_spec (N.size_nat n) n []) as (ds & Hds & Hspec).
  - destruct n as [|p]; [cbn; lia|]. cbn [N.size_nat Z.of_N].
    pose proof (proj2 (Zpower2_Psize (Pos.size_nat p) p) (le_n _)) as H.
    apply (Z.lt_le_trans _ _ _ H). transitivity (10 ^ Z.of_nat (Pos.size_nat p))%Z.
    + apply Z.pow_le_mono_l; lia.
    + apply Z.pow_le_mono_r; lia.
  - unfold n_repr. rewrite Hds, app_nil_r. exact Hspec.
Qed.

(** [str(z)] holds only [-] and ASCII digits. *)
Lemma z_repr_no c z : c <> 45%N -> ~ (48 <= c <= 57)%N -> c ∉ z_repr z.
Proof.
  intros H45 Hd. destruct (n_repr_spec (Z.to_N (if (z <? 0)%Z then - z else z))) as (_ & Hdig & _).
  unfold z_repr. intros Hin. assert (Hin' : c ∈ n_repr (Z.to_N (if (z <? 0)%Z then - z else z))).
  { destruct (z <? 0)%Z; [by apply elem_of_cons in Hin as [|]|done]. }
  eapply Forall_forall in Hdig; [|exact Hin']. apply bool_decide_eq_true in Hdig. lia.
Qed.

(** ** Slicing *)

Lemma take_min {A} k (l : list A) : take k l = take (min k (length l)) l.
Proof. rewrite <- take_take. f_equal. by rewrite take_ge. Qed.

(** A slice with bounds [0 <= i <= j] is [l[i:j]] read as [take]/[drop]. *)
Lemma py_slice_nonneg {A} (l : list A) i j :
  (0 <= i <= j)%Z -> l ⟦ i ∶ j ⟧ = take (Z.to_nat (j - i)) (drop (Z.to_nat i) l).
Proof.
  intros Hij. unfold py_slice, slice_bound.
  rewrite (proj2 (Z.ltb_ge i 0)), (proj2 (Z.ltb_ge j 0)) by lia.
  destruct (Z.le_gt_cases (Z.of_nat (length l)) i) as [Hn|Hn].
  - rewrite !Z.min_r by lia. rewrite !drop_ge by lia. by rewrite !take_nil.
  - rewrite (Z.min_l i) by lia. rewrite take_min, (take_min (Z.to_nat (j - i))), length_drop. f_equal. lia.
Qed.

(** Negative bounds count from the end. *)
Lemma py_slice_neg {A} (l : list A) i j :
  (i < 0)%Z -> (j < 0)%Z ->
  l ⟦ i ∶ j ⟧ = l ⟦ Z.max 0 (i + Z.of_nat (length l)) ∶ Z.max 0 (j + Z.of_nat (length l)) ⟧.
Proof.
  intros Hi Hj. unfold py_slice, slice_bound.
  repeat match goal with |- context [(?x <? 0)%Z] => destruct (Z.ltb_spec x 0) end; try lia.
  f_equal; f_equal; lia.
Qed.

(** A slice whose bounds are in order holds at most [j - i] elements,
    whatever their signs. *)
Lemma length_py_slice {A} (l : list A) i j :
  (i <= j)%Z -> (length (l ⟦ i ∶ j ⟧) <= Z.to_nat (j - i))%nat.
Proof.
  intros Hij. unfold py_slice, slice_bound. rewrite length_take.
  repeat match goal with |- context [(?x <? 0)%Z] => destruct (Z.ltb_spec x 0) end; lia.
Qed.

Lemma py_slice_sublist {A} (l : list A) i j : l ⟦ i ∶ j ⟧ `sublist_of` l.
Proof. unfold py_slice. etrans; [apply sublist_take | apply sublist_drop]. Qed.

Lemma elem_of_py_slice {A} (l : list A) i j x : x ∈ l ⟦ i ∶ j ⟧ -> x ∈ l.
Proof.
  unfold py_slice. intros (k & Hk & _)%elem_of_take. rewrite lookup_drop in Hk.
  by eapply list_elem_of_lookup_2.
Qed.

(** What holds of a list holds of its filtered sublist. *)
Lemma Forall_filter_sub {A} (P : A -> Prop) `{!forall x, Decision (P x)} (Q : A -> Prop) (l : list A) :
  Forall Q l -> Forall Q (filter P l).
Proof. rewrite !Forall_forall. intros HQ x [_ Hx]%list_elem_of_filter. by apply HQ. Qed.

(** [filter] keeps a list whose elements all pass. *)
Lemma filter_all {A} (P : A -> Prop) `{!forall x, Decision (P x)} (l : list A) : Forall P l -> filter P l = l.
Proof. induction 1 as [|x l Hx _ IH]; [done|]. by rewrite filter_cons_True, IH. Qed.

(** [filter] drops a list whose elements all fail. *)
Lemma filter_none {A} (P : A -> Prop) `{!forall x, Decision (P x)} (l : list A) : Forall (fun x => ~ P x) l -> filter P l = [].
Proof. induction 1 as [|x l Hx _ IH]; [done|]. by rewrite filter_cons_False. Qed.

(** Removing the suffix of a list without duplicates leaves its prefix. *)
Lemma filter_drop_NoDup {A} `{!EqDecision A} k (l : list A) : NoDup l -> filter (fun m => m ∉ drop k l) l = take k l.
Proof.
  intros Hnd. pose proof Hnd as Hd. rewrite <- (take_drop k l) in Hd. apply NoDup_app in Hd as (_ & Hdisj & _).
  rewrite <- (take_drop k l) at 1. rewrite filter_app, filter_all, filter_none, app_nil_r; [done | |].
  - apply Forall_forall. intros x Hx Hn. exact (Hn Hx).
  - apply Forall_forall. intros x Hx. by apply Hdisj.
Qed.


(** [omap] keeps a list duplicate-free when [f] gives each result for
    one element only. *)
Lemma NoDup_omap_inj {A B} (f : A -> option B) (l : list A) :
  NoDup l -> (forall x y b, x ∈ l -> y ∈ l -> f x = Some b -> f y = Some b -> x = y) -> NoDup (omap f l).
Proof.
  induction 1 as [|x l Hx Hl IH]; intros Hinj; [constructor|]. cbn [omap list_omap].
  assert (IH' : NoDup (omap f l)) by (apply IH; intros; eapply Hinj; eauto; set_solver).
  destruct (f x) as [b|] eqn:Hfx; [|done]. constructor; [|done].
  intros (y & Hy & Hfy)%list_elem_of_omap.
  assert (x = y) as -> by (eapply Hinj; eauto; set_solver). contradiction.
Qed.

(** [str(n)] has at most one digit more than [n] has bits. *)
Lemma length_digits_aux f n acc : (length (digits_aux f n acc) <= f + length acc)%nat.
Proof.
  revert n acc. induction f as [|f IH]; intros n acc; [done|]. cbn [digits_aux].
  destruct (n <? 10)%N; cbn [length]; [lia|]. specialize (IH (n / 10)%N ((48 + n mod 10)%N :: acc)). cbn in IH. lia.
Qed.

Lemma length_n_repr_bits n k : (Z.of_N n < 2 ^ Z.of_nat k)%Z -> (length (n_repr n) <= S k)%nat.
Proof.
  intros Hn. unfold n_repr. pose proof (length_digits_aux (S (N.size_nat n)) n []) as H. cbn [length] in H.
  destruct n as [|p]; [cbn; lia|]. cbn [N.size_nat] in *.
  pose proof (proj1 (Zpower2_Psize k p) Hn). lia.
Qed.

(** ** [mapM] in the result monad *)

Lemma mapM_res_ext {A B} (f g : A -> res B) (xs : list A) :
  (forall x, x ∈ xs -> f x = g x) -> mapM f xs = mapM g xs.
Proof.
  induction xs as [|x xs IH]; intros Hfg; [done|]. cbn.
  rewrite (Hfg x) by (apply elem_of_cons; by left). rewrite IH; [done|].
  intros y Hy. apply Hfg. apply elem_of_cons. by right.
Qed.

Lemma mapM_res_ok {A B} (f : A -> res B) (xs : list A) :
  (forall x, x ∈ xs -> exists y, f x = Ok y) -> exists ys, mapM f xs = Ok ys.
Proof.
  induction xs as [|x xs IH]; intros Hf; [by exists []|]. cbn.
  destruct (Hf x) as [y ->]; [apply elem_of_cons; by left|].
  destruct IH as [ys ->]; [intros z Hz; apply Hf; apply elem_of_cons; by right|].
  by exists (y :: ys).
Qed.

(** ** What a computation can return

    [yields P c]: every value [c] returns satisfies [P], whatever the
    state and whatever exceptions it may raise instead. *)
Definition yields {S A} (P : A -> Prop) (c : PyM S A) : Prop :=
  forall s a s', c s = (Ok a, s') -> P a.

Section yields.
Context {S : Type}.

Lemma yields_ret {A} (P : A -> Prop) a : P a -> yields (S:=S) P (mret a).
Proof. intros Ha s a' s' [= <- _]. done. Qed.

Lemma yields_raise {A} (P : A -> Prop) e : yields (S:=S) P (raise e).
Proof. by intros s a s'. Qed.

Lemma yields_gets {A} (P : A -> Prop) (f : S -> A) : (forall s, P (f s)) -> yields P (gets f).
Proof. intros Hf s a s' [= <- _]. apply Hf. Qed.

Lemma yields_bind {A B} (P : B -> Prop) (c : PyM S A) (f : A -> PyM S B) :
  (forall a, yields P (f a)) -> yields P (c ≫= f).
Proof.
  intros Hf s b s' Hrun. unfold mbind, PyM_bind in Hrun.
  destruct (c s) as [[a|e] s1]; [by eapply Hf | done].
Qed.

Lemma yields_bind_post {A B} (Q : A -> Prop) (P : B -> Prop) (c : PyM S A) (f : A -> PyM S B) :
  yields Q c -> (forall a, Q a -> yields P (f a)) -> yields P (c ≫= f).
Proof.
  intros Hc Hf s b s' Hrun. unfold mbind, PyM_bind in Hrun.
  destruct (c s) as [[a|e] s1] eqn:E; [|done]. eapply Hf; [by eapply Hc | exact Hrun].
Qed.

Lemma yields_mapM {A B} (P : B -> Prop) (f : A -> PyM S B) xs :
  (forall x, yields P (f x)) -> yields (Forall P) (mapM f xs).
Proof.
  intros Hf. induction xs as [|x xs IH]; intros s a s' Hrun; cbn [mapM] in Hrun.
  - injection Hrun as <- _. constructor.
  - unfold mbind, PyM_bind, mret, PyM_ret in Hrun.
    destruct (f x s) as [[y|e] s1] eqn:E1; [|done].
    destruct (mapM f xs s1) as [[ys|e] s2] eqn:E2; [|done].
    injection Hrun as <- _. constructor; [by eapply Hf | by eapply IH].
Qed.

Lemma yields_weaken {A} (P Q : A -> Prop) (c : PyM S A) : yields P c -> (forall a, P a -> Q a) -> yields Q c.
Proof. intros Hc HPQ s a s' Hrun. by eapply HPQ, Hc. Qed.
End yields.

#[export] Hint Resolve yields_ret yields_raise : py.
