(* ===== verification/PyInt.v ===== *)
(** * [int(s)] on a [str]

    Both programs turn request or command-line text into integers with
    [int]: Flask's [request.args.get(key, default=..., type=int)] in the
    gallery's [index], and argparse's [type=int] for its [delete_flag].
    This file models CPython 3.11's [PyLong_FromUnicodeObject] for base
    10: [_PyUnicode_TransformDecimalAndSpaceToASCII] first maps Unicode
    white space to a space and Unicode decimal digits to ASCII digits
    (and cuts the text at the first other non-ASCII character), then
    [PyLong_FromString] skips ASCII white space, reads a sign, digits with
    single underscores between them, trailing white space, and refuses
    more than [sys.get_int_max_str_digits()] = 4300 digits.  [None] is
    the [ValueError]. *)

From Stdlib Require Import String.
From S2P Require Import Prelude.

(** ** Unicode data (Unicode 14.0, the database of CPython 3.11) *)

(** The code points [c >= 127] with [c.isspace()]. *)
Definition unicode_spaces : list N :=
  [133; 160; 5760; 8192; 8193; 8194; 8195; 8196; 8197; 8198; 8199; 8200; 8201; 8202;
   8232; 8233; 8239; 8287; 12288]%N.

(** The digit zero of each of the 66 blocks of ten decimal digits. *)
Definition decimal_zeros : list N :=
  [48; 1632; 1776; 1984; 2406; 2534; 2662; 2790; 2918; 3046; 3174; 3302; 3430;
   3558; 3664; 3792; 3872; 4160; 4240; 6112; 6160; 6470; 6608; 6784; 6800;
   6992; 7088; 7232; 7248; 42528; 43216; 43264; 43472; 43504; 43600; 44016;
   65296; 66720; 68912; 69734; 69872; 69942; 70096; 70384; 70736; 70864;
   71248; 71360; 71472; 71904; 72016; 72784; 73040; 73120; 92768; 92864;
   93008; 120782; 120792; 120802; 120812; 120822; 123200; 123632; 125264;
   130032]%N.

(** [Py_UNICODE_TODECIMAL]. *)
Definition to_decimal (c : N) : option N :=
  (fun z => c - z)%N <$> find (fun z => bool_decide (z <= c < z + 10)%N) decimal_zeros.

(** ** [_PyUnicode_TransformDecimalAndSpaceToASCII] *)

Fixpoint to_ascii_digits (s : pystr) : pystr :=
  match s with
  | [] => []
  | c :: s' =>
      if (c <? 127)%N then c :: to_ascii_digits s'
      else if bool_decide (c ∈ unicode_spaces) then 32%N :: to_ascii_digits s'
      else match to_decimal c with
           | Some d => (48 + d)%N :: to_ascii_digits s'
           | None => [63%N]        (* '?', and the text ends here *)
           end
  end.

(** ** [PyLong_FromString], base 10 *)

(** [Py_ISSPACE] *)
Definition c_isspace (c : N) : bool := bool_decide (c = 32%N \/ (9 <= c <= 13)%N).

Fixpoint skip_spaces (s : pystr) : pystr :=
  match s with
  | c :: s' => if c_isspace c then skip_spaces s' else s
  | [] => []
  end.

(** The scan of digits and underscores: the value read so far, the
    number of digits, and whether the previous character was [_]; [None]
    is a doubled or trailing underscore. *)
Fixpoint scan_digits (prev_us : bool) (acc : Z) (nd : nat) (s : pystr) : option (Z * nat * pystr) :=
  match s with
  | c :: s' =>
      if is_digit c then scan_digits false (acc * 10 + Z.of_N (c - 48))%Z (S nd) s'
      else if bool_decide (c = 95%N) then (if prev_us then None else scan_digits true acc nd s')
      else if prev_us then None else Some (acc, nd, s)
  | [] => if prev_us then None else Some (acc, nd, [])
  end.

Definition max_str_digits : nat := 4300.

(** The optional sign. *)
Definition read_sign (s : pystr) : bool * pystr :=
  match s with
  | c :: t =>
      if bool_decide (c = 43%N) then (false, t)
      else if bool_decide (c = 45%N) then (true, t)
      else (false, s)
  | [] => (false, [])
  end.

Definition starts_with_underscore (s : pystr) : bool :=
  match s with c :: _ => bool_decide (c = 95%N) | [] => false end.

Definition long_from_string (s : pystr) : option Z :=
  let '(neg, s2) := read_sign (skip_spaces s) in
  if starts_with_underscore s2 then None
  else
    match scan_digits false 0 0 s2 with
    | Some (v, nd, rest) =>
        if bool_decide (nd = 0) then None
        else if bool_decide (max_str_digits < nd) then None
        else match skip_spaces rest with
             | [] => Some (if neg then (- v)%Z else v)
             | _ => None
             end
    | None => None
    end.

(** [int(s)] for a [str] [s]. *)
Definition py_int (s : pystr) : option Z := long_from_string (to_ascii_digits s).

(** ** Lemmas *)

Lemma to_ascii_digits_ascii s : Forall (fun c => (c < 127)%N) s -> to_ascii_digits s = s.
Proof. induction 1 as [|c s Hc _ IH]; [done|]. cbn. destruct (N.ltb_spec c 127); [by rewrite IH | lia]. Qed.

Lemma digit_ascii c : is_digit c = true -> (c < 127)%N.
Proof. unfold is_digit. rewrite bool_decide_eq_true. lia. Qed.

Lemma digit_plain c :
  is_digit c = true -> c_isspace c = false /\ c <> 43%N /\ c <> 45%N /\ c <> 95%N.
Proof.
  unfold is_digit, c_isspace. rewrite bool_decide_eq_true. intros H.
  split; [apply bool_decide_eq_false; lia | lia].
Qed.

(** A run of digits followed by a character that is neither a digit nor
    an underscore, or by the end of the text. *)
Lemma scan_digits_run ds rest acc nd :
  Forall (fun c => is_digit c = true) ds ->
  (forall c t, rest = c :: t -> is_digit c = false /\ c <> 95%N) ->
  scan_digits false acc nd (ds ++ rest) = Some (dval acc ds, (nd + length ds)%nat, rest).
Proof.
  intros Hds Hrest. revert acc nd. induction Hds as [|c ds Hc _ IH]; intros acc nd; cbn [app dval length].
  - rewrite Nat.add_0_r. destruct rest as [|c t]; [done|].
    destruct (Hrest c t eq_refl) as [Hd Hu]. cbn. rewrite Hd, bool_decide_false by done. done.
  - cbn [scan_digits]. rewrite Hc, IH. by rewrite Nat.add_succ_r.
Qed.

Lemma n_repr_cons n : exists d ds, n_repr n = d :: ds /\ is_digit d = true.
Proof.
  destruct (n_repr_spec n) as (Hne & Hdig & _). destruct (n_repr n) as [|d ds]; [done|].
  exists d, ds. split; [done|]. by inversion Hdig.
Qed.

(** [int] reads a nonempty run of digits after an optional sign, unless
    it is longer than the digit limit. *)
Lemma long_from_string_run (neg : bool) ds :
  ds <> [] -> Forall (fun c => is_digit c = true) ds ->
  long_from_string ((if neg then [45%N] else []) ++ ds) =
  if bool_decide (max_str_digits < length ds) then None
  else Some (if neg then (- dval 0 ds)%Z else dval 0 ds).
Proof.
  intros Hne Hdig. destruct ds as [|d ds']; [done|].
  assert (Hd : is_digit d = true) by (by inversion Hdig).
  destruct (digit_plain d Hd) as (Hsp & H43 & H45 & H95).
  unfold long_from_string.
  assert (Hsign : read_sign (skip_spaces ((if neg then [45%N] else []) ++ d :: ds')) = (neg, d :: ds')).
  { destruct neg; cbn [app skip_spaces].
    - unfold c_isspace. rewrite bool_decide_false by lia. cbn. by rewrite bool_decide_false, bool_decide_true.
    - rewrite Hsp. cbn. by rewrite !bool_decide_false. }
  rewrite Hsign. cbn [starts_with_underscore]. rewrite bool_decide_false by done.
  rewrite <- (app_nil_r (d :: ds')), scan_digits_run by (done || by intros c t ?).
  rewrite app_nil_r. cbn [skip_spaces]. rewrite (bool_decide_false (_ = 0%nat)) by (cbn; lia).
  by rewrite Nat.add_0_l.
Qed.

(** [int(str(z))] is [z] within the digit limit. *)
Lemma int_str_roundtrip z :
  (length (n_repr (Z.abs_N z)) <= max_str_digits)%nat -> py_int (z_repr z) = Some z.
Proof.
  intros Hlen. destruct (n_repr_spec (Z.abs_N z)) as (Hne & Hdig & Hval).
  assert (Hrun : forall neg : bool, py_int ((if neg then [45%N] else []) ++ n_repr (Z.abs_N z)) =
            Some (if neg then (- Z.of_N (Z.abs_N z))%Z else Z.of_N (Z.abs_N z))).
  { intros neg. unfold py_int. rewrite to_ascii_digits_ascii.
    - rewrite long_from_string_run by done. rewrite bool_decide_false by lia. rewrite Hval. by destruct neg.
    - apply Forall_app. split; [destruct neg; repeat constructor; cbn; lia|].
      eapply Forall_impl; [exact Hdig | apply digit_ascii]. }
  unfold z_repr. destruct (Z.ltb_spec z 0) as [Hz|Hz].
  - replace (Z.to_N (- z)) with (Z.abs_N z) by lia. pose proof (Hrun true) as H. cbn [app] in H. rewrite H. f_equal. lia.
  - replace (Z.to_N z) with (Z.abs_N z) by lia. pose proof (Hrun false) as H. cbn [app] in H. rewrite H. f_equal. lia.
Qed.

(** More than 4300 digits are refused ([ValueError]). *)
Theorem py_int_digit_limit ds :
  Forall (fun c => is_digit c = true) ds -> (max_str_digits < length ds)%nat -> py_int ds = None.
Proof.
  intros Hdig Hlen. unfold py_int. rewrite to_ascii_digits_ascii by (eapply Forall_impl; [exact Hdig | apply digit_ascii]).
  rewrite <- (app_nil_l ds) at 1. change (@nil N) with (if false then [45%N] else []).
  rewrite long_from_string_run by (done || (intros ->; cbn in Hlen; lia)). by rewrite bool_decide_true.
Qed.


Lemma py_int_digit_limit_witness :
  (Forall (fun c => is_digit c = true) (replicate 4301 49%N) /\ (max_str_digits < length (replicate 4301 49%N))%nat) /\
  py_int (replicate 4301 49%N) = None.
Proof.
  assert (Hd : Forall (fun c => is_digit c = true) (replicate 4301 49%N)) by (apply Forall_replicate; reflexivity).
  assert (Hl : (max_str_digits < length (replicate 4301 49%N))%nat) by (rewrite length_replicate; cbv; lia).
  split; [split; assumption|]. apply py_int_digit_limit; assumption.
Defined.

(** [int(str(z))] is [z], for every integer of at most 4300 digits:
    the text the pagination links carry is read back as the number
    written into it. *)
Theorem py_int_z_repr z :
  (length (n_repr (Z.abs_N z)) <= max_str_digits)%nat -> py_int (z_repr z) = Some z.
Proof. exact (int_str_roundtrip z). Qed.

Lemma py_int_z_repr_witness :
  (length (n_repr (Z.abs_N (-1234))) <= max_str_digits)%nat /\ py_int (z_repr (-1234)) = Some (-1234)%Z.
Proof. split; [vm_compute; lia | apply py_int_z_repr; vm_compute; lia]. Defined.

(** Decimal digits of other scripts and Unicode spaces are accepted:
    [int("٣٤")] is 34, [int("　 12 ")] is 12, and
    underscores group digits. *)
Example py_int_unicode :
  py_int [1635; 1636]%N = Some 34%Z /\ py_int [12288; 32; 49; 50; 8232]%N = Some 12%Z /\
  py_int (ps "1_000") = Some 1000%Z /\ py_int (ps "1__0") = None /\ py_int (ps "_1") = None /\
  py_int (ps "1_") = None /\ py_int [28; 53]%N = None.
Proof. vm_compute. repeat split. Qed.

(** Every 64-bit integer is within the digit limit. *)
Lemma py_int_z_repr_small z : (Z.abs z < 2 ^ 64)%Z -> py_int (z_repr z) = Some z.
Proof.
  intros Hz. apply int_str_roundtrip. unfold max_str_digits.
  transitivity 65%nat; [|lia]. apply length_n_repr_bits. cbn [Z.of_nat Pos.of_succ_nat Pos.succ]. lia.
Qed.
