(* ===== verification/PyDiv.v ===== *)
(** * [a / b] on two [int]s, and [math.ceil] of the result

    Python's true division of two integers returns a [float]: CPython's
    [long_true_divide] rounds the exact quotient to the nearest double
    (ties to even), with subnormal results below [2^-1022] and [0.0]
    below half the least subnormal; a quotient of [2^1024] or more
    raises [OverflowError], a zero divisor [ZeroDivisionError].
    [math.ceil] of a finite double is the integer above it.  A double
    is written [m * 2^e] with integers [m] and [e]. *)

From S2P Require Import Prelude.

Open Scope Z_scope.

(** [floor(log2(n / d))] for [n, d > 0], from the bit lengths. *)
Definition log2_div (n d : Z) : Z :=
  let t0 := Z.log2 n - Z.log2 d in
  if d * 2 ^ Z.max 0 t0 <=? n * 2 ^ Z.max 0 (- t0) then t0 else t0 - 1.

(** The exponent of the last mantissa bit: 53 bits for normal numbers,
    [2^-1074] for subnormals. *)
Definition quot_exp (n d : Z) : Z := Z.max (log2_div n d - 52) (-1074).

(** The double nearest to [n / d] ([n, d > 0]), ties to even. *)
Definition round_div (n d : Z) : Z * Z :=
  let e := quot_exp n d in
  let num := n * 2 ^ Z.max 0 (- e) in
  let den := d * 2 ^ Z.max 0 e in
  let m0 := num / den in
  let r := num mod den in
  ((if (den <? 2 * r) || ((2 * r =? den) && Z.odd m0) then m0 + 1 else m0), e).

(** [a / b] *)
Definition true_div (a b : Z) : res (Z * Z) :=
  if b =? 0 then Raise ZeroDivisionError
  else if a =? 0 then Ok (0, 0)
  else let '(m, e) := round_div (Z.abs a) (Z.abs b) in
       if (0 <=? e) && (2 ^ 1024 <=? m * 2 ^ e) then Raise OverflowError
       else Ok (if a * b <? 0 then - m else m, e).

(** [math.ceil(x)] of the double [m * 2^e]. *)
Definition float_ceil (x : Z * Z) : Z :=
  let '(m, e) := x in
  if 0 <=? e then m * 2 ^ e else - (- m / 2 ^ (- e)).

(** [math.ceil(a / b)] *)
Definition ceil_div (a b : Z) : res Z := x ← true_div a b; mret (float_ceil x).

(** The ceiling of the exact quotient. *)
Definition exact_ceil (a b : Z) : Z := - (- a / b).

(** ** Lemmas *)

Lemma ceil_div_zero b : b <> 0 -> ceil_div 0 b = Ok 0.
Proof. intros Hb. unfold ceil_div, true_div. by rewrite (proj2 (Z.eqb_neq b 0)). Qed.

Lemma exact_ceil_mul k l : 0 < l -> exact_ceil (k * l) l = k.
Proof. intros Hl. unfold exact_ceil. replace (- (k * l)) with (- k * l) by ring. rewrite Z.div_mul by lia. lia. Qed.

Lemma exact_ceil_spec n l :
  0 <= n -> 0 < l -> 0 <= exact_ceil n l /\ n <= exact_ceil n l * l /\ (exact_ceil n l - 1) * l < n.
Proof.
  intros Hn Hl. unfold exact_ceil. pose proof (Z.mul_div_le (- n) l Hl). pose proof (Z.div_le_upper_bound (- n) l 0 Hl).
  pose proof (Z.mod_pos_bound (- n) l Hl). pose proof (Z.div_mod (- n) l ltac:(lia)). nia.
Qed.

(** [2^t <= n / d] for the computed [t], scaled to integers. *)
Lemma log2_div_le n d :
  0 < n -> 0 < d -> d * 2 ^ Z.max 0 (log2_div n d) <= n * 2 ^ Z.max 0 (- log2_div n d).
Proof.
  intros Hn Hd. unfold log2_div. set (t0 := Z.log2 n - Z.log2 d).
  destruct (Z.leb_spec (d * 2 ^ Z.max 0 t0) (n * 2 ^ Z.max 0 (- t0))) as [H|H]; [done|].
  destruct (Z.log2_spec n Hn) as [Hn1 _]. destruct (Z.log2_spec d Hd) as [_ Hd1].
  pose proof (Z.log2_nonneg n). pose proof (Z.log2_nonneg d).
  assert (E : 2 ^ Z.log2 n * 2 ^ Z.max 0 (- (t0 - 1)) = 2 ^ (Z.log2 d + 1) * 2 ^ Z.max 0 (t0 - 1)).
  { rewrite <- !Z.pow_add_r by lia. f_equal. lia. }
  apply Z.lt_le_incl. eapply Z.le_lt_trans with (d * 2 ^ Z.max 0 (t0 - 1)); [lia|].
  eapply Z.lt_le_trans with (2 ^ (Z.log2 d + 1) * 2 ^ Z.max 0 (t0 - 1));
    [apply Z.mul_lt_mono_pos_r; [apply Z.pow_pos_nonneg; lia | exact Hd1]|].
  rewrite <- E. apply Z.mul_le_mono_nonneg_r; [apply Z.pow_nonneg; lia | exact Hn1].
Qed.

(** Rounding never exceeds an integer above the quotient. *)
Lemma round_le_ceil n d E :
  0 <= n -> 0 < d -> 0 <= E ->
  (if (d <? 2 * ((n * 2 ^ E) mod d)) || ((2 * ((n * 2 ^ E) mod d) =? d) && Z.odd ((n * 2 ^ E) / d))
   then (n * 2 ^ E) / d + 1 else (n * 2 ^ E) / d) <= exact_ceil n d * 2 ^ E.
Proof.
  intros Hn Hd HE. pose proof (exact_ceil_spec n d Hn Hd) as (_ & Hc & _).
  assert (HP : 0 < 2 ^ E) by (apply Z.pow_pos_nonneg; lia).
  set (N := n * 2 ^ E). pose proof (Z.div_mod N d ltac:(lia)) as Hdm. pose proof (Z.mod_pos_bound N d Hd) as Hmb.
  assert (HN : N <= exact_ceil n d * 2 ^ E * d) by (unfold N; nia).
  destruct (_ || _) eqn:Hup.
  - assert (Hr : 0 < N mod d).
    { apply orb_true_iff in Hup as [Hu|Hu]; [apply Z.ltb_lt in Hu; lia|].
      apply andb_true_iff in Hu as [Hu _]. apply Z.eqb_eq in Hu. lia. }
    nia.
  - nia.
Qed.

(** With enough mantissa bits the rounded quotient stays above the
    integer below the quotient. *)
Lemma round_gt_pred n d E :
  0 < n -> 0 < d -> 0 <= E -> d <= 2 ^ E ->
  (exact_ceil n d - 1) * 2 ^ E < (n * 2 ^ E) / d.
Proof.
  intros Hn Hd HE HdE. pose proof (exact_ceil_spec n d ltac:(lia) Hd) as (_ & _ & Hc).
  set (K := exact_ceil n d) in *. set (P := 2 ^ E) in *.
  assert (Hk : (K - 1) * P * d + d <= n * P) by nia.
  apply Z.lt_le_trans with ((K - 1) * P + 1); [lia|]. apply Z.div_le_lower_bound; lia.
Qed.

Lemma quot_exp_nonpos n d : 0 < n -> 0 < d -> n < 2 ^ 53 * d -> quot_exp n d <= 0.
Proof.
  intros Hn Hd Hq. pose proof (log2_div_le n d Hn Hd) as Hle. unfold quot_exp.
  set (t := log2_div n d) in *. destruct (Z.le_gt_cases t 52) as [Ht|Ht]; [lia|].
  rewrite (Z.max_r 0 t), (Z.max_l 0 (- t)), Z.pow_0_r, Z.mul_1_r in Hle by lia.
  assert (2 ^ 53 <= 2 ^ t) by (apply Z.pow_le_mono_r; lia). nia.
Qed.

Lemma quot_exp_room n d : 0 < n <= 2 ^ 52 -> 0 < d <= 2 ^ 1074 -> d <= 2 ^ (- quot_exp n d).
Proof.
  intros Hn [Hd Hd1]. pose proof (log2_div_le n d ltac:(lia) Hd) as Hle. unfold quot_exp.
  set (t := log2_div n d) in *. destruct (Z.le_gt_cases (t - 52) (-1074)) as [Hc|Hc].
  - rewrite Z.max_r by done. exact Hd1.
  - clear Hd1. rewrite Z.max_l by lia. replace (- (t - 52)) with (52 - t) by lia.
    destruct (Z.le_gt_cases 0 t) as [Ht|Ht].
    + rewrite (Z.max_r 0 t), (Z.max_l 0 (- t)), Z.pow_0_r, Z.mul_1_r in Hle by lia.
      destruct (Z.le_gt_cases t 52) as [Ht'|Ht'].
      * replace (2 ^ 52) with (2 ^ (52 - t) * 2 ^ t) in Hn by (rewrite <- Z.pow_add_r by lia; f_equal; lia).
        assert (0 < 2 ^ t) by (apply Z.pow_pos_nonneg; lia). nia.
      * assert (2 ^ 53 <= 2 ^ t) by (apply Z.pow_le_mono_r; lia).
        assert (2 ^ 53 = 2 * 2 ^ 52) by reflexivity. nia.
    + rewrite (Z.max_l 0 t), (Z.max_r 0 (- t)), Z.pow_0_r, Z.mul_1_r in Hle by lia.
      replace (2 ^ (52 - t)) with (2 ^ 52 * 2 ^ (- t)) by (rewrite <- Z.pow_add_r by lia; f_equal; lia).
      assert (0 < 2 ^ (- t)) by (apply Z.pow_pos_nonneg; lia). nia.
Qed.

(** [math.ceil] of a double below [2^53] whose rounding error is less
    than the distance to the integer below the quotient. *)
Lemma float_ceil_between m E K :
  0 <= E -> (K - 1) * 2 ^ E < m <= K * 2 ^ E -> float_ceil (m, - E) = K.
Proof.
  intros HE Hm. assert (HP : 0 < 2 ^ E) by (apply Z.pow_pos_nonneg; lia). unfold float_ceil.
  destruct (Z.leb_spec 0 (- E)) as [H0|H0].
  - replace E with 0 in * by lia. rewrite Z.pow_0_r in *. rewrite Z.mul_1_r. lia.
  - rewrite Z.opp_involutive. enough (- m / 2 ^ E = - K) by lia.
    symmetry. apply Z.div_unique with (- m + K * 2 ^ E); [lia | ring].
Qed.

(** The ceiling of the double quotient never exceeds the exact ceiling
    while the quotient is below [2^53]. *)
Lemma round_div_spec n d :
  0 < n -> 0 < d -> n < 2 ^ 53 * d ->
  exists m E, round_div n d = (m, - E) /\ 0 <= E /\ (n * 2 ^ E) / d <= m <= exact_ceil n d * 2 ^ E.
Proof.
  intros Hn Hd Hq. pose proof (quot_exp_nonpos n d Hn Hd Hq) as He.
  set (E := - quot_exp n d). unfold round_div. fold (quot_exp n d).
  replace (quot_exp n d) with (- E) by (unfold E; lia).
  rewrite ?Z.opp_involutive. rewrite (Z.max_r 0 E), (Z.max_l 0 (- E)), Z.pow_0_r, Z.mul_1_r by lia.
  eexists _, E. split; [reflexivity|]. split; [lia|]. split.
  - destruct (_ || _); lia.
  - apply round_le_ceil; lia.
Qed.

Lemma exact_ceil_small n d : 0 < n -> 0 < d -> n < 2 ^ 53 * d -> exact_ceil n d <= 2 ^ 53.
Proof. intros Hn Hd Hq. pose proof (exact_ceil_spec n d ltac:(lia) Hd) as (_ & _ & Hc). nia. Qed.

(** Below [2^53] the quotient neither overflows nor exceeds the exact
    ceiling. *)
Lemma ceil_div_le a b :
  0 < a -> 0 < b -> a < 2 ^ 53 * b -> exists k, ceil_div a b = Ok k /\ 0 <= k <= exact_ceil a b.
Proof.
  intros Ha Hb Hq. destruct (round_div_spec a b Ha Hb Hq) as (m & E & Hr & HE & Hlo & Hhi).
  pose proof (exact_ceil_small a b Ha Hb Hq) as Hk.
  assert (HP : 0 < 2 ^ E) by (apply Z.pow_pos_nonneg; lia).
  assert (Hm0 : 0 <= m) by (pose proof (Z.div_pos (a * 2 ^ E) b ltac:(nia) Hb); lia).
  unfold ceil_div, true_div. rewrite (proj2 (Z.eqb_neq b 0)), (proj2 (Z.eqb_neq a 0)) by lia.
  rewrite !Z.abs_eq by lia. rewrite Hr.
  assert (Hov : ((0 <=? - E) && (2 ^ 1024 <=? m * 2 ^ (- E))) = false).
  { destruct (Z.leb_spec 0 (- E)); [|done]. replace E with 0 in * by lia. rewrite Z.pow_0_r in *.
    assert (2 ^ 53 < 2 ^ 1024) by (apply Z.pow_lt_mono_r; lia). apply Z.leb_gt. lia. }
  rewrite Hov. rewrite (proj2 (Z.ltb_ge (a * b) 0)) by nia. cbn.
  eexists. split; [reflexivity|]. unfold float_ceil.
  destruct (Z.leb_spec 0 (- E)) as [H0|H0].
  - replace E with 0 in * by lia. rewrite Z.pow_0_r in *. lia.
  - rewrite Z.opp_involutive. split.
    + apply Z.opp_nonneg_nonpos, Z.div_le_upper_bound; lia.
    + enough (- (exact_ceil a b) <= - m / 2 ^ E) by lia. apply Z.div_le_lower_bound; lia.
Qed.

(** Up to [2^52] files and limits up to [2^1074], [math.ceil(total /
    limit)] is the exact ceiling. *)
Lemma ceil_div_exact a b : 0 <= a <= 2 ^ 52 -> 0 < b <= 2 ^ 1074 -> ceil_div a b = Ok (exact_ceil a b).
Proof.
  intros Ha Hb. destruct (Z.eq_dec a 0) as [->|Ha0].
  { unfold ceil_div, true_div. rewrite (proj2 (Z.eqb_neq b 0)) by lia. reflexivity. }
  assert (Hq : a < 2 ^ 53 * b) by (assert (2 ^ 53 = 2 * 2 ^ 52) by reflexivity; nia).
  destruct (round_div_spec a b ltac:(lia) ltac:(lia) Hq) as (m & E & Hr & HE & Hlo & Hhi).
  pose proof (quot_exp_room a b ltac:(lia) Hb) as Hroom. destruct Hb as [Hb _].
  assert (HEq : E = - quot_exp a b).
  { unfold round_div in Hr. injection Hr as _ Hr. lia. }
  rewrite <- HEq in Hroom.
  pose proof (round_gt_pred a b E ltac:(lia) ltac:(lia) HE Hroom) as Hgt.
  pose proof (exact_ceil_small a b ltac:(lia) ltac:(lia) Hq) as Hk.
  unfold ceil_div, true_div. rewrite (proj2 (Z.eqb_neq b 0)), (proj2 (Z.eqb_neq a 0)) by lia.
  rewrite !Z.abs_eq by lia. rewrite Hr.
  assert (HP : 0 < 2 ^ E) by (apply Z.pow_pos_nonneg; lia).
  assert (Hov : ((0 <=? - E) && (2 ^ 1024 <=? m * 2 ^ (- E))) = false).
  { destruct (Z.leb_spec 0 (- E)); [|done]. replace E with 0 in * by lia. rewrite Z.pow_0_r in *.
    assert (2 ^ 53 < 2 ^ 1024) by (apply Z.pow_lt_mono_r; lia). apply Z.leb_gt. lia. }
  rewrite Hov. rewrite (proj2 (Z.ltb_ge (a * b) 0)) by nia. cbn. f_equal.
  apply float_ceil_between; lia.
Qed.

(** For a positive page count of at most [2^52] files, whatever the
    limit, the count [math.ceil] gives is the exact one: huge limits
    give [1] or [0]. *)
Lemma ceil_div_pos a b k : 0 < a <= 2 ^ 52 -> 0 < b -> ceil_div a b = Ok k -> 1 <= k -> k = exact_ceil a b.
Proof.
  intros Ha Hb Hk H1. destruct (Z.le_gt_cases b (2 ^ 1074)) as [Hs|Hs].
  - rewrite ceil_div_exact in Hk by lia. by injection Hk.
  - assert (H52 : 2 ^ 52 < 2 ^ 1074) by (apply Z.pow_lt_mono_r; lia).
    assert (Hq : a < 2 ^ 53 * b) by (assert (2 ^ 53 = 2 * 2 ^ 52) by reflexivity; lia).
    destruct (ceil_div_le a b ltac:(lia) Hb Hq) as (k' & Hk' & Hle). rewrite Hk in Hk'. injection Hk' as <-.
    pose proof (exact_ceil_spec a b ltac:(lia) Hb) as (_ & _ & Hc).
    assert (exact_ceil a b <= 1) by nia. lia.
Qed.

(** A limit beyond [2^1075] times the total underflows the quotient to
    [0.0]: [math.ceil] gives [0]. *)
Lemma ceil_div_underflow a b : 0 < a -> a * 2 ^ 1075 < b -> ceil_div a b = Ok 0.
Proof.
  intros Ha Hb. assert (HP : 0 < 2 ^ 1075) by (apply Z.pow_pos_nonneg; lia).
  assert (Hq : a < 2 ^ 53 * b).
  { assert (2 ^ 53 <= 2 ^ 1075) by (apply Z.pow_le_mono_r; lia). nia. }
  pose proof (quot_exp_nonpos a b Ha ltac:(nia) Hq) as He.
  assert (Hlo : -1074 <= quot_exp a b) by (unfold quot_exp; lia).
  set (E := - quot_exp a b) in *.
  assert (HPE : 0 < 2 ^ E) by (apply Z.pow_pos_nonneg; lia).
  assert (HEb : 2 * (a * 2 ^ E) < b).
  { assert (2 ^ E * 2 <= 2 ^ 1075).
    { replace (2 ^ E * 2) with (2 ^ (E + 1)) by (rewrite Z.pow_add_r by lia; ring). apply Z.pow_le_mono_r; lia. }
    nia. }
  unfold ceil_div, true_div. rewrite (proj2 (Z.eqb_neq b 0)), (proj2 (Z.eqb_neq a 0)) by lia.
  rewrite !Z.abs_eq by lia. unfold round_div. fold (quot_exp a b).
  replace (quot_exp a b) with (- E) by (unfold E; lia). rewrite ?Z.opp_involutive.
  rewrite (Z.max_r 0 E), (Z.max_l 0 (- E)), Z.pow_0_r, Z.mul_1_r by lia.
  rewrite Z.div_small, Z.mod_small by lia.
  rewrite (proj2 (Z.ltb_ge b (2 * (a * 2 ^ E)))) by lia. rewrite (proj2 (Z.eqb_neq (2 * (a * 2 ^ E)) b)) by lia.
  cbn [orb andb]. destruct (Z.leb_spec 0 (- E)) as [H0|H0].
  - replace E with 0 in * by lia. rewrite Z.mul_0_l.
    replace (2 ^ 1024 <=? 0) with false by (symmetry; apply Z.leb_gt, Z.pow_pos_nonneg; lia).
    cbn. by destruct (a * b <? 0).
  - cbn [andb]. rewrite (proj2 (Z.ltb_ge (a * b) 0)) by nia. cbn. rewrite (proj2 (Z.leb_gt 0 (- E))) by lia.
    rewrite Z.div_0_l; [done|]. apply Z.pow_nonzero; lia.
Qed.

(** [math.ceil(k * l / l)] is [k] while [k * l] stays below [2^52]. *)
Lemma ceil_div_mul k l : 0 <= k -> 0 < l -> k * l <= 2 ^ 52 -> ceil_div (k * l) l = Ok k.
Proof.
  intros Hk Hl Hkl. destruct (Z.eq_dec k 0) as [->|Hk0]; [by apply ceil_div_zero; lia|].
  assert (H52 : 2 ^ 52 <= 2 ^ 1074) by (apply Z.pow_le_mono_r; lia).
  rewrite ceil_div_exact by nia. by rewrite exact_ceil_mul.
Qed.
