(* ===== verification/PyObj.v ===== *)
(** * The Python object model shared by the handlers

    Values, the heap of dicts and lists, the item operations the code
    uses ([d[k]], [d[k] = v], [d.get(k, default)], truthiness), the two
    iterations of [get_live_data] ([for key in d], [for k, v in d.items()])
    with CPython's size check, and a walker over the object graph from
    which [repr] (here) and [json.dumps] ([Json]) are obtained. *)

From S2P Require Import Prelude.
From Stdlib Require Import String.
From stdpp Require Import gmap countable infinite.

(** ** Locations, values, objects *)

Record loc := Loc { loc_car : N }.

#[export] Instance loc_eq_dec : EqDecision loc.
Proof. solve_decision. Defined.

#[export] Instance loc_countable : Countable loc.
Proof. apply (inj_countable' loc_car Loc). by intros []. Defined.

#[export] Instance loc_infinite : Infinite loc.
Proof. apply (inj_infinite Loc (fun l => Some (loc_car l))). done. Defined.

(** The values [yaml.safe_load] produces, apart from floats, sets and
    [bytes] ([!!binary]).  [VOpaque str repr] is a [date] or a
    [datetime], given by the texts of its [str] and [repr]: always true,
    not iterable, with no JSON encoding. *)
Inductive pyval :=
  | VNone
  | VBool (b : bool)
  | VInt (z : Z)
  | VStr (s : pystr)
  | VOpaque (str_text repr_text : pystr)
  | VRef (l : loc).

#[export] Instance pyval_eq_dec : EqDecision pyval.
Proof. solve_decision. Defined.

(** A dict keeps its items in insertion order. *)
Inductive pyobj :=
  | ODict (items : list (pyval * pyval))
  | OList (elems : list pyval).

Abbreviation heap := (gmap loc pyobj).

(** ** Keys: hashing and equality *)

(** Containers are unhashable. *)
Definition hashable (v : pyval) : bool :=
  match v with VRef _ => false | _ => true end.

(** Python's [==] on hashable values: [True == 1] and [False == 0]. *)
Definition bool_int (b : bool) : Z := if b then 1 else 0.

Definition key_eq (a b : pyval) : bool :=
  match a, b with
  | VNone, VNone => true
  | VBool x, VBool y => Bool.eqb x y
  | VBool x, VInt z | VInt z, VBool x => Z.eqb z (bool_int x)
  | VInt x, VInt y => Z.eqb x y
  | VStr x, VStr y => bool_decide (x = y)
  | VOpaque s r, VOpaque s' r' => bool_decide (s = s' /\ r = r')
  | _, _ => false
  end.

(** [d[k]] on the items of a dict. *)
Fixpoint assoc_lookup (k : pyval) (items : list (pyval * pyval)) : option pyval :=
  match items with
  | [] => None
  | (k', v) :: rest => if key_eq k k' then Some v else assoc_lookup k rest
  end.

(** [d[k] = v]: an equal key keeps its place and its key object; a new
    key is appended. *)
Fixpoint assoc_set (k v : pyval) (items : list (pyval * pyval)) : list (pyval * pyval) :=
  match items with
  | [] => [(k, v)]
  | (k', v') :: rest =>
      if key_eq k k' then (k', v) :: rest else (k', v') :: assoc_set k v rest
  end.

(** ** Heap-carrying states

    Every handler's state holds a heap; the operations below only need
    to read and replace it. *)
Class HeapState (St : Type) := {
  st_heap : St -> heap;
  st_put_heap : heap -> St -> St;
}.

Class HeapStateLaws (St : Type) `{!HeapState St} := {
  st_heap_put h s : st_heap (st_put_heap h s) = h;
}.

(** Indices: [True] and [False] index like [1] and [0]. *)
Definition as_index (k : pyval) : option Z :=
  match k with
  | VInt z => Some z
  | VBool b => Some (bool_int b)
  | _ => None
  end.

(** A list index, negative ones counted from the end. *)
Definition norm_index (len : nat) (i : Z) : option nat :=
  let j := if (i <? 0)%Z then (i + Z.of_nat len)%Z else i in
  if (0 <=? j)%Z && (j <? Z.of_nat len)%Z then Some (Z.to_nat j) else None.

Section heap_ops.
Context {St : Type} `{!HeapState St}.

Definition read (l : loc) : PyM St pyobj := fun s =>
    match st_heap s !! l with
    | Some o => (Ok o, s)
    | None => (Raise HeapFault, s)
    end.

Definition write (l : loc) (o : pyobj) : PyM St unit := fun s =>
    (Ok tt, st_put_heap (<[l:=o]> (st_heap s)) s).

Definition alloc (o : pyobj) : PyM St loc := fun s =>
    let l := fresh (dom (st_heap s)) in
    (Ok l, st_put_heap (<[l:=o]> (st_heap s)) s).

  (** [o[k]] *)
Definition getitem (o k : pyval) : PyM St pyval :=
    match o with
    | VRef l =>
        obj ← read l;
        match obj with
        | ODict items =>
            if hashable k then
              match assoc_lookup k items with
              | Some v => mret v
              | None => raise KeyError
              end
            else raise TypeError
        | OList xs =>
            match as_index k with
            | Some i =>
                match norm_index (length xs) i ≫= (xs !!.) with
                | Some v => mret v
                | None => raise IndexError
                end
            | None => raise TypeError
            end
        end
    | VStr s =>
        match as_index k with
        | Some i =>
            match norm_index (length s) i ≫= (s !!.) with
            | Some c => mret (VStr [c])
            | None => raise IndexError
            end
        | None => raise TypeError
        end
    | _ => raise TypeError
    end.

  (** [o[k] = v] *)
Definition setitem (o k v : pyval) : PyM St unit :=
    match o with
    | VRef l =>
        obj ← read l;
        match obj with
        | ODict items =>
            if hashable k then write l (ODict (assoc_set k v items)) else raise TypeError
        | OList xs =>
            match as_index k with
            | Some i =>
                match norm_index (length xs) i with
                | Some j => write l (OList (<[j:=v]> xs))
                | None => raise IndexError
                end
            | None => raise TypeError
            end
        end
    | _ => raise TypeError
    end.

  (** [o.get(k, dflt)]: only dicts have [get]. *)
Definition dict_get (o k dflt : pyval) : PyM St pyval :=
    match o with
    | VRef l =>
        obj ← read l;
        match obj with
        | ODict items =>
            if hashable k then mret (default dflt (assoc_lookup k items)) else raise TypeError
        | OList _ => raise AttributeError
        end
    | _ => raise AttributeError
    end.

  (** [bool(v)] *)
Definition truthy (v : pyval) : PyM St bool :=
    match v with
    | VNone => mret false
    | VBool b => mret b
    | VInt z => mret (negb (Z.eqb z 0))
    | VStr s => mret (negb (bool_decide (s = [])))
    | VOpaque _ _ => mret true
    | VRef l =>
        obj ← read l;
        match obj with
        | ODict items => mret (negb (bool_decide (items = [])))
        | OList xs => mret (negb (bool_decide (xs = [])))
        end
    end.

  (** Iterating a dict.  CPython's dict iterator compares, at every call
      of [next], the dict's size with the size it had when the loop
      started, and raises [RuntimeError] when they differ; it then reads
      the item at its current position.  [k] is the number of items left
      and [i] the current position. *)
Fixpoint dict_iter_go (l : loc) (n : nat) (body : pyval -> pyval -> PyM St unit)
      (k i : nat) : PyM St unit :=
    obj ← read l;
    match obj with
    | ODict items =>
        if bool_decide (length items = n) then
          match k with
          | O => mret tt
          | S k' =>
              match items !! i with
              | Some (key, v) => body key v ;; dict_iter_go l n body k' (S i)
              | None => mret tt
              end
          end
        else raise RuntimeError
    | OList _ => raise HeapFault
    end.

Definition dict_iter (l : loc) (body : pyval -> pyval -> PyM St unit) : PyM St unit :=
    obj ← read l;
    match obj with
    | ODict items => dict_iter_go l (length items) body (length items) 0
    | OList _ => raise HeapFault
    end.

  (** Iterating a list reads the element at the current index at every
      step.  The bodies of the modelled loops never change the length of a
      list, so the initial length bounds the number of steps. *)
Fixpoint list_iter_go (l : loc) (body : pyval -> PyM St unit) (fuel i : nat) : PyM St unit :=
    match fuel with
    | O => mret tt
    | S f =>
        obj ← read l;
        match obj with
        | OList xs =>
            match xs !! i with
            | Some v => body v ;; list_iter_go l body f (S i)
            | None => mret tt
            end
        | ODict _ => raise HeapFault
        end
    end.

  (** [for x in v: body(x)] *)
Definition for_in (v : pyval) (body : pyval -> PyM St unit) : PyM St unit :=
    match v with
    | VRef l =>
        obj ← read l;
        match obj with
        | ODict _ => dict_iter l (fun k _ => body k)
        | OList xs => list_iter_go l body (length xs) 0
        end
    | VStr s => for_each (map (fun c => VStr [c]) s) body
    | _ => raise TypeError
    end.

  (** [for k, x in v.items(): body(k, x)] *)
Definition for_items (v : pyval) (body : pyval -> pyval -> PyM St unit) : PyM St unit :=
    match v with
    | VRef l =>
        obj ← read l;
        match obj with
        | ODict _ => dict_iter l body
        | OList _ => raise AttributeError
        end
    | _ => raise AttributeError
    end.
End heap_ops.

(** ** Walking the object graph

    [repr] and [json.dumps] traverse a value the same way: a scalar is
    rendered directly; an empty container is rendered without any check;
    a non-empty container that is already on the current path (the
    [stack] of containers being rendered) is a cycle; otherwise its items
    are rendered left to right, each key before its value, with the
    container pushed on the path.  They differ in how they render, which a
    [walker] records.  [length stack] is the nesting depth (the indent
    level of [json.dumps]). *)
Record walker := {
  w_scalar : pyval -> res pystr;
  w_key : pyval -> res pystr;
  w_empty_dict : pystr;
  w_empty_list : pystr;
  w_cycle_dict : res pystr;
  w_cycle_list : res pystr;
  w_dict : nat -> list (pystr * pystr) -> pystr;
  w_list : nat -> list pystr -> pystr;
}.

(** Each recursive call pushes a location of the heap that is not yet on
    the path, so [S (size h)] units of fuel are enough ([walk_fuel_enough]);
    running out yields [HeapFault], as does a dangling reference. *)
Fixpoint walk (w : walker) (fuel : nat) (h : heap) (stack : list loc) (v : pyval)
    : res pystr :=
  match v with
  | VRef l =>
      match h !! l with
      | None => Raise HeapFault
      | Some (ODict []) => Ok (w_empty_dict w)
      | Some (OList []) => Ok (w_empty_list w)
      | Some (ODict items) =>
          if bool_decide (l ∈ stack) then w_cycle_dict w else
          match fuel with
          | O => Raise HeapFault
          | S f =>
              parts ← mapM (fun kv => k ← w_key w kv.1;
                                       x ← walk w f h (l :: stack) kv.2;
                                       mret (k, x)) items;
              mret (w_dict w (length stack) parts)
          end
      | Some (OList xs) =>
          if bool_decide (l ∈ stack) then w_cycle_list w else
          match fuel with
          | O => Raise HeapFault
          | S f =>
              parts ← mapM (walk w f h (l :: stack)) xs;
              mret (w_list w (length stack) parts)
          end
      end
  | _ => w_scalar w v
  end.

Definition heap_fuel (h : heap) : nat := S (size h).

(** A scalar is rendered directly, whatever the fuel. *)
Lemma walk_scalar w fuel h stack v :
  hashable v = true -> walk w fuel h stack v = w_scalar w v.
Proof. destruct fuel, v; done. Qed.

(** A path of distinct locations of the heap is no longer than the heap. *)
Lemma path_length_le (h : heap) stack :
  NoDup stack -> (forall l, l ∈ stack -> is_Some (h !! l)) -> (length stack <= size h)%nat.
Proof.
  intros Hnd Hs. rewrite <- (size_list_to_set (C:=gset loc) stack Hnd), <- size_dom.
  apply subseteq_size. intros x Hx. apply elem_of_list_to_set in Hx. apply elem_of_dom. by apply Hs.
Qed.

(** Pushing a location of the heap that is not on the path. *)
Lemma push_path (h : heap) l o stack :
  h !! l = Some o -> l ∉ stack -> NoDup stack -> (forall l', l' ∈ stack -> is_Some (h !! l')) ->
  NoDup (l :: stack) /\ (forall l', l' ∈ l :: stack -> is_Some (h !! l')) /\ (S (length stack) <= size h)%nat.
Proof.
  intros Hl Hin Hnd Hs. assert (Hnd' : NoDup (l :: stack)) by (by constructor).
  assert (Hs' : forall l', l' ∈ l :: stack -> is_Some (h !! l')).
  { intros l' [-> | Hl']%elem_of_cons; [by rewrite Hl | by apply Hs]. }
  split; [done|]. split; [done|]. apply (path_length_le h _ Hnd' Hs').
Qed.

(** Fuel beyond the number of locations not yet on the path never
    changes the result: every recursive call pushes a new location. *)
Lemma walk_fuel_enough w h f1 : forall f2 stack v,
  NoDup stack -> (forall l, l ∈ stack -> is_Some (h !! l)) ->
  (size h - length stack < f1)%nat -> (f1 <= f2)%nat ->
  walk w f1 h stack v = walk w f2 h stack v.
Proof.
  induction f1 as [|f1 IH]; intros f2 stack v Hnd Hs Hf Hle; [lia|]. destruct f2 as [|f2]; [lia|].
  destruct v as [| | | | |l]; try reflexivity. cbn [walk].
  destruct (h !! l) as [[items|xs]|] eqn:Hl; [| |done].
  - destruct items; [done|]. case_bool_decide as Hin; [done|].
    destruct (push_path h l _ stack Hl Hin Hnd Hs) as (Hnd' & Hs' & Hlen).
    erewrite mapM_res_ext; [reflexivity|]. intros kv _. cbn beta.
    rewrite (IH f2 (l :: stack) kv.2) by (done || (cbn [length]; lia)). reflexivity.
  - destruct xs; [done|]. case_bool_decide as Hin; [done|].
    destruct (push_path h l _ stack Hl Hin Hnd Hs) as (Hnd' & Hs' & Hlen).
    erewrite mapM_res_ext; [reflexivity|]. intros x _. apply IH; [done | done | cbn [length]; lia | lia].
Qed.

(** ** [repr] and [str] *)

Definition hex_digit (d : N) : N := if (d <? 10)%N then (48 + d)%N else (87 + d)%N.

(** [w] lowercase hexadecimal digits of [c]. *)
Fixpoint hex_pad (w : nat) (c : N) : pystr :=
  match w with
  | O => []
  | S w' => hex_pad w' (c / 16)%N ++ [hex_digit (c mod 16)%N]
  end.

(** Code points [repr] escapes although they are not ASCII: the C1
    controls, the no-break space and the soft hyphen.  Printability
    beyond Latin-1 is not modelled (such code points are kept). *)
Definition nonprintable_latin1 (c : N) : bool :=
  bool_decide ((128 <= c <= 160)%N \/ c = 173%N).

(** One code point of [repr(s)] with quote [q] ([unicode_repr]). *)
Definition repr_char (q c : N) : pystr :=
  if bool_decide (c = q \/ c = 92%N) then [92%N; c]
  else if bool_decide (c = 9%N) then ps "\t"
  else if bool_decide (c = 10%N) then ps "\n"
  else if bool_decide (c = 13%N) then ps "\r"
  else if bool_decide (c < 32 \/ c = 127)%N then ps "\x" ++ hex_pad 2 c
  else if bool_decide (c < 127)%N then [c]
  else if nonprintable_latin1 c then ps "\x" ++ hex_pad 2 c
  else [c].

(** [repr(s)]: single quotes unless the text has a single quote and no
    double quote. *)
Definition repr_str (s : pystr) : pystr :=
  let q := if bool_decide (39%N ∈ s) && negb (bool_decide (34%N ∈ s)) then 34%N else 39%N in
  q :: concat (map (repr_char q) s) ++ [q].

Definition repr_scalar (v : pyval) : pystr :=
  match v with
  | VNone => ps "None"
  | VBool true => ps "True"
  | VBool false => ps "False"
  | VInt z => z_repr z
  | VStr s => repr_str s
  | VOpaque _ r => r
  | VRef _ => []
  end.

Definition repr_walker : walker := {|
  w_scalar v := Ok (repr_scalar v);
  w_key v := Ok (repr_scalar v);
  w_empty_dict := ps "{}";
  w_empty_list := ps "[]";
  w_cycle_dict := Ok (ps "{...}");
  w_cycle_list := Ok (ps "[...]");
  w_dict _ parts := ps "{" ++ str_join (ps ", ") (map (fun kx => kx.1 ++ ps ": " ++ kx.2) parts) ++ ps "}";
  w_list _ parts := ps "[" ++ str_join (ps ", ") parts ++ ps "]";
|}.

Definition py_repr (h : heap) (v : pyval) : res pystr := walk repr_walker (heap_fuel h) h [] v.

(** [str(v)] of a scalar. *)
Definition str_scalar (v : pyval) : pystr :=
  match v with
  | VStr s => s
  | VOpaque s _ => s
  | _ => repr_scalar v
  end.

(** [str(v)], as an f-string renders [{v}]; [str] of a container is its
    [repr]. *)
Definition py_str (h : heap) (v : pyval) : res pystr :=
  match v with
  | VRef _ => py_repr h v
  | _ => Ok (str_scalar v)
  end.

(** The monadic form used by the handlers. *)
Definition str_of `{!HeapState St} (v : pyval) : PyM St pystr := fun s =>
  (py_str (st_heap s) v, s).

(** ** Lemmas: keys *)

(** The value a hashable key is compared as. *)
Definition canon (v : pyval) : pyval :=
  match v with VBool b => VInt (bool_int b) | _ => v end.

Lemma key_eq_spec a b :
  key_eq a b = true <-> hashable a = true /\ hashable b = true /\ canon a = canon b.
Proof.
  destruct a as [| x | x | x | x y | x], b as [| x' | x' | x' | x' y' | x'];
    cbn [key_eq hashable canon]; unfold bool_int;
    rewrite ?Bool.eqb_true_iff, ?Z.eqb_eq, ?bool_decide_eq_true;
    repeat match goal with b : bool |- _ => destruct b end;
    split; intros; destruct_and?; simplify_eq; try done; try lia; naive_solver.
Qed.

Lemma key_eq_refl k : hashable k = true -> key_eq k k = true.
Proof. intros. by apply key_eq_spec. Qed.

Lemma key_eq_sym a b : key_eq a b = key_eq b a.
Proof. apply Bool.eq_iff_eq_true. rewrite !key_eq_spec. split; intros (?&?&?); auto. Qed.

Lemma key_eq_trans a b c : key_eq a b = true -> key_eq b c = true -> key_eq a c = true.
Proof. rewrite !key_eq_spec. intros (?&?&?) (?&?&?). repeat split; congruence. Qed.

(** Two distinct strings are distinct keys. *)
Lemma key_eq_str s t : key_eq (VStr s) (VStr t) = bool_decide (s = t).
Proof. reflexivity. Qed.

#[export] Hint Resolve key_eq_refl : py.
#[export] Hint Rewrite key_eq_str : py.

(** ** Lemmas: dict items *)

(** Assignment keeps the keys in place and appends at most the new key. *)
Lemma assoc_set_keys k v items :
  map fst (assoc_set k v items) = map fst items \/
  map fst (assoc_set k v items) = map fst items ++ [k].
Proof.
  induction items as [|[k' v'] items IH]; simpl; [by right|].
  destruct (key_eq k k'); simpl; [by left|].
  destruct IH as [-> | ->]; [left | right]; done.
Qed.

Lemma assoc_set_keys_prefix k v items : map fst items `prefix_of` map fst (assoc_set k v items).
Proof. destruct (assoc_set_keys k v items) as [-> | ->]; [done | by apply prefix_app_r]. Qed.

(** Lookup after assignment (the insert/lookup round trip). *)
Lemma assoc_lookup_set_eq k v items :
  hashable k = true -> assoc_lookup k (assoc_set k v items) = Some v.
Proof.
  intros Hk. induction items as [|[k' v'] items IH]; simpl.
  - by rewrite key_eq_refl.
  - destruct (key_eq k k') eqn:E; simpl; rewrite ?E; [done | exact IH].
Qed.

Lemma assoc_lookup_set_ne k k' v items :
  key_eq k' k = false -> assoc_lookup k' (assoc_set k v items) = assoc_lookup k' items.
Proof.
  intros Hne. induction items as [|[k0 v0] items IH]; simpl.
  - by rewrite Hne.
  - destruct (key_eq k k0) eqn:E; simpl.
    + destruct (key_eq k' k0) eqn:E'; [|done].
      exfalso. rewrite key_eq_sym in E. pose proof (key_eq_trans _ _ _ E' E). congruence.
    + by rewrite IH.
Qed.

Lemma assoc_lookup_keys k items v :
  assoc_lookup k items = Some v -> exists k', k' ∈ map fst items /\ key_eq k k' = true.
Proof.
  induction items as [|[k' v'] items IH]; simpl; [done|].
  destruct (key_eq k k') eqn:E; intros H.
  - exists k'. split; [apply elem_of_cons; by left | done].
  - destruct (IH H) as (k'' & ? & ?). exists k''. split; [apply elem_of_cons; by right | done].
Qed.

Lemma assoc_lookup_in k items v :
  assoc_lookup k items = Some v -> exists k', (k', v) ∈ items.
Proof.
  induction items as [|[k' v'] items IH]; simpl; [done|].
  destruct (key_eq k k'); intros H.
  - simplify_eq. exists k'. apply elem_of_cons. by left.
  - destruct (IH H) as [k'' Hin]. exists k''. apply elem_of_cons. by right.
Qed.

Lemma assoc_set_length k v items :
  length (assoc_set k v items) = length items \/ length (assoc_set k v items) = S (length items).
Proof.
  rewrite <- !(length_map fst (assoc_set k v items)), <- !(length_map fst items).
  destruct (assoc_set_keys k v items) as [-> | ->]; [left | right]; [done|].
  rewrite length_app. simpl. lia.
Qed.

#[export] Hint Resolve assoc_set_keys_prefix : py.
#[export] Hint Rewrite assoc_lookup_set_eq using done : py.

(** ** Dicts never lose a key

    No operation of the model deletes a dict entry: keys are replaced in
    place or appended.  [keys_le h h'] says that every dict of [h] is still
    a dict in [h'] whose key list extends the old one. *)
(** An object still has the same kind, and a dict's keys extend. *)
Definition obj_le (o o' : pyobj) : Prop :=
  match o, o' with
  | ODict items, ODict items' => map fst items `prefix_of` map fst items'
  | OList _, OList _ => True
  | _, _ => False
  end.

Definition keys_le (h h' : heap) : Prop :=
  forall l o, h !! l = Some o -> exists o', h' !! l = Some o' /\ obj_le o o'.

Lemma obj_le_refl o : obj_le o o.
Proof. destruct o; simpl; [done | exact I]. Qed.

Lemma obj_le_trans o1 o2 o3 : obj_le o1 o2 -> obj_le o2 o3 -> obj_le o1 o3.
Proof. destruct o1, o2, o3; simpl; try done. intros. by trans (map fst items0). Qed.

Lemma keys_le_refl h : keys_le h h.
Proof. intros l o H. exists o. split; [done | apply obj_le_refl]. Qed.

Lemma keys_le_trans h1 h2 h3 : keys_le h1 h2 -> keys_le h2 h3 -> keys_le h1 h3.
Proof.
  intros H12 H23 l o H. destruct (H12 _ _ H) as (o2 & H2 & P2).
  destruct (H23 _ _ H2) as (o3 & H3 & P3). exists o3. split; [done | by eapply obj_le_trans].
Qed.

Lemma keys_le_insert h l o :
  (forall o0, h !! l = Some o0 -> obj_le o0 o) -> keys_le h (<[l:=o]> h).
Proof.
  intros Hl l' o0 H. destruct (decide (l = l')) as [<-|Hne].
  - exists o. rewrite lookup_insert_eq. split; [done | by apply Hl].
  - exists o0. rewrite lookup_insert_ne by done. split; [done | apply obj_le_refl].
Qed.

(** A dict that was there is still a dict with more keys. *)
Lemma keys_le_dict h h' l items :
  keys_le h h' -> h !! l = Some (ODict items) ->
  exists items', h' !! l = Some (ODict items') /\ map fst items `prefix_of` map fst items'.
Proof. intros Hle Hl. destruct (Hle _ _ Hl) as ([items'|] & ? & ?); [eauto | done]. Qed.

Lemma keys_le_list h h' l xs :
  keys_le h h' -> h !! l = Some (OList xs) -> exists xs', h' !! l = Some (OList xs').
Proof. intros Hle Hl. destruct (Hle _ _ Hl) as ([|xs'] & ? & ?); [done | eauto]. Qed.

Section grows.
Context {St : Type} `{!HeapState St} `{!HeapStateLaws St}.

(** A computation that keeps every key of every dict. *)
Definition grows {A} (c : PyM St A) : Prop := forall s, keys_le (st_heap s) (st_heap (c s).2).

Lemma grows_pure {A} (f : St -> res A) : grows (fun s => (f s, s)).
Proof. intros s. apply keys_le_refl. Qed.

Lemma grows_ret {A} (a : A) : grows (mret a).
Proof. apply (grows_pure (fun _ => Ok a)). Qed.

Lemma grows_raise {A} e : grows (raise (A:=A) e).
Proof. apply (grows_pure (fun _ => Raise e)). Qed.

Lemma grows_bind {A B} (c : PyM St A) (f : A -> PyM St B) :
  grows c -> (forall a, grows (f a)) -> grows (c ≫= f).
Proof.
  intros Hc Hf s. rewrite bind_run. specialize (Hc s).
  destruct (c s) as [[a|e] s'] eqn:E; simpl in *; [|done].
  eapply keys_le_trans; [exact Hc | apply Hf].
Qed.

Lemma grows_read l : grows (read l).
Proof. intros s. unfold read. case_match; apply keys_le_refl. Qed.

Lemma grows_alloc o : grows (alloc o).
Proof.
  intros s. unfold alloc. simpl. rewrite st_heap_put. apply keys_le_insert.
  intros o0 Hl. exfalso. apply (is_fresh (dom (st_heap s))).
  apply elem_of_dom. by rewrite Hl.
Qed.

Lemma grows_setitem o k v : grows (setitem o k v).
Proof.
  unfold setitem. destruct o as [| | | | | l]; try apply grows_raise.
  intros s. unfold read. rewrite bind_run. simpl.
  destruct (st_heap s !! l) as [[items|xs]|] eqn:E; simpl; [| |apply keys_le_refl].
  - destruct (hashable k); simpl; [|apply keys_le_refl].
    rewrite st_heap_put. apply keys_le_insert. intros o0 Hl. rewrite E in Hl. simplify_eq.
    apply assoc_set_keys_prefix.
  - repeat case_match; simpl; try apply keys_le_refl.
    rewrite st_heap_put. apply keys_le_insert. intros o0 Hl. by rewrite E in Hl; simplify_eq.
Qed.

Lemma grows_getitem o k : grows (getitem o k).
Proof.
  unfold getitem. destruct o as [| | | s | | l]; try apply grows_raise;
    [repeat case_match; auto using grows_ret, grows_raise|].
  apply grows_bind; [apply grows_read|]. intros obj. repeat case_match; auto using grows_ret, grows_raise.
Qed.

Lemma grows_dict_get o k d : grows (dict_get o k d).
Proof.
  unfold dict_get. destruct o; try apply grows_raise.
  apply grows_bind; [apply grows_read|]. intros obj. repeat case_match; auto using grows_ret, grows_raise.
Qed.

Lemma grows_truthy v : grows (truthy v).
Proof.
  unfold truthy. destruct v; try apply grows_ret.
  apply grows_bind; [apply grows_read|]. intros obj. repeat case_match; auto using grows_ret.
Qed.

Lemma grows_str_of v : grows (str_of v).
Proof. apply (grows_pure (fun s => py_str (st_heap s) v)). Qed.

Lemma grows_for_each {A} (xs : list A) body :
  (forall x, grows (body x)) -> grows (for_each xs body).
Proof.
  intros Hb. induction xs as [|x xs IH]; simpl; [apply grows_ret|].
  apply grows_bind; [apply Hb | intros; apply IH].
Qed.

Lemma grows_dict_iter_go l n body k i :
  (forall key v, grows (body key v)) -> grows (dict_iter_go l n body k i).
Proof.
  intros Hb. revert i. induction k as [|k IH]; intros i; simpl;
    (apply grows_bind; [apply grows_read|]); intros obj;
    repeat case_match; auto using grows_ret, grows_raise, grows_bind.
Qed.

Lemma grows_dict_iter l body : (forall key v, grows (body key v)) -> grows (dict_iter l body).
Proof.
  intros Hb. unfold dict_iter. apply grows_bind; [apply grows_read|]. intros obj.
  case_match; auto using grows_dict_iter_go, grows_raise.
Qed.

Lemma grows_list_iter_go l body fuel i :
  (forall v, grows (body v)) -> grows (list_iter_go l body fuel i).
Proof.
  intros Hb. revert i. induction fuel as [|f IH]; intros i; simpl; [apply grows_ret|].
  apply grows_bind; [apply grows_read|]. intros obj.
  repeat case_match; auto using grows_ret, grows_raise, grows_bind.
Qed.

Lemma grows_for_in v body : (forall x, grows (body x)) -> grows (for_in v body).
Proof.
  intros Hb. unfold for_in. destruct v; try apply grows_raise.
  - apply grows_for_each. done.
  - apply grows_bind; [apply grows_read|]. intros obj.
    case_match; auto using grows_dict_iter, grows_list_iter_go.
Qed.

Lemma grows_for_items v body : (forall key x, grows (body key x)) -> grows (for_items v body).
Proof.
  intros Hb. unfold for_items. destruct v; try apply grows_raise.
  apply grows_bind; [apply grows_read|]. intros obj.
  case_match; auto using grows_dict_iter, grows_raise.
Qed.
End grows.

#[export] Hint Resolve grows_ret grows_raise grows_bind grows_read grows_alloc grows_setitem
  grows_getitem grows_dict_get grows_truthy grows_str_of grows_for_each grows_for_in
  grows_for_items grows_pure : py.

(** ** Evaluation of the item operations on a dict *)

Section eval.
Context {St : Type} `{!HeapState St} `{!HeapStateLaws St}.

Lemma read_ok s l o : st_heap s !! l = Some o -> read l s = (Ok o, s).
Proof. intros H. unfold read. by rewrite H. Qed.

Lemma setitem_dict s l items k v :
  st_heap s !! l = Some (ODict items) -> hashable k = true ->
  setitem (VRef l) k v s = (Ok tt, st_put_heap (<[l:=ODict (assoc_set k v items)]> (st_heap s)) s).
Proof. intros H Hk. unfold setitem. rewrite bind_run, (read_ok _ _ _ H). simpl. by rewrite Hk. Qed.

Lemma getitem_dict s l items k v :
  st_heap s !! l = Some (ODict items) -> hashable k = true -> assoc_lookup k items = Some v ->
  getitem (VRef l) k s = (Ok v, s).
Proof. intros H Hk Hv. unfold getitem. rewrite bind_run, (read_ok _ _ _ H). simpl. by rewrite Hk, Hv. Qed.

Lemma dict_get_dict s l items k d :
  st_heap s !! l = Some (ODict items) -> hashable k = true ->
  dict_get (VRef l) k d s = (Ok (default d (assoc_lookup k items)), s).
Proof. intros H Hk. unfold dict_get. rewrite bind_run, (read_ok _ _ _ H). simpl. by rewrite Hk. Qed.

(** ** Iteration *)

(** A dict loop that completes has passed its last size check. *)
Lemma dict_iter_go_ok_size l n body k i s u s' :
  dict_iter_go l n body k i s = (Ok u, s') ->
  exists items, st_heap s' !! l = Some (ODict items) /\ length items = n.
Proof.
  revert i s. induction k as [|k IH]; intros i s; simpl; rewrite bind_run; unfold read;
    destruct (st_heap s !! l) as [[items|]|] eqn:E; simpl; try discriminate;
    case_bool_decide; try discriminate.
  - intros [= _ <-]. eauto.
  - destruct (items !! i) as [[key v]|]; [|intros [= _ <-]; eauto].
    rewrite bind_run. destruct (body key v s) as [[[]|e] s1]; [apply IH | discriminate].
Qed.

(** After a completed loop over a dict whose body keeps all keys, the
    dict has exactly the keys it had before the loop. *)
Lemma dict_iter_ok_keys l body s items u s' :
  (forall key v, grows (body key v)) ->
  st_heap s !! l = Some (ODict items) ->
  dict_iter l body s = (Ok u, s') ->
  exists items', st_heap s' !! l = Some (ODict items') /\ map fst items' = map fst items.
Proof.
  intros Hb Hl Hrun.
  assert (Hg := grows_dict_iter l body Hb s). rewrite Hrun in Hg. simpl in Hg.
  destruct (keys_le_dict _ _ _ _ Hg Hl) as (items' & H' & P).
  unfold dict_iter in Hrun. rewrite bind_run, (read_ok _ _ _ Hl) in Hrun.
  destruct (dict_iter_go_ok_size _ _ _ _ _ _ _ _ Hrun) as (items'' & H'' & Hlen).
  rewrite H' in H''. simplify_eq. exists items''. split; [done|].
  symmetry. apply prefix_length_eq; [done|]. rewrite !length_map. lia.
Qed.

(** When no step of the body touches the dict, the live iteration is the
    iteration over a snapshot of its items. *)
Lemma dict_iter_go_snapshot (I : St -> Prop) l items (body : pyval -> pyval -> PyM St unit) :
  (forall s, I s -> st_heap s !! l = Some (ODict items)) ->
  (forall key v s, (key, v) ∈ items -> I s ->
     match body key v s with (Ok _, s') => I s' | _ => True end) ->
  forall k i s, I s -> i + k = length items ->
  dict_iter_go l (length items) body k i s = for_each (drop i items) (fun kv => body kv.1 kv.2) s.
Proof.
  intros Hl Hb. induction k as [|k IH]; intros i s HI Hik; simpl;
    rewrite bind_run, (read_ok _ _ _ (Hl _ HI)); simpl; rewrite bool_decide_true by done.
  - replace i with (length items) by lia. by rewrite drop_all.
  - destruct (lookup_lt_is_Some_2 items i) as [[key v] Hkv]; [lia|].
    rewrite Hkv, (drop_S _ _ _ Hkv). simpl. rewrite !bind_run.
    specialize (Hb key v s (list_elem_of_lookup_2 _ _ _ Hkv) HI).
    destruct (body key v s) as [[[]|e] s1]; [|done]. apply IH; [done | lia].
Qed.

Lemma dict_iter_snapshot (I : St -> Prop) l items (body : pyval -> pyval -> PyM St unit) s :
  (forall s, I s -> st_heap s !! l = Some (ODict items)) ->
  (forall key v s, (key, v) ∈ items -> I s ->
     match body key v s with (Ok _, s') => I s' | _ => True end) ->
  I s ->
  dict_iter l body s = for_each items (fun kv => body kv.1 kv.2) s.
Proof.
  intros Hl Hb HI. unfold dict_iter. rewrite bind_run, (read_ok _ _ _ (Hl _ HI)). simpl.
  rewrite (dict_iter_go_snapshot I l items body Hl Hb (length items) 0 s HI); [done | lia].
Qed.
End eval.

(** Prove [grows c] for a handler built from the operations above. *)
#[export] Hint Extern 1 (grows (setitem _ _ _)) => apply grows_setitem : py.
#[export] Hint Extern 1 (grows (alloc _)) => apply grows_alloc : py.

Ltac grows_tac :=
  repeat first [ solve [auto with py] | apply grows_bind; intros | case_match ].

(** ** Frames: what each operation leaves unchanged *)

Section frame.
Context {St : Type} `{!HeapState St} `{!HeapStateLaws St}.

Lemma getitem_state o k s : (getitem o k s).2 = s.
Proof.
  unfold getitem. destruct o as [| | | t | | l]; try reflexivity; [repeat case_match; reflexivity|].
  unfold read. rewrite bind_run. destruct (st_heap s !! l) as [[]|]; cbn; repeat case_match; reflexivity.
Qed.

Lemma dict_get_state o k d s : (dict_get o k d s).2 = s.
Proof.
  unfold dict_get. destruct o as [| | | | | l]; try reflexivity.
  unfold read. rewrite bind_run. destruct (st_heap s !! l) as [[]|]; cbn; repeat case_match; reflexivity.
Qed.

Lemma str_of_state v s : (str_of v s).2 = s.
Proof. reflexivity. Qed.

(** [o[k] = v] changes at most the object [o] refers to. *)
Lemma setitem_other o k v s l :
  o <> VRef l -> st_heap (setitem o k v s).2 !! l = st_heap s !! l.
Proof.
  intros Hne. unfold setitem. destruct o as [| | | | | l']; try reflexivity.
  unfold read. rewrite bind_run. destruct (st_heap s !! l') as [[items|xs]|]; cbn; [| |reflexivity].
  - case_match; cbn; [|reflexivity]. rewrite st_heap_put, lookup_insert_ne; [done | congruence].
  - repeat case_match; cbn; try reflexivity. rewrite st_heap_put, lookup_insert_ne; [done | congruence].
Qed.
End frame.

(** ** Updating many objects at distinct locations *)

Definition insert_all {A} (loc_of : A -> loc) (obj_of : A -> pyobj) (xs : list A) (h : heap) : heap :=
  fold_left (fun h x => <[loc_of x := obj_of x]> h) xs h.

Lemma insert_all_cons {A} (loc_of : A -> loc) obj_of x (xs : list A) h :
  insert_all loc_of obj_of (x :: xs) h = insert_all loc_of obj_of xs (<[loc_of x := obj_of x]> h).
Proof. reflexivity. Qed.

Lemma insert_all_notin {A} (loc_of : A -> loc) obj_of (xs : list A) h l :
  l ∉ map loc_of xs -> insert_all loc_of obj_of xs h !! l = h !! l.
Proof.
  revert h. induction xs as [|x xs IH]; intros h Hl; [done|]. rewrite insert_all_cons.
  rewrite IH by set_solver. apply lookup_insert_ne. set_solver.
Qed.

Lemma insert_all_in {A} (loc_of : A -> loc) obj_of (xs : list A) h x :
  NoDup (map loc_of xs) -> x ∈ xs -> insert_all loc_of obj_of xs h !! loc_of x = Some (obj_of x).
Proof.
  revert h. induction xs as [|y xs IH]; intros h Hnd Hx; [set_solver|]. rewrite insert_all_cons.
  apply NoDup_cons in Hnd as [Hy Hnd]. apply elem_of_cons in Hx as [->|Hx].
  - rewrite insert_all_notin by done. apply lookup_insert_eq.
  - by apply IH.
Qed.
