(* ===== verification/Json.v ===== *)
(** * [json.dumps(obj, indent=2)]

    [get_live_data] stores [json.dumps(cfg, indent=2)] in every model
    dict.  With an [indent], CPython's [JSONEncoder.iterencode] uses the
    pure-Python [_make_iterencode] of [json/encoder.py] with the
    separators [(',', ': ')], [ensure_ascii=True] and
    [check_circular=True]; strings go through [encode_basestring_ascii].
    This file renders a value as that encoder does, as an instance of the
    heap walker of [PyObj]. *)

From S2P Require Import Prelude PyObj.
From Stdlib Require Import String.
From stdpp Require Import gmap.

(** ** Strings: [encode_basestring_ascii] *)

(** [\uXXXX] with four lowercase hexadecimal digits. *)
Definition json_u (c : N) : pystr := ps "\u" ++ hex_pad 4 c.

Definition json_char (c : N) : pystr :=
  if bool_decide (32 <= c <= 126 /\ c <> 92 /\ c <> 34)%N then [c]
  else if bool_decide (c = 92%N) then [92%N; 92%N]
  else if bool_decide (c = 34%N) then [92%N; 34%N]
  else if bool_decide (c = 8%N) then ps "\b"
  else if bool_decide (c = 12%N) then ps "\f"
  else if bool_decide (c = 10%N) then ps "\n"
  else if bool_decide (c = 13%N) then ps "\r"
  else if bool_decide (c = 9%N) then ps "\t"
  else if bool_decide (65536 <= c)%N then
    (* a surrogate pair *)
    let c' := (c - 65536)%N in
    json_u (N.lor 55296 (N.land (N.shiftr c' 10) 1023)) ++
    json_u (N.lor 56320 (N.land c' 1023))
  else json_u c.

Definition json_str (s : pystr) : pystr := 34%N :: concat (map json_char s) ++ [34%N].

(** ** Scalars and keys *)

Definition json_scalar (v : pyval) : res pystr :=
  match v with
  | VNone => Ok (ps "null")
  | VBool true => Ok (ps "true")
  | VBool false => Ok (ps "false")
  | VInt z => Ok (z_repr z)
  | VStr s => Ok (json_str s)
  | VOpaque _ _ => Raise TypeError     (* "Object of type date is not JSON serializable" *)
  | VRef _ => Raise HeapFault
  end.

(** A dict key is converted to a string first, then encoded. *)
Definition json_key (v : pyval) : res pystr :=
  match v with
  | VStr s => Ok (json_str s)
  | VBool true => Ok (json_str (ps "true"))
  | VBool false => Ok (json_str (ps "false"))
  | VNone => Ok (json_str (ps "null"))
  | VInt z => Ok (json_str (z_repr z))
  | _ => Raise TypeError   (* "keys must be str, int, float, bool or None" *)
  end.

(** ** Containers *)

(** A line break followed by the indent of [level] ([indent=2]). *)
Definition newline_indent (level : nat) : pystr := 10%N :: replicate (2 * level) 32%N.

Definition json_dict (level : nat) (parts : list (pystr * pystr)) : pystr :=
  ps "{" ++ newline_indent (S level) ++
  str_join (ps "," ++ newline_indent (S level)) (map (fun kx => kx.1 ++ ps ": " ++ kx.2) parts) ++
  newline_indent level ++ ps "}".

Definition json_list (level : nat) (parts : list pystr) : pystr :=
  ps "[" ++ newline_indent (S level) ++
  str_join (ps "," ++ newline_indent (S level)) parts ++
  newline_indent level ++ ps "]".

Definition json_walker : walker := {|
  w_scalar := json_scalar;
  w_key := json_key;
  w_empty_dict := ps "{}";
  w_empty_list := ps "[]";
  w_cycle_dict := Raise ValueError;   (* "Circular reference detected" *)
  w_cycle_list := Raise ValueError;
  w_dict := json_dict;
  w_list := json_list;
|}.

Definition json_dumps (h : heap) (v : pyval) : res pystr :=
  walk json_walker (heap_fuel h) h [] v.

Definition json_dumps_m `{!HeapState St} (v : pyval) : PyM St pystr := fun s =>
  (json_dumps (st_heap s) v, s).

(** ** Dicts of scalars

    A model's attributes in [models.yaml] are usually scalars.  Such a
    dict renders without looking at the rest of the heap. *)

Definition json_key_ok (k : pyval) : bool := if json_key k is Ok _ then true else false.
Definition json_scalar_ok (v : pyval) : bool := if json_scalar v is Ok _ then true else false.

Definition flat_items (items : list (pyval * pyval)) : bool :=
  forallb (fun kv => json_key_ok kv.1 && json_scalar_ok kv.2) items.

Definition json_item (kv : pyval * pyval) : res (pystr * pystr) :=
  k ← json_key kv.1; x ← json_scalar kv.2; mret (k, x).

Definition json_flat (items : list (pyval * pyval)) : res pystr :=
  match items with
  | [] => Ok (ps "{}")
  | _ => parts ← mapM json_item items; mret (json_dict 0 parts)
  end.

Lemma flat_items_in items kv :
  flat_items items = true -> kv ∈ items -> json_key_ok kv.1 = true /\ json_scalar_ok kv.2 = true.
Proof.
  unfold flat_items. rewrite forallb_forall. intros H Hin.
  apply andb_prop, H, list_elem_of_In, Hin.
Qed.

(** A dict of scalars renders the same in every heap. *)
Lemma json_dumps_flat h l items :
  h !! l = Some (ODict items) -> flat_items items = true ->
  json_dumps h (VRef l) = json_flat items.
Proof.
  intros Hl Hflat. unfold json_dumps, heap_fuel. cbn [walk]. rewrite Hl.
  destruct items as [|kv items]; [done|]. rewrite bool_decide_false by set_solver.
  cbn [json_flat]. rewrite (mapM_res_ext _ json_item); [reflexivity|].
  intros [k v] Hin. destruct (flat_items_in _ _ Hflat Hin) as [_ Hv]. cbn in Hv.
  unfold json_item. cbn. rewrite walk_scalar; [done|]. by destruct v.
Qed.

Lemma json_flat_ok items : flat_items items = true -> exists j, json_flat items = Ok j.
Proof.
  intros Hflat. destruct items as [|kv items]; [by eexists|].
  destruct (mapM_res_ok json_item (kv :: items)) as [parts Hp].
  - intros [k v] Hin. destruct (flat_items_in _ _ Hflat Hin) as [Hk Hv]. cbn [fst snd] in Hk, Hv.
    unfold json_key_ok, json_scalar_ok in *. unfold json_item. cbn [fst snd].
    destruct (json_key k), (json_scalar v); try discriminate. by eexists.
  - cbn [json_flat]. rewrite Hp. by eexists.
Qed.

Lemma flat_items_set k v items :
  json_key_ok k = true -> json_scalar_ok v = true -> flat_items items = true ->
  flat_items (assoc_set k v items) = true.
Proof.
  intros Hk Hv. induction items as [|[k' v'] items IH]; cbn; [by rewrite Hk, Hv|].
  intros [[Hk' Hv']%andb_prop Hrest]%andb_prop. destruct (key_eq k k'); cbn.
  - by rewrite Hk', Hv, Hrest.
  - rewrite Hk', Hv'. by apply IH.
Qed.

(** A value of a dict of scalars is a scalar. *)
Lemma flat_items_lookup k items v :
  flat_items items = true -> assoc_lookup k items = Some v -> hashable v = true.
Proof.
  intros Hflat Hl. destruct (assoc_lookup_in _ _ _ Hl) as [k' Hin].
  destruct (flat_items_in _ _ Hflat Hin) as [_ Hv]. cbn in Hv. by destruct v.
Qed.


(** ** Witnesses *)


