(* ===== verification/ModelHub.v ===== *)
(** * The Model Hub: [get_live_data] of [src/run/llama-server/app.py]

    The state of a request is the Python heap (the document read from
    [models.yaml] and what the handler allocates) together with the list
    of tmux sessions probed so far, in order.  The configuration file, the
    tmux server and the inbound request are the external collaborators:
    a [config_file] outcome, a [registry] answering [tmux has-session],
    and a [request] with its scheme and [Host] header. *)

From S2P Require Import Prelude PyObj Json.
From Stdlib Require Import String.
From stdpp Require Import gmap.

Module Hub.

(** ** State and collaborators *)

Record state := {
  hs_heap : heap;
  hs_probes : list pystr;   (* targets of [tmux has-session -t], in call order *)
}.

#[export] Instance state_heap : HeapState state := {|
  st_heap := hs_heap;
  st_put_heap h s := {| hs_heap := h; hs_probes := hs_probes s |};
|}.

#[export] Instance state_heap_laws : HeapStateLaws state.
Proof. by constructor. Qed.

(** What [subprocess.run(["tmux", ...])] gives: the exit status of tmux,
    or [FileNotFoundError] when no tmux binary is installed. *)
Inductive proc_outcome := Exited (rc : Z) | NotInstalled.

#[export] Instance proc_outcome_eq_dec : EqDecision proc_outcome.
Proof. solve_decision. Defined.

(** The tmux server, as seen by [tmux has-session -t <target>]. *)
Definition registry := pystr -> proc_outcome.

(** The part of Flask's [request] the handler reads. *)
Record request := { req_scheme : pystr; req_host : pystr }.

(** [models.yaml]: absent, present but unreadable or not valid YAML
    (opening or [yaml.safe_load] raises), or loaded as the object graph
    [root] in heap [doc]. *)
Inductive config_file :=
  | CfgMissing
  | CfgBroken
  | CfgLoaded (doc : heap) (root : pyval).

(** ** The steps of [get_live_data] *)

(** [yaml.safe_load(f)]: the document's objects become the heap. *)
Definition load (cfg : config_file) : PyM state pyval :=
  match cfg with
  | CfgLoaded doc root => modify (st_put_heap doc) ;; mret root
  | _ => raise OSError
  end.

Definition new_dict : PyM state pyval := l ← alloc (ODict []); mret (VRef l).

(** [raw.get("models", {})]: the attribute is looked up first, then the
    default [{}] is built, then the call is made. *)
Definition get_models (raw : pyval) : PyM state pyval :=
  match raw with
  | VRef l =>
      obj ← read l;
      match obj with
      | ODict _ => dflt ← new_dict; dict_get raw (VStr (ps "models")) dflt
      | OList _ => raise AttributeError
      end
  | _ => raise AttributeError
  end.

(** The [try] block of lines 52-57; [None] is the [except] branch. *)
Definition read_config (cfg : config_file) : PyM state (option pyval) :=
  try_except
    (raw0 ← load cfg;
     t ← truthy raw0;
     raw ← (if (t : bool) then mret raw0 else new_dict);
     models ← get_models raw;
     mret (Some models))
    (fun _ => mret None).

(** [subprocess.run(["tmux", "has-session", "-t", target])]. *)
Definition probe (reg : registry) (target : pystr) : PyM state Z :=
  modify (fun s => {| hs_heap := hs_heap s; hs_probes := hs_probes s ++ [target] |}) ;;
  match reg target with
  | Exited rc => mret rc
  | NotInstalled => raise OSError
  end.

Definition svc_prefix : pystr := ps "svc-".

(** Lines 61-64: [res = subprocess.run(...)] then
    [models[key]["active"] = (res.returncode == 0)]; the right-hand side
    is evaluated before the target [models[key]]. *)
Definition mark_active (reg : registry) (models key : pyval) : PyM state unit :=
  name ← str_of key;
  rc ← probe reg (svc_prefix ++ name);
  target ← getitem models key;
  setitem target (VStr (ps "active")) (VBool (Z.eqb rc 0)).

(** [request.host.split(':')[0]] *)
Definition host_name (req : request) : pystr := split_first 58%N (req_host req).

(** The f-string of line 69. *)
Definition make_url (req : request) (port : pystr) : pystr :=
  req_scheme req ++ ps "://" ++ host_name req ++ ps ":" ++ port.

(** Lines 69-70 for one [cfg]. *)
Definition enrich (req : request) (cfg : pyval) : PyM state unit :=
  port ← dict_get cfg (VStr (ps "port")) (VInt 0);
  port_s ← str_of port;
  setitem cfg (VStr (ps "url")) (VStr (make_url req port_s)) ;;
  j ← json_dumps_m cfg;
  setitem cfg (VStr (ps "config_json")) (VStr j).

(** [get_live_data()], lines 47-71. *)
Definition get_live_data (reg : registry) (req : request) (cfg : config_file)
    : PyM state pyval :=
  match cfg with
  | CfgMissing => new_dict
  | _ =>
      r ← read_config cfg;
      match r with
      | None => new_dict
      | Some models =>
          for_in models (mark_active reg models) ;;
          for_items models (fun _ c => enrich req c) ;;
          mret models
      end
  end.

(** A request starts with an empty heap and no probe. *)
Definition init : state := {| hs_heap := ∅; hs_probes := [] |}.

Definition run_live (reg : registry) (req : request) (cfg : config_file) : res pyval * state :=
  run (get_live_data reg req cfg) init.


(** ** The names a configuration declares

    The keys of the mapping under [models:] in the loaded document, and
    none when the file is missing or broken, or when the document has no
    such mapping. *)
Definition configured_names (cfg : config_file) : list pyval :=
  match cfg with
  | CfgLoaded doc (VRef r) =>
      match doc !! r with
      | Some (ODict items) =>
          match assoc_lookup (VStr (ps "models")) items with
          | Some (VRef m) => match doc !! m with Some (ODict ms) => map fst ms | _ => [] end
          | _ => []
          end
      | _ => []
      end
  | _ => []
  end.

(** ** Lemmas: what each step keeps *)

Lemma grows_probe reg t : grows (probe reg t).
Proof.
  unfold probe. apply grows_bind; [intros s; apply keys_le_refl|]. intros _.
  case_match; auto with py.
Qed.

Lemma grows_json_dumps_m v : grows (json_dumps_m (St:=state) v).
Proof. apply (grows_pure (fun s => json_dumps (st_heap s) v)). Qed.

#[export] Hint Resolve grows_probe grows_json_dumps_m : py.

Lemma grows_mark_active reg models key : grows (mark_active reg models key).
Proof. unfold mark_active. grows_tac. Qed.

Lemma grows_enrich req cfg : grows (enrich req cfg).
Proof. unfold enrich. grows_tac. Qed.

Lemma new_dict_run s :
  new_dict s = (Ok (VRef (fresh (dom (hs_heap s)))),
                {| hs_heap := <[fresh (dom (hs_heap s)) := ODict []]> (hs_heap s);
                   hs_probes := hs_probes s |}).
Proof. reflexivity. Qed.

Lemma fresh_not_lookup (h : heap) : h !! fresh (dom h) = None.
Proof. apply not_elem_of_dom, is_fresh. Qed.

Lemma fresh_fresh_ne (h : heap) o : fresh (dom (<[fresh (dom h) := o]> h)) <> fresh (dom h).
Proof.
  intros E. apply (is_fresh (dom (<[fresh (dom h) := o]> h))). rewrite E, dom_insert_L. set_solver.
Qed.

Lemma falsy_path s :
  exists d s', (new_dict ≫= fun raw => get_models raw ≫= fun models => mret (Some models)) s
               = (Ok (Some (VRef d)), s') /\ hs_heap s' !! d = Some (ODict []).
Proof.
  rewrite bind_run, new_dict_run. cbv beta iota zeta. unfold get_models. rewrite !bind_run.
  rewrite (read_ok _ _ (ODict [])) by (simpl; apply lookup_insert_eq). cbv beta iota zeta.
  rewrite bind_run, new_dict_run. cbv beta iota zeta. cbn [hs_heap hs_probes].
  set (d1 := fresh (dom (hs_heap s))). set (h1 := <[d1:=ODict []]> (hs_heap s)).
  set (d2 := fresh (dom h1)).
  rewrite (dict_get_dict _ _ []) by first [done | cbn [st_heap state_heap hs_heap];
    rewrite lookup_insert_ne; [apply lookup_insert_eq | apply fresh_fresh_ne]].
  eexists _, _. split; [reflexivity|]. cbn [hs_heap]. apply lookup_insert_eq.
Qed.

(** What [read_config] returns, in terms of the configured names. *)
Definition read_post (cfg : config_file) (r : option pyval) (s1 : state) : Prop :=
  match r with
  | None => configured_names cfg = []
  | Some v => forall m items, v = VRef m -> hs_heap s1 !! m = Some (ODict items) ->
                map fst items = configured_names cfg
  end.

(** After [yaml.safe_load], the rest of the [try] block runs on the
    loaded document. *)
Lemma read_config_loaded doc root :
  read_config (CfgLoaded doc root) init =
  try_except (fun _ => (t ← truthy root; raw ← (if (t : bool) then mret root else new_dict);
                         models ← get_models raw; mret (Some models)) {| hs_heap := doc; hs_probes := [] |})
             (fun _ => mret None) init.
Proof. reflexivity. Qed.

(** [yaml.safe_load(f) or {}] with a false document: [{}.get] gives [{}]. *)
Lemma read_falsy doc root :
  truthy root {| hs_heap := doc; hs_probes := [] |} = (Ok false, {| hs_heap := doc; hs_probes := [] |}) ->
  configured_names (CfgLoaded doc root) = [] ->
  exists r s1, read_config (CfgLoaded doc root) init = (Ok r, s1) /\ read_post (CfgLoaded doc root) r s1.
Proof.
  intros H1 Hn. rewrite read_config_loaded.
  destruct (falsy_path {| hs_heap := doc; hs_probes := [] |}) as (d & s' & Hr & Hd).
  rewrite (try_ok _ _ _ (Some (VRef d)) s').
  - eexists _, _. split; [reflexivity|]. intros m items [= <-]. rewrite Hd, Hn. by intros [= <-].
  - by rewrite (bind_ok _ _ _ false _) by exact H1.
Qed.

(** A true document without a [get] method: [AttributeError], caught. *)
Lemma read_noget doc root :
  truthy root {| hs_heap := doc; hs_probes := [] |} = (Ok true, {| hs_heap := doc; hs_probes := [] |}) ->
  get_models root {| hs_heap := doc; hs_probes := [] |} = (Raise AttributeError, {| hs_heap := doc; hs_probes := [] |}) ->
  configured_names (CfgLoaded doc root) = [] ->
  exists r s1, read_config (CfgLoaded doc root) init = (Ok r, s1) /\ read_post (CfgLoaded doc root) r s1.
Proof.
  intros H1 H2 Hn. rewrite read_config_loaded.
  rewrite (try_err _ _ _ AttributeError {| hs_heap := doc; hs_probes := [] |}); [by eexists _, _|].
  rewrite (bind_ok _ _ _ true _) by exact H1. cbv beta iota.
  rewrite (bind_ok _ _ _ root _) by reflexivity. by rewrite (bind_err _ _ _ AttributeError _) by exact H2.
Qed.

(** A document that is a non-empty dict: [raw.get("models", {})]. *)
Lemma read_dict doc r x items :
  doc !! r = Some (ODict (x :: items)) ->
  exists res s1, read_config (CfgLoaded doc (VRef r)) init = (Ok res, s1) /\ read_post (CfgLoaded doc (VRef r)) res s1.
Proof.
  intros E. set (s0 := {| hs_heap := doc; hs_probes := [] |}). set (its := x :: items) in *.
  assert (Hd : doc !! fresh (dom doc) = None) by apply fresh_not_lookup.
  assert (Hr : r <> fresh (dom doc)) by (intros ->; congruence).
  rewrite read_config_loaded. erewrite try_ok; [|
    rewrite (bind_ok _ _ _ true s0) by (unfold truthy; by rewrite (bind_ok _ _ _ (ODict its) s0) by (apply read_ok; exact E));
    cbv beta iota; rewrite (bind_ok _ _ _ (VRef r) s0) by reflexivity;
    erewrite (bind_ok (get_models (VRef r))); [reflexivity|];
    unfold get_models; rewrite (bind_ok _ _ _ (ODict its) s0) by (apply read_ok; exact E); cbv beta iota;
    rewrite bind_run, new_dict_run; cbv beta iota;
    apply dict_get_dict; [cbn; rewrite lookup_insert_ne; [exact E | done] | done]].
  eexists _, _. split; [reflexivity|].
  intros m its' Hv. cbn [hs_heap configured_names]. rewrite E.
  destruct (assoc_lookup (VStr (ps "models")) its) as [[| | | | | m']|]; simpl in Hv; simplify_eq.
  - destruct (decide (m = fresh (dom doc))) as [->|Hne].
    + rewrite lookup_insert_eq, Hd. by intros [= <-].
    + rewrite lookup_insert_ne by done. intros H. cbn in H. by rewrite H.
  - rewrite lookup_insert_eq. by intros [= <-].
Qed.

Lemma read_config_spec cfg :
  cfg <> CfgMissing -> exists r s1, read_config cfg init = (Ok r, s1) /\ read_post cfg r s1.
Proof.
  intros Hm. destruct cfg as [| |doc root]; [done | by eexists _, _ |].
  destruct root as [| [] | z | t | a b | r].
  - by apply read_falsy.
  - by apply read_noget.
  - by apply read_falsy.
  - destruct (Z.eqb_spec z 0) as [->|Hz]; [by apply read_falsy|].
    apply read_noget; [|done..]. unfold truthy. cbn. by rewrite (proj2 (Z.eqb_neq z 0) Hz).
  - destruct t; [by apply read_falsy | by apply read_noget].
  - by apply read_noget.
  - destruct (doc !! r) as [[[|x items]|[|x xs]]|] eqn:E.
    + apply read_falsy; [|by cbn; rewrite E]. unfold truthy.
      by rewrite (bind_ok _ _ _ (ODict []) _) by (apply read_ok; exact E).
    + by apply (read_dict doc r x items).
    + apply read_falsy; [|by cbn; rewrite E]. unfold truthy.
      by rewrite (bind_ok _ _ _ (OList []) _) by (apply read_ok; exact E).
    + apply read_noget; [| |by cbn; rewrite E].
      * unfold truthy. by rewrite (bind_ok _ _ _ (OList (x :: xs)) _) by (apply read_ok; exact E).
      * unfold get_models. by rewrite (bind_ok _ _ _ (OList (x :: xs)) _) by (apply read_ok; exact E).
    + rewrite read_config_loaded, (try_err _ _ _ HeapFault {| hs_heap := doc; hs_probes := [] |});
        [by eexists _, _; split; [reflexivity | cbn; rewrite E]|].
      apply bind_err. unfold truthy, read. rewrite bind_run. cbn. by rewrite E.
Qed.

Lemma new_dict_names s : exists l s', new_dict s = (Ok (VRef l), s') /\ hs_heap s' !! l = Some (ODict []).
Proof. rewrite new_dict_run. eexists _, _. split; [reflexivity|]. apply lookup_insert_eq. Qed.

(** C1. Whatever the configuration file holds and whatever tmux answers,
    when [get_live_data] returns, it returns a dict whose keys are exactly
    the names configured under [models:], in their order: no name is
    added and none is dropped (the loops only assign into the model dicts,
    and CPython's size check rules out any other change to the mapping). *)
Theorem live_names_exact reg req cfg v s :
  run_live reg req cfg = (Ok v, s) ->
  exists l items, v = VRef l /\ hs_heap s !! l = Some (ODict items) /\
                  map fst items = configured_names cfg.
Proof.
  unfold run_live, run, get_live_data.
  assert (Hm : cfg = CfgMissing \/ cfg <> CfgMissing) by (destruct cfg; [left|right|right]; congruence).
  destruct Hm as [->|Hm].
  { destruct (new_dict_names init) as (l & s' & -> & Hl). intros [= <- <-]. eauto. }
  destruct (read_config_spec cfg Hm) as (r & s1 & Hr & Hspec).
  replace (match cfg with CfgMissing => new_dict | _ => _ end)
    with (r ← read_config cfg;
          match r with
          | None => new_dict
          | Some models => for_in models (mark_active reg models) ;;
                           for_items models (fun _ c => enrich req c) ;; mret models
          end) by (by destruct cfg).
  rewrite (bind_ok _ _ _ _ _ Hr). destruct r as [models|].
  2:{ destruct (new_dict_names s1) as (l & s' & -> & Hl). intros [= <- <-]. rewrite Hspec. eauto. }
  rewrite bind_run. destruct (for_in models (mark_active reg models) s1) as [[[]|e] s2] eqn:H1; [|done].
  rewrite bind_run. destruct (for_items models (fun _ c => enrich req c) s2) as [[[]|e] s3] eqn:H2; [|done].
  intros [= <- <-].
  destruct models as [| | | | | m]; try done.
  assert (G1 := grows_for_in (VRef m) (mark_active reg (VRef m)) (grows_mark_active reg _) s1).
  rewrite H1 in G1. cbn [snd] in G1.
  unfold for_items in H2. unfold read in H2. rewrite bind_run in H2.
  destruct (st_heap s2 !! m) as [[items2|xs2]|] eqn:E2; cbn in H2; try discriminate.
  destruct (dict_iter_ok_keys m _ s2 items2 tt s3 (fun _ c => grows_enrich req c) E2 H2) as (items3 & E3 & K3).
  exists m, items3. split; [done|]. split; [exact E3|]. rewrite K3.
  unfold for_in in H1. rewrite bind_run in H1. unfold read at 1 in H1.
  destruct (st_heap s1 !! m) as [[items1|xs1]|] eqn:E1; cbn in H1; try discriminate.
  - destruct (dict_iter_ok_keys m _ s1 items1 tt s2 (fun k _ => grows_mark_active reg _ k) E1 H1)
      as (items2' & E2' & K2). rewrite E2 in E2'. simplify_eq. rewrite K2. by apply (Hspec m).
  - destruct (keys_le_list _ _ _ _ G1 E1) as [xs' E']. cbn in E2, E'. congruence.
Qed.

(** The [try] block on a document whose root is a non-empty dict. *)
Lemma read_config_dict doc r items v :
  doc !! r = Some (ODict items) -> items <> [] ->
  assoc_lookup (VStr (ps "models")) items = Some v ->
  read_config (CfgLoaded doc (VRef r)) init =
    (Ok (Some v), {| hs_heap := <[fresh (dom doc) := ODict []]> doc; hs_probes := [] |}).
Proof.
  intros Hr Hne Hv. set (s0 := {| hs_heap := doc; hs_probes := [] |}).
  set (d := fresh (dom doc)).
  assert (Hd : r <> d) by (intros ->; unfold d in Hr; rewrite fresh_not_lookup in Hr; done).
  unfold read_config. apply try_ok.
  rewrite (bind_ok _ _ _ (VRef r) s0) by reflexivity.
  rewrite (bind_ok _ _ _ true s0).
  2:{ unfold truthy. rewrite (bind_ok _ _ _ (ODict items) s0) by (apply read_ok; exact Hr).
      cbn. by rewrite bool_decide_false. }
  cbv beta iota. rewrite (bind_ok _ _ _ (VRef r) s0) by reflexivity.
  rewrite (bind_ok _ _ _ v {| hs_heap := <[d := ODict []]> doc; hs_probes := [] |}); [reflexivity|].
  unfold get_models. rewrite (bind_ok _ _ _ (ODict items) s0) by (apply read_ok; exact Hr).
  cbv beta iota. rewrite (bind_run (S:=state)), new_dict_run. cbv beta iota.
  rewrite (dict_get_dict _ _ items) by first [done | cbn; rewrite lookup_insert_ne; done].
  cbn. by rewrite Hv.
Qed.

(** ** Frames of the loop bodies *)

Lemma setitem_other_hub o k v s l :
  o <> VRef l -> hs_heap (setitem o k v s).2 !! l = hs_heap s !! l.
Proof. exact (setitem_other (St:=state) o k v s l). Qed.

(** [mark_active] on [models] changes no dict but [models[key]]. *)
Lemma mark_active_keeps reg m ms key s :
  hs_heap s !! m = Some (ODict ms) -> (forall k v, (k, v) ∈ ms -> v <> VRef m) ->
  hs_heap (mark_active reg (VRef m) key s).2 !! m = Some (ODict ms).
Proof.
  intros Hm Hvals. unfold mark_active. rewrite bind_run.
  destruct (str_of key s) as [r1 s1] eqn:E1.
  assert (s1 = s) as -> by (by rewrite <- (str_of_state key s), E1).
  destruct r1 as [name|e]; cbn [fst snd raise mret PyM_ret modify]; [|done].
  unfold probe. rewrite (bind_run (S:=state)), (bind_run (S:=state)). cbn [fst snd raise mret PyM_ret modify].
  remember {| hs_heap := hs_heap s; hs_probes := hs_probes s ++ [svc_prefix ++ name] |} as s2 eqn:Es2.
  assert (Hm2 : hs_heap s2 !! m = Some (ODict ms)) by (by subst s2).
  destruct (reg (svc_prefix ++ name)) as [rc|]; cbn [fst snd raise mret PyM_ret modify]; [|done].
  rewrite (bind_run (S:=state)).
  destruct (getitem (VRef m) key s2) as [r3 s3] eqn:E3.
  assert (s3 = s2) as -> by (by rewrite <- (getitem_state (VRef m) key s2), E3).
  destruct r3 as [target|e]; cbn [fst snd raise mret PyM_ret modify]; [|done].
  rewrite setitem_other_hub; [done|]. intros ->.
  unfold getitem in E3. rewrite (bind_ok _ _ _ (ODict ms) s2) in E3 by (apply read_ok; exact Hm2).
  cbn in E3. destruct (hashable key); [|done].
  destruct (assoc_lookup key ms) eqn:El; [|done]. unfold mret, PyM_ret in E3. simplify_eq.
  destruct (assoc_lookup_in _ _ _ El) as [k Hin]. exact (Hvals k _ Hin eq_refl).
Qed.

(** [enrich] changes no dict but [cfg]. *)
Lemma enrich_keeps req cfg s m :
  cfg <> VRef m -> hs_heap (enrich req cfg s).2 !! m = hs_heap s !! m.
Proof.
  intros Hne. unfold enrich. rewrite (bind_run (S:=state)).
  destruct (dict_get cfg _ _ s) as [r1 s1] eqn:E1.
  assert (s1 = s) as -> by (by rewrite <- (dict_get_state cfg (VStr (ps "port")) (VInt 0) s), E1).
  destruct r1 as [port|e]; cbn [fst snd raise mret PyM_ret modify]; [|done].
  rewrite (bind_run (S:=state)). unfold str_of; cbn [st_heap state_heap].
  destruct (py_str (hs_heap s) port) as [t|e]; cbn [fst snd raise mret PyM_ret modify]; [|done].
  rewrite (bind_run (S:=state)).
  destruct (setitem cfg _ _ s) as [[[]|e] s2] eqn:E2; cbn.
  - rewrite (bind_run (S:=state)). unfold json_dumps_m; cbn [st_heap state_heap].
    destruct (json_dumps (hs_heap s2) cfg) as [j|e]; cbn [fst snd raise mret PyM_ret modify].
    + rewrite setitem_other_hub by done.
      replace s2 with (setitem cfg (VStr (ps "url")) (VStr (make_url req t)) s).2 by (by rewrite E2).
      by rewrite setitem_other_hub.
    + replace s2 with (setitem cfg (VStr (ps "url")) (VStr (make_url req t)) s).2 by (by rewrite E2).
      by rewrite setitem_other_hub.
  - replace s2 with (setitem cfg (VStr (ps "url")) (VStr (make_url req t)) s).2 by (by rewrite E2).
    by rewrite setitem_other_hub.
Qed.

(** ** Configurations of the usual shape

    [models:] maps distinct names to distinct dicts whose attributes are
    scalars ([port], [type], paths, flags). *)
Record entry := Entry { e_name : pystr; e_loc : loc; e_attrs : list (pyval * pyval) }.

Definition models_items (es : list entry) : list (pyval * pyval) :=
  map (fun e => (VStr (e_name e), VRef (e_loc e))) es.

Definition flat_doc (root m : loc) (es : list entry) : heap :=
  <[root := ODict [(VStr (ps "models"), VRef m)]]> (
  <[m := ODict (models_items es)]> (
  insert_all e_loc (fun e => ODict (e_attrs e)) es ∅)).

Definition flat_config (root m : loc) (es : list entry) : Prop :=
  NoDup (map e_name es) /\ NoDup (map e_loc es) /\ root <> m /\
  (root ∉ map e_loc es) /\ (m ∉ map e_loc es) /\ Forall (fun e => flat_items (e_attrs e) = true) es.

(** tmux is installed: every probe gets an exit status. *)
Definition installed (reg : registry) : Prop := forall t, exists rc, reg t = Exited rc.

(** The registry reports the session [svc-<name>]. *)
Definition session_up (reg : registry) (name : pystr) : bool :=
  bool_decide (reg (svc_prefix ++ name) = Exited 0).

(** [cfg.get('port', 0)] *)
Definition configured_port (items : list (pyval * pyval)) : pyval :=
  default (VInt 0) (assoc_lookup (VStr (ps "port")) items).

(** The dicts after each loop, for one model. *)
Definition marked (reg : registry) (e : entry) : list (pyval * pyval) :=
  assoc_set (VStr (ps "active")) (VBool (session_up reg (e_name e))) (e_attrs e).

Definition with_url (req : request) (items : list (pyval * pyval)) : list (pyval * pyval) :=
  assoc_set (VStr (ps "url")) (VStr (make_url req (str_scalar (configured_port items)))) items.

Definition enriched (req : request) (items : list (pyval * pyval)) : list (pyval * pyval) :=
  let u := with_url req items in
  match json_flat u with
  | Ok j => assoc_set (VStr (ps "config_json")) (VStr j) u
  | Raise _ => u
  end.

(** One step of the first loop. *)
Lemma mark_active_step reg m ms e s :
  installed reg ->
  hs_heap s !! m = Some (ODict ms) ->
  assoc_lookup (VStr (e_name e)) ms = Some (VRef (e_loc e)) ->
  hs_heap s !! e_loc e = Some (ODict (e_attrs e)) ->
  mark_active reg (VRef m) (VStr (e_name e)) s =
    (Ok tt, {| hs_heap := <[e_loc e := ODict (marked reg e)]> (hs_heap s);
               hs_probes := hs_probes s ++ [svc_prefix ++ e_name e] |}).
Proof.
  intros Hreg Hm Hk Hl. unfold mark_active.
  rewrite (bind_ok _ _ _ (e_name e) s) by reflexivity.
  destruct (Hreg (svc_prefix ++ e_name e)) as [rc Hrc].
  set (s1 := {| hs_heap := hs_heap s; hs_probes := hs_probes s ++ [svc_prefix ++ e_name e] |}).
  rewrite (bind_ok _ _ _ rc s1) by (unfold probe; rewrite (bind_ok _ _ _ tt s1) by reflexivity; by rewrite Hrc).
  rewrite (bind_ok _ _ _ (VRef (e_loc e)) s1) by (apply (getitem_dict _ _ ms); done).
  rewrite (setitem_dict _ _ (e_attrs e)) by done.
  unfold marked, session_up. rewrite Hrc.
  assert (Hb : bool_decide (Exited rc = Exited 0) = Z.eqb rc 0).
  { apply Bool.eq_iff_eq_true. rewrite Z.eqb_eq, bool_decide_eq_true. split; [by intros [=] | by intros ->]. }
  by rewrite Hb.
Qed.

(** One step of the second loop, on a dict of scalars. *)
Lemma enrich_step req l items s :
  hs_heap s !! l = Some (ODict items) -> flat_items items = true ->
  enrich req (VRef l) s =
    (Ok tt, {| hs_heap := <[l := ODict (enriched req items)]> (hs_heap s); hs_probes := hs_probes s |}).
Proof.
  intros Hl Hflat. unfold enrich.
  rewrite (bind_ok _ _ _ (configured_port items) s) by (apply (dict_get_dict _ _ items); done).
  assert (Hport : hashable (configured_port items) = true).
  { unfold configured_port. destruct (assoc_lookup _ items) eqn:E; [|done]. by eapply flat_items_lookup. }
  rewrite (bind_ok _ _ _ (str_scalar (configured_port items)) s)
    by (unfold str_of; cbn; by destruct (configured_port items)).
  set (s1 := {| hs_heap := <[l := ODict (with_url req items)]> (hs_heap s); hs_probes := hs_probes s |}).
  rewrite (bind_ok _ _ _ tt s1) by (rewrite (setitem_dict _ _ items) by done; reflexivity).
  assert (Hflat1 : flat_items (with_url req items) = true) by (by apply flat_items_set).
  destruct (json_flat_ok _ Hflat1) as [j Hj].
  rewrite (bind_ok _ _ _ j s1).
  2:{ unfold json_dumps_m, s1. cbn [st_heap state_heap hs_heap].
      rewrite (json_dumps_flat _ _ (with_url req items)); [by rewrite Hj | | done].
      apply lookup_insert_eq. }
  rewrite (setitem_dict _ _ (with_url req items)) by (try apply lookup_insert_eq; done).
  cbn. unfold enriched. rewrite Hj. by rewrite insert_insert_eq.
Qed.

(** The first loop over the snapshot of [models]. *)
Lemma loop1_run reg m ms es s :
  installed reg -> hs_heap s !! m = Some (ODict ms) ->
  (forall e, e ∈ es -> assoc_lookup (VStr (e_name e)) ms = Some (VRef (e_loc e))) ->
  (forall e, e ∈ es -> hs_heap s !! e_loc e = Some (ODict (e_attrs e))) ->
  NoDup (map e_loc es) -> m ∉ map e_loc es ->
  for_each (models_items es) (fun kv => mark_active reg (VRef m) kv.1) s =
    (Ok tt, {| hs_heap := insert_all e_loc (fun e => ODict (marked reg e)) es (hs_heap s);
               hs_probes := hs_probes s ++ map (fun e => svc_prefix ++ e_name e) es |}).
Proof.
  revert s. induction es as [|e es IH]; intros s Hreg Hm Hk Hl Hnd Hmn.
  { cbn [models_items map for_each insert_all fold_left]. unfold mret, PyM_ret.
    rewrite app_nil_r. by destruct s. }
  simpl in Hnd. apply NoDup_cons in Hnd as [He Hnd].
  cbn [models_items map for_each]. cbv beta. cbn [fst].
  rewrite (bind_ok _ _ _ tt _ (mark_active_step reg m ms e s Hreg Hm (Hk e ltac:(set_solver)) (Hl e ltac:(set_solver)))).
  rewrite IH; [| done | | | | done | set_solver].
  - cbn [hs_heap hs_probes]. by rewrite insert_all_cons, <- app_assoc.
  - cbn [hs_heap]. rewrite lookup_insert_ne; [done|]. intros Heq. apply Hmn. rewrite <- Heq. set_solver.
  - intros e' He'. apply Hk. set_solver.
  - intros e' He'. cbn [hs_heap]. rewrite lookup_insert_ne; [apply Hl; set_solver|].
    intros Heq. apply He. rewrite Heq. by apply list_elem_of_map.
Qed.

(** The second loop, on dicts of scalars. *)
Lemma loop2_run req es cur s :
  (forall e, e ∈ es -> hs_heap s !! e_loc e = Some (ODict (cur e))) ->
  (forall e, e ∈ es -> flat_items (cur e) = true) ->
  NoDup (map e_loc es) ->
  for_each (models_items es) (fun kv => enrich req kv.2) s =
    (Ok tt, {| hs_heap := insert_all e_loc (fun e => ODict (enriched req (cur e))) es (hs_heap s);
               hs_probes := hs_probes s |}).
Proof.
  revert s. induction es as [|e es IH]; intros s Hl Hflat Hnd.
  { cbn [models_items map for_each insert_all fold_left]. unfold mret, PyM_ret. by destruct s. }
  simpl in Hnd. apply NoDup_cons in Hnd as [He Hnd].
  cbn [models_items map for_each]. cbv beta. cbn [snd].
  rewrite (bind_ok _ _ _ tt _ (enrich_step req (e_loc e) (cur e) s (Hl e ltac:(set_solver)) (Hflat e ltac:(set_solver)))).
  rewrite IH; [by rewrite insert_all_cons | | | done].
  - intros e' He'. cbn [hs_heap]. rewrite lookup_insert_ne; [apply Hl; set_solver|].
    intros Heq. apply He. rewrite Heq. by apply list_elem_of_map.
  - intros e' He'. apply Hflat. set_solver.
Qed.

Lemma models_items_lookup es e :
  NoDup (map e_name es) -> e ∈ es ->
  assoc_lookup (VStr (e_name e)) (models_items es) = Some (VRef (e_loc e)).
Proof.
  induction es as [|e0 es IH]; intros Hnd He; [set_solver|].
  simpl in Hnd. apply NoDup_cons in Hnd as [He0 Hnd]. cbn [models_items map assoc_lookup].
  rewrite key_eq_str. apply elem_of_cons in He as [->|He].
  - by rewrite bool_decide_true.
  - rewrite bool_decide_false; [by apply IH|].
    intros Heq. apply He0. rewrite <- Heq. by apply list_elem_of_map.
Qed.

Lemma models_items_vals es m k v :
  m ∉ map e_loc es -> (k, v) ∈ models_items es -> v <> VRef m.
Proof.
  intros Hm Hin ->. unfold models_items in Hin. rewrite list_elem_of_In, in_map_iff in Hin.
  destruct Hin as (e & [= _ He] & Hin). apply Hm. rewrite <- He. apply list_elem_of_map, list_elem_of_In, Hin.
Qed.

(** The flag and the URL a model's dict ends with. *)
Lemma enriched_lookups reg req e :
  let items := enriched req (marked reg e) in
  assoc_lookup (VStr (ps "active")) items = Some (VBool (session_up reg (e_name e))) /\
  assoc_lookup (VStr (ps "url")) items =
    Some (VStr (make_url req (str_scalar (configured_port (e_attrs e))))) /\
  (forall k, key_eq k (VStr (ps "active")) = false -> key_eq k (VStr (ps "url")) = false ->
     key_eq k (VStr (ps "config_json")) = false -> assoc_lookup k items = assoc_lookup k (e_attrs e)).
Proof.
  assert (Hport : configured_port (marked reg e) = configured_port (e_attrs e)).
  { unfold configured_port, marked. by rewrite assoc_lookup_set_ne. }
  cbv zeta. unfold enriched, with_url. rewrite Hport.
  destruct (json_flat _) as [j|]; repeat split.
  all: repeat (rewrite assoc_lookup_set_ne by first [done | reflexivity]).
  all: try (unfold marked; rewrite ?assoc_lookup_set_ne by reflexivity; by rewrite assoc_lookup_set_eq).
  all: try by rewrite assoc_lookup_set_eq.
  all: intros k H1 H2 H3; rewrite ?assoc_lookup_set_ne by done; unfold marked; by rewrite assoc_lookup_set_ne.
Qed.

(** [config_json] is the JSON of the dict as it stands after [url] is
    set, before [config_json] itself is added. *)
Lemma enriched_config_json req items :
  flat_items items = true ->
  exists j, json_flat (with_url req items) = Ok j /\
    assoc_lookup (VStr (ps "config_json")) (enriched req items) = Some (VStr j).
Proof.
  intros Hflat. destruct (json_flat_ok (with_url req items)) as [j Hj].
  { apply flat_items_set; [reflexivity | reflexivity | exact Hflat]. }
  exists j. split; [done|]. unfold enriched. rewrite Hj. by apply assoc_lookup_set_eq.
Qed.

(** The first loop, [for key in models], over the dict of models. *)
Lemma for_in_marks reg m es s :
  installed reg -> NoDup (map e_name es) -> NoDup (map e_loc es) -> m ∉ map e_loc es ->
  hs_heap s !! m = Some (ODict (models_items es)) ->
  (forall e, e ∈ es -> hs_heap s !! e_loc e = Some (ODict (e_attrs e))) ->
  for_in (VRef m) (mark_active reg (VRef m)) s =
    (Ok tt, {| hs_heap := insert_all e_loc (fun e => ODict (marked reg e)) es (hs_heap s);
               hs_probes := hs_probes s ++ map (fun e => svc_prefix ++ e_name e) es |}).
Proof.
  intros Hreg Hnames Hlocs Hm Hs_m Hs_e. unfold for_in.
  rewrite (bind_ok _ _ _ (ODict (models_items es)) s) by (apply read_ok; exact Hs_m). cbv beta iota.
  rewrite (dict_iter_snapshot (fun s => hs_heap s !! m = Some (ODict (models_items es))) m (models_items es) _ s);
    [| by intros | | exact Hs_m].
  - cbv beta. apply (loop1_run reg m (models_items es)); [done | exact Hs_m | | done | done | done].
    intros e He. by apply models_items_lookup.
  - intros key v s' Hin HI.
    pose proof (mark_active_keeps reg m (models_items es) key s' HI (fun k v H => models_items_vals es m k v Hm H)).
    destruct (mark_active reg (VRef m) key s') as [[] s''] eqn:E; cbn in *; done.
Qed.

(** The second loop, [for key, cfg in models.items()]. *)
Lemma for_items_enriches req m es cur s :
  NoDup (map e_loc es) -> m ∉ map e_loc es -> hs_heap s !! m = Some (ODict (models_items es)) ->
  (forall e, e ∈ es -> hs_heap s !! e_loc e = Some (ODict (cur e))) ->
  (forall e, e ∈ es -> flat_items (cur e) = true) ->
  for_items (VRef m) (fun _ c => enrich req c) s =
    (Ok tt, {| hs_heap := insert_all e_loc (fun e => ODict (enriched req (cur e))) es (hs_heap s);
               hs_probes := hs_probes s |}).
Proof.
  intros Hlocs Hm Hs_m Hs_e Hflat. unfold for_items.
  rewrite (bind_ok _ _ _ (ODict (models_items es)) s) by (apply read_ok; exact Hs_m). cbv beta iota.
  rewrite (dict_iter_snapshot (fun s => hs_heap s !! m = Some (ODict (models_items es))) m (models_items es) _ s);
    [| by intros | | exact Hs_m].
  - cbv beta. by apply loop2_run.
  - intros key v s' Hin HI. pose proof (enrich_keeps req v s' m (models_items_vals es m key v Hm Hin)) as Hk.
    destruct (enrich req v s') as [[[]|e] s''] eqn:E; [|done]. cbn [fst snd] in Hk |- *. by rewrite Hk.
Qed.

(** The run on a configuration of the usual shape: the [models] dict is
    returned unchanged and each model's dict ends as [enriched] of
    [marked]. *)
Lemma live_flat_state reg req root m es :
  flat_config root m es -> installed reg ->
  exists s, run_live reg req (CfgLoaded (flat_doc root m es) (VRef root)) = (Ok (VRef m), s) /\
    hs_probes s = map (fun e => svc_prefix ++ e_name e) es /\
    hs_heap s !! m = Some (ODict (models_items es)) /\
    forall e, e ∈ es -> hs_heap s !! e_loc e = Some (ODict (enriched req (marked reg e))).
Proof.
  intros (Hnames & Hlocs & Hrm & Hroot & Hm & Hflat) Hreg.
  rewrite Forall_forall in Hflat.
  set (doc := flat_doc root m es). set (ms := models_items es).
  set (d := fresh (dom doc)).
  assert (Hdoc_m : doc !! m = Some (ODict ms)).
  { unfold doc, flat_doc. rewrite lookup_insert_ne by done. apply lookup_insert_eq. }
  assert (Hdoc_e : forall e, e ∈ es -> doc !! e_loc e = Some (ODict (e_attrs e))).
  { intros e He. assert (e_loc e ∈ map e_loc es) by (by apply list_elem_of_map).
    unfold doc, flat_doc. rewrite !lookup_insert_ne by set_solver.
    by apply (insert_all_in e_loc (fun e => ODict (e_attrs e))). }
  assert (Hd_m : m <> d) by (intros Heq; pose proof (fresh_not_lookup doc); fold d in H; congruence).
  assert (Hd_e : forall e, e ∈ es -> e_loc e <> d).
  { intros e He Heq. pose proof (fresh_not_lookup doc). fold d in H. rewrite <- Heq, Hdoc_e in H; done. }
  assert (Hrc := read_config_dict doc root _ (VRef m) (lookup_insert_eq _ _ _) ltac:(discriminate) eq_refl).
  fold d in Hrc. set (s1 := {| hs_heap := <[d := ODict []]> doc; hs_probes := [] |}) in Hrc.
  unfold run_live, run, get_live_data. rewrite (bind_ok _ _ _ _ _ Hrc). cbv beta iota.
  (* the first loop *)
  set (h2 := insert_all e_loc (fun e => ODict (marked reg e)) es (hs_heap s1)).
  set (s2 := {| hs_heap := h2; hs_probes := [] ++ map (fun e => svc_prefix ++ e_name e) es |}).
  assert (Hs1_m : hs_heap s1 !! m = Some (ODict ms)) by (cbn; by rewrite lookup_insert_ne).
  assert (H1 : for_in (VRef m) (mark_active reg (VRef m)) s1 = (Ok tt, s2)).
  { apply for_in_marks; try done. intros e He. cbn. rewrite lookup_insert_ne by (by apply not_eq_sym, Hd_e).
    by apply Hdoc_e. }
  rewrite (bind_ok _ _ _ tt s2 H1).
  (* the second loop *)
  assert (Hs2_m : hs_heap s2 !! m = Some (ODict ms)) by (cbn; unfold h2; by rewrite insert_all_notin).
  assert (Hs2_e : forall e, e ∈ es -> hs_heap s2 !! e_loc e = Some (ODict (marked reg e))).
  { intros e He. cbn. unfold h2. by apply (insert_all_in e_loc (fun e => ODict (marked reg e))). }
  set (s3 := {| hs_heap := insert_all e_loc (fun e => ODict (enriched req (marked reg e))) es h2;
                hs_probes := [] ++ map (fun e => svc_prefix ++ e_name e) es |}).
  assert (H2 : for_items (VRef m) (fun _ c => enrich req c) s2 = (Ok tt, s3)).
  { apply for_items_enriches; try done. intros e He.
    apply flat_items_set; [reflexivity | by destruct (session_up _ _) | by apply Hflat]. }
  rewrite (bind_ok _ _ _ tt s3 H2).
  exists s3. split; [reflexivity|]. split; [reflexivity|]. split.
  - cbn. rewrite insert_all_notin by done. exact Hs2_m.
  - intros e He. cbn. by apply (insert_all_in e_loc (fun e => ODict (enriched req (marked reg e)))).
Qed.

(** C2. For a configuration of the usual shape (distinct names mapped to
    distinct dicts of scalar attributes) and an installed tmux, the
    handler returns the [models] dict, probes [svc-<name>] once per model
    in order, and leaves each model's dict with [active] set to whether
    its own session exists, [url] set to [scheme://host:port] with the
    configured port (or 0), [config_json] set to the JSON of the dict
    holding those two, and every other attribute unchanged. *)
Theorem live_flat_enrichment reg req root m es :
  flat_config root m es -> installed reg ->
  exists s, run_live reg req (CfgLoaded (flat_doc root m es) (VRef root)) = (Ok (VRef m), s) /\
    hs_probes s = map (fun e => svc_prefix ++ e_name e) es /\
    forall e, e ∈ es -> exists items, hs_heap s !! e_loc e = Some (ODict items) /\
      assoc_lookup (VStr (ps "active")) items = Some (VBool (session_up reg (e_name e))) /\
      assoc_lookup (VStr (ps "url")) items =
        Some (VStr (make_url req (str_scalar (configured_port (e_attrs e))))) /\
      (exists j, json_flat (with_url req (marked reg e)) = Ok j /\
         assoc_lookup (VStr (ps "config_json")) items = Some (VStr j)) /\
      (forall k, key_eq k (VStr (ps "active")) = false -> key_eq k (VStr (ps "url")) = false ->
         key_eq k (VStr (ps "config_json")) = false -> assoc_lookup k items = assoc_lookup k (e_attrs e)).
Proof.
  intros Hcfg Hreg. destruct (live_flat_state reg req root m es Hcfg Hreg) as (s & Hrun & Hp & _ & He).
  exists s. split; [done|]. split; [done|]. intros e Hin. exists (enriched req (marked reg e)). split; [by apply He|].
  destruct (enriched_lookups reg req e) as (Ha & Hu & Ho). split; [done|]. split; [done|]. split; [|done].
  destruct Hcfg as (_ & _ & _ & _ & _ & Hflat). rewrite Forall_forall in Hflat.
  apply enriched_config_json, flat_items_set; [reflexivity | by destruct (session_up _ _) | by apply Hflat].
Qed.

(** ** Missing or broken configuration *)

(** C13. When [models.yaml] is absent, unreadable or not YAML, the handler
    returns a fresh empty dict and issues no tmux probe. *)
Theorem live_no_config reg req cfg :
  (cfg = CfgMissing \/ cfg = CfgBroken) ->
  exists l s, run_live reg req cfg = (Ok (VRef l), s) /\
              hs_heap s !! l = Some (ODict []) /\ hs_probes s = [].
Proof.
  intros [-> | ->]; eexists _, _; (split; [reflexivity|]); split; [apply lookup_insert_eq | done | apply lookup_insert_eq | done].
Qed.

(** ** A [models:] entry that is not a mapping *)

(** C33. A document whose [models:] key holds [null], a boolean, a number
    or a date (for instance [models:] left empty) makes [get_live_data]
    raise [TypeError] in [for key in models], outside the [try]: the
    request fails with HTTP 500 instead of showing an empty registry. *)
Theorem live_models_scalar_raises reg req doc r items v :
  doc !! r = Some (ODict items) -> items <> [] ->
  assoc_lookup (VStr (ps "models")) items = Some v ->
  (v = VNone \/ (exists b, v = VBool b) \/ (exists z, v = VInt z) \/ (exists a b, v = VOpaque a b)) ->
  (run_live reg req (CfgLoaded doc (VRef r))).1 = Raise TypeError.
Proof.
  intros Hr Hne Hv Hsc. unfold run_live, run, get_live_data.
  assert (Hrc := read_config_dict doc r items v Hr Hne Hv).
  rewrite (bind_ok _ _ _ _ _ Hrc). cbv beta iota.
  destruct Hsc as [-> | [[b ->] | [[z ->] | [a [b ->]]]]]; reflexivity.
Qed.

(** ** No tmux binary *)

(** [subprocess.run] raises [FileNotFoundError] when [tmux] cannot be
    started; the first loop does not catch it. *)
Lemma mark_active_not_installed reg models key s :
  hashable key = true -> reg (svc_prefix ++ str_scalar key) = NotInstalled ->
  (mark_active reg models key s).1 = Raise OSError.
Proof.
  intros Hk Hreg. unfold mark_active.
  rewrite (bind_ok _ _ _ (str_scalar key) s) by (destruct key; done).
  unfold probe. rewrite bind_run. cbn [fst snd modify]. rewrite Hreg. reflexivity.
Qed.

(** C32. When the probe of the first configured model cannot start tmux
    (no tmux installed), [get_live_data] raises [OSError] instead of
    marking the model inactive: the page fails with HTTP 500. *)
Theorem live_tmux_missing_raises reg req doc r items m k x rest :
  doc !! r = Some (ODict items) -> items <> [] ->
  assoc_lookup (VStr (ps "models")) items = Some (VRef m) ->
  doc !! m = Some (ODict ((k, x) :: rest)) -> hashable k = true ->
  reg (svc_prefix ++ str_scalar k) = NotInstalled ->
  (run_live reg req (CfgLoaded doc (VRef r))).1 = Raise OSError.
Proof.
  intros Hr Hne Hv Hm Hk Hreg. unfold run_live, run, get_live_data.
  rewrite (bind_ok _ _ _ _ _ (read_config_dict doc r items _ Hr Hne Hv)). cbv beta iota.
  set (s1 := {| hs_heap := <[fresh (dom doc) := ODict []]> doc; hs_probes := [] |}).
  assert (Hs1 : st_heap s1 !! m = Some (ODict ((k, x) :: rest))).
  { cbn. rewrite lookup_insert_ne; [done|]. intros Heq. rewrite <- Heq, fresh_not_lookup in Hm. done. }
  rewrite bind_run. unfold for_in.
  rewrite (bind_ok _ _ _ _ _ (read_ok _ _ _ Hs1)). cbv beta iota. unfold dict_iter.
  rewrite (bind_ok _ _ _ _ _ (read_ok _ _ _ Hs1)). cbv beta iota. cbn [dict_iter_go length].
  rewrite (bind_ok _ _ _ _ _ (read_ok _ _ _ Hs1)). cbv beta iota.
  rewrite bool_decide_true by done. cbn [lookup list_lookup]. rewrite bind_run.
  destruct (mark_active reg (VRef m) k s1) as [r1 s2] eqn:E.
  pose proof (mark_active_not_installed reg (VRef m) k s1 Hk Hreg) as Hma.
  rewrite E in Hma. cbn in Hma. subst r1. reflexivity.
Qed.

(** ** URL synthesis *)

(** C23. The reachability URL uses the request's scheme and host name,
    with any [:port] suffix of the [Host] header replaced by the model's
    port. *)
Theorem make_url_strips_port scheme host sfx port :
  58%N ∉ host ->
  make_url {| req_scheme := scheme; req_host := host ++ 58%N :: sfx |} port =
  scheme ++ ps "://" ++ host ++ ps ":" ++ port.
Proof. intros H. unfold make_url, host_name. cbn [req_scheme req_host]. by rewrite split_first_app_sep. Qed.

Lemma make_url_strips_port_witness :
  (58%N ∉ ps "example.com") /\
  make_url {| req_scheme := ps "https"; req_host := ps "example.com" ++ 58%N :: ps "9999" |} (ps "8080") =
  ps "https://example.com:8080".
Proof.
  split; [by_decide|]. rewrite make_url_strips_port; [reflexivity | by_decide].
Defined.

(** An IPv6 [Host] header such as [[::1]:5000] is cut at its first
    colon: the synthesized URL is [http://[:8000], not a usable address. *)
Theorem make_url_ipv6_host :
  make_url {| req_scheme := ps "http"; req_host := ps "[::1]:5000" |} (ps "8000") = ps "http://[:8000".
Proof. reflexivity. Qed.

(** ** The scenario of the specification *)

Definition demo_doc : heap :=
  <[Loc 0 := ODict [(VStr (ps "models"), VRef (Loc 1))]]> (
  <[Loc 1 := ODict [(VStr (ps "alpha"), VRef (Loc 2)); (VStr (ps "beta"), VRef (Loc 3))]]> (
  <[Loc 2 := ODict [(VStr (ps "port"), VInt 8000)]]> (
  <[Loc 3 := ODict [(VStr (ps "port"), VInt 8001)]]> ∅))).

Definition demo_cfg : config_file := CfgLoaded demo_doc (VRef (Loc 0)).

Definition demo_registry : registry := fun t =>
  if bool_decide (t = ps "svc-alpha") then Exited 0 else Exited 1.

Definition demo_request : request := {| req_scheme := ps "http"; req_host := ps "10.0.0.5" |}.

(** ** Two names sharing one YAML node *)

(** [alpha: &node {port: 8000}] and [beta: *node]: both names denote one
    dict, as [yaml.safe_load] builds it. *)
Definition alias_doc : heap :=
  <[Loc 0 := ODict [(VStr (ps "models"), VRef (Loc 1))]]> (
  <[Loc 1 := ODict [(VStr (ps "alpha"), VRef (Loc 2)); (VStr (ps "beta"), VRef (Loc 2))]]> (
  <[Loc 2 := ODict [(VStr (ps "port"), VInt 8000)]]> ∅)).

Definition alias_cfg : config_file := CfgLoaded alias_doc (VRef (Loc 0)).

(** A tmux server with or without the sessions [svc-alpha], [svc-beta]:
    [has-session] exits with 0 when the session exists and 1 otherwise. *)
Definition session_rc (up : bool) : proc_outcome := Exited (if up then 0 else 1).

Definition pair_registry (a b : bool) : registry := fun t =>
  if bool_decide (t = svc_prefix ++ ps "alpha") then session_rc a
  else if bool_decide (t = svc_prefix ++ ps "beta") then session_rc b
  else session_rc false.

(** Isolation fails for aliased entries: [alpha]'s record (the shared
    dict) shows the liveness of [beta]'s session, whether or not
    [svc-alpha] exists. *)
Theorem live_alias_shares_flag a b :
  exists s items, run_live (pair_registry a b) demo_request alias_cfg = (Ok (VRef (Loc 1)), s) /\
    hs_heap s !! Loc 1 = Some (ODict [(VStr (ps "alpha"), VRef (Loc 2)); (VStr (ps "beta"), VRef (Loc 2))]) /\
    hs_heap s !! Loc 2 = Some (ODict items) /\
    assoc_lookup (VStr (ps "active")) items = Some (VBool b).
Proof.
  destruct a, b; (eexists _, _; split; [vm_compute; reflexivity|];
    split; [vm_compute; reflexivity|]; split; [vm_compute; reflexivity|]; vm_compute; reflexivity).
Qed.

Lemma live_no_config_witness :
  (CfgBroken = CfgMissing \/ CfgBroken = CfgBroken) /\
  exists l s, run_live demo_registry demo_request CfgBroken = (Ok (VRef l), s) /\
              hs_heap s !! l = Some (ODict []) /\ hs_probes s = [].
Proof. split; [right; reflexivity|]. apply live_no_config. right. reflexivity. Defined.

(** [models:] left empty in the file. *)
Definition null_models_doc : heap := <[Loc 0 := ODict [(VStr (ps "models"), VNone)]]> ∅.

Lemma live_models_scalar_raises_witness :
  (run_live demo_registry demo_request (CfgLoaded null_models_doc (VRef (Loc 0)))).1 = Raise TypeError.
Proof.
  apply (live_models_scalar_raises _ _ _ _ [(VStr (ps "models"), VNone)] VNone);
    [reflexivity | by_decide | reflexivity | left; reflexivity].
Defined.

Lemma live_names_exact_witness :
  exists l items, VRef (Loc 1) = VRef l /\
    hs_heap (run_live demo_registry demo_request demo_cfg).2 !! l = Some (ODict items) /\
    map fst items = configured_names demo_cfg.
Proof.
  apply (live_names_exact demo_registry demo_request demo_cfg (VRef (Loc 1))
           (run_live demo_registry demo_request demo_cfg).2).
  vm_compute. reflexivity.
Defined.

(** The scenario of the specification as a list of entries. *)
Definition demo_entries : list entry :=
  [Entry (ps "alpha") (Loc 2) [(VStr (ps "port"), VInt 8000)];
   Entry (ps "beta") (Loc 3) [(VStr (ps "port"), VInt 8001)]].

Lemma live_flat_enrichment_witness :
  (flat_config (Loc 0) (Loc 1) demo_entries /\ installed demo_registry) /\
  exists s, run_live demo_registry demo_request
              (CfgLoaded (flat_doc (Loc 0) (Loc 1) demo_entries) (VRef (Loc 0))) = (Ok (VRef (Loc 1)), s) /\
            hs_probes s = [ps "svc-alpha"; ps "svc-beta"].
Proof.
  assert (Hf : flat_config (Loc 0) (Loc 1) demo_entries) by (unfold flat_config; by_decide).
  assert (Hi : installed demo_registry) by (intros t; unfold demo_registry; case_decide; eexists; reflexivity).
  split; [split; assumption|].
  destruct (live_flat_enrichment demo_registry demo_request (Loc 0) (Loc 1) demo_entries Hf Hi)
    as (s & Hr & Hp & _).
  exists s. split; [exact Hr|]. rewrite Hp. reflexivity.
Defined.

Lemma live_tmux_missing_raises_witness :
  (run_live (fun _ => NotInstalled) demo_request demo_cfg).1 = Raise OSError.
Proof.
  apply (live_tmux_missing_raises _ _ demo_doc (Loc 0) [(VStr (ps "models"), VRef (Loc 1))] (Loc 1)
           (VStr (ps "alpha")) (VRef (Loc 2)) [(VStr (ps "beta"), VRef (Loc 3))]);
    [reflexivity | by_decide | reflexivity | reflexivity | reflexivity | reflexivity].
Defined.

End Hub.
