(* ===== verification/Gallery.v ===== *)
(** * The gallery's listing and pagination: [index] of [src/run/flask_img_viewer.py]

    [index] reads [limit] and [page] from the query string with
    [request.args.get(..., type=int)], lists the directory, keeps the
    image files that are not hidden, sorts them in reverse order, and
    passes one page of them to the template together with the counts the
    template shows.  [os.listdir] returns the names in an order the file
    system chooses; the directory is an input of the model. *)

From Stdlib Require Import String.
From S2P Require Import Prelude PyInt PyDiv.
From stdpp Require Import sorting.

Module Gallery.

(** ** Text order and the file filter *)

(** Python's [<] on [str]: code points compared lexicographically. *)
Fixpoint str_ltb (a b : pystr) : bool :=
  match a, b with
  | [], [] => false
  | [], _ :: _ => true
  | _ :: _, [] => false
  | x :: a', y :: b' => if (x <? y)%N then true else if (y <? x)%N then false else str_ltb a' b'
  end.

(** [a >= b]: the order [sort(reverse=True)] arranges the names in. *)
Definition str_ge (a b : pystr) : Prop := str_ltb a b = false.

#[export] Instance str_ge_dec : RelDecision str_ge.
Proof. intros a b. unfold str_ge. apply _. Defined.

(** [('.png', '.jpg', '.jpeg', '.webp')] *)
Definition image_exts : list pystr := [ps ".png"; ps ".jpg"; ps ".jpeg"; ps ".webp"].

(** [f.lower().endswith((...)) and not f.startswith('.')] *)
Definition is_image_name (f : pystr) : bool :=
  existsb (endswith (lower f)) image_exts && negb (startswith f (ps ".")).

(** [all_files.sort(reverse=True)]: a stable sort under the reversed
    comparison, that is a stable merge sort for [>=]. *)
Definition sort_desc (l : list pystr) : list pystr := merge_sort str_ge l.

(** Line 158-159: the names [os.listdir] returned, filtered and sorted. *)
Definition listing (names : list pystr) : list pystr := sort_desc (filter is_image_name names).

(** ** The query string *)

(** The query string as werkzeug's [MultiDict]: pairs in order. *)
Definition query := list (pystr * pystr).

(** [request.args.get(key, default=d, type=int)]: the first value of the
    key, converted by [int]; a missing key or a [ValueError] gives [d]. *)
Definition arg_int (q : query) (key : pystr) (d : Z) : Z :=
  match find (fun kv => bool_decide (kv.1 = key)) q with
  | None => d
  | Some (_, v) => default d (py_int v)
  end.

(** The query of the pagination links [?page={{ page+1 }}&limit={{ limit }}]
    (their text is digits and [-], which URL decoding leaves as is). *)
Definition page_query (p l : Z) : query := [(ps "page", z_repr p); (ps "limit", z_repr l)].

(** ** The handler *)

(** The globals [IMAGE_DIR] and [ALLOW_DELETE] set by the command line. *)
Record config := { image_dir : pystr; allow_delete : bool }.

(** What [index] passes to the template. *)
Record page := {
  pg_images : list pystr;
  pg_path : pystr;
  pg_allow_delete : bool;
  pg_page : Z;
  pg_limit : Z;
  pg_total : Z;
  pg_total_pages : Z;
}.

(** Lines 164-166: [all_files[start:end]]. *)
Definition paginate (files : list pystr) (page limit : Z) : list pystr :=
  let start := ((page - 1) * limit)%Z in
  let stop := (start + limit)%Z in
  py_slice files start stop.

(** [index()], lines 152-175.  [dir] is what [os.listdir(IMAGE_DIR)]
    returns, [None] when it raises. *)
Definition index (cfg : config) (dir : option (list pystr)) (q : query) : res page :=
  let limit := arg_int q (ps "limit") 25 in
  let page := arg_int q (ps "page") 1 in
  match dir with
  | None => Raise OSError
  | Some names =>
      let all_files := listing names in
      let total := Z.of_nat (length all_files) in
      (* math.ceil(total / limit): ZeroDivisionError, OverflowError *)
      match ceil_div total limit with
      | Ok total_pages =>
          Ok {| pg_images := paginate all_files page limit;
                pg_path := image_dir cfg;
                pg_allow_delete := allow_delete cfg;
                pg_page := page;
                pg_limit := limit;
                pg_total := total;
                pg_total_pages := total_pages |}
      | Raise e => Raise e
      end
  end.

(** ** The order of names *)

Lemma str_ltb_irrefl a : str_ltb a a = false.
Proof. induction a as [|x a IH]; [done|]. cbn. by rewrite N.ltb_irrefl. Qed.

Lemma str_ltb_cons x a y b :
  str_ltb (x :: a) (y :: b) = true <-> (x < y)%N \/ (x = y /\ str_ltb a b = true).
Proof.
  cbn. destruct (N.ltb_spec x y) as [H1|H1], (N.ltb_spec y x) as [H2|H2]; split; intros H;
    first [done | lia | by left | (right; split; [lia | done]) | (destruct H as [?|[? ?]]; first [lia | done])].
Qed.

Lemma str_ltb_asym a b : str_ltb a b = true -> str_ltb b a = false.
Proof.
  revert b. induction a as [|x a IH]; intros [|y b] H; try done.
  apply not_true_is_false. rewrite str_ltb_cons in *. intros Hb. destruct H as [H|[-> H]], Hb as [Hb|[? Hb]];
    try lia. by rewrite (IH b H) in Hb.
Qed.

Lemma str_ltb_trans a b c : str_ltb a b = true -> str_ltb b c = true -> str_ltb a c = true.
Proof.
  revert b c. induction a as [|x a IH]; intros [|y b] [|z c] Hab Hbc; try done.
  rewrite str_ltb_cons in *. destruct Hab as [Hab|[-> Hab]], Hbc as [Hbc|[-> Hbc]]; auto with lia.
  right. split; [done|]. by apply (IH b).
Qed.

Lemma str_ltb_total a b : a <> b -> str_ltb a b = true \/ str_ltb b a = true.
Proof.
  revert b. induction a as [|x a IH]; intros [|y b] Hne; try by auto.
  rewrite !str_ltb_cons. destruct (N.lt_trichotomy x y) as [?|[->|?]]; auto.
  destruct (IH b) as [?|?]; [congruence | auto | auto].
Qed.

#[export] Instance str_ge_trans : Transitive str_ge.
Proof.
  intros a b c Hab Hbc. unfold str_ge in *. apply not_true_is_false. intros Hac.
  destruct (decide (a = b)) as [->|Hne]; [congruence|].
  destruct (str_ltb_total a b Hne) as [H|H]; [congruence|].
  by rewrite (str_ltb_trans b a c H Hac) in Hbc.
Qed.

#[export] Instance str_ge_antisymm : AntiSymm (=) str_ge.
Proof.
  intros a b Hab Hba. unfold str_ge in *. destruct (decide (a = b)) as [|Hne]; [done|].
  destruct (str_ltb_total a b Hne); congruence.
Qed.

#[export] Instance str_ge_total : Total str_ge.
Proof.
  intros a b. unfold str_ge. destruct (str_ltb a b) eqn:E; [right; by apply str_ltb_asym | by left].
Qed.

(** ** Pages *)

(** A positive page of a positive size is a window of the listing. *)
Lemma paginate_pos files p l :
  (0 < l)%Z -> (1 <= p)%Z ->
  paginate files p l = take (Z.to_nat l) (drop (Z.to_nat ((p - 1) * l)) files).
Proof.
  intros Hl Hp. unfold paginate. rewrite py_slice_nonneg by nia. do 2 f_equal. lia.
Qed.

(** The first [k] pages, one after the other, are the first [k * limit]
    files. *)
Lemma pages_prefix files l k :
  (0 < l)%Z ->
  concat ((fun p => paginate files p l) <$> seqZ 1 (Z.of_nat k)) = take (k * Z.to_nat l) files.
Proof.
  intros Hl. induction k as [|k IH]; [by rewrite seqZ_nil by lia|].
  rewrite seqZ_S, fmap_app, concat_app, IH. cbn [fmap list_fmap concat]. rewrite app_nil_r.
  rewrite paginate_pos by lia. replace (Z.to_nat ((1 + Z.of_nat k - 1) * l)) with (k * Z.to_nat l) by nia.
  rewrite take_take_drop. f_equal. lia.
Qed.

Lemma arg_int_page_query p l :
  (Z.abs p < 2 ^ 64)%Z -> (Z.abs l < 2 ^ 64)%Z ->
  arg_int (page_query p l) (ps "page") 1 = p /\ arg_int (page_query p l) (ps "limit") 25 = l.
Proof.
  intros Hp Hl. unfold arg_int, page_query. cbn [find fst].
  rewrite bool_decide_true by done. rewrite bool_decide_false by by_decide. rewrite bool_decide_true by done.
  by rewrite !py_int_z_repr_small.
Qed.

(** What [index] returns on a listed directory. *)
Lemma index_ok cfg names q pg :
  index cfg (Some names) q = Ok pg <->
  exists tp, ceil_div (Z.of_nat (length (listing names))) (arg_int q (ps "limit") 25) = Ok tp /\
    pg = {| pg_images := paginate (listing names) (arg_int q (ps "page") 1) (arg_int q (ps "limit") 25);
            pg_path := image_dir cfg; pg_allow_delete := allow_delete cfg;
            pg_page := arg_int q (ps "page") 1; pg_limit := arg_int q (ps "limit") 25;
            pg_total := Z.of_nat (length (listing names)); pg_total_pages := tp |}.
Proof.
  unfold index. destruct (ceil_div _ _) as [tp|e]; split.
  - intros [= <-]. by exists tp.
  - by intros (? & [= <-] & ->).
  - done.
  - by intros (? & ? & _).
Qed.

(** [index] on the query of a pagination link. *)
Lemma index_page_query cfg names p l :
  (0 < l)%Z -> (Z.abs p < 2 ^ 64)%Z -> (Z.abs l < 2 ^ 64)%Z -> (Z.of_nat (length (listing names)) <= 2 ^ 52)%Z ->
  index cfg (Some names) (page_query p l) =
  Ok {| pg_images := paginate (listing names) p l; pg_path := image_dir cfg;
        pg_allow_delete := allow_delete cfg; pg_page := p; pg_limit := l;
        pg_total := Z.of_nat (length (listing names));
        pg_total_pages := exact_ceil (Z.of_nat (length (listing names))) l |}.
Proof.
  intros Hl0 Hp Hl Hn. destruct (arg_int_page_query p l Hp Hl) as [Ep El].
  unfold index. rewrite Ep, El. rewrite ceil_div_exact; [done | lia |].
  split; [done|]. apply Z.lt_le_incl, Z.lt_le_trans with (2 ^ 64)%Z; [lia | apply Z.pow_le_mono_r; lia].
Qed.

Lemma length_listing names : (length (listing names) <= length names)%nat.
Proof.
  unfold listing, sort_desc. rewrite (Permutation_length (merge_sort_Permutation _ _)).
  apply length_filter.
Qed.

(** ** The listing as a function of the set of names *)

(** Sorting does not see the order of its input. *)
Lemma sort_desc_perm l1 l2 : l1 ≡ₚ l2 -> sort_desc l1 = sort_desc l2.
Proof.
  intros Hp. unfold sort_desc. apply (Sorted_unique str_ge).
  1,2: apply Sorted_merge_sort; typeclasses eauto.
  by rewrite !merge_sort_Permutation, Hp.
Qed.

Lemma StronglySorted_filter {A} (R : relation A) (P : A -> Prop) `{forall x, Decision (P x)} l :
  StronglySorted R l -> StronglySorted R (filter P l).
Proof.
  induction 1 as [|x l Hl IH Hx]; [constructor|]. rewrite filter_cons.
  case_decide; [|done]. constructor; [done|].
  rewrite Forall_forall in Hx |- *. intros y [_ Hy]%list_elem_of_filter. by apply Hx.
Qed.

(** Leaving names out of the directory leaves them out of the listing. *)
Lemma listing_filter (P : pystr -> Prop) `{forall x, Decision (P x)} l :
  listing (filter P l) = filter P (listing l).
Proof.
  unfold listing, sort_desc. apply (StronglySorted_unique str_ge).
  - apply StronglySorted_merge_sort; typeclasses eauto.
  - apply StronglySorted_filter, StronglySorted_merge_sort; typeclasses eauto.
  - rewrite merge_sort_Permutation, (merge_sort_Permutation _ (filter is_image_name l)).
    rewrite !list_filter_filter. apply reflexive_eq, list_filter_iff. tauto.
Qed.

(** Two directories with the same visible images have the same listing. *)
Lemma listing_ext l1 l2 :
  NoDup l1 -> NoDup l2 -> (forall m, is_image_name m = true -> m ∈ l1 <-> m ∈ l2) ->
  listing l1 = listing l2.
Proof.
  intros H1 H2 Hm. unfold listing. apply sort_desc_perm, NoDup_Permutation; [by apply NoDup_filter..|].
  intros m. rewrite !list_elem_of_filter. specialize (Hm m). destruct (is_image_name m); naive_solver.
Qed.

(** A served page shows images of the listing, in its order. *)
Lemma index_images cfg names q pg :
  index cfg (Some names) q = Ok pg -> pg_images pg `sublist_of` listing names.
Proof. intros (tp & _ & ->)%index_ok. apply py_slice_sublist. Qed.

Lemma NoDup_listing names : NoDup names -> NoDup (listing names).
Proof. intros Hn. unfold listing, sort_desc. rewrite merge_sort_Permutation. by apply NoDup_filter. Qed.

(** The last page of a positive [limit] is the rest of the listing. *)
Lemma last_page_rest files p l :
  (0 < l)%Z -> (1 <= p)%Z -> p = exact_ceil (Z.of_nat (length files)) l ->
  paginate files p l = drop (Z.to_nat ((p - 1) * l)) files.
Proof.
  intros Hl Hp Hc. rewrite paginate_pos by done. apply take_ge. rewrite length_drop.
  pose proof (exact_ceil_spec (Z.of_nat (length files)) l ltac:(lia) Hl). nia.
Qed.

(** A positive [total_pages] of at most [2^52] files is the exact
    ceiling of [total / limit]. *)
Lemma index_total_pages cfg names q pg :
  index cfg (Some names) q = Ok pg -> (0 < pg_limit pg)%Z -> (pg_total pg <= 2 ^ 52)%Z ->
  (1 <= pg_total_pages pg)%Z -> pg_total_pages pg = exact_ceil (pg_total pg) (pg_limit pg).
Proof.
  intros (tp & Htp & ->)%index_ok Hl HT H1; cbn in *.
  destruct (Z.eq_dec (Z.of_nat (length (listing names))) 0%Z) as [E0|]; [|apply ceil_div_pos; [lia|lia|done|lia]].
  rewrite E0, ceil_div_zero in Htp by lia. injection Htp as <-. lia.
Qed.

(** When every image of the last page is gone from the listing, the
    same query asks for a page past the end: no images, and one page
    fewer than the page number. *)
Lemma index_last_page_gone cfg names names' q pg :
  index cfg (Some names) q = Ok pg -> NoDup names -> (0 < pg_limit pg)%Z -> (1 <= pg_page pg)%Z ->
  (pg_total pg <= 2 ^ 52)%Z -> pg_page pg = pg_total_pages pg ->
  listing names' = filter (fun m => m ∉ pg_images pg) (listing names) ->
  index cfg (Some names') q =
    Ok {| pg_images := []; pg_path := pg_path pg; pg_allow_delete := pg_allow_delete pg;
          pg_page := pg_page pg; pg_limit := pg_limit pg;
          pg_total := (pg_page pg - 1) * pg_limit pg; pg_total_pages := pg_page pg - 1 |}.
Proof.
  intros Hi Hnd Hl Hp HT Hlast Hl'. pose proof (index_total_pages _ _ _ _ Hi Hl HT ltac:(lia)) as Hc.
  rewrite <- Hlast in Hc. apply index_ok in Hi as (tp & _ & ->); cbn in *. subst tp.
  set (L := listing names) in *. set (p := arg_int q (ps "page") 1) in *. set (l := arg_int q (ps "limit") 25) in *.
  pose proof (exact_ceil_spec (Z.of_nat (length L)) l ltac:(lia) Hl) as Hs. rewrite <- Hc in Hs.
  apply index_ok. rewrite Hl'.
  rewrite (last_page_rest L p l), filter_drop_NoDup by (done || by apply NoDup_listing).
  rewrite length_take, Nat.min_l by lia. rewrite Z2Nat.id by nia.
  exists (p - 1)%Z. split; [apply ceil_div_mul; nia|]. f_equal.
  rewrite paginate_pos by done. rewrite drop_ge by (rewrite length_take; lia). symmetry. apply take_nil.
Qed.

(** Descending with no name twice is strictly descending. *)
Lemma StronglySorted_strict l :
  StronglySorted str_ge l -> NoDup l -> StronglySorted (fun a b => str_ltb b a = true) l.
Proof.
  induction 1 as [|x l Hl IH Hx]; intros Hnd; [constructor|]. apply NoDup_cons in Hnd as [Hnx Hnd].
  constructor; [by apply IH|]. rewrite Forall_forall in Hx |- *. intros y Hy.
  destruct (str_ltb_total x y) as [H|H]; [by intros ->|by rewrite (Hx y Hy) in H|done].
Qed.

(** C5. Following the pagination links: for a positive [limit] and up to
    [2^52] names in the directory, every link [?page=p&limit=l] is
    served with the same page count [K = math.ceil(total / limit)], and
    the pages [1 .. K] show every listed file exactly once, in the order
    of the listing. *)
Theorem index_pages_partition cfg names l :
  (0 < l < 2 ^ 64)%Z -> (Z.of_nat (length names) <= 2 ^ 52)%Z ->
  exists K, ceil_div (Z.of_nat (length (listing names))) l = Ok K /\
    (forall p, (Z.abs p < 2 ^ 64)%Z -> exists pg, index cfg (Some names) (page_query p l) = Ok pg /\ pg_total_pages pg = K) /\
    concat ((fun p => match index cfg (Some names) (page_query p l) with
                      | Ok pg => pg_images pg
                      | Raise _ => []
                      end) <$> seqZ 1 K) = listing names.
Proof.
  intros Hl Hn. pose proof (length_listing names) as Hlen.
  set (n := Z.of_nat (length (listing names))) in *.
  assert (H64 : (2 ^ 64 <= 2 ^ 1074)%Z) by (apply Z.pow_le_mono_r; lia).
  destruct (exact_ceil_spec n l) as (HK0 & HK1 & HK2); [lia | lia |].
  exists (exact_ceil n l). split; [apply ceil_div_exact; lia|]. split.
  { intros p Hp. eexists. split; [apply index_page_query; lia|]. reflexivity. }
  rewrite (list_fmap_ext _ (fun p => paginate (listing names) p l)).
  2:{ intros i p Hi. apply lookup_seqZ in Hi as [-> Hi].
      rewrite index_page_query by nia. reflexivity. }
  rewrite <- (Z2Nat.id (exact_ceil n l)) by lia. rewrite pages_prefix by lia.
  apply take_ge. nia.
Qed.

(** C26. The listing of a directory ([os.listdir] names no file twice)
    is its visible image files, each once, in strictly descending order
    of code points; it does not depend on the order in which
    [os.listdir] returns the names. *)
Theorem listing_spec names :
  NoDup names ->
  (forall m, m ∈ listing names <-> m ∈ names /\ is_image_name m = true) /\
  StronglySorted (fun a b => str_ltb b a = true) (listing names) /\
  (forall names', names' ≡ₚ names -> listing names' = listing names).
Proof.
  intros Hnd. split; [|split].
  - intros m. unfold listing, sort_desc. rewrite merge_sort_Permutation, list_elem_of_filter.
    destruct (is_image_name m); cbn; naive_solver.
  - apply StronglySorted_strict; [|by apply NoDup_listing].
    apply StronglySorted_merge_sort; typeclasses eauto.
  - intros names' Hp. apply sort_desc_perm. by rewrite Hp.
Qed.

(** C30. [?limit=0] (or any text [int] reads as 0, such as [-0] or [0_0])
    makes [math.ceil(total / limit)] raise [ZeroDivisionError]: the
    gallery answers with HTTP 500. *)
Theorem index_limit_zero cfg names q :
  arg_int q (ps "limit") 25 = 0%Z -> index cfg (Some names) q = Raise ZeroDivisionError.
Proof. intros Hl. unfold index. rewrite Hl. reflexivity. Qed.

(** A negative page is not refused: with [limit > 0], page [-j] shows
    the [limit] files that end [j * limit] files before the end of the
    listing, a window that overlaps the positive pages. *)
Theorem paginate_negative_page files p l :
  (0 < l)%Z -> (p < 0)%Z -> ((1 - p) * l <= Z.of_nat (length files))%Z ->
  paginate files p l =
  take (Z.to_nat l) (drop (Z.to_nat (Z.of_nat (length files) + (p - 1) * l)) files).
Proof.
  intros Hl Hp Hn. unfold paginate. rewrite py_slice_neg by nia.
  rewrite py_slice_nonneg by nia. do 2 f_equal; lia.
Qed.

(** A negative [limit] is not refused either: page 1 then shows all
    files but the last [-limit] ones. *)
Theorem paginate_negative_limit files l :
  (l < 0)%Z -> (- l <= Z.of_nat (length files))%Z ->
  paginate files 1 l = take (Z.to_nat (Z.of_nat (length files) + l)) files.
Proof.
  intros Hl Hn. unfold paginate. rewrite Z.sub_diag, Z.mul_0_l, Z.add_0_l. unfold py_slice, slice_bound.
  rewrite (proj2 (Z.ltb_ge 0 0)), (proj2 (Z.ltb_lt l 0)) by lia. rewrite Z.min_l by lia.
  rewrite Z.max_r by lia. rewrite drop_0. f_equal. lia.
Qed.

(** C28. Bounds of a served page: whatever page number the query asks
    for (zero, negative or past the end), a page of a positive [limit]
    shows at most [limit] images; for up to [2^52] files and a limit up
    to [2^1074], where [total / limit] is exact enough, [total_pages] is
    the least page count whose pages hold all [total] files. *)
Theorem index_page_bounded cfg names q pg :
  index cfg (Some names) q = Ok pg -> (0 < pg_limit pg)%Z ->
  (pg_total pg <= 2 ^ 52)%Z -> (pg_limit pg <= 2 ^ 1074)%Z ->
  (Z.of_nat (length (pg_images pg)) <= pg_limit pg)%Z /\
  ((pg_total_pages pg - 1) * pg_limit pg < pg_total pg <= pg_total_pages pg * pg_limit pg)%Z.
Proof.
  intros (tp & Htp & ->)%index_ok Hl HT HL; cbn in *.
  rewrite ceil_div_exact in Htp by lia. injection Htp as <-. split.
  - unfold paginate. pose proof (length_py_slice (listing names) ((arg_int q (ps "page") 1 - 1) * arg_int q (ps "limit") 25)
      ((arg_int q (ps "page") 1 - 1) * arg_int q (ps "limit") 25 + arg_int q (ps "limit") 25)). lia.
  - pose proof (exact_ceil_spec (Z.of_nat (length (listing names))) (arg_int q (ps "limit") 25)). lia.
Qed.

(** C31. A [limit] above [2^1075] times the number of images (the query
    [?limit=] followed by 330 digits) makes [total / limit] underflow to
    [0.0]: [total_pages] is 0 and the page reads "Page 1 of 0", while
    page 1 shows every image. *)
Theorem index_huge_limit cfg names q pg :
  index cfg (Some names) q = Ok pg -> (0 < pg_total pg)%Z -> (pg_total pg * 2 ^ 1075 < pg_limit pg)%Z ->
  pg_total_pages pg = 0%Z /\ (pg_page pg = 1%Z -> pg_images pg = listing names).
Proof.
  intros (tp & Htp & ->)%index_ok HT HL; cbn in *.
  rewrite ceil_div_underflow in Htp by done. injection Htp as <-. split; [done|]. intros Hp.
  assert (H1 : (0 < 2 ^ 1075)%Z) by (apply Z.pow_pos_nonneg; lia).
  remember (2 ^ 1075)%Z as P eqn:EP. clear EP.
  rewrite Hp, paginate_pos by lia. rewrite Z.sub_diag, Z.mul_0_l, drop_0. apply take_ge. nia.
Qed.

(** ** Witnesses *)

Definition demo_names : list pystr :=
  [ps "b.png"; ps ".hidden.png"; ps "notes.txt"; ps "A.JPG"; ps "c.webp"; ps "d.jpeg"; ps "e.gif"].

Definition demo_cfg : config := {| image_dir := ps "/srv/img"; allow_delete := true |}.

Lemma index_pages_partition_witness :
  ((0 < 2 < 2 ^ 64)%Z /\ (Z.of_nat (length demo_names) <= 2 ^ 52)%Z) /\
  concat ((fun p => match index demo_cfg (Some demo_names) (page_query p 2) with
                    | Ok pg => pg_images pg
                    | Raise _ => []
                    end) <$> seqZ 1 2) =
  [ps "d.jpeg"; ps "c.webp"; ps "b.png"; ps "A.JPG"].
Proof.
  assert (H1 : (0 < 2 < 2 ^ 64)%Z) by lia.
  assert (H2 : (Z.of_nat (length demo_names) <= 2 ^ 52)%Z) by (cbn; lia).
  split; [split; assumption|].
  destruct (index_pages_partition demo_cfg demo_names 2 H1 H2) as (K & HK & _ & HC).
  vm_compute in HK. injection HK as <-. rewrite HC. vm_compute. reflexivity.
Defined.

Lemma index_page_bounded_witness :
  exists pg, index demo_cfg (Some demo_names) (page_query (-3) 2) = Ok pg /\
    (0 < pg_limit pg)%Z /\ (pg_total pg <= 2 ^ 52)%Z /\ (pg_limit pg <= 2 ^ 1074)%Z /\
    ((Z.of_nat (length (pg_images pg)) <= pg_limit pg)%Z /\
     ((pg_total_pages pg - 1) * pg_limit pg < pg_total pg <= pg_total_pages pg * pg_limit pg)%Z).
Proof.
  destruct (index demo_cfg (Some demo_names) (page_query (-3) 2)) as [pg|e] eqn:E; [|vm_compute in E; discriminate].
  assert (Hl : (0 < pg_limit pg)%Z) by (vm_compute in E; injection E as <-; reflexivity).
  assert (HT : (pg_total pg <= 2 ^ 52)%Z) by (vm_compute in E; injection E as <-; vm_compute; discriminate).
  assert (HL : (pg_limit pg <= 2 ^ 1074)%Z) by (vm_compute in E; injection E as <-; vm_compute; discriminate).
  exists pg. split; [done|]. split; [done|]. split; [done|]. split; [done|].
  exact (index_page_bounded _ _ _ pg E Hl HT HL).
Defined.

Definition huge_limit : Z := 10 ^ 400.

Lemma index_huge_limit_witness :
  exists pg, index demo_cfg (Some demo_names) [(ps "limit", z_repr huge_limit)] = Ok pg /\
    (0 < pg_total pg)%Z /\ (pg_total pg * 2 ^ 1075 < pg_limit pg)%Z /\
    pg_total_pages pg = 0%Z /\ pg_page pg = 1%Z /\ pg_images pg = listing demo_names.
Proof.
  destruct (index demo_cfg (Some demo_names) [(ps "limit", z_repr huge_limit)]) as [pg|e] eqn:E;
    [|vm_compute in E; discriminate].
  assert (HT : (0 < pg_total pg)%Z) by (vm_compute in E; injection E as <-; reflexivity).
  assert (HL : (pg_total pg * 2 ^ 1075 < pg_limit pg)%Z) by (vm_compute in E; injection E as <-; reflexivity).
  assert (Hp : pg_page pg = 1%Z) by (vm_compute in E; injection E as <-; reflexivity).
  destruct (index_huge_limit _ _ _ pg E HT HL) as [H0 Himg].
  exists pg. split; [done|]. split; [done|]. split; [done|]. split; [done|]. split; [done|]. exact (Himg Hp).
Defined.

Lemma index_limit_zero_witness :
  arg_int [(ps "limit", ps " 0_0 ")] (ps "limit") 25 = 0%Z /\
  index {| image_dir := ps "/srv/img"; allow_delete := false |} (Some demo_names) [(ps "limit", ps " 0_0 ")] =
  Raise ZeroDivisionError.
Proof.
  assert (H : arg_int [(ps "limit", ps " 0_0 ")] (ps "limit") 25 = 0%Z) by (vm_compute; reflexivity).
  split; [exact H | exact (index_limit_zero _ _ _ H)].
Defined.

Lemma listing_spec_witness :
  NoDup demo_names /\ listing demo_names = [ps "d.jpeg"; ps "c.webp"; ps "b.png"; ps "A.JPG"] /\
  StronglySorted (fun a b => str_ltb b a = true) (listing demo_names).
Proof.
  assert (H : NoDup demo_names) by by_decide.
  destruct (listing_spec demo_names H) as (_ & Hs & _).
  split; [exact H|]. split; [vm_compute; reflexivity | exact Hs].
Defined.

Lemma paginate_negative_page_witness :
  ((0 < 1)%Z /\ (-1 < 0)%Z /\ ((1 - -1) * 1 <= Z.of_nat (length (listing demo_names)))%Z) /\
  paginate (listing demo_names) (-1) 1 = [ps "b.png"].
Proof.
  assert (H : ((1 - -1) * 1 <= Z.of_nat (length (listing demo_names)))%Z) by (vm_compute; discriminate).
  split; [split; [lia | split; [lia | exact H]]|].
  rewrite paginate_negative_page by (lia || exact H). vm_compute. reflexivity.
Defined.

Lemma paginate_negative_limit_witness :
  ((-3 < 0)%Z /\ (- -3 <= Z.of_nat (length (listing demo_names)))%Z) /\
  paginate (listing demo_names) 1 (-3) = [ps "d.jpeg"].
Proof.
  assert (H : (- -3 <= Z.of_nat (length (listing demo_names)))%Z) by (vm_compute; discriminate).
  split; [split; [lia | exact H]|].
  rewrite (paginate_negative_limit (listing demo_names) (-3) ltac:(lia) H). vm_compute. reflexivity.
Defined.

End Gallery.
