(* ===== verification/Archive.v ===== *)
(** * The gallery's soft delete: [delete_images] of [src/run/flask_img_viewer.py]

    [delete_images] moves each requested file [name] of the image
    directory to [.archive/.name.bak].  The file system is a finite map
    from canonical absolute paths (lists of path components) to files and
    directories; a well-formed store has the root and every ancestor of
    an entry as directories.  Path strings are resolved the way the
    kernel resolves them (["."], [".."] and empty components, a file only
    as the last component), [os.path.join] is [posixpath.join], and
    [shutil.move] is its code on top of POSIX [rename].

    Assumptions of the model: one device (so [rename] never fails with
    [EXDEV] and [shutil.move]'s copy fallback fails exactly when [rename]
    does), no symbolic links, no permission errors.  Every path the
    handler builds is absolute, because [IMAGE_DIR] is. *)

From Stdlib Require Import String.
From S2P Require Import Prelude.
From stdpp Require Import gmap.

Module Archive.

(** ** The store *)

Inductive node := NFile (data : N) | NDir.

#[export] Instance node_eq_dec : EqDecision node.
Proof. solve_decision. Defined.

Abbreviation path := (list pystr).
Abbreviation fsys := (gmap path node).

(** Every ancestor of an entry is a directory, and so is the root. *)
Definition wf (fs : fsys) : Prop :=
  fs !! [] = Some NDir /\
  forall k v p, fs !! k = Some v -> p `prefix_of` k -> p <> k -> fs !! p = Some NDir.

(** The same property as a test, for concrete stores. *)
Definition wf_check (fs : fsys) : bool :=
  bool_decide (fs !! [] = Some NDir) &&
  forallb (fun kv => forallb (fun i => bool_decide (fs !! take i kv.1 = Some NDir)) (seq 0 (length kv.1)))
          (map_to_list fs).

(** ** Path strings *)

Definition slash : N := 47%N.

(** [s.split('/')] *)
Fixpoint split_sep (sep : N) (s : pystr) : list pystr :=
  match s with
  | [] => [[]]
  | c :: s' =>
      if bool_decide (c = sep) then [] :: split_sep sep s'
      else match split_sep sep s' with
           | w :: ws => (c :: w) :: ws
           | [] => [[c]]
           end
  end.

(** [posixpath.join(a, b)] *)
Definition path_join (a b : pystr) : pystr :=
  if startswith b [slash] then b
  else if bool_decide (a = []) || endswith a [slash] then a ++ b
  else a ++ slash :: b.

(** The text of a canonical path, as [os.path.abspath] gives it. *)
Definition render (p : path) : pystr :=
  match p with
  | [] => [slash]
  | _ => concat (map (fun c => slash :: c) p)
  end.

(** [s.lstrip(c)] for one character [c]. *)
Fixpoint lstrip (c : N) (s : pystr) : pystr :=
  match s with
  | d :: s' => if bool_decide (d = c) then lstrip c s' else s
  | [] => []
  end.

(** [os.path.basename(path.rstrip('/'))], [shutil]'s [_basename]. *)
Definition basename (s : pystr) : pystr :=
  default [] (last (split_sep slash (reverse (lstrip slash (reverse s))))).

(** ** Resolution *)

(** The walk of the kernel from the directory [cur] along [comps]; the
    result is the canonical path of an existing entry. *)
Fixpoint walk (fs : fsys) (cur : path) (comps : list pystr) : option path :=
  match comps with
  | [] => Some cur
  | c :: rest =>
      if bool_decide (c = []) || bool_decide (c = ps ".") then walk fs cur rest
      else if bool_decide (c = ps "..") then walk fs (removelast cur) rest
      else match fs !! (cur ++ [c]) with
           | Some NDir => walk fs (cur ++ [c]) rest
           | Some (NFile _) => match rest with [] => Some (cur ++ [c]) | _ => None end
           | None => None
           end
  end.

(** [os.stat(p)] succeeds: the entry [p] names.  A path with a NUL
    character makes [os.stat] raise [ValueError], which [exists] turns
    into [False] as well. *)
Definition resolve (fs : fsys) (p : pystr) : option path :=
  if bool_decide (0%N ∈ p) then None
  else match split_sep slash p with
       | [] :: comps => walk fs [] comps
       | _ => None      (* relative paths do not occur *)
       end.

Definition exists_path (fs : fsys) (p : pystr) : bool := bool_decide (is_Some (resolve fs p)).

(** The directory a new entry [p] goes into, and its name. *)
Definition resolve_parent (fs : fsys) (p : pystr) : option (path * pystr) :=
  if bool_decide (0%N ∈ p) then None
  else match split_sep slash p with
       | [] :: comps =>
           match last comps with
           | Some name =>
               if bool_decide (name = []) || bool_decide (name = ps ".") || bool_decide (name = ps "..")
               then None
               else match walk fs [] (removelast comps) with
                    | Some d => if bool_decide (fs !! d = Some NDir) then Some (d, name) else None
                    | None => None
                    end
           | None => None
           end
       | _ => None
       end.

(** ** [rename(2)] and [shutil.move] *)

Definition has_children (fs : fsys) (d : path) : bool :=
  bool_decide (map_Exists (fun k _ => d `prefix_of` k /\ k <> d) fs).

(** The subtree [s] re-rooted at [d]. *)
Definition move_tree (fs : fsys) (s d : path) : fsys :=
  let moved : fsys := list_to_map ((fun kv => (d ++ drop (length s) kv.1, kv.2)) <$>
                         map_to_list (filter (fun kv => s `prefix_of` kv.1) fs)) in
  let kept := filter (fun kv => ~ s `prefix_of` kv.1 /\ kv.1 <> d) fs in
  moved ∪ kept.

(** POSIX [rename(s, d)] between canonical paths; [d]'s parent exists. *)
Definition rename (s d : path) : PyM fsys unit := fun fs =>
  if bool_decide (s = d) then (Ok tt, fs)
  else if bool_decide (s `prefix_of` d) then (Raise OSError, fs)               (* EINVAL *)
  else match fs !! s, fs !! d with
       | Some (NFile _), Some NDir => (Raise OSError, fs)                       (* EISDIR *)
       | Some (NFile x), _ => (Ok tt, <[d := NFile x]> (delete s fs))
       | Some NDir, Some (NFile _) => (Raise OSError, fs)                       (* ENOTDIR *)
       | Some NDir, Some NDir =>
           if has_children fs d then (Raise OSError, fs) else (Ok tt, move_tree fs s d)  (* ENOTEMPTY *)
       | Some NDir, None => (Ok tt, move_tree fs s d)
       | None, _ => (Raise OSError, fs)                                         (* ENOENT *)
       end.

(** [os.rename] on path strings. *)
Definition os_rename (src dst : pystr) : PyM fsys unit := fun fs =>
  match resolve fs src, resolve_parent fs dst with
  | Some s, Some (dp, name) => rename s (dp ++ [name]) fs
  | _, _ => (Raise OSError, fs)
  end.

(** [shutil.move(src, dst)] *)
Definition shutil_move (src dst : pystr) : PyM fsys unit := fun fs =>
  match resolve fs dst with
  | Some dd =>
      if bool_decide (fs !! dd = Some NDir) then
        if bool_decide (resolve fs src = Some dd) then os_rename src dst fs       (* same file *)
        else let real_dst := path_join dst (basename src) in
             if exists_path fs real_dst then (Raise OSError, fs)                  (* shutil.Error *)
             else os_rename src real_dst fs
      else os_rename src dst fs
  | None => os_rename src dst fs
  end.

(** [os.makedirs] along the components [comps] below [cur]: existing
    parents are kept, a parent that is a file is [NotADirectoryError],
    and the last component must not exist ([FileExistsError], since
    [exist_ok] is [False]). *)
Fixpoint makedirs_go (cur : path) (comps : list pystr) : PyM fsys unit := fun fs =>
  match comps with
  | [] => (Ok tt, fs)
  | c :: rest =>
      let nxt := cur ++ [c] in
      match fs !! nxt with
      | Some NDir => match rest with
                     | [] => (Raise OSError, fs)
                     | _ => makedirs_go nxt rest fs
                     end
      | Some (NFile _) => (Raise OSError, fs)
      | None => makedirs_go nxt rest (<[nxt := NDir]> fs)
      end
  end.

(** ** The handler *)

(** The globals: [IMAGE_DIR] as the canonical path [os.path.abspath]
    made of the command-line argument, and [ALLOW_DELETE]. *)
Record config := { image_dir : path; allow_delete : bool }.

(** The value [request.get_json()] returns. *)
Inductive json :=
  | JNull | JBool (b : bool) | JNum (z : Z) | JStr (s : pystr)
  | JArr (xs : list json) | JObj (kvs : list (pystr * json)).

(** What the client receives. *)
Inductive response :=
  | Forbidden          (* 403, [{"error": "Unauthorized"}] *)
  | Success            (* 200, [{"success": true}] *)
  | BadBody            (* 400 or 415: the body is not JSON *)
  | ServerError (e : exn).   (* 500: an exception escaped the handler *)

(** [d.get(key, default)] on the dict [json.loads] builds: the last
    value given for the key. *)
Definition obj_get (key : pystr) (kvs : list (pystr * json)) : option json :=
  last (omap (fun kv => if bool_decide (kv.1 = key) then Some kv.2 else None) kvs).

(** The keys of that dict, in the order of their first occurrence. *)
Fixpoint obj_keys_go (seen : list pystr) (kvs : list (pystr * json)) : list pystr :=
  match kvs with
  | [] => []
  | (k, _) :: rest => if bool_decide (k ∈ seen) then obj_keys_go seen rest else k :: obj_keys_go (k :: seen) rest
  end.

(** [for filename in filenames]: a list gives its items, a str its
    characters, a dict its keys; other values are not iterable. *)
Definition iter_items (v : json) : res (list json) :=
  match v with
  | JArr xs => Ok xs
  | JStr s => Ok (map (fun c => JStr [c]) s)
  | JObj kvs => Ok (JStr <$> obj_keys_go [] kvs)
  | _ => Raise TypeError
  end.

Definition archive_path (c : config) : pystr := path_join (render (image_dir c)) (ps ".archive").

(** [f".{filename}.bak"] *)
Definition bak (filename : pystr) : pystr := ps "." ++ filename ++ ps ".bak".

(** The body of the loop, lines 194-198. *)
Definition delete_one (c : config) (f : json) : PyM fsys unit :=
  match f with
  | JStr filename =>
      let src := path_join (render (image_dir c)) filename in
      fs ← gets id;
      if exists_path fs src then
        shutil_move src (path_join (archive_path c) (bak filename))
      else mret tt
  | _ => raise TypeError      (* os.path.join on a non-str *)
  end.

(** [delete_images()], lines 181-200. *)
Definition delete_images (c : config) (body : option json) : PyM fsys response :=
  if negb (allow_delete c) then mret Forbidden
  else match body with
       | None => mret BadBody
       | Some (JObj kvs) =>
           let filenames := default (JArr []) (obj_get (ps "filenames") kvs) in
           fs ← gets id;
           (if exists_path fs (archive_path c) then mret tt
            else makedirs_go [] (image_dir c ++ [ps ".archive"])) ;;
           match iter_items filenames with
           | Ok xs => for_each xs (delete_one c) ;; mret Success
           | Raise e => raise e
           end
       | Some _ => raise AttributeError     (* data.get on a non-dict *)
       end.

(** Flask turns an escaping exception into a 500 response. *)
Definition serve_delete (c : config) (body : option json) (fs : fsys) : response * fsys :=
  match delete_images c body fs with
  | (Ok r, fs') => (r, fs')
  | (Raise e, fs') => (ServerError e, fs')
  end.

(** ** Plain names

    A component that is neither empty, nor [.] or [..], and has no [/]
    or NUL character: the names the page offers for deletion. *)
Definition plain (c : pystr) : bool :=
  bool_decide (c <> [] /\ c <> ps "." /\ c <> ps ".." /\ slash ∉ c /\ 0%N ∉ c).

Definition archive_dir (c : config) : path := image_dir c ++ [ps ".archive"].

(** ** Lemmas: path strings *)

Lemma plain_spec c :
  plain c = true <-> c <> [] /\ c <> ps "." /\ c <> ps ".." /\ slash ∉ c /\ 0%N ∉ c.
Proof. apply bool_decide_eq_true. Qed.

Lemma split_sep_noslash sep w : sep ∉ w -> split_sep sep w = [w].
Proof.
  induction w as [|c w IH]; intros Hw; [done|]. cbn. rewrite not_elem_of_cons in Hw.
  rewrite bool_decide_false by (destruct Hw; congruence). rewrite IH by tauto. done.
Qed.

Lemma split_sep_app sep w rest : sep ∉ w -> split_sep sep (w ++ sep :: rest) = w :: split_sep sep rest.
Proof.
  induction w as [|c w IH]; intros Hw; [by cbn; rewrite bool_decide_true|].
  rewrite not_elem_of_cons in Hw. cbn [app split_sep]. rewrite bool_decide_false by (destruct Hw; congruence).
  by rewrite IH by tauto.
Qed.

Lemma split_sep_concat x p :
  slash ∉ x -> Forall (fun c => slash ∉ c) p ->
  split_sep slash (x ++ concat (map (fun c => slash :: c) p)) = x :: p.
Proof.
  revert x. induction p as [|c p IH]; intros x Hx Hp; cbn [map concat].
  - rewrite app_nil_r. by apply split_sep_noslash.
  - inversion Hp; subst. rewrite <- app_comm_cons, split_sep_app by done. by rewrite IH.
Qed.

Lemma plain_noslash p : Forall (fun c => plain c = true) p -> Forall (fun c => slash ∉ c) p.
Proof. intros H. eapply Forall_impl; [exact H|]. intros c Hc%plain_spec. tauto. Qed.

Lemma split_render p :
  Forall (fun c => plain c = true) p -> p <> [] -> split_sep slash (render p) = [] :: p.
Proof.
  intros Hp Hne. destruct p as [|c p]; [done|]. unfold render.
  rewrite <- (app_nil_l (concat _)). apply split_sep_concat; [set_solver | by apply plain_noslash].
Qed.

Lemma endswith_single s x : endswith s [x] = bool_decide (last s = Some x).
Proof.
  unfold endswith. rewrite reverse_singleton, <- head_reverse.
  destruct (reverse s) as [|d r]; cbn; [done|]. rewrite andb_true_r. apply bool_decide_ext. split; congruence.
Qed.

Lemma render_nonempty p : p <> [] -> render p = concat (map (fun c => slash :: c) p).
Proof. by destruct p. Qed.

Lemma render_snoc p c : render (p ++ [c]) = concat (map (fun c => slash :: c) p) ++ slash :: c.
Proof.
  rewrite render_nonempty by (by destruct p). rewrite map_app, concat_app. cbn [map concat]. by rewrite app_nil_r.
Qed.

Lemma render_last p c : last (render (p ++ [c])) = last (slash :: c).
Proof. rewrite render_snoc. apply last_app_cons. Qed.

Lemma last_noslash c : c <> [] -> slash ∉ c -> last (slash :: c) <> Some slash.
Proof.
  intros Hne Hsl Hl. destruct c as [|e c]; [done|]. cbn [last] in Hl.
  apply Hsl. by apply last_Some_elem_of.
Qed.

(** Joining a plain name to a canonical path. *)
Lemma render_join p n :
  Forall (fun c => plain c = true) p -> plain n = true -> path_join (render p) n = render (p ++ [n]).
Proof.
  intros Hp Hn. apply plain_spec in Hn as (Hne & _ & _ & Hsl & _).
  unfold path_join. destruct n as [|d n]; [done|].
  cbn [startswith]. rewrite bool_decide_false by set_solver. cbn [andb].
  destruct p as [|c p] using rev_ind; [rewrite (render_snoc []); reflexivity|].
  apply Forall_app in Hp as [Hp Hc]. inversion Hc as [|? ? Hc' _]; subst.
  apply plain_spec in Hc' as (Hcne & _ & _ & Hcsl & _).
  rewrite endswith_single, render_last, (bool_decide_false (last _ = _)) by (by apply last_noslash).
  rewrite (bool_decide_false (render _ = [])) by (rewrite render_snoc; destruct (concat _); discriminate).
  cbn [orb]. rewrite !render_snoc, map_app, concat_app. cbn [map concat]. by rewrite app_nil_r, <- !app_assoc.
Qed.

(** ** Lemmas: resolution in a well-formed store *)

Lemma wf_dir_prefix fs k v p :
  wf fs -> fs !! k = Some v -> p `prefix_of` k -> p <> k -> fs !! p = Some NDir.
Proof. intros [_ H]. apply H. Qed.

Lemma wf_dir_of_child fs p c q v :
  wf fs -> fs !! (p ++ c :: q) = Some v -> fs !! p = Some NDir.
Proof.
  intros Hwf Hk. apply (wf_dir_prefix fs _ _ p Hwf Hk); [by exists (c :: q)|].
  intros Heq. apply (f_equal length) in Heq. rewrite length_app in Heq. cbn in Heq. lia.
Qed.

Lemma plain_special c : plain c = true ->
  (bool_decide (c = []) || bool_decide (c = ps ".")) = false /\ bool_decide (c = ps "..") = false.
Proof. intros (? & ? & ? & _)%plain_spec. by rewrite !bool_decide_false. Qed.

(** Along plain components the walk reaches the entry itself, if it
    exists. *)
Lemma walk_plain fs cur q :
  wf fs -> fs !! cur = Some NDir -> Forall (fun c => plain c = true) q ->
  walk fs cur q = if fs !! (cur ++ q) is Some _ then Some (cur ++ q) else None.
Proof.
  intros Hwf. revert cur. induction q as [|c q IH]; intros cur Hcur Hq.
  - by rewrite app_nil_r, Hcur.
  - inversion Hq as [|? ? Hc Hq']; subst. cbn [walk]. destruct (plain_special c Hc) as [-> ->].
    replace (cur ++ c :: q) with ((cur ++ [c]) ++ q) by (by rewrite <- app_assoc).
    destruct (fs !! (cur ++ [c])) as [[x|]|] eqn:E.
    + destruct q as [|c' q]; [by rewrite app_nil_r, E|].
      destruct (fs !! ((cur ++ [c]) ++ c' :: q)) eqn:E'; [|done].
      by rewrite (wf_dir_of_child fs _ _ _ _ Hwf E') in E.
    + by apply IH.
    + destruct (fs !! ((cur ++ [c]) ++ q)) eqn:E'; [|done].
      destruct q as [|c' q]; [by rewrite app_nil_r, E in E'|].
      by rewrite (wf_dir_of_child fs _ _ _ _ Hwf E') in E.
Qed.

Lemma render_nonul p : Forall (fun c => plain c = true) p -> 0%N ∉ render p.
Proof.
  intros Hp. destruct p as [|c p]; [set_solver|]. rewrite render_nonempty by done.
  intros Hin. apply list_elem_of_In, in_concat in Hin as (w & Hwin & Hw).
  apply in_map_iff in Hwin as (c' & <- & Hc'). apply list_elem_of_In in Hc'.
  rewrite Forall_forall in Hp. destruct (proj1 (plain_spec c') (Hp c' Hc')) as (_ & _ & _ & _ & Hnul).
  destruct Hw as [Hw|Hw]; [discriminate | by apply Hnul, list_elem_of_In].
Qed.

(** [os.stat] on a canonical path. *)
Lemma resolve_render fs p :
  wf fs -> Forall (fun c => plain c = true) p ->
  resolve fs (render p) = if fs !! p is Some _ then Some p else None.
Proof.
  intros Hwf Hp. unfold resolve. rewrite bool_decide_false by (by apply render_nonul).
  destruct p as [|c p]; [by destruct Hwf as [-> _]|].
  rewrite split_render by done. rewrite walk_plain by (done || by destruct Hwf). done.
Qed.

(** The directory a new entry under a canonical path goes into. *)
Lemma resolve_parent_render fs p n :
  wf fs -> Forall (fun c => plain c = true) p -> plain n = true -> fs !! p = Some NDir ->
  resolve_parent fs (render (p ++ [n])) = Some (p, n).
Proof.
  intros Hwf Hp Hn Hdir. assert (Hpn : Forall (fun c => plain c = true) (p ++ [n])) by (apply Forall_app; auto).
  unfold resolve_parent. rewrite bool_decide_false by (by apply render_nonul).
  rewrite split_render by (done || by destruct p). rewrite last_snoc.
  destruct (plain_special n Hn) as [Hs1 Hs2]. rewrite Hs1, Hs2. cbn [orb].
  rewrite removelast_last, walk_plain by (done || by destruct Hwf). cbn [app]. rewrite Hdir.
  by rewrite bool_decide_true.
Qed.

(** ** Lemmas: moving a file *)

Lemma rename_file fs s d x :
  fs !! s = Some (NFile x) -> s <> d -> ~ s `prefix_of` d -> fs !! d <> Some NDir ->
  rename s d fs = (Ok tt, <[d := NFile x]> (delete s fs)).
Proof.
  intros Hs Hsd Hpre Hd. unfold rename. rewrite !bool_decide_false by done. rewrite Hs.
  by destruct (fs !! d) as [[]|].
Qed.

Lemma prefix_snoc_inv (p l : path) x : p `prefix_of` l ++ [x] -> p <> l ++ [x] -> p `prefix_of` l.
Proof.
  intros [r Hr] Hne. destruct r as [|y r _] using rev_ind; [by rewrite app_nil_r in Hr|].
  rewrite app_assoc in Hr. apply app_inj_tail in Hr as [-> _]. by exists r.
Qed.

Lemma lookup_move_other (fs : fsys) s d w p :
  p <> d -> p <> s -> (<[d := w]> (delete s fs)) !! p = fs !! p.
Proof. intros. by rewrite lookup_insert_ne, lookup_delete_ne by congruence. Qed.

Lemma wf_move_file fs s dp name x :
  wf fs -> fs !! s = Some (NFile x) -> fs !! dp = Some NDir -> fs !! (dp ++ [name]) <> Some NDir ->
  wf (<[dp ++ [name] := NFile x]> (delete s fs)).
Proof.
  intros Hwf Hs Hdp Hd. assert (Hdir_ne : forall p, fs !! p = Some NDir -> p <> s) by congruence.
  split.
  - rewrite lookup_move_other; [by destruct Hwf | by destruct dp | apply Hdir_ne; by destruct Hwf].
  - intros k v p Hk Hp Hne. destruct (decide (k = dp ++ [name])) as [->|Hkd].
    + apply prefix_snoc_inv in Hp; [|done].
      assert (Hpd : fs !! p = Some NDir).
      { destruct (decide (p = dp)) as [->|]; [done|]. by apply (wf_dir_prefix fs dp NDir). }
      rewrite lookup_move_other; [done | done | by apply Hdir_ne].
    + rewrite lookup_insert_ne in Hk by congruence. apply lookup_delete_Some in Hk as [Hks Hk].
      assert (Hpd : fs !! p = Some NDir) by (by apply (wf_dir_prefix fs k v)).
      rewrite lookup_move_other; [done | congruence | by apply Hdir_ne].
Qed.

(** ** Lemmas: one deletion *)

Lemma plain_bak n : plain n = true -> plain (bak n) = true.
Proof.
  intros (Hne & _ & _ & Hsl & Hnul)%plain_spec. apply plain_spec. unfold bak.
  assert (Hlen : forall w, w = ps "." ++ n ++ ps ".bak" -> (length w >= 6)%nat).
  { intros w ->. rewrite !length_app. unfold ps. cbn. destruct n; [done | cbn; lia]. }
  split; [by destruct n|]. split; [intros H; specialize (Hlen _ (eq_sym H)); unfold ps in Hlen; cbn in Hlen; lia|].
  split; [intros H; specialize (Hlen _ (eq_sym H)); unfold ps in Hlen; cbn in Hlen; lia|].
  unfold ps; cbn. split; rewrite elem_of_cons, elem_of_app, !elem_of_cons; unfold slash; intros [?|[?|?]];
    (congruence || done || set_solver).
Qed.

Lemma plain_archive : plain (ps ".archive") = true.
Proof. reflexivity. Qed.

Lemma archive_path_render c :
  Forall (fun c => plain c = true) (image_dir c) -> archive_path c = render (archive_dir c).
Proof. intros H. unfold archive_path, archive_dir. apply render_join; [done | apply plain_archive]. Qed.

(** Deleting a plain name that is a file of the image directory moves it
    to [.archive/.name.bak], replacing a file of that name. *)
Lemma delete_one_move c n x fs :
  wf fs -> Forall (fun c => plain c = true) (image_dir c) -> plain n = true -> n <> ps ".archive" ->
  fs !! archive_dir c = Some NDir -> fs !! (image_dir c ++ [n]) = Some (NFile x) ->
  fs !! (archive_dir c ++ [bak n]) <> Some NDir ->
  delete_one c (JStr n) fs = (Ok tt, <[archive_dir c ++ [bak n] := NFile x]> (delete (image_dir c ++ [n]) fs)).
Proof.
  intros Hwf Himg Hn Hna Harch Hsrc Hdst.
  assert (Hpa : Forall (fun c => plain c = true) (archive_dir c)) by (apply Forall_app; auto using plain_archive).
  assert (Hpb : Forall (fun c => plain c = true) (archive_dir c ++ [bak n])) by (apply Forall_app; auto using plain_bak).
  assert (Hps : Forall (fun c => plain c = true) (image_dir c ++ [n])) by (apply Forall_app; auto).
  unfold delete_one. rewrite render_join by done.
  rewrite (bind_ok (S:=fsys) _ _ fs fs fs) by reflexivity.
  unfold exists_path. rewrite resolve_render, Hsrc by done. rewrite bool_decide_true by done.
  rewrite archive_path_render, render_join by auto using plain_bak.
  assert (Hmv : os_rename (render (image_dir c ++ [n])) (render (archive_dir c ++ [bak n])) fs =
                (Ok tt, <[archive_dir c ++ [bak n] := NFile x]> (delete (image_dir c ++ [n]) fs))).
  { unfold os_rename. rewrite resolve_render, Hsrc by done. rewrite resolve_parent_render by auto using plain_bak.
    apply rename_file; [done | | | done].
    - intros Heq. apply (f_equal length) in Heq. unfold archive_dir in Heq. rewrite !length_app in Heq. cbn in Heq. lia.
    - unfold archive_dir. rewrite <- app_assoc. intros Hpre%prefix_app_inv. cbn in Hpre.
      apply prefix_cons_inv_1 in Hpre. congruence. }
  unfold shutil_move. rewrite (resolve_render fs (archive_dir c ++ [bak n])) by done.
  destruct (fs !! (archive_dir c ++ [bak n])) as [[y|]|] eqn:E; [| done | exact Hmv].
  rewrite E, bool_decide_false by done. exact Hmv.
Qed.

(** ** Lemmas: the loop *)

Lemma snoc_neq_len (p q : path) a b : length p <> length q -> p ++ [a] <> q ++ [b].
Proof. intros Hl Heq. apply (f_equal length) in Heq. rewrite !length_app in Heq. cbn in Heq. lia. Qed.

Lemma snoc_neq_last (p : path) a b : a <> b -> p ++ [a] <> p ++ [b].
Proof. intros Hab Heq. by apply app_inj_tail in Heq as [_ ?]. Qed.

Lemma bak_inj m n : bak m = bak n -> m = n.
Proof. unfold bak. intros H. apply app_inv_head in H. by apply app_inv_tail in H. Qed.

(** The files a deletion request names, as the loop needs them. *)
Definition deletable (c : config) (fs : fsys) (n : pystr) : Prop :=
  plain n = true /\ n <> ps ".archive" /\ (exists x, fs !! (image_dir c ++ [n]) = Some (NFile x)) /\
  fs !! (archive_dir c ++ [bak n]) <> Some NDir.

Lemma img_neq_arch c a b : image_dir c ++ [a] <> archive_dir c ++ [b].
Proof. apply snoc_neq_len. unfold archive_dir. rewrite length_app. cbn. lia. Qed.

(** Moving one file keeps the other names deletable. *)
Lemma deletable_move c fs n x m :
  m <> n -> deletable c fs m ->
  deletable c (<[archive_dir c ++ [bak n] := NFile x]> (delete (image_dir c ++ [n]) fs)) m.
Proof.
  intros Hmn (Hplm & Hnam & [y Hy] & Hbm). split; [done|]. split; [done|]. split.
  - exists y. rewrite lookup_move_other; [done | apply img_neq_arch | by apply snoc_neq_last].
  - rewrite lookup_move_other; [done | intros ?%app_inj_tail; naive_solver (eauto using bak_inj) |].
    apply not_eq_sym, img_neq_arch.
Qed.

(** The loop over distinct deletable names moves each of them to the
    archive and changes nothing else. *)
Lemma delete_loop c names fs :
  wf fs -> Forall (fun c => plain c = true) (image_dir c) -> fs !! archive_dir c = Some NDir ->
  NoDup names -> Forall (deletable c fs) names ->
  exists fs', for_each (JStr <$> names) (delete_one c) fs = (Ok tt, fs') /\ wf fs' /\
    fs' !! archive_dir c = Some NDir /\
    (forall n, n ∈ names -> fs' !! (image_dir c ++ [n]) = None /\
                           fs' !! (archive_dir c ++ [bak n]) = fs !! (image_dir c ++ [n])) /\
    (forall k, k <> archive_dir c -> (forall n, n ∈ names -> k <> image_dir c ++ [n] /\ k <> archive_dir c ++ [bak n]) ->
       fs' !! k = fs !! k).
Proof.
  set (img := image_dir c). set (arch := archive_dir c).
  revert fs. induction names as [|n ns IH]; intros fs Hwf Himg Harch Hnd Hdel.
  { exists fs. split; [done|]. split; [done|]. split; [done|]. split; [set_solver | done]. }
  apply NoDup_cons in Hnd as [Hn_ns Hnd]. inversion Hdel as [|? ? (Hpl & Hna & [x Hx] & Hb) Hdel']; subst.
  fold img arch in Hx, Hb.
  set (fs1 := <[arch ++ [bak n] := NFile x]> (delete (img ++ [n]) fs)).
  assert (Hother : forall k, k <> arch ++ [bak n] -> k <> img ++ [n] -> fs1 !! k = fs !! k).
  { intros k H1 H2. by apply lookup_move_other. }
  assert (Himg_arch : forall a b, img ++ [a] <> arch ++ [b]) by apply img_neq_arch.
  assert (Harch_img : forall a, a <> ps ".archive" -> arch <> img ++ [a]) by (intros a Ha; by apply not_eq_sym, snoc_neq_last).
  assert (Harch_arch : forall b, arch <> arch ++ [b]) by (intros b H; apply (f_equal length) in H; rewrite length_app in H; cbn in H; lia).
  destruct (IH fs1) as (fs' & Hrun & Hwf' & Harch' & Hmoved & Hkept).
  - apply (wf_move_file fs (img ++ [n]) arch (bak n) x Hwf Hx Harch Hb).
  - done.
  - rewrite Hother; [done | apply Harch_arch | by apply Harch_img].
  - done.
  - apply Forall_forall. intros m Hm. rewrite Forall_forall in Hdel'.
    apply deletable_move; [intros ->; contradiction | by apply Hdel'].
  - exists fs'. split.
    { cbn [fmap list_fmap for_each]. rewrite (bind_ok _ _ fs tt fs1); [exact Hrun|].
      apply delete_one_move; done. }
    split; [done|]. split; [done|]. split.
    + intros m Hm. apply elem_of_cons in Hm as [->|Hm].
      * assert (Hn1 : forall m', m' ∈ ns -> img ++ [n] <> img ++ [m'] /\ img ++ [n] <> arch ++ [bak m']).
        { intros m' Hm'. split; [apply snoc_neq_last; intros ->; contradiction | apply Himg_arch]. }
        assert (Hn2 : forall m', m' ∈ ns -> arch ++ [bak n] <> img ++ [m'] /\ arch ++ [bak n] <> arch ++ [bak m']).
        { intros m' Hm'. split; [apply not_eq_sym, Himg_arch|]. apply snoc_neq_last. intros ?%bak_inj. subst. contradiction. }
        rewrite (Hkept (img ++ [n])), (Hkept (arch ++ [bak n]));
          try solve [exact Hn1 | exact Hn2 | apply not_eq_sym, Harch_arch | by apply not_eq_sym, Harch_img].
        unfold fs1. rewrite lookup_insert_ne by apply not_eq_sym, Himg_arch. rewrite lookup_delete_eq.
        split; [done|]. rewrite lookup_insert_eq. by rewrite Hx.
      * destruct (Hmoved m Hm) as [H1 H2]. split; [done|]. rewrite H2, Hother; [done | apply Himg_arch|].
        apply snoc_neq_last. intros ->. contradiction.
    + intros k Hk Hkn. rewrite Hkept; [| done | intros m Hm; apply Hkn; by apply elem_of_cons; right].
      destruct (Hkn n ltac:(set_solver)) as [H1 H2]. by apply Hother.
Qed.

(** ** Lemmas: creating the archive *)

Lemma makedirs_go_app cur q r fs :
  wf fs -> r <> [] -> fs !! (cur ++ q) = Some NDir -> makedirs_go cur (q ++ r) fs = makedirs_go (cur ++ q) r fs.
Proof.
  intros Hwf Hr. revert cur. induction q as [|c q IH]; intros cur Hq; [by rewrite app_nil_r|].
  assert (Hc : fs !! (cur ++ [c]) = Some NDir).
  { destruct q as [|c' q]; [done|]. apply (wf_dir_of_child fs _ c' q NDir Hwf). by rewrite <- app_assoc. }
  cbn [app makedirs_go]. rewrite Hc. destruct (q ++ r) as [|x y] eqn:E; [by destruct q, r|]. rewrite <- E in *.
  rewrite IH; [by rewrite <- app_assoc | by rewrite <- app_assoc].
Qed.

Lemma wf_insert_dir fs p a :
  wf fs -> fs !! p = Some NDir -> wf (<[p ++ [a] := NDir]> fs).
Proof.
  intros Hwf Hp. split.
  - rewrite lookup_insert_ne by (by destruct p). by destruct Hwf.
  - intros k v q Hk Hq Hne. destruct (decide (q = p ++ [a])) as [->|Hqa]; [apply lookup_insert_eq|].
    rewrite lookup_insert_ne by congruence. destruct (decide (k = p ++ [a])) as [->|Hka].
    + apply prefix_snoc_inv in Hq; [|done]. destruct (decide (q = p)) as [->|]; [done|].
      by apply (wf_dir_prefix fs p NDir).
    + rewrite lookup_insert_ne in Hk by congruence. by apply (wf_dir_prefix fs k v).
Qed.

(** [os.makedirs] of a missing directory whose parent exists. *)
Lemma makedirs_new fs p a :
  wf fs -> fs !! p = Some NDir -> fs !! (p ++ [a]) = None ->
  makedirs_go [] (p ++ [a]) fs = (Ok tt, <[p ++ [a] := NDir]> fs).
Proof. intros Hwf Hp Ha. rewrite makedirs_go_app by done. cbn. by rewrite Ha. Qed.

(** ** The handler on the requests of the page *)

(** The body [executeDelete] posts: [{"filenames": [...]}]. *)
Definition request_of (names : list pystr) : option json :=
  Some (JObj [(ps "filenames", JArr (JStr <$> names))]).

Lemma obj_get_filenames v : obj_get (ps "filenames") [(ps "filenames", v)] = Some v.
Proof. reflexivity. Qed.

(** A request naming distinct deletable files. *)
Lemma delete_request_spec c fs names :
  wf fs -> allow_delete c = true -> Forall (fun c => plain c = true) (image_dir c) ->
  fs !! image_dir c = Some NDir -> (fs !! archive_dir c = None \/ fs !! archive_dir c = Some NDir) ->
  NoDup names -> Forall (deletable c fs) names ->
  exists fs', serve_delete c (request_of names) fs = (Success, fs') /\ wf fs' /\
    fs' !! archive_dir c = Some NDir /\
    (forall n, n ∈ names -> fs' !! (image_dir c ++ [n]) = None /\
                           fs' !! (archive_dir c ++ [bak n]) = fs !! (image_dir c ++ [n])) /\
    (forall k, k <> archive_dir c -> (forall n, n ∈ names -> k <> image_dir c ++ [n] /\ k <> archive_dir c ++ [bak n]) ->
       fs' !! k = fs !! k).
Proof.
  intros Hwf Hallow Himg Himgd Harch Hnd Hdel.
  assert (Hpa : Forall (fun c => plain c = true) (archive_dir c)) by (apply Forall_app; auto using plain_archive).
  unfold serve_delete, delete_images, request_of. rewrite Hallow. cbn [negb].
  rewrite obj_get_filenames. cbn [default]. rewrite (bind_ok (S:=fsys) _ _ fs fs fs) by reflexivity.
  unfold exists_path. rewrite archive_path_render, resolve_render by done.
  destruct Harch as [Harch|Harch]; rewrite Harch.
  - (* the archive is created first *)
    rewrite bool_decide_false by (by intros []).
    set (fs0 := <[archive_dir c := NDir]> fs).
    assert (Hfs0 : forall k, k <> archive_dir c -> fs0 !! k = fs !! k) by (intros; by apply lookup_insert_ne).
    assert (Hnot : forall n, n ∈ names -> image_dir c ++ [n] <> archive_dir c /\ archive_dir c ++ [bak n] <> archive_dir c).
    { intros n Hn. rewrite Forall_forall in Hdel. destruct (Hdel n Hn) as (_ & Hna & _).
      split; [by apply snoc_neq_last|]. intros H. apply (f_equal length) in H. rewrite length_app in H. cbn in H. lia. }
    rewrite (bind_ok _ _ fs tt fs0) by (apply makedirs_new; done).
    destruct (delete_loop c names fs0) as (fs' & Hrun & Hwf' & Harch' & Hmoved & Hkept).
    + by apply wf_insert_dir.
    + done.
    + apply lookup_insert_eq.
    + done.
    + apply Forall_forall. intros n Hn. rewrite Forall_forall in Hdel. destruct (Hdel n Hn) as (? & ? & [x Hx] & Hb).
      destruct (Hnot n Hn). split; [done|]. split; [done|]. rewrite !Hfs0 by done. split; [by exists x | done].
    + exists fs'. cbn [id iter_items]. rewrite (bind_ok _ _ fs0 tt fs' Hrun).
      split; [done|]. split; [done|]. split; [done|]. split.
      * intros n Hn. destruct (Hmoved n Hn) as [H1 H2]. destruct (Hnot n Hn). rewrite H2, Hfs0 by done. done.
      * intros k Hk Hkn. rewrite Hkept by done. by apply Hfs0.
  - rewrite bool_decide_true by done.
    destruct (delete_loop c names fs) as (fs' & Hrun & Hwf' & Harch' & Hmoved & Hkept); [done..|].
    exists fs'. rewrite (bind_ok _ _ fs tt fs) by reflexivity. cbn [id iter_items].
    rewrite (bind_ok _ _ fs tt fs' Hrun). split; [reflexivity|]. split; [done|]. split; [done|]. split; [exact Hmoved | exact Hkept].
Qed.

Lemma neq_snoc (p : path) xs : xs <> [] -> p <> p ++ xs.
Proof. intros Hxs H. apply (f_equal length) in H. rewrite length_app in H. destruct xs; [done|]. cbn in H. lia. Qed.

(** A path that is neither entry of any of [names]. *)
Lemma not_named c k names :
  ~ Exists (fun n => k = image_dir c ++ [n] \/ k = archive_dir c ++ [bak n]) names ->
  forall n, n ∈ names -> k <> image_dir c ++ [n] /\ k <> archive_dir c ++ [bak n].
Proof. intros Hn n Hin. split; intros ->; apply Hn, Exists_exists; eauto. Qed.

(** What a deletion of [names] leaves outside the names: the entries of
    the other names and the image directory itself (from the last
    conclusion of [delete_request_spec]). *)
Section AfterDelete.

Variables (c : config) (fs fs' : fsys) (names : list pystr).
Hypothesis Hkept : forall k, k <> archive_dir c ->
  (forall n, n ∈ names -> k <> image_dir c ++ [n] /\ k <> archive_dir c ++ [bak n]) -> fs' !! k = fs !! k.

Lemma kept_entry m : m ∉ names -> m <> ps ".archive" -> fs' !! (image_dir c ++ [m]) = fs !! (image_dir c ++ [m]).
Proof.
  intros Hm Ha. apply Hkept; [by apply snoc_neq_last|]. intros n Hn.
  split; [apply snoc_neq_last; set_solver | apply img_neq_arch].
Qed.

Lemma kept_backup m : m ∉ names -> fs' !! (archive_dir c ++ [bak m]) = fs !! (archive_dir c ++ [bak m]).
Proof.
  intros Hm. apply Hkept; [apply not_eq_sym, neq_snoc; done|]. intros n Hn.
  split; [apply not_eq_sym, img_neq_arch|]. apply snoc_neq_last. intros ->%bak_inj. set_solver.
Qed.

Lemma kept_dir : fs' !! image_dir c = fs !! image_dir c.
Proof.
  apply Hkept; [unfold archive_dir; by apply neq_snoc|]. intros n Hn.
  split; [by apply neq_snoc|]. unfold archive_dir. rewrite <- app_assoc. by apply neq_snoc.
Qed.

End AfterDelete.

(** C4. Soft delete: for distinct plain names of files of the image
    directory, [delete_images] answers success, creates [.archive] if
    needed, moves each file [name] to [.archive/.name.bak] with its
    content, leaves every other entry of the store as it was, and keeps
    the store well formed. *)
Theorem delete_archives c fs names :
  wf fs -> allow_delete c = true -> Forall (fun c => plain c = true) (image_dir c) ->
  fs !! image_dir c = Some NDir -> (fs !! archive_dir c = None \/ fs !! archive_dir c = Some NDir) ->
  NoDup names -> Forall (deletable c fs) names ->
  exists fs', serve_delete c (request_of names) fs = (Success, fs') /\ wf fs' /\
    fs' !! archive_dir c = Some NDir /\
    (forall n, n ∈ names -> fs' !! (image_dir c ++ [n]) = None /\
                           fs' !! (archive_dir c ++ [bak n]) = fs !! (image_dir c ++ [n])) /\
    (forall k, k <> archive_dir c -> (forall n, n ∈ names -> k <> image_dir c ++ [n] /\ k <> archive_dir c ++ [bak n]) ->
       fs' !! k = fs !! k).
Proof. exact (delete_request_spec c fs names). Qed.

(** C22. The archive keeps one copy per name: deleting a file whose name
    was archived before replaces the earlier [.name.bak], and content
    that was only in that backup is gone from the store. *)
Theorem delete_overwrites_backup c fs n x y :
  wf fs -> allow_delete c = true -> Forall (fun c => plain c = true) (image_dir c) ->
  fs !! image_dir c = Some NDir -> fs !! archive_dir c = Some NDir ->
  plain n = true -> n <> ps ".archive" -> fs !! (image_dir c ++ [n]) = Some (NFile x) ->
  fs !! (archive_dir c ++ [bak n]) = Some (NFile y) -> x <> y ->
  (forall k, fs !! k = Some (NFile y) -> k = archive_dir c ++ [bak n]) ->
  forall k, (serve_delete c (request_of [n]) fs).2 !! k <> Some (NFile y).
Proof.
  intros Hwf Hallow Himg Himgd Harch Hn Hna Hx Hy Hxy Huniq k.
  destruct (delete_request_spec c fs [n]) as (fs' & Hrun & _ & Harch' & Hmoved & Hkept);
    [done | done | done | done | by right | by apply NoDup_singleton | |].
  { constructor; [|done]. split; [done|]. split; [done|]. split; [by exists x | by rewrite Hy]. }
  rewrite Hrun. cbn [snd]. destruct (Hmoved n ltac:(set_solver)) as [H1 H2].
  destruct (decide (k = archive_dir c)) as [->|Hk1]; [by rewrite Harch'|].
  destruct (decide (k = image_dir c ++ [n])) as [->|Hk2]; [by rewrite H1|].
  destruct (decide (k = archive_dir c ++ [bak n])) as [->|Hk3]; [rewrite H2, Hx; congruence|].
  rewrite Hkept; [| done | intros m ->%list_elem_of_singleton; done].
  intros Hk%Huniq. contradiction.
Qed.

(** [{"filenames": "ab"}] is accepted: [for filename in filenames]
    walks the characters of the string, so the request deletes the
    one-character names [a] and [b]. *)
Theorem delete_string_filenames c s fs :
  serve_delete c (Some (JObj [(ps "filenames", JStr s)])) fs =
  serve_delete c (request_of ((fun ch => [ch]) <$> s)) fs.
Proof.
  unfold serve_delete, delete_images, request_of. destruct (allow_delete c); [|done]. cbn [negb].
  rewrite !obj_get_filenames. cbn [default id iter_items]. by rewrite <- list_fmap_compose.
Qed.

Lemma for_each_app {S A} (xs ys : list A) (body : A -> PyM S unit) s :
  for_each (xs ++ ys) body s = (for_each xs body ≫= fun _ => for_each ys body) s.
Proof.
  revert s. induction xs as [|x xs IH]; intros s; [done|]. cbn [app for_each].
  rewrite !bind_run. destruct (body x s) as [[[]|e] s1]; [|done]. rewrite IH, bind_run. done.
Qed.

(** C35. The loop is not atomic: when a later item of [filenames] is not
    a string, the files named before it have already been moved, and the
    client receives a 500 (so the page does not reload). *)
Theorem delete_partial_failure c fs names bad fs' :
  (forall s, bad <> JStr s) ->
  serve_delete c (request_of names) fs = (Success, fs') ->
  serve_delete c (Some (JObj [(ps "filenames", JArr ((JStr <$> names) ++ [bad]))])) fs =
  (ServerError TypeError, fs').
Proof.
  intros Hbad. unfold serve_delete, delete_images, request_of.
  destruct (allow_delete c); [|done]. cbn [negb]. rewrite !obj_get_filenames. cbn [default id iter_items].
  rewrite !bind_gets.
  set (m0 := if exists_path fs (archive_path c) then mret tt else makedirs_go [] (image_dir c ++ [ps ".archive"])).
  rewrite !bind_run. destruct (m0 fs) as [[[]|e] fs1]; [|done].
  rewrite !bind_run, for_each_app, !bind_run.
  destruct (for_each (JStr <$> names) (delete_one c) fs1) as [[[]|e] fs2]; [|done].
  intros [= ->]. cbn. rewrite bind_run. destruct bad; try reflexivity. by destruct (Hbad s).
Qed.

(** Without the delete flag nothing is moved, whatever the request. *)
Theorem delete_forbidden c body fs :
  allow_delete c = false -> serve_delete c body fs = (Forbidden, fs).
Proof. intros H. unfold serve_delete, delete_images. by rewrite H. Qed.

(** ** An absolute name *)

Lemma walk_dir_app fs cur q r :
  wf fs -> fs !! cur = Some NDir -> Forall (fun c => plain c = true) q -> fs !! (cur ++ q) = Some NDir ->
  walk fs cur (q ++ r) = walk fs (cur ++ q) r.
Proof.
  intros Hwf. revert cur. induction q as [|c q IH]; intros cur Hcur Hq Hcq; [by rewrite app_nil_r|].
  inversion Hq as [|? ? Hc Hq']; subst. cbn [app walk]. destruct (plain_special c Hc) as [-> ->].
  assert (Hc' : fs !! (cur ++ [c]) = Some NDir).
  { destruct q as [|c' q]; [done|]. apply (wf_dir_of_child fs _ c' q NDir Hwf). by rewrite <- app_assoc. }
  rewrite Hc'. rewrite IH; [by rewrite <- app_assoc | done | done | by rewrite <- app_assoc].
Qed.

Lemma render_join_raw p w :
  Forall (fun c => plain c = true) p -> p <> [] -> startswith w [slash] = false ->
  path_join (render p) w = render p ++ slash :: w.
Proof.
  intros Hp Hne Hw. unfold path_join. rewrite Hw.
  destruct p as [|c p _] using rev_ind; [done|].
  apply Forall_app in Hp as [_ Hc]. inversion Hc as [|? ? Hc' _]; subst.
  apply plain_spec in Hc' as (Hcne & _ & _ & Hcsl & _).
  rewrite endswith_single, render_last, (bool_decide_false (last _ = _)) by (by apply last_noslash).
  by rewrite (bool_decide_false (render _ = [])) by (rewrite render_snoc; destruct (concat _); discriminate).
Qed.

(** The path [p/./w] of a directory [p]. *)
Lemma split_render_dot p w :
  Forall (fun c => plain c = true) p -> plain w = true ->
  split_sep slash (render (p ++ [ps "."; w])) = [] :: p ++ [ps "."; w].
Proof.
  intros Hp Hw. rewrite render_nonempty by (by destruct p).
  rewrite <- (app_nil_l (concat _)). apply split_sep_concat; [set_solver|].
  apply Forall_app. split; [by apply plain_noslash|]. constructor; [unfold ps; cbn; set_solver|].
  constructor; [|done]. apply plain_spec in Hw. tauto.
Qed.

Lemma render_dot_nonul p w :
  Forall (fun c => plain c = true) p -> plain w = true -> 0%N ∉ render (p ++ [ps "."; w]).
Proof.
  intros Hp Hw. replace (p ++ [ps "."; w]) with ((p ++ [ps "."]) ++ [w]) by (by rewrite <- app_assoc).
  rewrite render_snoc, elem_of_app, elem_of_cons.
  assert (H0 : 0%N ∉ w) by (apply plain_spec in Hw; tauto).
  rewrite map_app, concat_app, elem_of_app. cbn [map concat]. unfold ps. cbn.
  pose proof (render_nonul p Hp) as Hn. destruct p as [|c p]; [set_solver|].
  rewrite render_nonempty in Hn by done. set_solver.
Qed.

Lemma resolve_dot fs p w :
  wf fs -> Forall (fun c => plain c = true) p -> fs !! p = Some NDir -> plain w = true ->
  resolve fs (render (p ++ [ps "."; w])) = if fs !! (p ++ [w]) is Some _ then Some (p ++ [w]) else None.
Proof.
  intros Hwf Hp Hdir Hw. unfold resolve. rewrite bool_decide_false by (by apply render_dot_nonul).
  rewrite split_render_dot by done. rewrite walk_dir_app by (done || by destruct Hwf). cbn [app walk].
  rewrite (bool_decide_true (ps "." = ps ".")), orb_true_r by done. cbn [walk].
  destruct (plain_special w Hw) as [-> ->]. by destruct (fs !! (p ++ [w])) as [[]|].
Qed.

Lemma resolve_parent_dot fs p w :
  wf fs -> Forall (fun c => plain c = true) p -> fs !! p = Some NDir -> plain w = true ->
  resolve_parent fs (render (p ++ [ps "."; w])) = Some (p, w).
Proof.
  intros Hwf Hp Hdir Hw. unfold resolve_parent. rewrite bool_decide_false by (by apply render_dot_nonul).
  rewrite split_render_dot by done.
  replace (p ++ [ps "."; w]) with ((p ++ [ps "."]) ++ [w]) by (by rewrite <- app_assoc). rewrite last_snoc.
  destruct (plain_special w Hw) as [-> ->]. cbn [orb]. rewrite removelast_last.
  rewrite walk_dir_app by (done || by destruct Hwf). cbn [app walk].
  rewrite (bool_decide_true (ps "." = ps ".")), orb_true_r by done. cbn [walk]. rewrite Hdir. by rewrite bool_decide_true.
Qed.

Lemma plain_dotbak m : plain m = true -> plain (m ++ ps ".bak") = true.
Proof.
  intros (Hne & Hd1 & Hd2 & Hsl & Hnul)%plain_spec. apply plain_spec. unfold ps. cbn.
  assert (Hl : forall w, w = m ++ [46%N; 98%N; 97%N; 107%N] -> (length w >= 5)%nat).
  { intros w ->. rewrite length_app. destruct m; [done|]. cbn. lia. }
  split; [by destruct m|]. split; [intros Heq; specialize (Hl _ (eq_sym Heq)); cbn in Hl; lia|].
  split; [intros Heq; specialize (Hl _ (eq_sym Heq)); cbn in Hl; lia|].
  split; rewrite elem_of_app, !elem_of_cons; unfold slash; intros [?|[?|[?|[?|[?|?]]]]]; (done || congruence || set_solver).
Qed.

(** C15. Names are not confined to the image directory: [os.path.join]
    discards [IMAGE_DIR] before an absolute name, so the request
    [["/m"]] moves the file [/m] at the root of the file system into the
    archive as [.archive/m.bak]. *)
Theorem delete_absolute_escape c fs m x :
  wf fs -> allow_delete c = true -> Forall (fun c => plain c = true) (image_dir c) ->
  fs !! archive_dir c = Some NDir -> plain m = true -> fs !! [m] = Some (NFile x) ->
  fs !! (archive_dir c ++ [m ++ ps ".bak"]) <> Some NDir ->
  serve_delete c (request_of [slash :: m]) fs =
  (Success, <[archive_dir c ++ [m ++ ps ".bak"] := NFile x]> (delete [m] fs)).
Proof.
  intros Hwf Hallow Himg Harch Hm Hx Hdst.
  assert (Hpa : Forall (fun c => plain c = true) (archive_dir c)) by (apply Forall_app; auto using plain_archive).
  pose proof (plain_dotbak m Hm) as Hmb.
  set (d := archive_dir c ++ [m ++ ps ".bak"]).
  assert (Hsrc : path_join (render (image_dir c)) (slash :: m) = render [m]).
  { unfold path_join. cbn [startswith]. rewrite bool_decide_true by done. cbn. by rewrite app_nil_r. }
  assert (Hdst_s : path_join (archive_path c) (bak (slash :: m)) = render (archive_dir c ++ [ps "."; m ++ ps ".bak"])).
  { rewrite archive_path_render, render_join_raw by (done || reflexivity || (unfold archive_dir; by destruct (image_dir c))).
    replace (archive_dir c ++ [ps "."; m ++ ps ".bak"]) with ((archive_dir c ++ [ps "."]) ++ [m ++ ps ".bak"])
      by (by rewrite <- app_assoc).
    rewrite render_snoc, render_nonempty by (unfold archive_dir; by destruct (image_dir c)).
    rewrite map_app, concat_app. cbn [map concat]. unfold bak. rewrite <- !app_assoc. reflexivity. }
  assert (Hsd : [m] <> d)
    by (intros Heq; apply (f_equal length) in Heq; unfold d, archive_dir in Heq; rewrite !length_app in Heq; cbn in Heq; lia).
  assert (Hmv : os_rename (render [m]) (render (archive_dir c ++ [ps "."; m ++ ps ".bak"])) fs =
                (Ok tt, <[d := NFile x]> (delete [m] fs))).
  { unfold os_rename. rewrite resolve_render, Hx, resolve_parent_dot by (done || by constructor).
    apply rename_file; [done | done | | done].
    intros Hpre. apply prefix_snoc_inv in Hpre; [|done].
    destruct (decide ([m] = archive_dir c)) as [E|E]; [rewrite E in Hx; congruence|].
    pose proof (wf_dir_prefix fs _ _ _ Hwf Harch Hpre E). congruence. }
  assert (Hone : delete_one c (JStr (slash :: m)) fs = (Ok tt, <[d := NFile x]> (delete [m] fs))).
  { unfold delete_one. rewrite Hsrc, bind_gets. unfold exists_path. rewrite resolve_render, Hx by (done || by constructor).
    rewrite bool_decide_true by done. rewrite Hdst_s. unfold shutil_move.
    rewrite resolve_dot by done. fold d. destruct (fs !! d) as [[y|]|] eqn:E; [| done | exact Hmv].
    rewrite E, bool_decide_false by done. exact Hmv. }
  unfold serve_delete, delete_images, request_of. rewrite Hallow. cbn [negb]. rewrite obj_get_filenames.
  cbn [default id]. rewrite bind_gets. unfold exists_path at 1. rewrite archive_path_render, resolve_render, Harch by done.
  rewrite bool_decide_true by done. rewrite (bind_ok _ _ fs tt fs) by reflexivity. cbn [iter_items fmap list_fmap].
  rewrite (bind_ok _ _ fs tt (<[d := NFile x]> (delete [m] fs))); [reflexivity|].
  cbn [for_each]. by rewrite (bind_ok _ _ fs tt (<[d := NFile x]> (delete [m] fs)) Hone).
Qed.

(** ** Witnesses *)

Lemma wf_check_sound fs : wf_check fs = true -> wf fs.
Proof.
  unfold wf_check. intros [Hroot Hall]%andb_prop. split; [by apply bool_decide_eq_true in Hroot|].
  intros k v p Hk [r ->] Hne. rewrite forallb_forall in Hall.
  specialize (Hall (p ++ r, v)). rewrite forallb_forall in Hall.
  assert (Hlen : (length p < length (p ++ r))%nat).
  { rewrite length_app. destruct r; [by rewrite app_nil_r in Hne|]. cbn. lia. }
  specialize (Hall ltac:(apply list_elem_of_In, elem_of_map_to_list, Hk) (length p)). cbn [fst] in Hall.
  rewrite take_app_length in Hall. eapply bool_decide_eq_true_1, Hall, in_seq. lia.
Qed.

(** [/srv/img] with [a.png], [b.jpg], an archive holding an older
    [b.jpg], and a file [/x.png] outside the gallery. *)
Definition demo_fs : fsys :=
  list_to_map [([], NDir); ([ps "srv"], NDir); ([ps "srv"; ps "img"], NDir);
               ([ps "srv"; ps "img"; ps "a.png"], NFile 1); ([ps "srv"; ps "img"; ps "b.jpg"], NFile 2);
               ([ps "srv"; ps "img"; ps ".archive"], NDir);
               ([ps "srv"; ps "img"; ps ".archive"; ps ".b.jpg.bak"], NFile 9);
               ([ps "x.png"], NFile 7)].

Definition demo_cfg : config := {| image_dir := [ps "srv"; ps "img"]; allow_delete := true |}.

Lemma demo_wf : wf demo_fs.
Proof. apply wf_check_sound. vm_compute. reflexivity. Qed.

Lemma demo_img : Forall (fun c => plain c = true) (image_dir demo_cfg).
Proof. repeat constructor. Qed.

Lemma delete_archives_witness :
  exists fs', serve_delete demo_cfg (request_of [ps "a.png"]) demo_fs = (Success, fs') /\
    fs' !! [ps "srv"; ps "img"; ps ".archive"; ps ".a.png.bak"] = Some (NFile 1).
Proof.
  destruct (delete_archives demo_cfg demo_fs [ps "a.png"]) as (fs' & Hrun & _ & _ & Hmoved & _).
  - exact demo_wf.
  - reflexivity.
  - exact demo_img.
  - reflexivity.
  - right. reflexivity.
  - apply NoDup_singleton.
  - constructor; [|constructor]. split; [reflexivity|]. split; [by_decide|].
    split; [eexists; reflexivity | vm_compute; discriminate].
  - exists fs'. split; [exact Hrun|]. destruct (Hmoved (ps "a.png") ltac:(by apply list_elem_of_singleton)) as [_ H2].
    etransitivity; [exact H2 | reflexivity].
Defined.

Lemma delete_overwrites_backup_witness :
  map_Forall (fun _ w => w <> NFile 9) (serve_delete demo_cfg (request_of [ps "b.jpg"]) demo_fs).2.
Proof.
  apply map_Forall_lookup_2. intros k w Hk ->. revert Hk.
  apply (delete_overwrites_backup demo_cfg demo_fs (ps "b.jpg") 2 9).
  - exact demo_wf.
  - reflexivity.
  - exact demo_img.
  - reflexivity.
  - reflexivity.
  - reflexivity.
  - by_decide.
  - reflexivity.
  - reflexivity.
  - discriminate.
  - intros k' Hk'.
    refine (map_Forall_lookup_1 (fun k w => w = NFile 9 -> k = [ps "srv"; ps "img"; ps ".archive"; ps ".b.jpg.bak"])
              demo_fs k' (NFile 9) _ Hk' eq_refl).
    by_decide.
Defined.

Lemma delete_partial_failure_witness :
  serve_delete demo_cfg (Some (JObj [(ps "filenames", JArr ((JStr <$> [ps "a.png"]) ++ [JNum 3]))])) demo_fs =
  (ServerError TypeError, (serve_delete demo_cfg (request_of [ps "a.png"]) demo_fs).2).
Proof.
  apply delete_partial_failure; [discriminate | vm_compute; reflexivity].
Defined.

Lemma delete_forbidden_witness :
  serve_delete {| image_dir := [ps "srv"; ps "img"]; allow_delete := false |} (request_of [ps "a.png"]) demo_fs =
  (Forbidden, demo_fs).
Proof. apply delete_forbidden. reflexivity. Defined.

Lemma delete_absolute_escape_witness :
  serve_delete demo_cfg (request_of [slash :: ps "x.png"]) demo_fs =
  (Success, <[[ps "srv"; ps "img"; ps ".archive"; ps "x.png.bak"] := NFile 7]> (delete [ps "x.png"] demo_fs)).
Proof.
  apply (delete_absolute_escape demo_cfg demo_fs (ps "x.png") 7);
    [exact demo_wf | reflexivity | exact demo_img | reflexivity | reflexivity | reflexivity | vm_compute; discriminate].
Defined.

End Archive.
