(* ===== verification/Html.v ===== *)
(** * HTML autoescaping and its decoding

    Both applications render their pages with [render_template_string],
    whose Jinja environment autoescapes every [{{ ... }}] with
    [markupsafe.escape].  This file models that function and the
    browser's decoding of the five character references it emits, as
    the browser applies it to attribute values and text. *)

From Stdlib Require Import String.
From S2P Require Import Prelude.

Module Html.

(** ** Autoescaping *)

(** [markupsafe.escape] on one character. *)
Definition escape_char (c : N) : pystr :=
  if bool_decide (c = 38%N) then ps "&amp;"
  else if bool_decide (c = 62%N) then ps "&gt;"
  else if bool_decide (c = 60%N) then ps "&lt;"
  else if bool_decide (c = 39%N) then ps "&#39;"
  else if bool_decide (c = 34%N) then ps "&#34;"
  else [c].

(** [{{ s }}] *)
Definition escape (s : pystr) : pystr := concat (map escape_char s).

(** The browser's decoding of the references [escape] produces; [k] is
    the number of characters of the current reference still to skip. *)
Fixpoint unescape_skip (k : nat) (s : pystr) : pystr :=
  match s with
  | [] => []
  | c :: r =>
      match k with
      | S k' => unescape_skip k' r
      | O =>
          if startswith s (ps "&amp;") then 38%N :: unescape_skip 4 r
          else if startswith s (ps "&gt;") then 62%N :: unescape_skip 3 r
          else if startswith s (ps "&lt;") then 60%N :: unescape_skip 3 r
          else if startswith s (ps "&#39;") then 39%N :: unescape_skip 4 r
          else if startswith s (ps "&#34;") then 34%N :: unescape_skip 4 r
          else c :: unescape_skip 0 r
      end
  end.

Definition unescape (s : pystr) : pystr := unescape_skip 0 s.

(** ** Lemmas: decoding what was escaped *)

Lemma unescape_plain c r : c <> 38%N -> unescape_skip 0 (c :: r) = c :: unescape_skip 0 r.
Proof.
  intros Hc. cbn [unescape_skip].
  change (ps "&amp;") with (38%N :: ps "amp;"). change (ps "&gt;") with (38%N :: ps "gt;").
  change (ps "&lt;") with (38%N :: ps "lt;"). change (ps "&#39;") with (38%N :: ps "#39;").
  change (ps "&#34;") with (38%N :: ps "#34;"). cbn [startswith]. by rewrite !bool_decide_false.
Qed.

Lemma unescape_escape_char c r : unescape_skip 0 (escape_char c ++ r) = c :: unescape_skip 0 r.
Proof.
  unfold escape_char. repeat case_bool_decide; subst; [reflexivity.. |].
  cbn [app]. by apply unescape_plain.
Qed.

Lemma unescape_escape s q : unescape_skip 0 (escape s ++ q) = s ++ unescape_skip 0 q.
Proof.
  induction s as [|c s IH]; [done|]. unfold escape. cbn [map concat]. fold (escape s).
  by rewrite <- app_assoc, unescape_escape_char, IH.
Qed.

Lemma unescape_noamp p q : 38%N ∉ p -> unescape_skip 0 (p ++ q) = p ++ unescape_skip 0 q.
Proof.
  induction p as [|c p IH]; intros Hp; [done|]. rewrite not_elem_of_cons in Hp.
  cbn [app]. rewrite unescape_plain by (destruct Hp; congruence). by rewrite IH by tauto.
Qed.

(** The browser reads back the text [{{ s }}] stood for. *)
Lemma unescape_escape_full s : unescape (escape s) = s.
Proof. unfold unescape. rewrite <- (app_nil_r (escape s)), unescape_escape. apply app_nil_r. Qed.

(** Text that cannot open or close a tag or an attribute value. *)
Definition markup_free (s : pystr) : Prop := Forall (fun c => c ∉ [60; 62; 34; 39]%N) s.

Lemma escape_markup_free s : markup_free (escape s).
Proof.
  induction s as [|c s IH]; [constructor|]. unfold escape. cbn [map concat]. fold (escape s).
  apply Forall_app; split; [|exact IH]. unfold escape_char. repeat case_bool_decide; subst; [by_decide..|].
  constructor; [|constructor]. rewrite !elem_of_cons, elem_of_nil. intros [? | [? | [? | [? | []]]]]; congruence.
Qed.

(** [markupsafe.escape] keeps every character but the five it replaces. *)
Lemma escape_keeps ch s : ch ∈ s -> ch ∉ [38; 62; 60; 39; 34]%N -> ch ∈ escape s.
Proof.
  intros Hin Hsp. unfold escape. apply list_elem_of_In, in_concat. exists (escape_char ch).
  rewrite <- !list_elem_of_In. split.
  - by apply (list_elem_of_fmap_2 escape_char).
  - unfold escape_char. repeat (case_bool_decide; [subst; set_solver|]). set_solver.
Qed.

End Html.
