(* ===== verification/GalleryPage.v ===== *)
(** * The gallery page: [HTML_TEMPLATE] of [src/run/flask_img_viewer.py]

    [index] renders [HTML_TEMPLATE] with [render_template_string], which
    autoescapes every [{{ ... }}] with [markupsafe.escape].  The browser
    decodes the character references again when it reads an attribute.
    The page's script then drives a lightbox over [imageList] and sends
    deletion requests to [/delete].  This file models the parts of the
    template that carry data (the cards, the pagination links, the limit
    selector) and the script's functions, as a state machine over the
    events a user can cause.

    Autoescaping and its decoding come from [Html].  JavaScript's
    single-quoted string literals are modelled from the language
    specification (the escapes of ECMAScript 2019 except the legacy
    octal ones and [\u{...}]), and so is the array literal of the trash
    icon's call [executeDelete([...])]; any other script that a name
    puts in that [onclick] is outside the model. *)

From Stdlib Require Import String.
From S2P Require Import Prelude PyInt Gallery Html.

Module GalleryPage.

Import Gallery Html.

(** ** JavaScript single-quoted string literals *)

Definition hex_value (c : N) : option N :=
  if bool_decide (48 <= c <= 57)%N then Some (c - 48)%N
  else if bool_decide (97 <= c <= 102)%N then Some (c - 87)%N
  else if bool_decide (65 <= c <= 70)%N then Some (c - 55)%N
  else None.

Fixpoint hex_number (acc : N) (ds : pystr) : option N :=
  match ds with
  | [] => Some acc
  | d :: ds' => v ← hex_value d; hex_number (acc * 16 + v)%N ds'
  end.

(** One escape sequence after the backslash: the characters it stands
    for and the rest of the text. *)
Definition js_escape (c : N) (r : pystr) : option (pystr * pystr) :=
  if bool_decide (c = 110%N) then Some ([10%N], r)
  else if bool_decide (c = 116%N) then Some ([9%N], r)
  else if bool_decide (c = 114%N) then Some ([13%N], r)
  else if bool_decide (c = 98%N) then Some ([8%N], r)
  else if bool_decide (c = 102%N) then Some ([12%N], r)
  else if bool_decide (c = 118%N) then Some ([11%N], r)
  else if bool_decide (c = 48%N) then Some ([0%N], r)
  else if bool_decide (c = 10%N \/ c = 13%N \/ c = 8232%N \/ c = 8233%N) then Some ([], r)
  else if bool_decide (c = 120%N) then
    (if bool_decide (length (take 2 r) = 2) then v ← hex_number 0 (take 2 r); Some ([v], drop 2 r) else None)
  else if bool_decide (c = 117%N) then
    (if bool_decide (length (take 4 r) = 4) then v ← hex_number 0 (take 4 r); Some ([v], drop 4 r) else None)
  else Some ([c], r).

(** The characters of the literal up to its closing quote, and what
    follows it; [None] is a [SyntaxError].  Each step consumes at least
    one character, so [length s + 1] steps are enough. *)
Fixpoint js_sq_go (fuel : nat) (s : pystr) : option (pystr * pystr) :=
  match fuel with
  | O => None
  | S f =>
      match s with
      | [] => None
      | c :: r =>
          if bool_decide (c = 39%N) then Some ([], r)
          else if bool_decide (c = 92%N) then
            match r with
            | [] => None
            | e :: r' =>
                '(v, r'') ← js_escape e r';
                '(w, rest) ← js_sq_go f r'';
                Some (v ++ w, rest)
            end
          else if bool_decide (c = 10%N \/ c = 13%N) then None   (* a line break ends the line, not the string *)
          else '(w, rest) ← js_sq_go f r; Some (c :: w, rest)
      end
  end.

Definition js_sq_body (s : pystr) : option (pystr * pystr) := js_sq_go (S (length s)) s.

(** ** The rendered page (lines 39-82) *)

(** One card of [{% for image in images %}], as the template writes it. *)
Record card := {
  card_value : pystr;          (* value="{{ image }}" of the checkbox *)
  card_src : pystr;            (* src="/images/{{ image }}" *)
  card_index : nat;            (* openModal({{ loop.index0 }}) *)
  card_caption : pystr;        (* {{ image[:20] }}{{ '...' if image|length > 20 }} *)
  card_trash_hidden : bool;    (* {{ 'display:none' if not allow_delete }} *)
  card_trash_onclick : pystr;  (* executeDelete(['{{ image }}']) *)
}.

Definition render_card (allow : bool) (i : nat) (image : pystr) : card := {|
  card_value := escape image;
  card_src := ps "/images/" ++ escape image;
  card_index := i;
  card_caption := escape (take 20 image) ++ (if bool_decide (20 < length image) then ps "..." else []);
  card_trash_hidden := negb allow;
  card_trash_onclick := ps "executeDelete(['" ++ escape image ++ ps "'])";
|}.

(** The pagination links of lines 69-75. *)
Definition page_href (p l : Z) : pystr := ps "?page=" ++ z_repr p ++ ps "&limit=" ++ z_repr l.

Record view := {
  v_title : pystr;                   (* Gallery: {{ path }} *)
  v_total : pystr;                   (* ({{ total }} files) *)
  v_options : list (Z * bool);       (* the limits offered, and which is selected *)
  v_delete_shown : bool;             (* .btn-delete display *)
  v_cards : list card;
  v_prev : option pystr;
  v_page_label : pystr;              (* Page {{ page }} of {{ total_pages }} *)
  v_next : option pystr;
  v_images : list pystr;             (* const imageList = {{ images|tojson }} *)
}.

Definition render (pg : page) : view := {|
  v_title := ps "Gallery: " ++ escape (pg_path pg);
  v_total := ps "(" ++ z_repr (pg_total pg) ++ ps " files)";
  v_options := map (fun l => (l, bool_decide (l = pg_limit pg))) [10; 25; 50; 100]%Z;
  v_delete_shown := pg_allow_delete pg;
  v_cards := imap (render_card (pg_allow_delete pg)) (pg_images pg);
  v_prev := if bool_decide (1 < pg_page pg)%Z then Some (page_href (pg_page pg - 1) (pg_limit pg)) else None;
  v_page_label := ps "Page " ++ z_repr (pg_page pg) ++ ps " of " ++ z_repr (pg_total_pages pg);
  v_next := if bool_decide (pg_page pg < pg_total_pages pg)%Z
            then Some (page_href (pg_page pg + 1) (pg_limit pg)) else None;
  v_images := pg_images pg;
|}.

(** ** The script (lines 83-146) *)

(** JavaScript white space of the ASCII range: tab, line feed, line
    tabulation, form feed, carriage return and space. *)
Definition js_space (c : N) : bool := ((c =? 32) || ((9 <=? c) && (c <=? 13)))%N.

Fixpoint skip_space (s : pystr) : pystr :=
  match s with
  | c :: r => if js_space c then skip_space r else s
  | [] => []
  end.

(** The elements of an array literal of single-quoted strings, after its
    [[]: the strings, separated by commas (a trailing comma allowed), and
    the text after the last one.  Each element consumes a character, so
    [length s + 1] steps are enough. *)
Fixpoint js_sq_list (fuel : nat) (s : pystr) : option (list pystr * pystr) :=
  match fuel with
  | O => None
  | S f =>
      match skip_space s with
      | c :: r =>
          if bool_decide (c = 39%N) then
            '(v, r1) ← js_sq_body r;
            match skip_space r1 with
            | d :: r2 =>
                if bool_decide (d = 44%N) then '(vs, r3) ← js_sq_list f r2; Some (v :: vs, r3)
                else Some ([v], d :: r2)
            | [] => Some ([v], [])
            end
          else Some ([], c :: r)
      | [] => Some ([], [])
      end
  end.

(** The end of the call: [] )], with white space around the [)]. *)
Definition js_close (rest : pystr) : bool :=
  match rest with
  | c :: r =>
      bool_decide (c = 93%N) &&
      match skip_space r with
      | d :: r' => bool_decide (d = 41%N) && bool_decide (skip_space r' = [])
      | [] => false
      end
  | [] => false
  end.

(** [onclick="executeDelete(['{{ image }}'])"] as the browser runs it,
    when the decoded attribute is a call of [executeDelete] on an array
    literal of single-quoted strings: the list it passes.  Any other text
    (a syntax error, or other code that a name puts in the script) is
    [None]: the model does not run it. *)
Definition trash_argument (onclick : pystr) : option (list pystr) :=
  let pre := ps "executeDelete([" in
  if startswith onclick pre then
    match js_sq_list (length onclick) (drop (length pre) onclick) with
    | Some (vs, rest) => if js_close rest then Some vs else None
    | None => None
    end
  else None.

(** The state of the page: the lightbox, the checkboxes, the batch
    button, and the deletion requests sent so far. *)
Record ui := {
  ui_index : Z;                (* currentIndex *)
  ui_modal : bool;             (* myModal.style.display === "block" *)
  ui_src : pystr;              (* modalImg.src *)
  ui_checked : list bool;      (* the checkboxes, in page order *)
  ui_btn_disabled : bool;
  ui_btn_label : pystr;
  ui_sent : list (list pystr); (* bodies {filenames: [...]} posted to /delete *)
}.

Definition ui_init (n : nat) : ui := {|
  ui_index := 0; ui_modal := false; ui_src := [];
  ui_checked := replicate n false; ui_btn_disabled := true; ui_btn_label := ps "Delete Selected";
  ui_sent := [];
|}.

Definition set_index (i : Z) (u : ui) : ui :=
  {| ui_index := i; ui_modal := ui_modal u; ui_src := ui_src u; ui_checked := ui_checked u;
     ui_btn_disabled := ui_btn_disabled u; ui_btn_label := ui_btn_label u; ui_sent := ui_sent u |}.

Definition set_modal (b : bool) (u : ui) : ui :=
  {| ui_index := ui_index u; ui_modal := b; ui_src := ui_src u; ui_checked := ui_checked u;
     ui_btn_disabled := ui_btn_disabled u; ui_btn_label := ui_btn_label u; ui_sent := ui_sent u |}.

Definition set_src (s : pystr) (u : ui) : ui :=
  {| ui_index := ui_index u; ui_modal := ui_modal u; ui_src := s; ui_checked := ui_checked u;
     ui_btn_disabled := ui_btn_disabled u; ui_btn_label := ui_btn_label u; ui_sent := ui_sent u |}.

Definition set_checked (c : list bool) (u : ui) : ui :=
  {| ui_index := ui_index u; ui_modal := ui_modal u; ui_src := ui_src u; ui_checked := c;
     ui_btn_disabled := ui_btn_disabled u; ui_btn_label := ui_btn_label u; ui_sent := ui_sent u |}.

Definition set_button (d : bool) (label : pystr) (u : ui) : ui :=
  {| ui_index := ui_index u; ui_modal := ui_modal u; ui_src := ui_src u; ui_checked := ui_checked u;
     ui_btn_disabled := d; ui_btn_label := label; ui_sent := ui_sent u |}.

Definition send (names : list pystr) (u : ui) : ui :=
  {| ui_index := ui_index u; ui_modal := ui_modal u; ui_src := ui_src u; ui_checked := ui_checked u;
     ui_btn_disabled := ui_btn_disabled u; ui_btn_label := ui_btn_label u; ui_sent := ui_sent u ++ [names] |}.

(** [imageList[i]], which is [undefined] out of range. *)
Definition js_at (l : list pystr) (i : Z) : pystr :=
  if bool_decide (0 <= i)%Z then default (ps "undefined") (l !! Z.to_nat i) else ps "undefined".

(** [updateModalImage()] *)
Definition updateModalImage (l : list pystr) (u : ui) : ui := set_src (ps "/images/" ++ js_at l (ui_index u)) u.

(** [openModal(index)] *)
Definition openModal (l : list pystr) (i : Z) (u : ui) : ui := updateModalImage l (set_modal true (set_index i u)).

(** [closeModal()] *)
Definition closeModal (u : ui) : ui := set_modal false u.

(** [changeImage(dir)] *)
Definition changeImage (l : list pystr) (dir : Z) (u : ui) : ui :=
  let n := Z.of_nat (length l) in
  let i1 := (ui_index u + dir)%Z in
  let i2 := if bool_decide (i1 < 0)%Z then (n - 1)%Z else i1 in
  let i3 := if bool_decide (n <= i2)%Z then 0%Z else i2 in
  updateModalImage l (set_index i3 u).

(** The [keydown] listener. *)
Definition keydown (l : list pystr) (key : pystr) (u : ui) : ui :=
  if ui_modal u then
    if bool_decide (key = ps "ArrowLeft") then changeImage l (-1) u
    else if bool_decide (key = ps "ArrowRight") then changeImage l 1 u
    else if bool_decide (key = ps "Escape") then closeModal u
    else u
  else u.

(** [updateUI()] *)
Definition updateUI (u : ui) : ui :=
  let n := length (filter (fun b : bool => b) (ui_checked u)) in
  set_button (bool_decide (n = 0)) (ps "Delete Selected (" ++ z_repr (Z.of_nat n) ++ ps ")") u.

(** The names of the checked boxes, in document order. *)
Definition checked_values (values : list pystr) (checked : list bool) : list pystr :=
  omap (fun vb : pystr * bool => if vb.2 then Some vb.1 else None) (zip values checked).

(** [executeDelete(fileList)]: the request is sent; the reload on
    success ends the page. *)
Definition executeDelete (names : list pystr) (u : ui) : ui := send names u.

(** [handleBatchDelete()] with the answer of [confirm]. *)
Definition handleBatchDelete (values : list pystr) (confirmed : bool) (u : ui) : ui :=
  if confirmed then executeDelete (checked_values values (ui_checked u)) u else u.

(** What the user can do on the page. *)
Inductive event :=
  | ClickImage (i : nat)          (* the image of card i *)
  | ClickNav (dir : Z)            (* the arrows of the lightbox, while it is shown *)
  | ClickModalImage               (* the lightbox image *)
  | KeyDown (key : pystr)
  | Toggle (i : nat)              (* the checkbox of card i *)
  | ClickBatch (confirmed : bool) (* the batch button, while enabled *)
  | ClickTrash (i : nat).         (* the trash icon of card i, when shown *)

(** The page of [view] reacting to one event.  The browser's decoding of
    attribute values is [unescape].  [None]: the event cannot happen in
    this state (a hidden icon, a disabled button, a closed lightbox), or
    the trash icon runs a script that is not a call of [executeDelete]
    on string literals, which the model leaves out. *)
Definition page_step (v : view) (l : list pystr) (e : event) (u : ui) : option ui :=
  let values := map (fun c => unescape (card_value c)) (v_cards v) in
  match e with
  | ClickImage i => if bool_decide (i < length (v_cards v))%nat then Some (openModal l (Z.of_nat i) u) else None
  | ClickNav d => if ui_modal u then Some (changeImage l d u) else None
  | ClickModalImage => if ui_modal u then Some (closeModal u) else None
  | KeyDown k => Some (keydown l k u)
  | Toggle i =>
      match ui_checked u !! i with
      | Some b => Some (updateUI (set_checked (<[i := negb b]> (ui_checked u)) u))
      | None => None
      end
  | ClickBatch ok =>
      if ui_btn_disabled u || negb (v_delete_shown v) then None else Some (handleBatchDelete values ok u)
  | ClickTrash i =>
      match v_cards v !! i with
      | Some c =>
          if card_trash_hidden c then None
          else names ← trash_argument (unescape (card_trash_onclick c)); Some (executeDelete names u)
      | None => None
      end
  end.

(** The states reachable from the loaded page. *)
Inductive reachable (v : view) (l : list pystr) : ui -> Prop :=
  | reach_init : reachable v l (ui_init (length (v_cards v)))
  | reach_step u e u' : reachable v l u -> page_step v l e u = Some u' -> reachable v l u'.

(** The [onclick] of a trash icon, once the browser has decoded it. *)
Lemma trash_onclick_decoded a i name :
  unescape (card_trash_onclick (render_card a i name)) = ps "executeDelete(['" ++ name ++ ps "'])".
Proof.
  cbn [card_trash_onclick render_card]. unfold unescape.
  rewrite unescape_noamp by by_decide. rewrite unescape_escape. reflexivity.
Qed.

(** A character that stands for itself in a single-quoted literal. *)
Definition js_plain (c : N) : bool := bool_decide (c <> 39%N /\ c <> 92%N /\ c <> 10%N /\ c <> 13%N).

Lemma js_sq_go_plain f w rest :
  Forall (fun c => js_plain c = true) w -> (length w < f)%nat ->
  js_sq_go f (w ++ 39%N :: rest) = Some (w, rest).
Proof.
  revert f. induction w as [|c w IH]; intros f Hw Hf; (destruct f as [|f]; [cbn in Hf; lia|]).
  - cbn. by rewrite bool_decide_true.
  - inversion Hw as [|? ? Hc Hw']; subst. apply bool_decide_eq_true in Hc as (H1 & H2 & H3 & H4).
    cbn [app js_sq_go]. rewrite !bool_decide_false by (done || tauto). rewrite IH; [done | done | cbn in Hf; lia].
Qed.

Lemma js_escape_length c r v r' : js_escape c r = Some (v, r') -> (length r' <= length r)%nat.
Proof.
  unfold js_escape. repeat case_bool_decide; try (intros [= _ <-]; lia).
  all: destruct (hex_number _ _); cbn; [intros [= _ <-]; rewrite length_drop; lia | done].
Qed.

(** The fuel [S (length s)] of [js_sq_body] is enough: every step
    consumes a character, and more fuel never changes the result. *)
Lemma js_sq_go_fuel f1 : forall f2 s, (length s < f1 <= f2)%nat -> js_sq_go f1 s = js_sq_go f2 s.
Proof.
  induction f1 as [|f1 IH]; intros f2 s Hf; [lia|]. destruct f2 as [|f2]; [lia|].
  destruct s as [|c r]; [done|]. cbn [js_sq_go length] in *.
  case_bool_decide; [done|]. case_bool_decide.
  - destruct r as [|e r']; [done|]. destruct (js_escape e r') as [[v r'']|] eqn:E; cbn; [|done].
    apply js_escape_length in E. cbn in Hf. by rewrite (IH f2) by lia.
  - case_bool_decide; [done|]. by rewrite (IH f2) by lia.
Qed.

Lemma js_escape_b r : js_escape 98%N r = Some ([8%N], r).
Proof. reflexivity. Qed.

Lemma js_sq_body_plain w rest :
  Forall (fun c => js_plain c = true) w -> js_sq_body (w ++ 39%N :: rest) = Some (w, rest).
Proof. intros Hw. unfold js_sq_body. apply js_sq_go_plain; [done|]. rewrite length_app. cbn. lia. Qed.

Lemma skip_space_keep c r : js_space c = false -> skip_space (c :: r) = c :: r.
Proof. intros Hc. cbn. by rewrite Hc. Qed.

(** One element of the array literal. *)
Lemma js_sq_list_elem f s0 s v rest :
  skip_space s0 = 39%N :: s -> js_sq_body s = Some (v, rest) ->
  js_sq_list (S f) s0 =
    match skip_space rest with
    | d :: r2 => if bool_decide (d = 44%N) then '(vs, r3) ← js_sq_list f r2; Some (v :: vs, r3) else Some ([v], d :: r2)
    | [] => Some ([v], [])
    end.
Proof. intros H0 Hs. cbn [js_sq_list]. rewrite H0, bool_decide_true by done. by rewrite Hs. Qed.

(** The decoded [onclick] of a card whose name is followed by the rest
    of the template's text. *)
Lemma trash_argument_card a i name :
  trash_argument (unescape (card_trash_onclick (render_card a i name))) =
  match js_sq_list (S (S (S (S (S (S (S (S (S (S (S (S (S (S (S (length (39%N :: name ++ ps "'])")))))))))))))))))
                   (39%N :: name ++ ps "'])") with
  | Some (vs, rest) => if js_close rest then Some vs else None
  | None => None
  end.
Proof.
  rewrite trash_onclick_decoded. change (ps "executeDelete(['") with (ps "executeDelete([" ++ [39%N]).
  rewrite <- app_assoc. unfold trash_argument. rewrite startswith_app, drop_app_length' by reflexivity.
  reflexivity.
Qed.

(** The trash icon of a card passes exactly the name to
    [executeDelete] when the name has no quote, backslash or line break. *)
Lemma trash_argument_plain a i name :
  Forall (fun c => js_plain c = true) name ->
  trash_argument (unescape (card_trash_onclick (render_card a i name))) = Some [name].
Proof.
  intros Hname. rewrite trash_argument_card. change (ps "'])") with (39%N :: ps "])").
  rewrite (js_sq_list_elem _ _ (name ++ 39%N :: ps "])") name (ps "])")); [reflexivity | reflexivity | by apply js_sq_body_plain].
Qed.

(** C36. A backslash is read as an escape: for [a\bc.png] the icon asks
    to delete [a], a backspace and [c.png], a name that does not exist,
    and the server answers success without deleting anything. *)
Theorem trash_backslash_renames a i pre post :
  Forall (fun c => js_plain c = true) pre -> Forall (fun c => js_plain c = true) post ->
  trash_argument (unescape (card_trash_onclick (render_card a i (pre ++ 92%N :: 98%N :: post)))) =
  Some [pre ++ 8%N :: post].
Proof.
  intros Hpre Hpost. rewrite trash_argument_card. change (ps "'])") with (39%N :: ps "])").
  assert (Hgo : forall f, (length pre + length post < f)%nat ->
            js_sq_go (S f) (pre ++ 92%N :: 98%N :: post ++ 39%N :: ps "])") = Some (pre ++ 8%N :: post, ps "])")).
  { induction pre as [|c pre IH]; intros f Hf.
    - cbn [app js_sq_go]. rewrite bool_decide_false, bool_decide_true by done.
      rewrite js_escape_b. cbn [mbind option_bind]. rewrite js_sq_go_plain by (done || (cbn in Hf; lia)). done.
    - inversion Hpre as [|? ? Hc Hpre']; subst. apply bool_decide_eq_true in Hc as (H1 & H2 & H3 & H4).
      cbn [app js_sq_go]. rewrite !bool_decide_false by (done || tauto).
      destruct f as [|f]; [cbn in Hf; lia|]. rewrite IH; [done | done | cbn in Hf; lia]. }
  rewrite <- app_assoc. cbn [app]. rewrite (js_sq_list_elem _ _ (pre ++ 92%N :: 98%N :: post ++ 39%N :: ps "])") (pre ++ 8%N :: post) (ps "])")); [reflexivity | reflexivity |].
  unfold js_sq_body. rewrite Hgo; [done|]. rewrite !length_app. cbn [length]. rewrite length_app. cbn [length]. lia.
Qed.

(** ** Lemmas: the page's state *)

Lemma map_imap_id {A B} (g : B -> A) (l : list A) : forall (f : nat -> A -> B),
  (forall i x, g (f i x) = x) -> map g (imap f l) = l.
Proof. induction l as [|x l IH]; intros f Hf; [done|]. cbn. rewrite Hf. f_equal. apply IH. intros; apply Hf. Qed.

(** The values the checkboxes hold are the page's images. *)
Lemma card_values pg :
  map (fun c => unescape (card_value c)) (v_cards (render pg)) = pg_images pg.
Proof. apply map_imap_id. intros i x. apply unescape_escape_full. Qed.

Lemma length_cards pg : length (v_cards (render pg)) = length (pg_images pg).
Proof. apply length_imap. Qed.

Lemma changeImage_range l d u :
  l <> [] ->
  (0 <= ui_index (changeImage l d u) < Z.of_nat (length l))%Z /\
  ui_src (changeImage l d u) = ps "/images/" ++ js_at l (ui_index (changeImage l d u)) /\
  ui_modal (changeImage l d u) = ui_modal u.
Proof.
  intros Hl. assert (Hn : (0 < Z.of_nat (length l))%Z) by (destruct l; [done | cbn; lia]).
  unfold changeImage. cbn. split; [|done]. repeat case_bool_decide; lia.
Qed.

(** What the lightbox shows: an image of the page, at [currentIndex]. *)
Definition lightbox_ok (l : list pystr) (u : ui) : Prop :=
  ui_modal u = true ->
  (0 <= ui_index u < Z.of_nat (length l))%Z /\ ui_src u = ps "/images/" ++ js_at l (ui_index u).

Lemma js_at_in l i : (0 <= i < Z.of_nat (length l))%Z -> exists x, l !! Z.to_nat i = Some x /\ js_at l i = x.
Proof.
  intros Hi. unfold js_at. rewrite bool_decide_true by lia.
  destruct (l !! Z.to_nat i) as [x|] eqn:E; [by exists x|].
  apply lookup_ge_None in E. lia.
Qed.

(** C27. The lightbox never leaves the page's images: when no name has a
    quote, backslash or line break (so that every trash icon runs
    [executeDelete] on a list of names and no other code, and the model
    has every step of the page), in every state the page can reach an
    open lightbox has [0 <= currentIndex < length] and shows
    [/images/<imageList[currentIndex]>]. *)
Theorem lightbox_in_range pg u :
  Forall (Forall (fun c => js_plain c = true)) (pg_images pg) ->
  reachable (render pg) (pg_images pg) u -> ui_modal u = true ->
  exists name, pg_images pg !! Z.to_nat (ui_index u) = Some name /\ ui_src u = ps "/images/" ++ name /\
    (0 <= ui_index u < Z.of_nat (length (pg_images pg)))%Z.
Proof.
  intros _ Hr. assert (Hinv : lightbox_ok (pg_images pg) u).
  { induction Hr as [|u e u' Hr IH Hstep]; [by intros|].
    destruct e as [i|d| |k|i|ok|i]; cbn [page_step] in Hstep.
    - case_bool_decide as Hi; [|done]. injection Hstep as <-. rewrite length_cards in Hi.
      intros _. cbn. split; [lia | done].
    - destruct (ui_modal u) eqn:Hm; [|done]. injection Hstep as <-.
      destruct (IH Hm) as [Hi _]. assert (pg_images pg <> []) by (intros E; rewrite E in Hi; cbn in Hi; lia).
      destruct (changeImage_range (pg_images pg) d u) as (H1 & H2 & H3); [done|]. by intros _.
    - destruct (ui_modal u); [|done]. injection Hstep as <-. by intros.
    - injection Hstep as <-. unfold keydown. destruct (ui_modal u) eqn:Hm; [|done].
      destruct (IH Hm) as [Hi _]. assert (pg_images pg <> []) by (intros E; rewrite E in Hi; cbn in Hi; lia).
      repeat case_bool_decide;
        first [ done | (by intros)
              | (destruct (changeImage_range (pg_images pg) (-1) u) as (R1 & R2 & R3); [done|]; by intros _)
              | (destruct (changeImage_range (pg_images pg) 1 u) as (R1 & R2 & R3); [done|]; by intros _) ].
    - destruct (ui_checked u !! i); [|done]. injection Hstep as <-. exact IH.
    - case_match; [done|]. injection Hstep as <-. unfold handleBatchDelete. by destruct ok.
    - destruct (v_cards (render pg) !! i) as [c|]; [|done]. destruct (card_trash_hidden c); [done|].
      destruct (trash_argument _); [|done]. by injection Hstep as <-. }
  intros Hm. destruct (Hinv Hm) as [Hi Hs]. destruct (js_at_in (pg_images pg) (ui_index u) Hi) as (x & Hx & Ex).
  exists x. rewrite Hs, Ex. done.
Qed.

Lemma changeImage_step l d u :
  (0 <= ui_index u < Z.of_nat (length l))%Z -> (d = 1 \/ d = -1)%Z ->
  ui_index (changeImage l d u) = ((ui_index u + d) mod Z.of_nat (length l))%Z.
Proof.
  intros Hi Hd. set (n := Z.of_nat (length l)) in *. unfold changeImage. cbn [ui_index set_index updateModalImage set_src].
  fold n. destruct Hd as [-> | ->]; repeat case_bool_decide; try lia;
    first [apply (Z.mod_unique _ _ 0%Z); lia | apply (Z.mod_unique _ _ 1%Z); lia | apply (Z.mod_unique _ _ (-1)%Z); lia
          | symmetry; first [apply (Z.mod_unique _ _ 0%Z); lia | apply (Z.mod_unique _ _ 1%Z); lia | apply (Z.mod_unique _ _ (-1)%Z); lia]].
Qed.

(** The arrow keys cycle: with the lightbox open on image [i] of
    [n], [k] presses of ArrowRight show image [(i + k) mod n] and [k]
    presses of ArrowLeft show image [(i - k) mod n]. *)
Theorem arrows_cycle l u k :
  ui_modal u = true -> (0 <= ui_index u < Z.of_nat (length l))%Z ->
  ui_index (Nat.iter k (keydown l (ps "ArrowRight")) u) = ((ui_index u + Z.of_nat k) mod Z.of_nat (length l))%Z /\
  ui_index (Nat.iter k (keydown l (ps "ArrowLeft")) u) = ((ui_index u - Z.of_nat k) mod Z.of_nat (length l))%Z.
Proof.
  intros Hm Hi. set (n := Z.of_nat (length l)) in *.
  assert (Hn : (0 < n)%Z) by lia.
  assert (Hgen : forall (key : pystr) (d : Z), (d = 1 \/ d = -1)%Z ->
            (forall v, ui_modal v = true -> keydown l key v = changeImage l d v) ->
            ui_modal (Nat.iter k (keydown l key) u) = true /\
            ui_index (Nat.iter k (keydown l key) u) = ((ui_index u + d * Z.of_nat k) mod n)%Z).
  { intros key d Hd Hkey. induction k as [|k IH]; [cbn [Nat.iter nat_rect] | rewrite Nat.iter_succ].
    - split; [done|]. replace (ui_index u + d * Z.of_nat 0)%Z with (ui_index u) by lia.
      rewrite Z.mod_small; lia.
    - destruct IH as [IHm IHi]. rewrite Hkey by done.
      assert (l <> []) by (intros E; unfold n in Hn; rewrite E in Hn; cbn in Hn; lia).
      destruct (changeImage_range l d (Nat.iter k (keydown l key) u)) as (R1 & R2 & R3); [done|].
      split; [by rewrite R3|]. rewrite changeImage_step; [|rewrite IHi; apply Z.mod_pos_bound; lia | done].
      rewrite IHi. fold n. rewrite Zplus_mod_idemp_l. f_equal. lia. }
  split.
  - destruct (Hgen (ps "ArrowRight") 1%Z) as [_ H]; [by left | | rewrite H; f_equal; lia].
    intros v Hv. unfold keydown. rewrite Hv. rewrite bool_decide_false by by_decide. by rewrite bool_decide_true.
  - destruct (Hgen (ps "ArrowLeft") (-1)%Z) as [_ H]; [by right | | rewrite H; f_equal; lia].
    intros v Hv. unfold keydown. rewrite Hv. by rewrite bool_decide_true.
Qed.

(** What the batch button shows: enabled exactly when a box is checked. *)
Definition button_ok (n : nat) (u : ui) : Prop :=
  length (ui_checked u) = n /\
  ui_btn_disabled u = bool_decide (length (filter (fun b : bool => b) (ui_checked u)) = 0%nat).

Lemma count_replicate_false n : length (filter (fun b : bool => b) (replicate n false)) = 0%nat.
Proof. induction n as [|n IH]; [done|]. rewrite replicate_S, filter_cons_False; [exact IH | cbn; congruence]. Qed.

(** The events other than a checkbox leave the checkboxes and the
    button as they are. *)
Lemma page_step_button v l e u u' :
  page_step v l e u = Some u' -> (forall i, e <> Toggle i) ->
  ui_checked u' = ui_checked u /\ ui_btn_disabled u' = ui_btn_disabled u.
Proof.
  intros Hstep Hnt. destruct e as [i|d| |k|i|ok|i]; cbn [page_step] in Hstep.
  - case_bool_decide; [|done]. by injection Hstep as <-.
  - destruct (ui_modal u); [|done]. by injection Hstep as <-.
  - destruct (ui_modal u); [|done]. by injection Hstep as <-.
  - injection Hstep as <-. unfold keydown. by repeat case_match.
  - by destruct (Hnt i).
  - case_match; [done|]. injection Hstep as <-. unfold handleBatchDelete. by destruct ok.
  - destruct (v_cards v !! i); [|done]. destruct (card_trash_hidden _); [done|].
    destruct (trash_argument _); [|done]. by injection Hstep as <-.
Qed.

(** The checkboxes stay one per image and the button follows them. *)
Lemma reachable_button pg u :
  reachable (render pg) (pg_images pg) u ->
  length (ui_checked u) = length (pg_images pg) /\
  ui_btn_disabled u = bool_decide (length (filter (fun b : bool => b) (ui_checked u)) = 0%nat).
Proof.
  induction 1 as [|u e u' Hr IH Hstep].
  - cbn [ui_checked ui_btn_disabled ui_init]. rewrite length_replicate, length_cards, count_replicate_false.
    split; [done|]. by rewrite bool_decide_true.
  - destruct e as [i|d| |k|i|ok|i].
    5: { cbn [page_step] in Hstep. destruct (ui_checked u !! i) as [b|]; [|done]. injection Hstep as <-.
         cbn. split; [by rewrite length_insert; apply IH | done]. }
    all: destruct (page_step_button _ _ _ u u' Hstep) as [-> ->]; [intros ? [=] | exact IH].
Qed.

(** The batch button is enabled exactly when at least one image is
    checked, in every state the page can reach. *)
Theorem batch_button_enabled pg u :
  reachable (render pg) (pg_images pg) u ->
  length (ui_checked u) = length (pg_images pg) /\
  ui_btn_disabled u = bool_decide (length (filter (fun b : bool => b) (ui_checked u)) = 0%nat).
Proof. apply reachable_button. Qed.

Lemma lookup_cards pg i :
  v_cards (render pg) !! i = render_card (pg_allow_delete pg) i <$> pg_images pg !! i.
Proof. apply list_lookup_imap. Qed.

Lemma checked_values_sublist values : forall checked, checked_values values checked `sublist_of` values.
Proof.
  induction values as [|x vs IH]; intros [|b bs]; try apply sublist_nil_l.
  unfold checked_values in *. cbn [zip zip_with omap fst snd]. destruct b; constructor; apply IH.
Qed.

Lemma length_checked_values values : forall checked,
  length values = length checked ->
  length (checked_values values checked) = length (filter (fun b : bool => b) checked).
Proof.
  induction values as [|x vs IH]; intros [|b bs] Hl; try done.
  unfold checked_values in *. cbn [zip zip_with omap fst snd]. injection Hl as Hl.
  destruct b; cbn; rewrite IH; done.
Qed.

Lemma sublist_singleton_elem {A} (x : A) l : x ∈ l -> [x] `sublist_of` l.
Proof.
  intros Hx. apply list_elem_of_split in Hx as (l1 & l2 & ->).
  apply sublist_inserts_l. apply sublist_skip, sublist_nil_l.
Qed.

(** The trash icon of card [i], shown when deletion is allowed,
    sends a request for exactly that card's image when the name has no
    quote, backslash or line break. *)
Theorem trash_sends_name pg i name u :
  pg_allow_delete pg = true -> pg_images pg !! i = Some name ->
  Forall (fun c => js_plain c = true) name ->
  page_step (render pg) (pg_images pg) (ClickTrash i) u = Some (send [name] u).
Proof.
  intros Ha Hi Hn. cbn [page_step]. rewrite lookup_cards, Hi. cbn [fmap option_fmap option_map].
  rewrite Ha. cbn [card_trash_hidden render_card negb]. fold (render_card true i name).
  by rewrite trash_argument_plain.
Qed.

(** C24. A name holding a quote is spliced into the script: for a name
    [x', 'y] (with [x] and [y] free of quotes, backslashes and line
    breaks), the trash icon of that card posts the two names [x] and
    [y], so that the image [y] is archived although its own icon was
    never clicked, and [x', 'y] itself is not archived. *)
Theorem trash_quote_injects pg i x y u :
  pg_allow_delete pg = true -> pg_images pg !! i = Some (x ++ ps "', '" ++ y) ->
  Forall (fun c => js_plain c = true) x -> Forall (fun c => js_plain c = true) y ->
  page_step (render pg) (pg_images pg) (ClickTrash i) u = Some (send [x; y] u).
Proof.
  intros Ha Hi Hx Hy. cbn [page_step]. rewrite lookup_cards, Hi. cbn [fmap option_fmap option_map].
  rewrite Ha. cbn [card_trash_hidden render_card negb]. fold (render_card true i (x ++ ps "', '" ++ y)).
  rewrite trash_argument_card. change (ps "', '") with [39%N; 44%N; 32%N; 39%N]. change (ps "'])") with (39%N :: ps "])").
  rewrite <- app_assoc. cbn [app].
  rewrite (js_sq_list_elem _ _ (x ++ 39%N :: 44%N :: 32%N :: 39%N :: y ++ 39%N :: ps "])") x (44%N :: 32%N :: 39%N :: y ++ 39%N :: ps "])")); [|reflexivity | by apply js_sq_body_plain].
  rewrite skip_space_keep by reflexivity. rewrite bool_decide_true by done. cbn [mbind option_bind].
  rewrite (js_sq_list_elem _ _ (y ++ 39%N :: ps "])") y (ps "])")); [reflexivity | reflexivity | by apply js_sq_body_plain].
Qed.

(** The requests sent from a reachable state, by rule induction on
    [reachable]. *)
Lemma sent_requests_sublist pg u :
  reachable (render pg) (pg_images pg) u ->
  Forall (Forall (fun c => js_plain c = true)) (pg_images pg) ->
  Forall (fun names => names <> [] /\ names `sublist_of` pg_images pg) (ui_sent u).
Proof.
  intros Hr Hplain. induction Hr as [|u e u' Hr IH Hstep]; [constructor|].
  destruct e as [i|d| |k|i|ok|i]; cbn [page_step] in Hstep.
  - case_bool_decide; [|done]. by injection Hstep as <-.
  - destruct (ui_modal u); [|done]. by injection Hstep as <-.
  - destruct (ui_modal u); [|done]. by injection Hstep as <-.
  - injection Hstep as <-. unfold keydown. by repeat case_match.
  - destruct (ui_checked u !! i); [|done]. by injection Hstep as <-.
  - destruct (ui_btn_disabled u) eqn:Hd; [done|]. destruct (v_delete_shown (render pg)); [|done].
    injection Hstep as <-. unfold handleBatchDelete. destruct ok; [|exact IH].
    cbn [executeDelete send ui_sent]. apply Forall_app; split; [exact IH|]. constructor; [|constructor].
    rewrite (card_values pg : map _ (imap _ _) = _). destruct (reachable_button pg u Hr) as [Hlen Hb]. rewrite Hd in Hb. split.
    + intros E. apply (f_equal length) in E. rewrite length_checked_values in E by done.
      symmetry in Hb. apply bool_decide_eq_false in Hb. done.
    + apply checked_values_sublist.
  - destruct (v_cards (render pg) !! i) as [c|] eqn:Hc; [|done]. rewrite lookup_cards in Hc.
    destruct (pg_images pg !! i) as [name|] eqn:Hn; [|done]. injection Hc as <-.
    destruct (card_trash_hidden _); [done|].
    rewrite trash_argument_plain in Hstep by (eapply Forall_lookup_1; eauto).
    injection Hstep as <-. cbn [executeDelete send ui_sent]. apply Forall_app; split; [exact IH|].
    constructor; [|constructor]. split; [done|]. apply sublist_singleton_elem.
    eapply list_elem_of_lookup_2; eauto.
Qed.

(** C9. Every deletion request the page sends names images of the page,
    in page order and at least one, when no name has a quote, backslash
    or line break: the batch button sends the checked boxes and a trash
    icon its own card's image. *)
Theorem requests_are_page_images pg u :
  reachable (render pg) (pg_images pg) u ->
  Forall (Forall (fun c => js_plain c = true)) (pg_images pg) ->
  Forall (fun names => names <> [] /\ names `sublist_of` pg_images pg) (ui_sent u).
Proof. apply sent_requests_sublist. Qed.

(** ** Sequences of events: deletion stays possible *)

(** A sequence of events, applied in order. *)
Fixpoint run_events (v : view) (l : list pystr) (es : list event) (u : ui) : option ui :=
  match es with
  | [] => Some u
  | e :: es' => u' ← page_step v l e u; run_events v l es' u'
  end.

Lemma run_events_reachable v l es : forall u u',
  reachable v l u -> run_events v l es u = Some u' -> reachable v l u'.
Proof.
  induction es as [|e es IH]; intros u u' Hu Hrun; cbn [run_events] in Hrun; [by injection Hrun as <-|].
  destruct (page_step v l e u) as [u1|] eqn:E; [|done]. apply (IH u1); [|done]. by eapply reach_step.
Qed.

Lemma run_events_app v l es1 es2 u :
  run_events v l (es1 ++ es2) u = (u1 ← run_events v l es1 u; run_events v l es2 u1).
Proof.
  revert u. induction es1 as [|e es IH]; intros u; [done|]. cbn [app run_events].
  destruct (page_step v l e u); [apply IH | done].
Qed.

(** The checkboxes can be brought to any ticks [t] by clicking them one
    by one, from the first box that differs; nothing is sent meanwhile
    and the lightbox stays as it is. *)
Lemma toggles_reach v l t : forall d k u,
  (k + d = length t)%nat -> length (ui_checked u) = length t -> take k (ui_checked u) = take k t ->
  exists js u', run_events v l (Toggle <$> js) u = Some u' /\
    ui_checked u' = t /\ ui_sent u' = ui_sent u /\ ui_modal u' = ui_modal u.
Proof.
  induction d as [|d IH]; intros k u Hk Hlen Htake.
  { exists [], u. split; [done|]. split; [|done].
    rewrite <- (take_ge (ui_checked u) k) by lia. rewrite <- (take_ge t k) by lia. exact Htake. }
  destruct (lookup_lt_is_Some_2 (ui_checked u) k ltac:(lia)) as [b Hb].
  destruct (lookup_lt_is_Some_2 t k ltac:(lia)) as [b' Hb'].
  destruct (decide (b = b')) as [<-|Hne].
  - apply (IH (S k) u); [lia | done |]. by rewrite !(take_S_r _ _ b), Htake.
  - set (u1 := updateUI (set_checked (<[k := negb b]> (ui_checked u)) u)).
    destruct (IH (S k) u1) as (js & u' & Hrun & Ht & Hs & Hm); [lia | by cbn; rewrite length_insert |..].
    { cbn. rewrite (take_S_r _ _ (negb b)) by (apply list_lookup_insert_eq; lia).
      rewrite (take_S_r t _ b') by done. rewrite take_insert_ge by lia. rewrite Htake. destruct b, b'; cbn; congruence. }
    exists (k :: js), u'. cbn [fmap list_fmap run_events page_step]. rewrite Hb. cbn [mbind option_bind].
    split; [exact Hrun|]. split; [done|]. split; [by rewrite Hs | by rewrite Hm].
Qed.

Lemma checked_values_none values n : checked_values values (replicate n false) = [].
Proof. revert n. induction values as [|x vs IH]; intros [|n]; [done..|]. apply IH. Qed.

(** Ticking only box [i] selects only the [i]-th value. *)
Lemma checked_values_only values : forall i x, values !! i = Some x ->
  checked_values values (<[i := true]> (replicate (length values) false)) = [x].
Proof.
  induction values as [|y vs IH]; intros [|i] x Hx; try done.
  - injection Hx as ->. cbn. f_equal. apply checked_values_none.
  - apply IH, Hx.
Qed.

Lemma count_only n i : (i < n)%nat -> length (filter (fun b : bool => b) (<[i := true]> (replicate n false))) <> 0%nat.
Proof.
  intros Hi E. apply nil_length_inv in E.
  assert (Hin : true ∈ filter (fun b : bool => b) (<[i := true]> (replicate n false))).
  { apply list_elem_of_filter. split; [done|]. apply list_elem_of_lookup_2 with i.
    apply list_lookup_insert_eq. by rewrite length_replicate. }
  rewrite E in Hin. set_solver.
Qed.

(** [Escape] closes the lightbox when it is open and changes nothing else. *)
Lemma keydown_escape l u :
  ui_modal (keydown l (ps "Escape") u) = false /\ ui_checked (keydown l (ps "Escape") u) = ui_checked u /\
  ui_sent (keydown l (ps "Escape") u) = ui_sent u.
Proof.
  unfold keydown. destruct (ui_modal u) eqn:E; [|done].
  rewrite !bool_decide_false by by_decide. by rewrite bool_decide_true.
Qed.

(** Escape, ticking only box [i] and confirming the batch button. *)
Lemma delete_one_image pg u i name :
  reachable (render pg) (pg_images pg) u -> pg_allow_delete pg = true -> pg_images pg !! i = Some name ->
  exists js u', run_events (render pg) (pg_images pg)
                  (KeyDown (ps "Escape") :: (Toggle <$> js) ++ [ClickBatch true]) u = Some u' /\
    ui_modal u' = false /\ ui_sent u' = ui_sent u ++ [[name]].
Proof.
  intros Hr Ha Hi. set (n := length (pg_images pg)). set (t := <[i := true]> (replicate n false)).
  set (u0 := keydown (pg_images pg) (ps "Escape") u).
  destruct (keydown_escape (pg_images pg) u) as (Hm0 & Hc0 & Hs0). fold u0 in Hm0, Hc0, Hs0.
  assert (Hr0 : reachable (render pg) (pg_images pg) u0) by (by eapply reach_step with (e := KeyDown _)).
  destruct (reachable_button pg u Hr) as [Hlen _].
  destruct (toggles_reach (render pg) (pg_images pg) t n 0 u0) as (js & u1 & Hrun & Ht & Hs & Hm);
    [by unfold t; rewrite length_insert, length_replicate | by unfold t; rewrite length_insert, length_replicate, Hc0 | done |].
  exists js, (send [name] u1). cbn [run_events page_step mbind option_bind]. fold u0.
  rewrite run_events_app, Hrun. cbn [mbind option_bind run_events page_step].
  destruct (reachable_button pg u1 (run_events_reachable _ _ _ _ _ Hr0 Hrun)) as [_ Hb].
  rewrite Hb, Ht, bool_decide_false by (apply count_only; apply lookup_lt_Some in Hi; lia).
  cbn [v_delete_shown render negb orb]. rewrite Ha. cbn [handleBatchDelete executeDelete].
  rewrite card_values, Ht. unfold t, n. rewrite (checked_values_only _ i name Hi).
  cbn. split; [done|]. split; [by rewrite Hm|]. by rewrite Hs, Hs0.
Qed.

(** C18. Deletion stays possible (liveness): from every state the page
    can reach with deletion allowed, each image of the page can still be
    archived.  Pressing Escape (which closes the lightbox when it is
    open), clicking the checkboxes so that only its box is ticked, and
    confirming the batch button sends one more request, which names
    exactly that image.  The states are those of the model, which has
    every step of the page when no name has a quote, backslash or line
    break. *)
Theorem every_image_deletable pg u i name :
  Forall (Forall (fun c => js_plain c = true)) (pg_images pg) -> reachable (render pg) (pg_images pg) u -> pg_allow_delete pg = true -> pg_images pg !! i = Some name ->
  exists js u', run_events (render pg) (pg_images pg)
                  (KeyDown (ps "Escape") :: (Toggle <$> js) ++ [ClickBatch true]) u = Some u' /\
    ui_modal u' = false /\ ui_sent u' = ui_sent u ++ [[name]].
Proof. intros _. apply delete_one_image. Qed.

(** ** Witnesses *)

Definition demo_page : page := {|
  pg_images := [ps "b.jpg"; ps "a.png"]; pg_path := ps "/srv/img"; pg_allow_delete := true;
  pg_page := 1; pg_limit := 25; pg_total := 2; pg_total_pages := 1 |}.

(** Open the second image, go right (wrapping to the first), check the
    second box, confirm the batch deletion, then click the first trash icon. *)
Definition demo_events : list event :=
  [ClickImage 1; KeyDown (ps "ArrowRight"); Toggle 1; ClickBatch true; ClickTrash 0].

Definition demo_ui : ui :=
  default (ui_init 0) (run_events (render demo_page) (pg_images demo_page) demo_events (ui_init 2)).

Lemma demo_reachable : reachable (render demo_page) (pg_images demo_page) demo_ui.
Proof. apply (run_events_reachable _ _ demo_events (ui_init 2)); [apply reach_init | reflexivity]. Qed.

Lemma demo_plain : Forall (Forall (fun c => js_plain c = true)) (pg_images demo_page).
Proof. repeat constructor. Qed.

Lemma lightbox_in_range_witness :
  Forall (Forall (fun c => js_plain c = true)) (pg_images demo_page) /\ ui_modal demo_ui = true /\
  exists name, pg_images demo_page !! Z.to_nat (ui_index demo_ui) = Some name /\
    ui_src demo_ui = ps "/images/" ++ name /\
    (0 <= ui_index demo_ui < Z.of_nat (length (pg_images demo_page)))%Z.
Proof.
  split; [exact demo_plain|]. split; [reflexivity|].
  apply (lightbox_in_range demo_page demo_ui); [exact demo_plain | apply demo_reachable | reflexivity].
Defined.

Lemma arrows_cycle_witness :
  let u := openModal (pg_images demo_page) 1 (ui_init 2) in
  ui_modal u = true /\ (0 <= ui_index u < Z.of_nat (length (pg_images demo_page)))%Z /\
  ui_index (Nat.iter 3 (keydown (pg_images demo_page) (ps "ArrowRight")) u) = ((1 + 3) mod 2)%Z /\
  ui_index (Nat.iter 3 (keydown (pg_images demo_page) (ps "ArrowLeft")) u) = ((1 - 3) mod 2)%Z.
Proof.
  cbv zeta. split; [reflexivity|]. split; [cbn; lia|].
  apply (arrows_cycle (pg_images demo_page) (openModal (pg_images demo_page) 1 (ui_init 2)) 3);
    [reflexivity | cbn; lia].
Defined.

Lemma batch_button_enabled_witness :
  reachable (render demo_page) (pg_images demo_page) demo_ui /\
  length (ui_checked demo_ui) = length (pg_images demo_page) /\
  ui_btn_disabled demo_ui = bool_decide (length (filter (fun b : bool => b) (ui_checked demo_ui)) = 0%nat).
Proof. split; [apply demo_reachable|]. apply (batch_button_enabled demo_page demo_ui), demo_reachable. Defined.

Lemma trash_sends_name_witness :
  pg_allow_delete demo_page = true /\ pg_images demo_page !! 0%nat = Some (ps "b.jpg") /\
  page_step (render demo_page) (pg_images demo_page) (ClickTrash 0) (ui_init 2) =
    Some (send [ps "b.jpg"] (ui_init 2)).
Proof.
  split; [reflexivity|]. split; [reflexivity|].
  apply (trash_sends_name demo_page 0 (ps "b.jpg")); [reflexivity | reflexivity | repeat constructor].
Defined.

(** The name [x.png', 'y.png]: its trash icon archives [x.png] and [y.png]. *)
Definition quote_page : page := {|
  pg_images := [ps "x.png', 'y.png"; ps "y.png"]; pg_path := ps "/srv/img"; pg_allow_delete := true;
  pg_page := 1; pg_limit := 25; pg_total := 2; pg_total_pages := 1 |}.

Lemma trash_quote_injects_witness :
  (pg_allow_delete quote_page = true /\ pg_images quote_page !! 0%nat = Some (ps "x.png" ++ ps "', '" ++ ps "y.png") /\
   Forall (fun c => js_plain c = true) (ps "x.png") /\ Forall (fun c => js_plain c = true) (ps "y.png")) /\
  page_step (render quote_page) (pg_images quote_page) (ClickTrash 0) (ui_init 2) =
    Some (send [ps "x.png"; ps "y.png"] (ui_init 2)).
Proof.
  assert (Hx : Forall (fun c => js_plain c = true) (ps "x.png")) by repeat constructor.
  assert (Hy : Forall (fun c => js_plain c = true) (ps "y.png")) by repeat constructor.
  split; [split; [reflexivity | split; [reflexivity | split; [exact Hx | exact Hy]]]|].
  exact (trash_quote_injects quote_page 0 (ps "x.png") (ps "y.png") (ui_init 2) eq_refl eq_refl Hx Hy).
Defined.

Lemma trash_backslash_renames_witness :
  trash_argument (unescape (card_trash_onclick (render_card true 0 (ps "a" ++ 92%N :: 98%N :: ps "c.png")))) =
  Some [ps "a" ++ 8%N :: ps "c.png"].
Proof. apply (trash_backslash_renames true 0 (ps "a") (ps "c.png")); repeat constructor. Defined.

Lemma requests_are_page_images_witness :
  ui_sent demo_ui = [[ps "a.png"]; [ps "b.jpg"]] /\
  Forall (fun names => names <> [] /\ names `sublist_of` pg_images demo_page) (ui_sent demo_ui).
Proof.
  split; [vm_compute; reflexivity|].
  apply (requests_are_page_images demo_page demo_ui); [apply demo_reachable | repeat constructor].
Defined.

(** From the demo state (lightbox open, second box ticked), the first
    image can still be archived. *)
Lemma every_image_deletable_witness :
  (Forall (Forall (fun c => js_plain c = true)) (pg_images demo_page) /\
   reachable (render demo_page) (pg_images demo_page) demo_ui /\ pg_allow_delete demo_page = true /\
   pg_images demo_page !! 0%nat = Some (ps "b.jpg")) /\
  exists js u', run_events (render demo_page) (pg_images demo_page)
                  (KeyDown (ps "Escape") :: (Toggle <$> js) ++ [ClickBatch true]) demo_ui = Some u' /\
    ui_modal u' = false /\ ui_sent u' = ui_sent demo_ui ++ [[ps "b.jpg"]].
Proof.
  split; [split; [exact demo_plain | split; [exact demo_reachable | split; reflexivity]]|].
  apply (every_image_deletable demo_page demo_ui 0); [exact demo_plain | exact demo_reachable | reflexivity | reflexivity].
Defined.

End GalleryPage.
