(* ===== verification/Nvtop.v ===== *)
(** * The GPU monitor snapshot: [get_nvtop_output] of [src/run/llama-server/app.py]

    [get_nvtop_output] runs [nvtop -p -d 1] with [TERM=vt100] and
    [COLUMNS=120] added to the server's environment, decodes its output
    as UTF-8 ignoring malformed bytes, and deletes the matches of the
    regular expression [\x1B(?:[@-Z\\-_]|\[[0-?]*[ -/]*[@-~])]; a timeout
    or any other exception becomes an error text.  This file models the
    decoder of CPython ([bytes.decode("utf-8", errors="ignore")], which
    drops each maximal malformed subsequence), the regular expression as
    a deterministic scanner, and the three outcomes of the call. *)

From Stdlib Require Import String.
From S2P Require Import Prelude PyObj.

Module Nvtop.

(** ** UTF-8 decoding with [errors="ignore"] *)

Definition in_range (lo hi b : N) : bool := bool_decide (lo <= b <= hi)%N.

Definition cont (b : N) : bool := in_range 128 191 b.

(** The bytes allowed after a lead byte: [E0] excludes overlong forms,
    [ED] the surrogates, [F0] overlong forms and [F4] code points above
    [U+10FFFF]. *)
Definition second_ok (lead b : N) : bool :=
  if bool_decide (lead = 224%N) then in_range 160 191 b
  else if bool_decide (lead = 237%N) then in_range 128 159 b
  else if bool_decide (lead = 240%N) then in_range 144 191 b
  else if bool_decide (lead = 244%N) then in_range 128 143 b
  else cont b.

(** One step of the decoder at a lead byte [b] followed by [r]: the code
    point read and the number of bytes it took, or [None] and the length
    of the maximal malformed subsequence, which [ignore] drops. *)
Definition utf8_char (b : N) (r : list N) : option N * nat :=
  if bool_decide (b < 128)%N then (Some b, 1%nat)
  else if in_range 194 223 b then
    match r with
    | c1 :: _ => if cont c1 then (Some ((b - 192) * 64 + (c1 - 128))%N, 2%nat) else (None, 1%nat)
    | [] => (None, 1%nat)
    end
  else if in_range 224 239 b then
    match r with
    | c1 :: r1 =>
        if second_ok b c1 then
          match r1 with
          | c2 :: _ =>
              if cont c2 then (Some ((b - 224) * 4096 + (c1 - 128) * 64 + (c2 - 128))%N, 3%nat)
              else (None, 2%nat)
          | [] => (None, 2%nat)
          end
        else (None, 1%nat)
    | [] => (None, 1%nat)
    end
  else if in_range 240 244 b then
    match r with
    | c1 :: r1 =>
        if second_ok b c1 then
          match r1 with
          | c2 :: r2 =>
              if cont c2 then
                match r2 with
                | c3 :: _ =>
                    if cont c3 then
                      (Some ((b - 240) * 262144 + (c1 - 128) * 4096 + (c2 - 128) * 64 + (c3 - 128))%N, 4%nat)
                    else (None, 3%nat)
                | [] => (None, 3%nat)
                end
              else (None, 2%nat)
          | [] => (None, 2%nat)
          end
        else (None, 1%nat)
    | [] => (None, 1%nat)
    end
  else (None, 1%nat).

(** The decoder; [k] bytes of the current sequence are still to skip. *)
Fixpoint decode_go (k : nat) (bs : list N) : pystr :=
  match bs with
  | [] => []
  | b :: r =>
      match k with
      | S k' => decode_go k' r
      | O =>
          match utf8_char b r with
          | (Some c, n) => c :: decode_go (n - 1) r
          | (None, n) => decode_go (n - 1) r
          end
      end
  end.

(** [bytes.decode("utf-8", errors="ignore")] *)
Definition decode_ignore (bs : list N) : pystr := decode_go 0 bs.

(** A Unicode scalar value: what a Python [str] produced by decoding holds. *)
Definition scalar (c : N) : Prop := (c < 1114112)%N /\ ~ (55296 <= c <= 57343)%N.

#[export] Instance scalar_dec c : Decision (scalar c).
Proof. unfold scalar. apply _. Defined.

(** The UTF-8 encoding of a scalar value, the reference the decoder is
    checked against. *)
Definition utf8_encode (c : N) : list N :=
  if bool_decide (c < 128)%N then [c]
  else if bool_decide (c < 2048)%N then [192 + c / 64; 128 + c mod 64]%N
  else if bool_decide (c < 65536)%N then
    [224 + (c / 64) / 64; 128 + (c / 64) mod 64; 128 + c mod 64]%N
  else [240 + ((c / 64) / 64) / 64; 128 + ((c / 64) / 64) mod 64; 128 + (c / 64) mod 64; 128 + c mod 64]%N.

(** ** The regular expression [\x1B(?:[@-Z\\-_]|\[[0-?]*[ -/]*[@-~])] *)

(** [[@-Z\\-_]]: [@] to [Z] and [\] to [_], which leaves out [[]. *)
Definition fe_byte (c : N) : bool := in_range 64 90 c || in_range 92 95 c.
Definition param_byte (c : N) : bool := in_range 48 63 c.   (* [0-?] *)
Definition inter_byte (c : N) : bool := in_range 32 47 c.   (* [ -/] *)
Definition final_byte (c : N) : bool := in_range 64 126 c.  (* [@-~] *)

(** The language of the pattern. *)
Inductive ansi_re : pystr -> Prop :=
  | re_fe c : fe_byte c = true -> ansi_re [27%N; c]
  | re_csi pb ib f :
      Forall (fun c => param_byte c = true) pb -> Forall (fun c => inter_byte c = true) ib ->
      final_byte f = true -> ansi_re (27%N :: 91%N :: pb ++ ib ++ [f]).

(** The length of the longest run of [p] at the start of [s]. *)
Fixpoint span (p : N -> bool) (s : pystr) : nat :=
  match s with
  | c :: r => if p c then S (span p r) else 0
  | [] => 0
  end.

(** The length of the match at the start of [s], if any.  The three
    classes of the second alternative are disjoint, so the greedy
    repetitions never give back a character and the matcher needs no
    backtracking. *)
Definition ansi_match (s : pystr) : option nat :=
  match s with
  | e :: c :: r =>
      if bool_decide (e = 27%N) then
        if fe_byte c then Some 2%nat
        else if bool_decide (c = 91%N) then
          let np := span param_byte r in
          let ni := span inter_byte (drop np r) in
          match drop ni (drop np r) with
          | f :: _ => if final_byte f then Some (3 + np + ni)%nat else None
          | [] => None
          end
        else None
      else None
  | _ => None
  end.

(** [ansi_escape.sub("", s)]: the scan goes left to right and resumes
    after each match; [k] characters of the current match are still to
    drop. *)
Fixpoint sub_go (k : nat) (s : pystr) : pystr :=
  match s with
  | [] => []
  | c :: r =>
      match k with
      | S k' => sub_go k' r
      | O =>
          match ansi_match s with
          | Some n => sub_go (n - 1) r
          | None => c :: sub_go 0 r
          end
      end
  end.

Definition ansi_sub (s : pystr) : pystr := sub_go 0 s.

(** ** The call *)

(** An environment, in [os.environ]'s order. *)
Definition environ : Type := list (pystr * pystr).

(** [env[k] = v] on a copy: an existing key keeps its place. *)
Fixpoint env_set (k v : pystr) (env : environ) : environ :=
  match env with
  | [] => [(k, v)]
  | (k', v') :: r => if bool_decide (k' = k) then (k, v) :: r else (k', v') :: env_set k v r
  end.

Definition nvtop_env (env : environ) : environ :=
  env_set (ps "COLUMNS") (ps "120") (env_set (ps "TERM") (ps "vt100") env).

Definition nvtop_cmd : list pystr := [ps "nvtop"; ps "-p"; ps "-d"; ps "1"].

(** What [subprocess.check_output] can meet: the child's exit status and
    output (stderr merged), the timeout of 1.5 s, a missing executable,
    or another exception with its [str()]. *)
Inductive proc_result :=
  | Completed (rc : Z) (out : list N)
  | TimedOut
  | NotFound
  | OtherExc (msg : pystr).

(** [repr(signal.Signals(n))] on Linux, for the numbered signals. *)
Definition signal_names : list (Z * string) :=
  [(1%Z, "SIGHUP"%string); (2%Z, "SIGINT"%string); (3%Z, "SIGQUIT"%string); (4%Z, "SIGILL"%string);
   (5%Z, "SIGTRAP"%string); (6%Z, "SIGABRT"%string); (7%Z, "SIGBUS"%string); (8%Z, "SIGFPE"%string);
   (9%Z, "SIGKILL"%string); (10%Z, "SIGUSR1"%string); (11%Z, "SIGSEGV"%string); (12%Z, "SIGUSR2"%string);
   (13%Z, "SIGPIPE"%string); (14%Z, "SIGALRM"%string); (15%Z, "SIGTERM"%string); (16%Z, "SIGSTKFLT"%string);
   (17%Z, "SIGCHLD"%string); (18%Z, "SIGCONT"%string); (19%Z, "SIGSTOP"%string); (20%Z, "SIGTSTP"%string);
   (21%Z, "SIGTTIN"%string); (22%Z, "SIGTTOU"%string); (23%Z, "SIGURG"%string); (24%Z, "SIGXCPU"%string);
   (25%Z, "SIGXFSZ"%string); (26%Z, "SIGVTALRM"%string); (27%Z, "SIGPROF"%string); (28%Z, "SIGWINCH"%string);
   (29%Z, "SIGIO"%string); (30%Z, "SIGPWR"%string); (31%Z, "SIGSYS"%string); (34%Z, "SIGRTMIN"%string);
   (64%Z, "SIGRTMAX"%string)].

(** The repr of a list of strings, as [CalledProcessError] prints [cmd]. *)
Definition list_repr (xs : list pystr) : pystr := ps "[" ++ str_join (ps ", ") (map repr_str xs) ++ ps "]".

(** [str(e)] of [CalledProcessError(rc, cmd)]. *)
Definition called_process_error (cmd : list pystr) (rc : Z) : pystr :=
  ps "Command '" ++ list_repr cmd ++ ps "' " ++
  (if bool_decide (rc < 0)%Z then
     match find (fun p => bool_decide (p.1 = - rc)%Z) signal_names with
     | Some (n, name) => ps "died with <Signals." ++ ps name ++ ps ": " ++ z_repr n ++ ps ">."
     | None => ps "died with unknown signal " ++ z_repr (- rc) ++ ps "."
     end
   else ps "returned non-zero exit status " ++ z_repr rc ++ ps ".").

(** [str(e)] of the exception [check_output] raised. *)
Definition exc_str (r : proc_result) : pystr :=
  match r with
  | Completed rc _ => called_process_error nvtop_cmd rc
  | TimedOut => ps "Command '" ++ list_repr nvtop_cmd ++ ps "' timed out after 1.5 seconds"
  | NotFound => ps "[Errno 2] No such file or directory: 'nvtop'"
  | OtherExc m => m
  end.

Definition timeout_text : pystr := ps "Error: nvtop timed out. Run `nvtop` manually to verify access.".

(** [get_nvtop_output()], given how the child run with the command and
    environment it is passed ends. *)
Definition get_nvtop_output (run : list pystr -> environ -> proc_result) (env : environ) : pystr :=
  match run nvtop_cmd (nvtop_env env) with
  | Completed rc out as r =>
      if bool_decide (rc = 0)%Z then ansi_sub (decode_ignore out)
      else ps "Error: " ++ exc_str r ++ [10%N] ++ ps "Make sure nvtop is installed (sudo apt install nvtop)."
  | TimedOut => timeout_text
  | r => ps "Error: " ++ exc_str r ++ [10%N] ++ ps "Make sure nvtop is installed (sudo apt install nvtop)."
  end.

(** ** Lemmas: the decoder *)

(** Splits [x] into [64 * q + r] with [r < 64]. *)
Ltac split64 x q r :=
  pose proof (N.div_mod x 64 ltac:(lia)); pose proof (N.mod_lt x 64 ltac:(lia));
  set (q := (x / 64)%N) in *; set (r := (x mod 64)%N) in *; clearbody q r.

Ltac utf8_cases :=
  unfold utf8_char, second_ok, cont, in_range; repeat first [case_bool_decide | case_match].

(** Every scalar value is encoded as a lead byte the decoder reads back. *)
Lemma utf8_char_encode c rest :
  scalar c -> exists b tl, utf8_encode c = b :: tl /\ utf8_char b (tl ++ rest) = (Some c, S (length tl)).
Proof.
  intros [Hmax Hsur]. unfold utf8_encode.
  split64 c q0 r0. split64 q0 q1 r1. split64 q1 q2 r2.
  repeat case_bool_decide; (eexists _, _; split; [reflexivity|]); cbn [app length];
    utf8_cases; try lia; repeat f_equal; lia.
Qed.

Lemma utf8_char_scalar b r c n : utf8_char b r = (Some c, n) -> scalar c.
Proof. utf8_cases; intros Heq; inversion Heq; subst; unfold scalar; lia. Qed.

Lemma utf8_char_length b r o n : utf8_char b r = (o, n) -> (1 <= n <= S (length r))%nat.
Proof. utf8_cases; intros Heq; inversion Heq; subst; cbn [length]; lia. Qed.

Lemma decode_go_skip l rest : decode_go (length l) (l ++ rest) = decode_go 0 rest.
Proof. induction l as [|x l IH]; [done|]. exact IH. Qed.

Lemma decode_encode_app c rest :
  scalar c -> decode_go 0 (utf8_encode c ++ rest) = c :: decode_go 0 rest.
Proof.
  intros Hc. destruct (utf8_char_encode c rest Hc) as (b & tl & -> & Hb).
  cbn [app decode_go]. rewrite Hb. cbn [Nat.sub]. rewrite Nat.sub_0_r. f_equal. apply decode_go_skip.
Qed.

(** ** Lemmas: the scanner *)

Ltac byte_classes := unfold fe_byte, param_byte, inter_byte, final_byte, in_range in *;
  repeat case_bool_decide; cbn in *; try done; lia.

Lemma inter_not_param c : inter_byte c = true -> param_byte c = false.
Proof. byte_classes. Qed.

Lemma final_not_param c : final_byte c = true -> param_byte c = false.
Proof. byte_classes. Qed.

Lemma final_not_inter c : final_byte c = true -> inter_byte c = false.
Proof. byte_classes. Qed.

Lemma span_take p s : Forall (fun c => p c = true) (take (span p s) s).
Proof. induction s as [|c s IH]; [constructor|]. cbn. destruct (p c) eqn:E; cbn; [by constructor | constructor]. Qed.

Lemma span_stop p s c r : drop (span p s) s = c :: r -> p c = false.
Proof.
  revert c r. induction s as [|x s IH]; intros c r; [done|]. cbn.
  destruct (p x) eqn:E; cbn; [apply IH | by intros [= -> _]].
Qed.

Lemma span_app p l s :
  Forall (fun c => p c = true) l -> span p (l ++ s) = (length l + span p s)%nat.
Proof. induction 1 as [|x l Hx _ IH]; [done|]. cbn. by rewrite Hx, IH. Qed.

Lemma span_first_false p c r : p c = false -> span p (c :: r) = 0%nat.
Proof. cbn. by intros ->. Qed.

(** The characters after the parameter bytes of a control sequence. *)
Lemma span_param_rest ib f rest :
  Forall (fun c => inter_byte c = true) ib -> final_byte f = true -> span param_byte (ib ++ f :: rest) = 0%nat.
Proof.
  intros Hib Hf. destruct Hib as [|x ib Hx _]; apply span_first_false;
    [by apply final_not_param | by apply inter_not_param].
Qed.

(** The scanner finds every match of the pattern. *)
Lemma ansi_match_complete m rest : ansi_re m -> ansi_match (m ++ rest) = Some (length m).
Proof.
  intros [c Hc | pb ib f Hpb Hib Hf]; cbn [app ansi_match]; rewrite bool_decide_true by done.
  - by rewrite Hc.
  - rewrite bool_decide_true by done. replace (fe_byte 91) with false by reflexivity.
    rewrite <- !app_assoc. cbn [app]. rewrite span_app, span_param_rest, Nat.add_0_r by done.
    rewrite drop_app_length. rewrite span_app, span_first_false, Nat.add_0_r by (done || by apply final_not_inter).
    rewrite drop_app_length, Hf. f_equal. cbn [length]. rewrite !length_app. cbn [length]. lia.
Qed.

(** What the scanner finds is a match of the pattern. *)
Lemma ansi_match_sound s n :
  ansi_match s = Some n -> exists m rest, s = m ++ rest /\ ansi_re m /\ length m = n.
Proof.
  destruct s as [|e [|c r]]; cbn [ansi_match]; try done.
  case_bool_decide as He; [subst e|done]. destruct (fe_byte c) eqn:Hc.
  - intros [= <-]. exists [27%N; c], r. split; [done|]. split; [by constructor | done].
  - case_bool_decide as H91; [subst c|done].
    remember (span param_byte r) as np eqn:Enp. remember (span inter_byte (drop np r)) as ni eqn:Eni.
    destruct (drop ni (drop np r)) as [|f rest] eqn:Ef; [done|]. destruct (final_byte f) eqn:Hf; [|done].
    intros [= <-]. exists (27%N :: 91%N :: take np r ++ take ni (drop np r) ++ [f]), rest. split; [|split].
    + cbn [app]. rewrite <- !app_assoc. cbn [app]. rewrite <- Ef, !take_drop. done.
    + constructor; [subst np; apply span_take | subst ni; apply span_take | done].
    + cbn [length]. rewrite !length_app, !length_take. cbn [length].
      assert (np <= length r)%nat. { subst np. clear. induction r as [|x r IH]; cbn; [lia|]. case_match; cbn; lia. }
      assert (ni < length (drop np r))%nat.
      { assert (Hl : (0 < length (drop ni (drop np r)))%nat) by (rewrite Ef; cbn; lia).
        rewrite length_drop in Hl. lia. }
      rewrite length_drop in *. lia.
Qed.

Lemma sub_go_skip l rest : sub_go (length l) (l ++ rest) = sub_go 0 rest.
Proof. induction l as [|x l IH]; [done|]. exact IH. Qed.

Lemma sub_plain t rest : (27%N ∉ t) -> sub_go 0 (t ++ rest) = t ++ sub_go 0 rest.
Proof.
  induction t as [|c t IH]; intros Ht; [done|]. rewrite not_elem_of_cons in Ht. destruct Ht as [Hc Ht].
  cbn [app sub_go]. replace (ansi_match (c :: t ++ rest)) with (@None nat).
  - by rewrite IH.
  - destruct (t ++ rest); cbn; [done|]. by rewrite bool_decide_false.
Qed.

Lemma sub_escape e rest : ansi_re e -> sub_go 0 (e ++ rest) = sub_go 0 rest.
Proof.
  intros He. pose proof (ansi_match_complete e rest He) as Hm.
  destruct e as [|x tl]; [inversion He|]. cbn [app sub_go]. cbn [app] in Hm. rewrite Hm.
  cbn [length Nat.sub]. rewrite Nat.sub_0_r. apply sub_go_skip.
Qed.

Lemma decode_go_scalars bs : forall k, Forall scalar (decode_go k bs).
Proof.
  induction bs as [|b r IH]; intros [|k]; cbn [decode_go]; [constructor | constructor | | apply IH].
  destruct (utf8_char b r) as [[c|] n] eqn:E; [constructor; [by eapply utf8_char_scalar | apply IH] | apply IH].
Qed.

Lemma decode_encode_concat s rest :
  Forall scalar s -> decode_go 0 (concat (map utf8_encode s) ++ rest) = s ++ decode_go 0 rest.
Proof.
  induction 1 as [|c s Hc _ IH]; [done|]. cbn [map concat].
  by rewrite <- app_assoc, decode_encode_app, IH.
Qed.

Lemma ansi_re_ascii e : ansi_re e -> Forall (fun c => c < 128)%N e.
Proof.
  assert (Hb : forall lo hi c, (hi < 128)%N -> in_range lo hi c = true -> (c < 128)%N)
    by (intros lo hi c ? Hc; unfold in_range in Hc; case_bool_decide; [lia | done]).
  intros [c Hc | pb ib f Hpb Hib Hf].
  - constructor; [lia|]. constructor; [|constructor]. unfold fe_byte in Hc. apply orb_true_iff in Hc as [Hc|Hc]; eapply Hb; eauto; lia.
  - constructor; [lia|]. constructor; [lia|]. apply Forall_app; split; [|apply Forall_app; split].
    + eapply Forall_impl; [exact Hpb|]. intros c Hc. eapply Hb; [|exact Hc]. lia.
    + eapply Forall_impl; [exact Hib|]. intros c Hc. eapply Hb; [|exact Hc]. lia.
    + constructor; [|constructor]. eapply Hb; [|exact Hf]. lia.
Qed.

Lemma encode_ascii s : Forall (fun c => c < 128)%N s -> concat (map utf8_encode s) = s.
Proof.
  induction 1 as [|c s Hc _ IH]; [done|]. cbn [map concat]. rewrite IH.
  unfold utf8_encode. by rewrite bool_decide_true.
Qed.

Lemma ascii_scalar s : Forall (fun c => c < 128)%N s -> Forall scalar s.
Proof. intros H. eapply Forall_impl; [exact H|]. intros c Hc. cbv beta in Hc. unfold scalar. lia. Qed.

(** Text made of plain runs [t] each followed by an escape sequence [e]. *)
Definition colored (segs : list (pystr * pystr)) : pystr := concat (map (fun te => te.1 ++ te.2) segs).

Lemma sub_colored segs rest :
  Forall (fun te => (27%N ∉ te.1) /\ ansi_re te.2) segs ->
  sub_go 0 (colored segs ++ rest) = concat (map fst segs) ++ sub_go 0 rest.
Proof.
  induction 1 as [|[t e] segs [Ht He] _ IH]; [done|]. unfold colored in *. cbn [map concat fst snd].
  by rewrite <- !app_assoc, sub_plain, sub_escape, IH by done.
Qed.

Lemma decode_ignore_encode s : Forall scalar s -> decode_ignore (concat (map utf8_encode s)) = s.
Proof. intros Hs. unfold decode_ignore. rewrite <- (app_nil_r (concat _)), decode_encode_concat by done. apply app_nil_r. Qed.

(** Whatever bytes [nvtop] writes, the decoded text consists of
    Unicode scalar values: malformed input, overlong forms and encoded
    surrogates are dropped, never decoded. *)
Theorem decode_scalars bs : Forall scalar (decode_ignore bs).
Proof. apply decode_go_scalars. Qed.

(** Colour codes are removed and nothing else: text made of runs
    without [ESC], each followed by an escape sequence of the pattern,
    becomes the concatenation of the runs. *)
Theorem ansi_sub_colored segs t :
  Forall (fun te => (27%N ∉ te.1) /\ ansi_re te.2) segs -> (27%N ∉ t) ->
  ansi_sub (colored segs ++ t) = concat (map fst segs) ++ t.
Proof.
  intros Hsegs Ht. unfold ansi_sub. rewrite sub_colored by done. f_equal.
  rewrite <- (app_nil_r t), sub_plain by done. done.
Qed.

(** The substitution is not idempotent: an [ESC] in front of an
    escape sequence survives and joins the character after the sequence
    into a new one, which stays in the page. *)
Theorem ansi_sub_not_idempotent e x :
  ansi_re e -> fe_byte x = true -> ansi_sub (27%N :: e ++ [x]) = [27%N; x] /\ ansi_re [27%N; x].
Proof.
  intros He Hx. split; [|by constructor]. unfold ansi_sub.
  assert (Hm : ansi_match (27%N :: e ++ [x]) = None).
  { inversion He; subst; reflexivity. }
  cbn [sub_go]. rewrite Hm, sub_escape by done. reflexivity.
Qed.

(** Escape sequences of other forms are kept whole: after [ESC],
    a character that is neither in [[@-Z\\-_]] nor [[] (such as the [(]
    of [ESC ( B], which selects a character set) leaves the [ESC] and
    what follows in the output. *)
Theorem ansi_sub_keeps_other_escapes c s :
  fe_byte c = false -> c <> 91%N -> ansi_sub (27%N :: c :: s) = 27%N :: ansi_sub (c :: s).
Proof.
  intros Hc H91. unfold ansi_sub. cbn [sub_go]. cbn [ansi_match].
  rewrite bool_decide_true, Hc, bool_decide_false by done. reflexivity.
Qed.

(** C14. A successful snapshot whose bytes are the UTF-8 encoding of
    text interleaved with colour codes is shown as the text alone. *)
Theorem nvtop_snapshot_text run env segs t :
  run nvtop_cmd (nvtop_env env) = Completed 0 (concat (map utf8_encode (colored segs ++ t))) ->
  Forall (fun te => Forall scalar te.1 /\ (27%N ∉ te.1) /\ ansi_re te.2) segs ->
  Forall scalar t -> (27%N ∉ t) ->
  get_nvtop_output run env = concat (map fst segs) ++ t.
Proof.
  intros Hrun Hsegs Ht Ht27. unfold get_nvtop_output. rewrite Hrun, bool_decide_true by done.
  rewrite decode_ignore_encode.
  - apply ansi_sub_colored; [|done]. eapply Forall_impl; [exact Hsegs|]. intros te (_ & H1 & H2). done.
  - apply Forall_app; split; [|done]. unfold colored. apply Forall_concat, Forall_fmap.
    eapply Forall_impl; [exact Hsegs|]. intros te (H1 & _ & H2). cbn. apply Forall_app; split; [done|].
    by apply ascii_scalar, ansi_re_ascii.
Qed.

(** ** Witnesses *)

(** A truncated three-byte sequence and a byte that never occurs in
    UTF-8 are dropped; the rest is kept. *)
Example decode_drops_malformed : decode_ignore [226; 130; 65; 255; 66]%N = [65; 66]%N.
Proof. reflexivity. Qed.

(** [ESC [ 1 m] and [ESC [ 0 m]: bold on, attributes off. *)
Definition bold_on : pystr := [27; 91; 49; 109]%N.
Definition bold_off : pystr := [27; 91; 48; 109]%N.

Lemma bold_on_re : ansi_re bold_on.
Proof. apply (re_csi [49%N] [] 109%N); repeat constructor. Qed.

Lemma bold_off_re : ansi_re bold_off.
Proof. apply (re_csi [48%N] [] 109%N); repeat constructor. Qed.

Definition demo_segs : list (pystr * pystr) := [(ps "GPU0 ", bold_on); ([233%N], bold_off)].
Definition demo_tail : pystr := ps " 42%".

Lemma ansi_sub_colored_witness :
  Forall (fun te => (27%N ∉ te.1) /\ ansi_re te.2) demo_segs /\ (27%N ∉ demo_tail) /\
  ansi_sub (colored demo_segs ++ demo_tail) = concat (map fst demo_segs) ++ demo_tail.
Proof.
  assert (H1 : Forall (fun te => (27%N ∉ te.1) /\ ansi_re te.2) demo_segs).
  { constructor; [split; [by_decide | apply bold_on_re]|]. constructor; [split; [by_decide | apply bold_off_re]|].
    constructor. }
  assert (H2 : 27%N ∉ demo_tail) by by_decide.
  split; [exact H1|]. split; [exact H2|]. apply (ansi_sub_colored _ _ H1 H2).
Defined.

Lemma ansi_sub_not_idempotent_witness :
  ansi_re bold_off /\ fe_byte 65 = true /\
  ansi_sub (27%N :: bold_off ++ [65%N]) = [27%N; 65%N] /\ ansi_re [27%N; 65%N].
Proof.
  split; [apply bold_off_re|]. split; [reflexivity|].
  apply (ansi_sub_not_idempotent bold_off 65 bold_off_re); reflexivity.
Defined.

Lemma ansi_sub_keeps_other_escapes_witness :
  fe_byte 40 = false /\ 40%N <> 91%N /\ ansi_sub (27%N :: 40%N :: ps "B") = 27%N :: ansi_sub (40%N :: ps "B").
Proof.
  split; [reflexivity|]. split; [done|]. apply ansi_sub_keeps_other_escapes; [reflexivity | done].
Defined.

(** The first value of [k] in an environment. *)
Definition env_get (k : pystr) (env : environ) : option pystr := snd <$> find (fun kv => bool_decide (kv.1 = k)) env.

(** A child that answers with colours only on a vt100 terminal. *)
Definition demo_run (cmd : list pystr) (env : environ) : proc_result :=
  if bool_decide (cmd = nvtop_cmd /\ env_get (ps "TERM") env = Some (ps "vt100"))
  then Completed 0 [71; 80; 85; 48; 32; 27; 91; 49; 109; 195; 169; 27; 91; 48; 109; 32; 52; 50; 37]%N
  else Completed 1 [].

Definition demo_env : environ := [(ps "TERM", ps "xterm-256color"); (ps "HOME", ps "/root")].

Lemma nvtop_snapshot_text_witness :
  get_nvtop_output demo_run demo_env = concat (map fst demo_segs) ++ demo_tail.
Proof.
  apply (nvtop_snapshot_text demo_run demo_env demo_segs demo_tail).
  - vm_compute. reflexivity.
  - constructor; [split; [by_decide | split; [by_decide | apply bold_on_re]]|].
    constructor; [split; [by_decide | split; [by_decide | apply bold_off_re]]|]. constructor.
  - by_decide.
  - by_decide.
Defined.

End Nvtop.
