(* ===== verification/HubPage.v ===== *)
(** * The Model Hub page: [index] of [src/run/llama-server/app.py]

    [index] calls [get_live_data], then [get_nvtop_output], and renders
    the template of lines 87-171 with Jinja's autoescaping.  This file
    models what the rendered page carries: the escaped snapshot and, for
    each item of [models.items()], one card with the model's name, its
    liveness (the [active-border] and [dot-active] classes), the port
    and type line, the [Open] link shown only for an active model, the
    URL in [<code>] and the parameters in [<pre>].

    Jinja reads [cfg.port] as [getattr(cfg, "port")], which a dict does
    not have, and then as [cfg["port"]]; a missing key is [Undefined],
    which renders as the empty text and is false.  A [{{ v }}] renders
    [str(v)] escaped, so [None] shows as [None]. *)

From Stdlib Require Import String.
From S2P Require Import Prelude PyObj Json ModelHub Html Nvtop.

Module HubPage.

Import Hub Html Nvtop.

(** ** Rendering *)

(** [cfg.attr] in the template: the item of a dict, or [Undefined]. *)
Definition jinja_attr (h : heap) (cfg : pyval) (attr : pystr) : option pyval :=
  match cfg with
  | VRef l =>
      match h !! l with
      | Some (ODict items) => assoc_lookup (VStr attr) items
      | _ => None
      end
  | _ => None
  end.

(** [{{ cfg.attr }}] *)
Definition jinja_out (cfg : pyval) (attr : pystr) : PyM state pystr :=
  h ← gets hs_heap;
  match jinja_attr h cfg attr with
  | None => mret []
  | Some v => t ← str_of v; mret (escape t)
  end.

(** [{% if cfg.active %}] *)
Definition jinja_test (cfg : pyval) (attr : pystr) : PyM state bool :=
  h ← gets hs_heap;
  match jinja_attr h cfg attr with
  | None => mret false
  | Some v => truthy v
  end.

Record card := {
  hc_name : pystr;             (* <strong>{{ name }}</strong> *)
  hc_active : bool;            (* active-border, dot-active / dot-idle *)
  hc_port : pystr;             (* Port: {{ cfg.port }} *)
  hc_type : pystr;             (* {{ cfg.type }} *)
  hc_link : option pystr;      (* <a href="{{ cfg.url }}"> when active *)
  hc_code : pystr;             (* <code> {{ cfg.url }} </code> *)
  hc_params : pystr;           (* <pre>{{ cfg.config_json }}</pre> *)
}.

(** One iteration of [{% for name, cfg in models.items() %}]. *)
Definition render_card (name cfg : pyval) : PyM state card :=
  active ← jinja_test cfg (ps "active");
  n ← str_of name;
  port ← jinja_out cfg (ps "port");
  typ ← jinja_out cfg (ps "type");
  url ← jinja_out cfg (ps "url");
  params ← jinja_out cfg (ps "config_json");
  mret {| hc_name := escape n; hc_active := active; hc_port := port; hc_type := typ;
          hc_link := if active then Some url else None; hc_code := url; hc_params := params |}.

(** [models.items()]: only a dict has it; otherwise Jinja calls an
    [Undefined]. *)
Definition render_models (models : pyval) : PyM state (list card) :=
  match models with
  | VRef l =>
      o ← read l;
      match o with
      | ODict items => mapM (fun kv => render_card kv.1 kv.2) items
      | OList _ => raise UndefinedError
      end
  | _ => raise UndefinedError
  end.

Record page := {
  hp_nvtop : pystr;        (* <div class="nvtop-box">{{ nvtop_out }}</div> *)
  hp_cards : list card;
}.

(** [index()]: the live data, then the snapshot, then the template. *)
Definition index (reg : registry) (req : request) (cfg : config_file)
    (nv : list pystr -> environ -> proc_result) (env : environ) : PyM state page :=
  models ← get_live_data reg req cfg;
  let nvtop_out := get_nvtop_output nv env in
  cards ← render_models models;
  mret {| hp_nvtop := escape nvtop_out; hp_cards := cards |}.

Definition run_index reg req cfg nv env : res page * state := run (index reg req cfg nv env) init.

(** ** The page the specification describes

    Per service: its name, its liveness, the synthesized URL, the URL as
    a link only when live, and the serialized enriched record. *)
Record entry_view := {
  ev_name : pystr; ev_active : bool; ev_url : pystr; ev_link : option pystr; ev_record : pystr }.

Definition spec_entry (reg : registry) (req : request) (e : entry) : entry_view :=
  let url := make_url req (str_scalar (configured_port (e_attrs e))) in
  let up := session_up reg (e_name e) in
  {| ev_name := e_name e; ev_active := up; ev_url := url; ev_link := if up then Some url else None;
     ev_record := match json_flat (with_url req (marked reg e)) with Ok j => j | Raise _ => [] end |}.

(** What a reader of the rendered card sees, once the browser has
    decoded the text. *)
Definition abs_card (c : card) : entry_view :=
  {| ev_name := unescape (hc_name c); ev_active := hc_active c; ev_url := unescape (hc_code c);
     ev_link := unescape <$> hc_link c; ev_record := unescape (hc_params c) |}.

(** ** Lemmas: escaping *)

(** Every text field of a card comes out of [escape]. *)
Definition card_safe (c : card) : Prop :=
  markup_free (hc_name c) /\ markup_free (hc_port c) /\ markup_free (hc_type c) /\
  markup_free (hc_code c) /\ markup_free (hc_params c) /\ (forall u, hc_link c = Some u -> markup_free u).

Lemma jinja_out_safe cfg attr : yields markup_free (jinja_out cfg attr).
Proof.
  unfold jinja_out. apply yields_bind. intros h. destruct (jinja_attr h cfg attr).
  - apply yields_bind. intros t. apply yields_ret, escape_markup_free.
  - apply yields_ret. constructor.
Qed.

Lemma render_card_safe name cfg : yields card_safe (render_card name cfg).
Proof.
  unfold render_card. apply yields_bind. intros active. apply yields_bind. intros n.
  apply (yields_bind_post _ _ _ _ (jinja_out_safe cfg _)). intros port Hport.
  apply (yields_bind_post _ _ _ _ (jinja_out_safe cfg _)). intros typ Htyp.
  apply (yields_bind_post _ _ _ _ (jinja_out_safe cfg _)). intros url Hurl.
  apply (yields_bind_post _ _ _ _ (jinja_out_safe cfg _)). intros params Hparams.
  apply yields_ret. split; [apply escape_markup_free|]. cbn. do 4 (split; [done|]).
  intros u Hu. destruct active; simplify_eq; done.
Qed.

Lemma render_models_safe models : yields (Forall card_safe) (render_models models).
Proof.
  unfold render_models. destruct models; try apply yields_raise.
  apply yields_bind. intros [items|xs]; [apply yields_mapM; intros; apply render_card_safe | apply yields_raise].
Qed.

Lemma index_safe reg req cfg nv env :
  yields (fun pg => markup_free (hp_nvtop pg) /\ Forall card_safe (hp_cards pg)) (index reg req cfg nv env).
Proof.
  unfold index. apply yields_bind. intros models.
  apply (yields_bind_post _ _ _ _ (render_models_safe models)). intros cards Hc.
  apply yields_ret. split; [apply escape_markup_free | done].
Qed.

(** C10. Whatever the configuration holds, every text the page shows for
    a model (name, port, type, link, URL, parameters) and the snapshot
    are escaped: none of them contains [<], [>] or a quote, so
    configuration content cannot inject markup. *)
Theorem hub_page_escaped reg req cfg nv env pg s :
  run_index reg req cfg nv env = (Ok pg, s) ->
  markup_free (hp_nvtop pg) /\ Forall card_safe (hp_cards pg).
Proof. apply (index_safe reg req cfg nv env). Qed.

(** ** Lemmas: rendering a configuration of the usual shape *)

Lemma jinja_out_str s cfg attr x :
  jinja_attr (hs_heap s) cfg attr = Some (VStr x) -> jinja_out cfg attr s = (Ok (escape x), s).
Proof. intros H. unfold jinja_out. rewrite (bind_ok _ _ s (hs_heap s) s) by reflexivity. cbv beta. by rewrite H. Qed.

Lemma jinja_out_scalar s cfg attr :
  (forall v, jinja_attr (hs_heap s) cfg attr = Some v -> hashable v = true) ->
  exists t, jinja_out cfg attr s = (Ok t, s).
Proof.
  intros H. unfold jinja_out. rewrite (bind_ok _ _ s (hs_heap s) s) by reflexivity. cbv beta.
  destruct (jinja_attr (hs_heap s) cfg attr) as [v|] eqn:E; [|by eexists].
  specialize (H v eq_refl). destruct v; try done; by eexists.
Qed.

Lemma render_card_run reg req e s :
  hs_heap s !! e_loc e = Some (ODict (enriched req (marked reg e))) -> flat_items (e_attrs e) = true ->
  exists c, render_card (VStr (e_name e)) (VRef (e_loc e)) s = (Ok c, s) /\ abs_card c = spec_entry reg req e.
Proof.
  intros Hl Hflat. destruct (enriched_lookups reg req e) as (Ha & Hu & Ho). cbv zeta in Ha, Hu, Ho.
  destruct (enriched_config_json req (marked reg e)) as (j & Hj & Hcj).
  { apply flat_items_set; [reflexivity | by destruct (session_up _ _) | exact Hflat]. }
  assert (Hattr : forall a, jinja_attr (hs_heap s) (VRef (e_loc e)) a =
                    assoc_lookup (VStr a) (enriched req (marked reg e))) by (intros a; cbn; by rewrite Hl).
  assert (Hsc : forall a, key_eq (VStr a) (VStr (ps "active")) = false -> key_eq (VStr a) (VStr (ps "url")) = false ->
            key_eq (VStr a) (VStr (ps "config_json")) = false ->
            forall v, jinja_attr (hs_heap s) (VRef (e_loc e)) a = Some v -> hashable v = true).
  { intros a H1 H2 H3 v Hv. rewrite Hattr, Ho in Hv by done. by eapply flat_items_lookup. }
  destruct (jinja_out_scalar s (VRef (e_loc e)) (ps "port")) as [port Hport]; [by apply Hsc|].
  destruct (jinja_out_scalar s (VRef (e_loc e)) (ps "type")) as [typ Htyp]; [by apply Hsc|].
  unfold render_card. rewrite (bind_ok _ _ s (session_up reg (e_name e)) s).
  2: { unfold jinja_test. rewrite (bind_ok _ _ s (hs_heap s) s) by reflexivity. cbv beta. by rewrite Hattr, Ha. }
  rewrite (bind_ok _ _ s (e_name e) s) by reflexivity.
  rewrite (bind_ok _ _ s port s) by exact Hport. rewrite (bind_ok _ _ s typ s) by exact Htyp.
  rewrite (bind_ok _ _ s _ s) by (apply jinja_out_str; by rewrite Hattr, Hu).
  rewrite (bind_ok _ _ s _ s) by (apply jinja_out_str; by rewrite Hattr, Hcj).
  eexists. split; [reflexivity|]. unfold abs_card, spec_entry. cbn [hc_name hc_active hc_code hc_link hc_params].
  rewrite !unescape_escape_full, Hj. destruct (session_up _ _); cbn [fmap option_fmap option_map]; by rewrite ?unescape_escape_full.
Qed.

Lemma render_cards_run reg req es s :
  (forall e, e ∈ es -> hs_heap s !! e_loc e = Some (ODict (enriched req (marked reg e))) /\ flat_items (e_attrs e) = true) ->
  exists cards, mapM (fun kv => render_card kv.1 kv.2) (models_items es) s = (Ok cards, s) /\
    map abs_card cards = map (spec_entry reg req) es.
Proof.
  induction es as [|e es IH]; intros Hes; [by exists []|].
  destruct (Hes e (list_elem_of_here _ _)) as [Hl Hf].
  destruct (render_card_run reg req e s Hl Hf) as (c & Hc & Ec).
  destruct IH as (cards & Hcards & Ecards); [intros e' He'; apply Hes; by apply list_elem_of_further|].
  exists (c :: cards). cbn [models_items map mapM fst snd].
  rewrite (bind_ok _ _ s c s Hc), (bind_ok _ _ s cards s Hcards). cbn. by rewrite Ec, Ecards.
Qed.

(** C3. The page refines the specification's view: for a configuration
    of the usual shape and an installed tmux, [index] renders one card
    per configured service, in order, whose decoded name, liveness, URL,
    link (present exactly when live) and record are those the
    specification prescribes, next to the escaped snapshot. *)
Theorem hub_page_refines reg req root m es nv env :
  flat_config root m es -> installed reg ->
  exists pg s, run_index reg req (CfgLoaded (flat_doc root m es) (VRef root)) nv env = (Ok pg, s) /\
    map abs_card (hp_cards pg) = map (spec_entry reg req) es /\
    unescape (hp_nvtop pg) = get_nvtop_output nv env.
Proof.
  intros Hcfg Hreg. destruct (live_flat_state reg req root m es Hcfg Hreg) as (s & Hrun & _ & Hm & He).
  destruct Hcfg as (_ & _ & _ & _ & _ & Hflat). rewrite Forall_forall in Hflat.
  destruct (render_cards_run reg req es s) as (cards & Hcards & Ecards); [intros e Hin; split; auto|].
  eexists _, s. split.
  - unfold run_index, run, index. rewrite (bind_ok _ _ _ _ _ Hrun). cbv zeta. unfold render_models.
    rewrite (bind_ok _ _ s cards s); [reflexivity|].
    rewrite (bind_ok _ _ s (ODict (models_items es)) s) by (apply read_ok; exact Hm). exact Hcards.
  - cbn [hp_cards hp_nvtop]. split; [exact Ecards | apply unescape_escape_full].
Qed.

(** ** Witnesses *)

(** Two services; the [type] of the first is an attempt to inject markup. *)
Definition inject_entries : list entry :=
  [Entry (ps "alpha") (Loc 2) [(VStr (ps "port"), VInt 8000); (VStr (ps "type"), VStr (ps "<img src=x onerror=alert(1)>"))];
   Entry (ps "beta") (Loc 3) [(VStr (ps "port"), VInt 8001)]].

Definition inject_cfg : config_file := CfgLoaded (flat_doc (Loc 0) (Loc 1) inject_entries) (VRef (Loc 0)).

Definition inject_run : res page * state := run_index demo_registry demo_request inject_cfg demo_run demo_env.

Definition inject_page : page :=
  match inject_run.1 with Ok pg => pg | Raise _ => {| hp_nvtop := []; hp_cards := [] |} end.

Lemma hub_page_escaped_witness :
  markup_free (hp_nvtop inject_page) /\ Forall card_safe (hp_cards inject_page).
Proof.
  apply (hub_page_escaped demo_registry demo_request inject_cfg demo_run demo_env inject_page inject_run.2).
  vm_compute. reflexivity.
Defined.

Lemma hub_page_refines_witness :
  (flat_config (Loc 0) (Loc 1) inject_entries /\ installed demo_registry) /\
  exists pg s, run_index demo_registry demo_request inject_cfg demo_run demo_env = (Ok pg, s) /\
    map abs_card (hp_cards pg) = map (spec_entry demo_registry demo_request) inject_entries /\
    unescape (hp_nvtop pg) = get_nvtop_output demo_run demo_env.
Proof.
  assert (Hf : flat_config (Loc 0) (Loc 1) inject_entries) by (unfold flat_config; by_decide).
  assert (Hi : installed demo_registry) by (intros t; unfold demo_registry; case_decide; eexists; reflexivity).
  split; [split; assumption|]. apply (hub_page_refines demo_registry demo_request (Loc 0) (Loc 1) inject_entries _ _ Hf Hi).
Defined.

End HubPage.
