(* ===== verification/Serve.v ===== *)
(** * Serving images and starting the gallery: [serve_image] and the
      command line of [src/run/flask_img_viewer.py]

    [serve_image] answers [/images/<path:filename>] with Flask's
    [send_from_directory(IMAGE_DIR, filename)], which joins the name to
    the directory with werkzeug's [safe_join] (the name is normalized by
    [posixpath.normpath] and refused when it is absolute or climbs out
    with [..]) and sends the file when [os.path.isfile] holds, else 404.
    The command line reads the directory, the delete flag
    ([type=int, choices=[0, 1]]) and an optional port, and sets
    [IMAGE_DIR = os.path.abspath(path)] and [ALLOW_DELETE].

    [posixpath.normpath], [safe_join] and [argparse]'s conversion are
    modelled from their code in CPython and werkzeug; the store and path
    resolution are those of [Archive]. *)

From Stdlib Require Import String.
From S2P Require Import Prelude PyInt Archive.
From stdpp Require Import gmap.

Module Serve.

Import Archive.

(** ** [posixpath.normpath] *)

(** The loop over the components; [acc] holds [new_comps] in reverse
    order, so its head is [new_comps[-1]]. *)
Fixpoint norm_go (absolute : bool) (acc : list pystr) (comps : list pystr) : list pystr :=
  match comps with
  | [] => acc
  | c :: r =>
      if bool_decide (c = []) || bool_decide (c = ps ".") then norm_go absolute acc r
      else if negb (bool_decide (c = ps "..")) || (negb absolute && bool_decide (acc = []))
              || bool_decide (head acc = Some (ps ".."))
      then norm_go absolute (c :: acc) r
      else norm_go absolute (tail acc) r      (* [elif new_comps: new_comps.pop()] *)
  end.

(** The number of leading slashes kept: two stay two, three or more become one. *)
Definition initial_slashes (p : pystr) : nat :=
  if startswith p [slash] then
    if startswith p [slash; slash] && negb (startswith p [slash; slash; slash]) then 2 else 1
  else 0.

Definition normpath (p : pystr) : pystr :=
  if bool_decide (p = []) then ps "." else
  let n := initial_slashes p in
  let comps := reverse (norm_go (bool_decide (n <> 0)) [] (split_sep slash p)) in
  let q := replicate n slash ++ str_join [slash] comps in
  if bool_decide (q = []) then ps "." else q.

(** ** [werkzeug.security.safe_join] and [send_from_directory] *)

Definition safe_join (directory filename : pystr) : option pystr :=
  let directory := if bool_decide (directory = []) then ps "." else directory in
  let filename := if bool_decide (filename = []) then filename else normpath filename in
  if startswith filename [slash] || bool_decide (filename = ps "..") || startswith filename (ps "../")
  then None
  else Some (path_join directory filename).

Inductive served := Sent (data : N) | NotFound.

(** [os.path.isfile(p)] and the file [send_file] reads. *)
Definition file_at (fs : fsys) (p : pystr) : option N :=
  match resolve fs p with
  | Some k => match fs !! k with Some (NFile d) => Some d | _ => None end
  | None => None
  end.

(** [serve_image(filename)] *)
Definition serve_image (c : config) (fs : fsys) (filename : pystr) : served :=
  match safe_join (render (image_dir c)) filename with
  | None => NotFound
  | Some p => match file_at fs p with Some d => Sent d | None => NotFound end
  end.

(** ** The command line (lines 202-213) *)

(** The values [parser.parse_args()] collects: [path], [delete_flag]
    and [--port], as strings. *)
Record argv := { av_path : pystr; av_delete_flag : pystr; av_port : option pystr }.

(** [os.path.abspath(path)] in the working directory [cwd]. *)
Definition abspath (cwd : path) (p : pystr) : pystr := normpath (path_join (render cwd) p).

(** The components of a normalized absolute path. *)
Definition components (p : pystr) : path := filter (fun c => c <> []) (split_sep slash p).

Inductive cli := Start (c : config) (port : Z) | UsageError | Crash (e : exn).

(** The script: [argparse] converts [delete_flag] with [int()] and checks
    it against [choices=[0, 1]] (a failure prints the usage and exits
    with status 2); then [IMAGE_DIR] and [ALLOW_DELETE] are set and
    [app.run(port=args.port or 7000)] converts a given port with
    [int()], raising [ValueError] on a non-number. *)
Definition main (cwd : path) (a : argv) : cli :=
  match py_int (av_delete_flag a) with
  | None => UsageError
  | Some flag =>
      if negb (bool_decide (flag = 0 \/ flag = 1)%Z) then UsageError
      else
        let c := {| image_dir := components (abspath cwd (av_path a));
                    allow_delete := negb (Z.eqb flag 0) |} in
        match av_port a with
        | None => Start c 7000
        | Some port =>
            if bool_decide (port = []) then Start c 7000
            else match py_int port with
                 | Some n => Start c n
                 | None => Crash ValueError
                 end
        end
  end.

(** ** Lemmas: normalization *)

Lemma split_sep_noslash_all s : Forall (fun c => slash ∉ c) (split_sep slash s).
Proof.
  induction s as [|c s IH]; cbn [split_sep]; [repeat constructor; set_solver|].
  case_bool_decide as Hc; [constructor; [set_solver | exact IH]|].
  destruct (split_sep slash s) as [|w ws]; [repeat constructor; set_solver|].
  inversion IH; subst. constructor; [set_solver | done].
Qed.

Lemma split_sep_join xs : xs <> [] -> Forall (fun c => slash ∉ c) xs -> split_sep slash (str_join [slash] xs) = xs.
Proof.
  induction xs as [|x [|y xs] IH]; intros Hne Hxs; [done | |].
  - inversion Hxs; subst. by apply split_sep_noslash.
  - inversion Hxs; subst. change (str_join [slash] (x :: y :: xs)) with (x ++ [slash] ++ str_join [slash] (y :: xs)).
    cbn [app]. rewrite split_sep_app by done. by rewrite IH.
Qed.

(** In a relative path the loop keeps a run of [..] in front and no
    [..] after it. *)
Lemma norm_go_rel comps : forall acc k rest,
  acc = rest ++ replicate k (ps "..") -> ps ".." ∉ rest ->
  Forall (fun c => slash ∉ c) acc -> Forall (fun c => slash ∉ c) comps ->
  exists k' rest', norm_go false acc comps = rest' ++ replicate k' (ps "..") /\ (ps ".." ∉ rest') /\
    Forall (fun c => slash ∉ c) (norm_go false acc comps).
Proof.
  induction comps as [|c comps IH]; intros acc k rest -> Hrest Hacc Hcomps; cbn [norm_go]; [by exists k, rest|].
  inversion Hcomps as [|? ? Hc Hcomps']; subst.
  destruct (bool_decide (c = []) || bool_decide (c = ps ".")); [by apply (IH _ k rest)|].
  destruct (decide (c = ps "..")) as [->|Hd].
  - rewrite bool_decide_true by done. cbn [negb orb].
    destruct rest as [|r rest]; cbn [app].
    + destruct k as [|k]; cbn.
      * apply (IH _ 1 []); [done | set_solver | by constructor | done].
      * rewrite bool_decide_true by done. cbn [orb].
        apply (IH _ (S (S k)) []); [done | set_solver | by constructor | done].
    + rewrite (bool_decide_false (r :: _ = [])) by done. cbn [head].
      rewrite bool_decide_false by (intros [= ->]; apply Hrest; left). cbn [tail orb negb andb].
      apply (IH _ k rest); [done | set_solver | by inversion Hacc | done].
  - rewrite bool_decide_false by done. cbn [negb orb]. apply (IH _ k (c :: rest)); [done | | by constructor | done].
    rewrite not_elem_of_cons. split; [done | exact Hrest].
Qed.

(** A normalized name that [safe_join] accepts has no [..] component. *)
Lemma normpath_inside name :
  name <> [] -> startswith (normpath name) [slash] = false -> normpath name <> ps ".." ->
  startswith (normpath name) (ps "../") = false -> ps ".." ∉ split_sep slash (normpath name).
Proof.
  intros Hne. unfold normpath. rewrite (bool_decide_false (name = [])) by done.
  destruct (initial_slashes name) as [|n] eqn:Hn; cbn [replicate app].
  - rewrite (bool_decide_false (0%nat <> 0%nat)) by lia.
    destruct (norm_go_rel (split_sep slash name) [] 0 [] eq_refl (not_elem_of_nil _) (Forall_nil_2 _)
                (split_sep_noslash_all name)) as (k & rest & Hgo & Hrest & Hall).
    rewrite Hgo in Hall |- *. rewrite reverse_app, reverse_replicate.
    assert (Hxs : Forall (fun c => slash ∉ c) (replicate k (ps "..") ++ reverse rest)).
    { apply Forall_app in Hall as [Hr Hk]. apply Forall_app. split; [done | by apply Forall_reverse]. }
    destruct k as [|k]; cbn [replicate app] in Hxs |- *.
    + case_bool_decide as Hq; [intros; by_decide|]. intros _ _ _.
      rewrite split_sep_join by (done || (intros E; rewrite E in Hq; done)). by rewrite elem_of_reverse.
    + destruct (replicate k (ps "..") ++ reverse rest) as [|y ys] eqn:Eys.
      * cbn. intros _ H. by destruct H.
      * change (str_join [slash] (ps ".." :: y :: ys)) with (ps ".." ++ [slash] ++ str_join [slash] (y :: ys)).
        rewrite bool_decide_false by (by destruct (str_join _ _)). intros _ _ H.
        rewrite <- (startswith_app (str_join [slash] (y :: ys)) (ps "../")) in H. done.
  - rewrite bool_decide_false by done. cbn [app replicate]. intros H. cbn in H. by rewrite bool_decide_true in H.
Qed.

(** What [safe_join] returns is the directory joined to a relative name
    without [..]. *)
Lemma safe_join_inside d name p :
  safe_join d name = Some p ->
  exists q, p = path_join (if bool_decide (d = []) then ps "." else d) q /\
    startswith q [slash] = false /\ ps ".." ∉ split_sep slash q.
Proof.
  unfold safe_join. case_bool_decide as Hname.
  - subst name. cbn. intros [= <-]. exists []. split; [done|]. split; [done|]. by_decide.
  - destruct (startswith (normpath name) [slash]) eqn:H1; [done|].
    case_bool_decide as H2; [done|]. destruct (startswith (normpath name) (ps "../")) eqn:H3; [done|].
    intros [= <-]. exists (normpath name). split; [done|]. split; [done|]. by apply normpath_inside.
Qed.
(** ** Lemmas: resolving a joined name *)

Lemma split_sep_render_app x p q :
  slash ∉ x -> Forall (fun c => slash ∉ c) p ->
  split_sep slash (x ++ concat (map (fun c => slash :: c) p) ++ slash :: q) = x :: p ++ split_sep slash q.
Proof.
  revert x. induction p as [|c p IH]; intros x Hx Hp; cbn [map concat app].
  - by apply split_sep_app.
  - inversion Hp; subst. rewrite split_sep_app by done. rewrite <- app_assoc. by rewrite IH.
Qed.

Lemma split_join_render p q :
  Forall (fun c => plain c = true) p -> startswith q [slash] = false ->
  split_sep slash (path_join (render p) q) = [] :: p ++ split_sep slash q.
Proof.
  intros Hp Hq. destruct p as [|c p'] eqn:Ep.
  - unfold path_join. rewrite Hq. cbn. by rewrite bool_decide_true.
  - rewrite render_join_raw by (done || by subst). rewrite <- Ep, render_nonempty by (by subst).
    apply (split_sep_render_app [] p q); [set_solver | apply plain_noslash; by rewrite Ep].
Qed.

(** Without [..] the walk only descends. *)
Lemma walk_descends fs cur comps k :
  ps ".." ∉ comps -> walk fs cur comps = Some k -> cur `prefix_of` k.
Proof.
  revert cur. induction comps as [|c comps IH]; intros cur Hdd Hw; cbn [walk] in Hw; [by injection Hw as <-|].
  rewrite not_elem_of_cons in Hdd. destruct Hdd as [Hc Hdd].
  destruct (bool_decide (c = []) || bool_decide (c = ps ".")); [by apply IH|].
  rewrite bool_decide_false in Hw by done.
  destruct (fs !! (cur ++ [c])) as [[x|]|]; [| |done].
  - destruct comps; [injection Hw as <-; by exists [c] | done].
  - apply IH in Hw; [|done]. etrans; [|exact Hw]. by exists [c].
Qed.

Lemma render_not_nil p : render p <> [].
Proof. destruct p; [done|]. cbn. discriminate. Qed.

(** C16. [serve_image] never sends a file outside the image directory:
    whatever the requested name ([../x], [a/../../x], [/etc/passwd],
    a name with [.] or empty components), a file it sends lies under
    [IMAGE_DIR].  ([delete_images], which joins names with
    [os.path.join] alone, has no such guarantee.) *)
Theorem serve_image_confined c fs name d :
  wf fs -> Forall (fun c => plain c = true) (image_dir c) -> fs !! image_dir c = Some NDir ->
  serve_image c fs name = Sent d -> exists q, fs !! (image_dir c ++ q) = Some (NFile d).
Proof.
  intros Hwf Hp Hdir. unfold serve_image. destruct (safe_join _ name) as [path|] eqn:E; [|done].
  apply safe_join_inside in E as (q & -> & Hq1 & Hq2). rewrite bool_decide_false by apply render_not_nil.
  unfold file_at, resolve. destruct (bool_decide (0%N ∈ _)); [done|].
  rewrite split_join_render by done.
  rewrite (walk_dir_app fs [] (image_dir c)) by (done || by destruct Hwf). rewrite app_nil_l.
  destruct (walk fs (image_dir c) (split_sep slash q)) as [k|] eqn:Ew; [|done].
  destruct (fs !! k) as [[x|]|] eqn:Ek; try done. intros [= <-].
  apply walk_descends in Ew as [q' ->]; [|done]. by exists q'.
Qed.

(** ** Lemmas: the command line *)

(** With an absolute path the loop keeps only names: no empty
    component, no [.] and no [..]. *)
Lemma norm_go_abs comps : forall acc,
  Forall (fun c => c <> [] /\ c <> ps "." /\ c <> ps "..") acc ->
  Forall (fun c => c <> [] /\ c <> ps "." /\ c <> ps "..") (norm_go true acc comps).
Proof.
  induction comps as [|c comps IH]; intros acc Hacc; cbn [norm_go]; [done|].
  destruct (bool_decide (c = [])) eqn:E1; [by apply IH|]. destruct (bool_decide (c = ps ".")) eqn:E2; [by apply IH|].
  cbn [orb]. apply bool_decide_eq_false in E1, E2.
  destruct (decide (c = ps "..")) as [->|Hd].
  - rewrite bool_decide_true by done. cbn [negb orb andb].
    destruct acc as [|x acc]; cbn [head tail].
    + rewrite bool_decide_false by done. by apply IH.
    + inversion Hacc as [|? ? (Hx1 & Hx2 & Hx3) Hacc']; subst.
      rewrite bool_decide_false by congruence. by apply IH.
  - rewrite bool_decide_false by done. cbn [negb orb]. apply IH. by constructor.
Qed.

(** The loop keeps only components it was given. *)
Lemma norm_go_Forall (P : pystr -> Prop) b comps : forall acc,
  Forall P acc -> Forall P comps -> Forall P (norm_go b acc comps).
Proof.
  induction comps as [|c comps IH]; intros acc Hacc Hc; cbn [norm_go]; [done|].
  inversion Hc as [|? ? Hc1 Hc2]; subst. repeat case_match; apply IH; try done.
  - by constructor.
  - by apply Forall_tail.
Qed.

Lemma split_sep_within s : Forall (fun w => forall x, x ∈ w -> x ∈ s) (split_sep slash s).
Proof.
  induction s as [|c s IH]; cbn [split_sep]; [constructor; [set_solver | done]|].
  case_bool_decide.
  - constructor; [set_solver|]. eapply Forall_impl; [exact IH|]. set_solver.
  - destruct (split_sep slash s) as [|w ws] eqn:E; [constructor; [set_solver | done]|].
    inversion IH as [|? ? Hw Hws]; subst. constructor; [set_solver|].
    eapply Forall_impl; [exact Hws|]. set_solver.
Qed.

Lemma split_sep_slashes m y : split_sep slash (replicate m slash ++ y) = replicate m [] ++ split_sep slash y.
Proof. induction m as [|m IH]; [done|]. cbn. rewrite bool_decide_true by done. by rewrite IH. Qed.

Lemma filter_nonempty_replicate m : filter (fun c : pystr => c <> []) (replicate m []) = [].
Proof. induction m as [|m IH]; [done|]. rewrite replicate_S, filter_cons_False; [exact IH | by intros []]. Qed.

Lemma filter_all_nonempty (l : list pystr) : Forall (fun c => c <> []) l -> filter (fun c => c <> []) l = l.
Proof. induction 1 as [|x l Hx _ IH]; [done|]. rewrite filter_cons_True by done. by rewrite IH. Qed.

(** The components of [normpath] of an absolute path are names. *)
Lemma components_normpath_abs x :
  startswith x [slash] = true -> 0%N ∉ x -> Forall (fun c => plain c = true) (components (normpath x)).
Proof.
  intros Hx H0. unfold normpath. rewrite bool_decide_false by (by intros ->). cbv zeta.
  destruct (initial_slashes x) as [|n] eqn:Hn; [unfold initial_slashes in Hn; rewrite Hx in Hn; by case_match|].
  rewrite (bool_decide_true (S n <> 0%nat)) by lia.
  set (acc := norm_go true [] (split_sep slash x)).
  assert (Hgood := norm_go_abs (split_sep slash x) [] (Forall_nil_2 _)). fold acc in Hgood.
  assert (Hsl := norm_go_Forall (fun c => slash ∉ c) true (split_sep slash x) [] (Forall_nil_2 _) (split_sep_noslash_all x)).
  assert (Hnul : Forall (fun c => 0%N ∉ c) acc).
  { apply norm_go_Forall; [constructor|]. eapply Forall_impl; [apply split_sep_within|]. cbv beta. set_solver. }
  fold acc in Hsl. rewrite bool_decide_false by done. unfold components.
  rewrite split_sep_slashes, filter_app, filter_nonempty_replicate, app_nil_l.
  assert (Hall : Forall (fun c => plain c = true) (reverse acc)).
  { apply Forall_reverse. apply Forall_forall. intros c Hc. apply plain_spec.
    rewrite Forall_forall in Hgood, Hsl, Hnul. destruct (Hgood c Hc) as (? & ? & ?).
    split; [done|]. split; [done|]. split; [done|]. split; [by apply Hsl | by apply Hnul]. }
  destruct (reverse acc) as [|y ys] eqn:Ey; [done|].
  rewrite split_sep_join by (done || by eapply plain_noslash). rewrite filter_all_nonempty; [done|].
  eapply Forall_impl; [exact Hall|]. intros c Hc%plain_spec. tauto.
Qed.

Lemma join_render_abs cwd p : startswith (path_join (render cwd) p) [slash] = true.
Proof.
  assert (Hr : exists r, render cwd = slash :: r) by (destruct cwd; [by exists [] | by eexists]).
  destruct Hr as [r Hr]. unfold path_join. rewrite Hr.
  destruct (startswith p [slash]) eqn:E; [done|]. by case_match.
Qed.

Lemma join_render_nonul cwd p :
  Forall (fun c => plain c = true) cwd -> 0%N ∉ p -> 0%N ∉ path_join (render cwd) p.
Proof.
  intros Hc Hp. pose proof (render_nonul cwd Hc). unfold path_join.
  repeat case_match; set_solver.
Qed.

(** The configuration the command line sets has an image directory of
    names, as the theorems of [Archive] and of this file assume. *)
Lemma main_config_plain cwd a c port :
  Forall (fun c => plain c = true) cwd -> 0%N ∉ av_path a -> main cwd a = Start c port ->
  Forall (fun c => plain c = true) (image_dir c).
Proof.
  intros Hcwd Hp. unfold main. destruct (py_int (av_delete_flag a)); [|done]. case_match; [done|].
  assert (Himg : Forall (fun c => plain c = true) (components (abspath cwd (av_path a)))).
  { apply components_normpath_abs; [apply join_render_abs | by apply join_render_nonul]. }
  repeat case_match; by intros [= <- _].
Qed.

(** ** Witnesses *)

(** The names that would leave the directory are refused, the way
    [delete_images] does not refuse them. *)
Example serve_refuses_escapes :
  serve_image demo_cfg demo_fs (ps "../../x.png") = NotFound /\
  serve_image demo_cfg demo_fs (ps "/x.png") = NotFound /\
  serve_image demo_cfg demo_fs (ps "a.png/../../../x.png") = NotFound.
Proof. vm_compute. repeat split. Qed.

Lemma serve_image_confined_witness :
  serve_image demo_cfg demo_fs (ps "sub/.//../a.png") = Sent 1 /\
  exists q, demo_fs !! (image_dir demo_cfg ++ q) = Some (NFile 1).
Proof.
  assert (H : serve_image demo_cfg demo_fs (ps "sub/.//../a.png") = Sent 1) by (vm_compute; reflexivity).
  split; [exact H|]. apply (serve_image_confined demo_cfg demo_fs (ps "sub/.//../a.png") 1 demo_wf demo_img); [reflexivity | exact H].
Defined.

(** The command line: [int()] accepts [ 1], [01], [+1] and the
    Arabic-Indic digit one as the delete flag; [2] and [yes] are refused
    by [argparse]; an empty port falls back to 7000 and a port that is
    not a number makes [app.run] raise; the path is made absolute and
    normalized. *)
Definition demo_args (flag : pystr) (port : option pystr) : argv :=
  {| av_path := ps "pics/../img"; av_delete_flag := flag; av_port := port |}.

Example main_examples :
  main [ps "home"; ps "u"] (demo_args (ps " 1") None) =
    Start {| image_dir := [ps "home"; ps "u"; ps "img"]; allow_delete := true |} 7000 /\
  (forall f, f ∈ [ps "01"; ps "+1"; [1633%N]] ->
     main [ps "home"; ps "u"] (demo_args f (Some [])) =
       Start {| image_dir := [ps "home"; ps "u"; ps "img"]; allow_delete := true |} 7000) /\
  main [ps "home"; ps "u"] (demo_args (ps "2") None) = UsageError /\
  main [ps "home"; ps "u"] (demo_args (ps "yes") None) = UsageError /\
  main [ps "home"; ps "u"] (demo_args (ps "0") (Some (ps "8080"))) =
    Start {| image_dir := [ps "home"; ps "u"; ps "img"]; allow_delete := false |} 8080 /\
  main [ps "home"; ps "u"] (demo_args (ps "0") (Some (ps "80x"))) = Crash ValueError.
Proof.
  split; [vm_compute; reflexivity|]. split; [|vm_compute; repeat split].
  intros f Hf. repeat (apply list_elem_of_cons in Hf as [-> | Hf]); [vm_compute; reflexivity.. | set_solver].
Qed.

End Serve.
