(* ===== verification/App.v ===== *)
(** * The gallery application: its three routes over one directory tree

    [src/run/flask_img_viewer.py] registers three routes on one Flask
    application: [/] ([index]), [/images/<path:filename>] ([serve_image])
    and [/delete] ([delete_images], POST only).  They share the image
    directory: [index] lists it with [os.listdir], [serve_image] reads
    its files and [delete_images] moves them into [.archive].  This file
    composes the components of [Gallery], [Serve], [Archive] and
    [GalleryPage] over one store: [listdir] is [os.listdir] on that
    store, [handle] is the dispatch of werkzeug's router followed by the
    view function, and the theorems follow a name from the listing to
    the image route and through a deletion back to the listing. *)

From Stdlib Require Import String.
From S2P Require Import Prelude PyInt Gallery Archive Serve Html GalleryPage Nvtop.
From stdpp Require Import gmap sorting.

Module App.

Import Gallery Archive Serve.

(** ** [os.listdir] on the store *)

(** The name of [k] as an entry of the directory [d], when [k] is one. *)
Definition child_of (d k : path) : option pystr :=
  match drop (length d) k with
  | [n] => if bool_decide (take (length d) k = d) then Some n else None
  | _ => None
  end.

(** The entries of [d], in the order in which the store enumerates
    them: [os.listdir] promises no order. *)
Definition children (fs : fsys) (d : path) : list pystr :=
  omap (fun kv => child_of d kv.1) (map_to_list fs).

(** [os.listdir(p)]: [FileNotFoundError] or [NotADirectoryError] (both
    [OSError]) when [p] does not name a directory. *)
Definition listdir (fs : fsys) (p : pystr) : option (list pystr) :=
  match resolve fs p with
  | Some d => if bool_decide (fs !! d = Some NDir) then Some (children fs d) else None
  | None => None
  end.

(** The globals as [index] reads them: [IMAGE_DIR] is the text of the
    canonical path the command line set. *)
Definition gallery_config (c : config) : Gallery.config :=
  {| Gallery.image_dir := render (image_dir c); Gallery.allow_delete := allow_delete c |}.

(** [index] (lines 152-175) on the store: [os.listdir(IMAGE_DIR)], then
    the listing and the page. *)
Definition get_index (c : config) (q : Gallery.query) (fs : fsys) : res page :=
  Gallery.index (gallery_config c) (listdir fs (render (image_dir c))) q.

(** ** The response body *)

(** The texts [HTML_TEMPLATE] takes from the data.  The rest of the
    template is ASCII, and [{{ images|tojson }}] writes non-ASCII
    characters as [\uXXXX] escapes (Flask's [ensure_ascii]). *)
Definition view_texts (v : GalleryPage.view) : list pystr :=
  GalleryPage.v_title v :: GalleryPage.v_total v :: GalleryPage.v_page_label v ::
  default [] (GalleryPage.v_prev v) :: default [] (GalleryPage.v_next v) ::
  concat (map (fun cd => [GalleryPage.card_value cd; GalleryPage.card_src cd; GalleryPage.card_caption cd;
                           GalleryPage.card_trash_onclick cd]) (GalleryPage.v_cards v)).

(** Werkzeug encodes the returned text with the strict UTF-8 codec, which
    refuses a lone surrogate: what [os.listdir] (or [sys.argv]) gives for
    a byte of a name that is not UTF-8. *)
Definition encodable (v : GalleryPage.view) : bool :=
  forallb (forallb (fun ch => bool_decide (Nvtop.scalar ch))) (view_texts v).

(** ** Routing *)

Inductive method := GET | POST.

(** A request: its method, its path (percent-decoded, as werkzeug
    matches it), its query string and its JSON body. *)
Record request := { rq_method : method; rq_path : pystr; rq_query : Gallery.query; rq_body : option json }.

Inductive reply :=
  | PageReply (v : GalleryPage.view)         (* 200: HTML_TEMPLATE rendered *)
  | FileReply (s : served)       (* the image, or 404 *)
  | DeleteReply (r : response)   (* the answer of delete_images *)
  | Error500 (e : exn)           (* an exception escaped index *)
  | NoRoute                      (* 404: no rule matches the path *)
  | NotAllowed.                  (* 405: the rule is for the other method *)

(** The [path] converter of [/images/<path:filename>]: the rest of the
    path, non-empty and not starting with [/] (its pattern is
    [[^/].*?]). *)
Definition route_images (p : pystr) : option pystr :=
  if startswith p (ps "/images/") then
    match drop (length (ps "/images/")) p with
    | c :: r => if bool_decide (c = slash) then None else Some (c :: r)
    | [] => None
    end
  else None.

(** [@app.route('/')], [@app.route('/images/<path:filename>')] and
    [@app.route('/delete', methods=['POST'])], with the view functions
    they call; only [delete_images] changes the store. *)
Definition handle (c : config) (r : request) (fs : fsys) : reply * fsys :=
  if bool_decide (rq_path r = ps "/") then
    match rq_method r with
    | GET => (match get_index c (rq_query r) fs with
              | Ok pg => if encodable (GalleryPage.render pg) then PageReply (GalleryPage.render pg)
                         else Error500 UnicodeEncodeError
              | Raise e => Error500 e
              end, fs)
    | POST => (NotAllowed, fs)
    end
  else if bool_decide (rq_path r = ps "/delete") then
    match rq_method r with
    | POST => let '(resp, fs') := serve_delete c (rq_body r) fs in (DeleteReply resp, fs')
    | GET => (NotAllowed, fs)
    end
  else match route_images (rq_path r) with
       | Some f => match rq_method r with
                   | GET => (FileReply (serve_image c fs f), fs)
                   | POST => (NotAllowed, fs)
                   end
       | None => (NoRoute, fs)
       end.

(** Requests served one after the other. *)
Fixpoint serve_all (c : config) (rs : list request) (fs : fsys) : list reply * fsys :=
  match rs with
  | [] => ([], fs)
  | r :: rs' => let '(a, fs1) := handle c r fs in
                let '(as_, fs2) := serve_all c rs' fs1 in (a :: as_, fs2)
  end.

(** A GET request without a query, as a browser sends for a link or an
    image, and the POST the page's [executeDelete] sends: the body
    [JSON.stringify({filenames: fileList})] that [request.get_json()]
    reads back. *)
Definition get_request (p : pystr) (q : Gallery.query) : request :=
  {| rq_method := GET; rq_path := p; rq_query := q; rq_body := None |}.

Definition delete_request (names : list pystr) : request :=
  {| rq_method := POST; rq_path := ps "/delete"; rq_query := []; rq_body := request_of names |}.

(** The store's names are plain: no entry has an empty, [.], [..], or
    slash- or NUL-containing component, as on a POSIX file system. *)
Definition names_plain (fs : fsys) : Prop :=
  map_Forall (fun k _ => Forall (fun c => plain c = true) k) fs.

(** The store the gallery is run on: well formed, with plain names,
    [IMAGE_DIR] a directory whose image-named entries are files, the
    archive absent or a directory, and no backup name taken by a
    directory. *)
Record store_ok (c : config) (fs : fsys) : Prop := {
  ok_wf : wf fs;
  ok_names : names_plain fs;
  ok_dir : fs !! image_dir c = Some NDir;
  ok_archive : fs !! archive_dir c = None \/ fs !! archive_dir c = Some NDir;
  ok_files : forall n v, is_image_name n = true -> fs !! (image_dir c ++ [n]) = Some v -> exists x, v = NFile x;
  ok_backups : forall n, fs !! (archive_dir c ++ [bak n]) <> Some NDir;
}.

(** The same properties as a test, for concrete stores (stronger on the
    archive: there every entry must be a file). *)
Definition store_check (c : config) (fs : fsys) : bool :=
  wf_check fs && bool_decide (names_plain fs) && bool_decide (fs !! image_dir c = Some NDir) &&
  bool_decide (fs !! archive_dir c = None \/ fs !! archive_dir c = Some NDir) &&
  forallb (fun kv => match child_of (image_dir c) kv.1 with
                     | Some n => negb (is_image_name n) || bool_decide (kv.2 <> NDir)
                     | None => true
                     end &&
                     match child_of (archive_dir c) kv.1 with
                     | Some _ => bool_decide (kv.2 <> NDir)
                     | None => true
                     end) (map_to_list fs).

(** A name that was listed in the image directory. *)
Definition image_name (n : pystr) : Prop := plain n = true /\ is_image_name n = true.

(** ** Lemmas: the directory listing *)

Lemma child_of_app d n : child_of d (d ++ [n]) = Some n.
Proof. unfold child_of. rewrite drop_app_length, take_app_length. by rewrite bool_decide_true. Qed.

Lemma child_of_Some d k n : child_of d k = Some n -> k = d ++ [n].
Proof.
  unfold child_of. destruct (drop (length d) k) as [|m [|]] eqn:E; try done.
  case_bool_decide as Ht; [|done]. intros [= <-]. by rewrite <- (take_drop (length d) k), Ht, E.
Qed.

Lemma elem_of_children fs d n : n ∈ children fs d <-> is_Some (fs !! (d ++ [n])).
Proof.
  unfold children. rewrite list_elem_of_omap. split.
  - intros ([k v] & Hkv%elem_of_map_to_list & Hc%child_of_Some). cbn in Hc. subst k. by exists v.
  - intros [v Hv]. exists (d ++ [n], v). split; [by apply elem_of_map_to_list | apply child_of_app].
Qed.

Lemma NoDup_children fs d : NoDup (children fs d).
Proof.
  apply NoDup_omap_inj; [apply NoDup_map_to_list|].
  intros [k1 v1] [k2 v2] n H1%elem_of_map_to_list H2%elem_of_map_to_list E1%child_of_Some E2%child_of_Some.
  cbn in *. subst. congruence.
Qed.

Lemma listdir_render fs d :
  wf fs -> Forall (fun c => plain c = true) d -> fs !! d = Some NDir ->
  listdir fs (render d) = Some (children fs d).
Proof. intros Hwf Hd Hdir. unfold listdir. rewrite resolve_render, Hdir by done. by rewrite bool_decide_true. Qed.

(** A listed name is an entry of the directory. *)
Lemma listing_children fs d name :
  name ∈ listing (children fs d) -> is_Some (fs !! (d ++ [name])) /\ is_image_name name = true.
Proof.
  unfold listing, sort_desc. rewrite merge_sort_Permutation, list_elem_of_filter, elem_of_children.
  intros [Hi Hs]. split; [done | by destruct (is_image_name name)].
Qed.

(** ** Lemmas: serving a plain name *)

Lemma normpath_plain n : plain n = true -> normpath n = n.
Proof.
  intros Hn. pose proof Hn as (Hne & Hdot & Hdd & Hsl & _)%plain_spec. unfold normpath.
  rewrite bool_decide_false by done.
  assert (Hi : initial_slashes n = 0%nat).
  { unfold initial_slashes. destruct n as [|x n]; [done|]. cbn [startswith].
    rewrite bool_decide_false by set_solver. done. }
  rewrite Hi, split_sep_noslash by done. cbn [norm_go].
  rewrite (bool_decide_false (n = [])), (bool_decide_false (n = ps ".")), (bool_decide_false (n = ps "..")) by done.
  cbn. by rewrite bool_decide_false by done.
Qed.

Lemma safe_join_plain d n :
  Forall (fun c => plain c = true) d -> plain n = true -> safe_join (render d) n = Some (render (d ++ [n])).
Proof.
  intros Hd Hn. pose proof Hn as (Hne & Hdot & Hdd & Hsl & _)%plain_spec. unfold safe_join.
  rewrite (bool_decide_false (render d = [])) by apply render_not_nil.
  rewrite bool_decide_false by done. rewrite normpath_plain by done.
  destruct (startswith n [slash]) eqn:E1; [apply startswith_prefix in E1 as [? ->]; set_solver|].
  destruct (startswith n (ps "../")) eqn:E2; [apply startswith_prefix in E2 as [? ->]; set_solver|].
  rewrite bool_decide_false by done. cbn [orb]. by rewrite render_join.
Qed.

(** [serve_image] on an entry of the image directory. *)
Lemma serve_entry c fs n :
  wf fs -> Forall (fun c => plain c = true) (image_dir c) -> plain n = true ->
  serve_image c fs n = match fs !! (image_dir c ++ [n]) with Some (NFile x) => Sent x | _ => NotFound end.
Proof.
  intros Hwf Hd Hn. unfold serve_image. rewrite safe_join_plain by done. unfold file_at.
  rewrite resolve_render; [| done | by apply Forall_app; split; [| apply Forall_singleton]].
  destruct (fs !! (image_dir c ++ [n])) as [[]|] eqn:E; cbn; rewrite ?E; done.
Qed.

(** ** Lemmas: dispatch *)

Lemma handle_index c q fs :
  handle c (get_request (ps "/") q) fs =
  (match get_index c q fs with
   | Ok pg => if encodable (GalleryPage.render pg) then PageReply (GalleryPage.render pg) else Error500 UnicodeEncodeError
   | Raise e => Error500 e
   end, fs).
Proof. unfold handle. cbn [rq_path rq_method rq_query get_request]. by rewrite bool_decide_true. Qed.

Lemma images_path_neq name : ps "/images/" ++ name <> ps "/" /\ ps "/images/" ++ name <> ps "/delete".
Proof.
  split; intros H; apply (f_equal (take 2)) in H; rewrite take_app_le in H by (vm_compute; lia);
    vm_compute in H; discriminate.
Qed.

Lemma handle_image c fs name :
  plain name = true -> handle c (get_request (ps "/images/" ++ name) []) fs = (FileReply (serve_image c fs name), fs).
Proof.
  intros Hn. apply plain_spec in Hn as (Hne & _ & _ & Hsl & _). destruct (images_path_neq name) as [H1 H2].
  unfold handle. cbn [rq_path rq_method get_request]. rewrite !bool_decide_false by done.
  unfold route_images. rewrite startswith_app, drop_app_length.
  destruct name as [|x r]; [done|]. rewrite bool_decide_false by set_solver. done.
Qed.

Lemma handle_delete c fs names :
  handle c (delete_request names) fs =
  (DeleteReply (serve_delete c (request_of names) fs).1, (serve_delete c (request_of names) fs).2).
Proof.
  unfold handle. cbn [rq_path rq_method rq_body delete_request].
  rewrite bool_decide_false by (intros H; apply (f_equal length) in H; vm_compute in H; discriminate).
  rewrite bool_decide_true by done. by destruct (serve_delete _ _ _).
Qed.

(** ** Lemmas: the store *)

Lemma names_plain_lookup fs k v : names_plain fs -> fs !! k = Some v -> Forall (fun c => plain c = true) k.
Proof. intros Hn Hv. exact (map_Forall_lookup_1 _ _ _ _ Hn Hv). Qed.

Lemma dir_plain c fs : names_plain fs -> fs !! image_dir c = Some NDir -> Forall (fun c => plain c = true) (image_dir c).
Proof. apply names_plain_lookup. Qed.

Lemma entry_plain fs d n v : names_plain fs -> fs !! (d ++ [n]) = Some v -> plain n = true.
Proof. intros Hn Hv. apply (names_plain_lookup fs), Forall_app in Hv as [_ Hv]; [|done]. by inversion Hv. Qed.

Lemma store_check_sound c fs : store_check c fs = true -> store_ok c fs.
Proof.
  unfold store_check. intros H.
  apply andb_prop in H as [H Hall]. apply andb_prop in H as [H Harch]. apply andb_prop in H as [H Hdir].
  apply andb_prop in H as [Hwf Hnames]. apply bool_decide_eq_true in Harch, Hdir, Hnames.
  rewrite forallb_forall in Hall.
  assert (Hkv : forall k v, fs !! k = Some v ->
    (match child_of (image_dir c) k with Some n => negb (is_image_name n) || bool_decide (v <> NDir) | None => true end &&
     match child_of (archive_dir c) k with Some _ => bool_decide (v <> NDir) | None => true end) = true).
  { intros k v Hk. apply (Hall (k, v)), list_elem_of_In, elem_of_map_to_list, Hk. }
  split; [by apply wf_check_sound | done | done | done | |].
  - intros n v Himg Hv. destruct (andb_prop _ _ (Hkv _ _ Hv)) as [Hn _]. rewrite child_of_app, Himg in Hn. cbn in Hn.
    apply bool_decide_eq_true in Hn. destruct v as [x|]; [by exists x | done].
  - intros n Hv. destruct (andb_prop _ _ (Hkv _ _ Hv)) as [_ Hb]. rewrite child_of_app in Hb. by apply bool_decide_eq_true in Hb.
Qed.

Lemma get_index_children c q fs :
  wf fs -> names_plain fs -> fs !! image_dir c = Some NDir ->
  get_index c q fs = Gallery.index (gallery_config c) (Some (children fs (image_dir c))) q.
Proof. intros Hwf Hn Hd. unfold get_index. rewrite listdir_render; [done | done | by apply (dir_plain c fs) | done]. Qed.

Lemma image_not_archive m : is_image_name m = true -> m <> ps ".archive".
Proof. intros H ->. vm_compute in H. discriminate. Qed.

(** What a deletion of [names] leaves: the moved names are gone from
    the image directory and everything else but the archive is as it
    was (the conclusions of [delete_request_spec]). *)
Section AfterDelete.

Variables (c : config) (fs fs' : fsys) (names : list pystr).
Hypothesis Hmoved : forall n, n ∈ names ->
  fs' !! (image_dir c ++ [n]) = None /\ fs' !! (archive_dir c ++ [bak n]) = fs !! (image_dir c ++ [n]).
Hypothesis Hkept : forall k, k <> archive_dir c ->
  (forall n, n ∈ names -> k <> image_dir c ++ [n] /\ k <> archive_dir c ++ [bak n]) -> fs' !! k = fs !! k.

Lemma listing_after_move :
  listing (children fs' (image_dir c)) = filter (fun m => m ∉ names) (listing (children fs (image_dir c))).
Proof.
  rewrite <- listing_filter. apply listing_ext; [apply NoDup_children | apply NoDup_filter, NoDup_children |].
  intros m Hm. rewrite list_elem_of_filter, !elem_of_children.
  destruct (decide (m ∈ names)) as [Hin|Hout].
  - rewrite (proj1 (Hmoved m Hin)). split; [intros [? [=]] | tauto].
  - rewrite (kept_entry c fs fs' names Hkept) by (done || by apply image_not_archive). tauto.
Qed.

(** The deletion keeps the store as the gallery expects it. *)
Lemma store_ok_after_move :
  store_ok c fs -> Forall (deletable c fs) names -> wf fs' -> fs' !! archive_dir c = Some NDir -> store_ok c fs'.
Proof.
  intros Hok Hdel Hwf' Harch'. rewrite Forall_forall in Hdel.
  assert (Hd : Forall (fun c => plain c = true) (image_dir c)) by (apply (dir_plain c fs); apply Hok).
  assert (Ha : Forall (fun c => plain c = true) (archive_dir c)) by (apply Forall_app; auto using plain_archive).
  split; [done | | by rewrite (kept_dir c fs fs' names Hkept); apply Hok | by right | |].
  - intros k v Hk. destruct (decide (k = archive_dir c)) as [->|Hka]; [done|].
    destruct (decide (Exists (fun n => k = image_dir c ++ [n] \/ k = archive_dir c ++ [bak n]) names)) as [Hex|Hnex].
    + apply Exists_exists in Hex as (n & Hn & [->| ->]); [by rewrite (proj1 (Hmoved n Hn)) in Hk|].
      destruct (Hdel n Hn) as (Hpl & _). apply Forall_app. split; [done|]. constructor; [by apply plain_bak | done].
    + rewrite Hkept in Hk; [by apply (names_plain_lookup fs _ v (ok_names _ _ Hok)) | done |]. intros n Hn.
      split; intros ->; apply Hnex, Exists_exists; eauto.
  - intros m v Hm Hv. destruct (decide (m ∈ names)) as [Hin|Hout]; [by rewrite (proj1 (Hmoved m Hin)) in Hv|].
    rewrite (kept_entry c fs fs' names Hkept) in Hv by (done || by apply image_not_archive). by apply (ok_files _ _ Hok m).
  - intros m. destruct (decide (m ∈ names)) as [Hin|Hout].
    + rewrite (proj2 (Hmoved m Hin)). by destruct (Hdel m Hin) as (_ & _ & [x ->] & _).
    + rewrite (kept_backup c fs fs' names Hkept) by done. apply Hok.
Qed.

End AfterDelete.

(** ** The routes together *)

(** C17. Every image the index page shows is an entry of [IMAGE_DIR], and
    the image route answers its [/images/<name>] with that entry's
    content when it is a regular file, with 404 when it is a directory
    (a directory named like an image is listed but never shown). *)
Theorem listed_images_served c fs q pg name :
  wf fs -> names_plain fs -> fs !! image_dir c = Some NDir ->
  get_index c q fs = Ok pg -> name ∈ pg_images pg ->
  is_Some (fs !! (image_dir c ++ [name])) /\
  handle c (get_request (ps "/images/" ++ name) []) fs =
    (FileReply (match fs !! (image_dir c ++ [name]) with Some (NFile x) => Sent x | _ => NotFound end), fs).
Proof.
  intros Hwf Hn Hd Hi Hname. rewrite get_index_children in Hi by done.
  pose proof (elem_of_sublist _ _ _ Hname (index_images _ _ _ _ Hi)) as Hl.
  destruct (listing_children _ _ _ Hl) as [[v Hv] _].
  assert (Hpl : plain name = true) by (eapply entry_plain; eauto).
  split; [by exists v|]. rewrite handle_image by done. rewrite serve_entry; [done | done | by apply (dir_plain c fs) | done].
Qed.

(** ** Lemmas: deletion requests of any listed names

    The names a page sends were listed when the page was made; by the
    time the request is handled another request may have archived them.
    Such a name is skipped ([os.path.exists] fails), and a name given
    twice is moved once. *)

Lemma delete_one_absent c fs n :
  wf fs -> Forall (fun c => plain c = true) (image_dir c) -> plain n = true ->
  fs !! (image_dir c ++ [n]) = None -> delete_one c (JStr n) fs = (Ok tt, fs).
Proof.
  intros Hwf Hd Hn Hnone. unfold delete_one. rewrite render_join by done.
  rewrite (bind_ok (S:=fsys) _ _ fs fs fs) by reflexivity. unfold exists_path.
  rewrite resolve_render, Hnone by first [done | apply Forall_app; auto]. by rewrite bool_decide_false by (by intros []).
Qed.

Lemma listing_not_entry fs d n : fs !! (d ++ [n]) = None -> filter (fun m => m ∉ [n]) (listing (children fs d)) = listing (children fs d).
Proof.
  intros Hn. apply filter_all.
  apply Forall_forall. intros m Hm%listing_children ->%list_elem_of_singleton. destruct Hm as [[v Hv] _]. congruence.
Qed.

(** One name of the loop, archived or skipped. *)
Lemma delete_one_ok c fs n :
  store_ok c fs -> fs !! archive_dir c = Some NDir -> image_name n ->
  exists fs1, delete_one c (JStr n) fs = (Ok tt, fs1) /\ store_ok c fs1 /\ fs1 !! archive_dir c = Some NDir /\
    listing (children fs1 (image_dir c)) = filter (fun m => m ∉ [n]) (listing (children fs (image_dir c))).
Proof.
  intros Hok Harch [Hpl Himg]. pose proof (dir_plain c fs (ok_names _ _ Hok) (ok_dir _ _ Hok)) as Hd.
  pose proof (image_not_archive n Himg) as Hna.
  destruct (fs !! (image_dir c ++ [n])) as [v|] eqn:Hv.
  - destruct (ok_files _ _ Hok n v Himg Hv) as [x ->].
    set (fs1 := <[archive_dir c ++ [bak n] := NFile x]> (delete (image_dir c ++ [n]) fs)).
    assert (Hmoved : forall m, m ∈ [n] -> fs1 !! (image_dir c ++ [m]) = None /\
                                          fs1 !! (archive_dir c ++ [bak m]) = fs !! (image_dir c ++ [m])).
    { intros m ->%list_elem_of_singleton. unfold fs1. rewrite lookup_insert_ne by apply not_eq_sym, img_neq_arch.
      by rewrite lookup_delete_eq, lookup_insert_eq, Hv. }
    assert (Hkept : forall k, k <> archive_dir c ->
              (forall m, m ∈ [n] -> k <> image_dir c ++ [m] /\ k <> archive_dir c ++ [bak m]) -> fs1 !! k = fs !! k).
    { intros k _ Hk. destruct (Hk n ltac:(set_solver)). by apply lookup_move_other. }
    exists fs1. split; [by apply delete_one_move; try apply Hok|].
    assert (Harch1 : fs1 !! archive_dir c = Some NDir)
      by (unfold fs1; rewrite lookup_move_other; [done | by apply neq_snoc | unfold archive_dir; apply snoc_neq_last; by apply not_eq_sym]).
    split; [|split; [done | by apply (listing_after_move c fs fs1 [n])]].
    apply (store_ok_after_move c fs fs1 [n]); try done.
    + apply Forall_singleton. split; [done|]. split; [done|]. split; [by exists x | apply Hok].
    + apply wf_move_file; [apply Hok | done | done | apply Hok].
  - exists fs. rewrite delete_one_absent by (done || apply Hok). split; [done|]. split; [done|]. split; [done|].
    by rewrite listing_not_entry.
Qed.

Lemma delete_names_loop c names : forall fs,
  store_ok c fs -> fs !! archive_dir c = Some NDir -> Forall image_name names ->
  exists fs', for_each (JStr <$> names) (delete_one c) fs = (Ok tt, fs') /\ store_ok c fs' /\
    listing (children fs' (image_dir c)) = filter (fun m => m ∉ names) (listing (children fs (image_dir c))).
Proof.
  induction names as [|n ns IH]; intros fs Hok Harch Hn.
  { exists fs. split; [done|]. split; [done|]. symmetry. apply filter_all, Forall_forall. set_solver. }
  apply Forall_cons in Hn as [Hn Hns].
  destruct (delete_one_ok c fs n Hok Harch Hn) as (fs1 & Hrun1 & Hok1 & Harch1 & Hl1).
  destruct (IH fs1 Hok1 Harch1 Hns) as (fs' & Hrun & Hok' & Hl).
  exists fs'. cbn [fmap list_fmap for_each]. rewrite (bind_ok _ _ fs tt fs1 Hrun1). split; [done|]. split; [done|].
  rewrite Hl, Hl1, list_filter_filter. apply list_filter_iff. set_solver.
Qed.

(** Creating the archive when it is missing keeps the store as the
    gallery expects it and the listing as it was. *)
Lemma archive_ready c fs :
  store_ok c fs ->
  exists fs0, (if exists_path fs (archive_path c) then mret tt else makedirs_go [] (image_dir c ++ [ps ".archive"])) fs
                = (Ok tt, fs0) /\ store_ok c fs0 /\ fs0 !! archive_dir c = Some NDir /\
    listing (children fs0 (image_dir c)) = listing (children fs (image_dir c)).
Proof.
  intros Hok. pose proof (dir_plain c fs (ok_names _ _ Hok) (ok_dir _ _ Hok)) as Hd.
  assert (Hpa : Forall (fun c => plain c = true) (archive_dir c)) by (apply Forall_app; auto using plain_archive).
  unfold exists_path. rewrite archive_path_render, resolve_render by (done || apply Hok).
  destruct (ok_archive _ _ Hok) as [Ha|Ha]; rewrite Ha; [|by exists fs].
  exists (<[archive_dir c := NDir]> fs). rewrite bool_decide_false by (by intros []).
  split; [apply makedirs_new; [apply Hok | apply Hok | done]|]. split; [|split; [apply lookup_insert_eq|]].
  - split; [apply wf_insert_dir; apply Hok | | | right; apply lookup_insert_eq | |].
    + apply map_Forall_insert_2; [done | apply Hok].
    + rewrite lookup_insert_ne by (unfold archive_dir; apply not_eq_sym, neq_snoc; done). apply Hok.
    + intros m v Hm. rewrite lookup_insert_ne by (apply snoc_neq_last; apply not_eq_sym, image_not_archive, Hm).
      apply Hok, Hm.
    + intros m. rewrite lookup_insert_ne by (by apply neq_snoc). apply Hok.
  - apply listing_ext; [apply NoDup_children.. |]. intros m Hm.
    rewrite !elem_of_children. destruct (decide (m = ps ".archive")) as [->|Hne]; [by vm_compute in Hm|].
    by rewrite lookup_insert_ne by (by apply not_eq_sym, snoc_neq_last).
Qed.

(** A POST to [/delete] naming listed names (in any number, repeated,
    or archived meanwhile) succeeds, keeps the store as the gallery
    expects it, and the next listing is the previous one without those
    names. *)
Lemma delete_names_spec c fs names :
  store_ok c fs -> allow_delete c = true -> Forall image_name names ->
  exists fs', handle c (delete_request names) fs = (DeleteReply Success, fs') /\ store_ok c fs' /\
    listing (children fs' (image_dir c)) = filter (fun m => m ∉ names) (listing (children fs (image_dir c))).
Proof.
  intros Hok Ha Hn. destruct (archive_ready c fs Hok) as (fs0 & Hrun0 & Hok0 & Harch0 & Hl0).
  destruct (delete_names_loop c names fs0 Hok0 Harch0 Hn) as (fs' & Hrun & Hok' & Hl).
  exists fs'. rewrite handle_delete. unfold serve_delete, delete_images, request_of. rewrite Ha. cbn [negb].
  rewrite obj_get_filenames. cbn [default]. rewrite (bind_ok (S:=fsys) _ _ fs fs fs) by reflexivity.
  rewrite (bind_ok _ _ fs tt fs0 Hrun0). cbn [id iter_items]. rewrite (bind_ok _ _ fs0 tt fs' Hrun).
  split; [done|]. split; [done|]. by rewrite Hl, Hl0.
Qed.

Lemma listed_image_name c fs n : store_ok c fs -> n ∈ listing (children fs (image_dir c)) -> image_name n.
Proof.
  intros Hok Hn. destruct (listing_children _ _ _ Hn) as [[v Hv] Himg].
  split; [eapply entry_plain; [apply Hok | eauto] | done].
Qed.

(** A POST to [/delete] naming images of the listing. *)
Lemma delete_listed_spec c fs names :
  store_ok c fs -> allow_delete c = true -> Forall (fun n => n ∈ listing (children fs (image_dir c))) names ->
  exists fs', handle c (delete_request names) fs = (DeleteReply Success, fs') /\ store_ok c fs' /\
    listing (children fs' (image_dir c)) = filter (fun m => m ∉ names) (listing (children fs (image_dir c))).
Proof.
  intros Hok Ha Hl. apply delete_names_spec; [done | done |].
  eapply Forall_impl; [exact Hl|]. intros n. by apply listed_image_name.
Qed.

(** C6. The page and the server together: each deletion request the
    gallery page posts (from any state the page can reach), sent to the
    server on the store the page was made from, succeeds, keeps the
    store as the gallery expects it, and the next listing is the one the
    page came from without exactly the requested images (for names
    without quote, backslash or line break). *)
Theorem page_requests_hide_images c fs q pg u names :
  store_ok c fs -> allow_delete c = true -> get_index c q fs = Ok pg ->
  Forall (Forall (fun ch => GalleryPage.js_plain ch = true)) (pg_images pg) ->
  GalleryPage.reachable (GalleryPage.render pg) (pg_images pg) u -> names ∈ GalleryPage.ui_sent u ->
  exists fs', handle c (delete_request names) fs = (DeleteReply Success, fs') /\ store_ok c fs' /\
    listing (children fs' (image_dir c)) = filter (fun m => m ∉ names) (listing (children fs (image_dir c))).
Proof.
  intros Hok Ha Hi Hjs Hr Hn.
  rewrite get_index_children in Hi by apply Hok.
  pose proof (index_images _ _ _ _ Hi) as Hsub.
  pose proof (GalleryPage.sent_requests_sublist pg u Hr Hjs) as Hsent. rewrite Forall_forall in Hsent.
  destruct (Hsent names Hn) as [_ Hnames].
  apply delete_listed_spec; [done | done |].
  apply Forall_forall. intros m Hm. eapply elem_of_sublist; [exact Hm | by etrans].
Qed.

(** C20. A name that is not UTF-8 takes the gallery down: when a page
    would show an image whose name holds a lone surrogate (the way
    [os.listdir] decodes a byte that is not UTF-8), encoding the
    rendered page fails and [GET /] answers 500. *)
Theorem undecodable_name_500 c fs q pg name ch :
  get_index c q fs = Ok pg -> name ∈ pg_images pg -> ch ∈ name -> ~ Nvtop.scalar ch ->
  handle c (get_request (ps "/") q) fs = (Error500 UnicodeEncodeError, fs).
Proof.
  intros Hi Hname Hch Hns. rewrite handle_index, Hi.
  replace (encodable (GalleryPage.render pg)) with false; [done|]. symmetry.
  apply not_true_is_false. unfold encodable. rewrite forallb_forall. intros Hall.
  apply list_elem_of_lookup_1 in Hname as [i Hi'].
  assert (Hv : Html.escape name ∈ view_texts (GalleryPage.render pg)).
  { unfold view_texts. do 5 apply list_elem_of_further. apply list_elem_of_In, in_concat.
    setoid_rewrite <- list_elem_of_In. exists [GalleryPage.card_value (GalleryPage.render_card (pg_allow_delete pg) i name);
            GalleryPage.card_src (GalleryPage.render_card (pg_allow_delete pg) i name);
            GalleryPage.card_caption (GalleryPage.render_card (pg_allow_delete pg) i name);
            GalleryPage.card_trash_onclick (GalleryPage.render_card (pg_allow_delete pg) i name)].
    split; [|apply list_elem_of_here]. refine (list_elem_of_fmap_2 _ _ _ _). eapply list_elem_of_lookup_2.
    rewrite GalleryPage.lookup_cards, Hi'. reflexivity. }
  specialize (Hall _ (proj1 (list_elem_of_In _ _) Hv)). rewrite forallb_forall in Hall.
  assert (Hsp : ch ∉ [38; 62; 60; 39; 34]%N) by (intros Hsp; apply Hns; unfold Nvtop.scalar; set_unfold in Hsp; lia).
  specialize (Hall ch (proj1 (list_elem_of_In _ _) (Html.escape_keeps ch name Hch Hsp))). by apply bool_decide_eq_true in Hall.
Qed.

(** ** Witnesses *)

(** The store of [Archive]'s examples with a directory named like an
    image next to the files. *)
Definition dir_fs : fsys := <[[ps "srv"; ps "img"; ps "c.webp"] := NDir]> demo_fs.

Definition dir_page : page := {|
  pg_images := [ps "c.webp"; ps "b.jpg"; ps "a.png"]; pg_path := ps "/srv/img"; pg_allow_delete := true;
  pg_page := 1; pg_limit := 25; pg_total := 3; pg_total_pages := 1 |}.

(** The directory [c.webp] is on the page, and its image is a 404. *)
Lemma listed_images_served_witness :
  (wf dir_fs /\ names_plain dir_fs /\ dir_fs !! image_dir demo_cfg = Some NDir /\
   get_index demo_cfg [] dir_fs = Ok dir_page /\ ps "c.webp" ∈ pg_images dir_page) /\
  (is_Some (dir_fs !! (image_dir demo_cfg ++ [ps "c.webp"])) /\
   handle demo_cfg (get_request (ps "/images/" ++ ps "c.webp") []) dir_fs =
     (FileReply (match dir_fs !! (image_dir demo_cfg ++ [ps "c.webp"]) with
                 | Some (NFile x) => Sent x | _ => NotFound end), dir_fs)).
Proof.
  assert (H1 : wf dir_fs) by (apply wf_check_sound; vm_compute; reflexivity).
  assert (H2 : names_plain dir_fs) by (apply (bool_decide_unpack _); vm_compute; exact I).
  assert (H3 : dir_fs !! image_dir demo_cfg = Some NDir) by (vm_compute; reflexivity).
  assert (H4 : get_index demo_cfg [] dir_fs = Ok dir_page) by (vm_compute; reflexivity).
  assert (H5 : ps "c.webp" ∈ pg_images dir_page) by (apply (bool_decide_unpack _); vm_compute; exact I).
  split; [split; [exact H1 | split; [exact H2 | split; [exact H3 | split; [exact H4 | exact H5]]]]|].
  exact (listed_images_served demo_cfg dir_fs [] dir_page (ps "c.webp") H1 H2 H3 H4 H5).
Defined.

(** A file whose name has the byte 0xFF, which [os.listdir] decodes to
    the lone surrogate U+DCFF. *)
Definition bad_name : pystr := 56575%N :: ps ".png".

Definition bad_fs : fsys := <[[ps "srv"; ps "img"; bad_name] := NFile 3]> demo_fs.

Definition bad_page : page := {|
  pg_images := [bad_name; ps "b.jpg"; ps "a.png"]; pg_path := ps "/srv/img"; pg_allow_delete := true;
  pg_page := 1; pg_limit := 25; pg_total := 3; pg_total_pages := 1 |}.

(** With that file in the directory, the index page is a 500. *)
Lemma undecodable_name_500_witness :
  (get_index demo_cfg [] bad_fs = Ok bad_page /\ bad_name ∈ pg_images bad_page /\
   56575%N ∈ bad_name /\ ~ Nvtop.scalar 56575%N) /\
  handle demo_cfg (get_request (ps "/") []) bad_fs = (Error500 UnicodeEncodeError, bad_fs).
Proof.
  assert (H1 : get_index demo_cfg [] bad_fs = Ok bad_page) by (vm_compute; reflexivity).
  assert (H2 : bad_name ∈ pg_images bad_page) by (apply (bool_decide_unpack _); vm_compute; exact I).
  assert (H3 : 56575%N ∈ bad_name) by (apply (bool_decide_unpack _); vm_compute; exact I).
  assert (H4 : ~ Nvtop.scalar 56575%N) by (unfold Nvtop.scalar; lia).
  split; [split; [exact H1 | split; [exact H2 | split; [exact H3 | exact H4]]]|].
  exact (undecodable_name_500 demo_cfg bad_fs [] bad_page bad_name 56575%N H1 H2 H3 H4).
Defined.

(** The request the demo page of [GalleryPage] posted for [a.png]
    (its batch button) hides [a.png] from the next listing. *)
Lemma page_requests_hide_images_witness :
  (store_ok demo_cfg demo_fs /\ allow_delete demo_cfg = true /\
   get_index demo_cfg [] demo_fs = Ok GalleryPage.demo_page /\
   Forall (Forall (fun ch => GalleryPage.js_plain ch = true)) (pg_images GalleryPage.demo_page) /\
   GalleryPage.reachable (GalleryPage.render GalleryPage.demo_page) (pg_images GalleryPage.demo_page) GalleryPage.demo_ui /\
   [ps "a.png"] ∈ GalleryPage.ui_sent GalleryPage.demo_ui) /\
  exists fs', handle demo_cfg (delete_request [ps "a.png"]) demo_fs = (DeleteReply Success, fs') /\
    store_ok demo_cfg fs' /\
    listing (children fs' (image_dir demo_cfg)) =
      filter (fun m => m ∉ [ps "a.png"]) (listing (children demo_fs (image_dir demo_cfg))).
Proof.
  assert (H1 : store_ok demo_cfg demo_fs) by (apply store_check_sound; vm_compute; reflexivity).
  assert (H3 : get_index demo_cfg [] demo_fs = Ok GalleryPage.demo_page) by (vm_compute; reflexivity).
  assert (H4 : Forall (Forall (fun ch => GalleryPage.js_plain ch = true)) (pg_images GalleryPage.demo_page))
    by (apply (bool_decide_unpack _); vm_compute; exact I).
  assert (H6 : [ps "a.png"] ∈ GalleryPage.ui_sent GalleryPage.demo_ui) by (apply (bool_decide_unpack _); vm_compute; exact I).
  split; [split; [exact H1 | split; [reflexivity | split; [exact H3 | split; [exact H4 | split; [exact GalleryPage.demo_reachable | exact H6]]]]]|].
  exact (page_requests_hide_images demo_cfg demo_fs [] GalleryPage.demo_page GalleryPage.demo_ui [ps "a.png"]
           H1 eq_refl H3 H4 GalleryPage.demo_reachable H6).
Defined.

End App.
