(* ===== verification/Race.v ===== *)
(** * Concurrent deletions: [delete_images] on the threads of the server

    [app.run] (line 213) starts werkzeug's development server, which
    since Flask 1.0 serves each request on a thread of its own
    ([threaded=True] is Flask's default).  [delete_images] is not atomic:
    the store operations of two requests interleave.  Here the handler is
    cut at its store operations, [os.path.exists(archive_path)],
    [os.makedirs(archive_path)], and per name [os.path.exists(src)] and
    [shutil.move(src, dest)]; a [thread] is the position in that
    sequence, [tstep] performs one operation, and a schedule (a list of
    thread choices) interleaves two threads.  [os.makedirs] and
    [shutil.move] count as one operation each, so the interleavings
    considered are among the real ones: the race shown is real, and the
    serializability theorem holds at this granularity.

    Run alone, a thread computes exactly [serve_delete]
    ([thread_alone_refines]); the pieces are those of [Archive]. *)

From Stdlib Require Import String.
From S2P Require Import Prelude Archive.
From stdpp Require Import gmap.

Module Race.

Import Archive.

(** ** Threads *)

(** Where a thread of [delete_images] stands. *)
Inductive thread :=
  | TCheck (items : res (list json))              (* before os.path.exists(archive_path) *)
  | TMake (items : res (list json))               (* before os.makedirs(archive_path) *)
  | TLoop (items : list json)                     (* at the head of the for loop *)
  | TMove (filename : pystr) (rest : list json)   (* os.path.exists(src) held: before shutil.move *)
  | TDone (r : response).

(** Lines 183-187: the flag, the body and [data.get('filenames', [])]
    touch no file; the iteration of [filenames] ([iter_items]) fails
    only when the loop starts, after the archive is made. *)
Definition start (c : config) (body : option json) : thread :=
  if negb (allow_delete c) then TDone Forbidden
  else match body with
       | None => TDone BadBody
       | Some (JObj kvs) => TCheck (iter_items (default (JArr []) (obj_get (ps "filenames") kvs)))
       | Some _ => TDone (ServerError AttributeError)
       end.

Definition after_items (it : res (list json)) : thread :=
  match it with
  | Ok xs => TLoop xs
  | Raise e => TDone (ServerError e)
  end.

(** [src] and [dest] of lines 194 and 197. *)
Definition src_of (c : config) (f : pystr) : pystr := path_join (render (image_dir c)) f.
Definition dest_of (c : config) (f : pystr) : pystr := path_join (archive_path c) (bak f).

(** One store operation of a thread. *)
Definition tstep (c : config) (t : thread) (fs : fsys) : thread * fsys :=
  match t with
  | TCheck it => (if exists_path fs (archive_path c) then after_items it else TMake it, fs)
  | TMake it =>
      match makedirs_go [] (image_dir c ++ [ps ".archive"]) fs with
      | (Ok _, fs') => (after_items it, fs')
      | (Raise e, fs') => (TDone (ServerError e), fs')
      end
  | TLoop [] => (TDone Success, fs)
  | TLoop (JStr f :: rest) => (if exists_path fs (src_of c f) then TMove f rest else TLoop rest, fs)
  | TLoop (_ :: _) => (TDone (ServerError TypeError), fs)
  | TMove f rest =>
      match shutil_move (src_of c f) (dest_of c f) fs with
      | (Ok _, fs') => (TLoop rest, fs')
      | (Raise e, fs') => (TDone (ServerError e), fs')
      end
  | TDone r => (TDone r, fs)
  end.

(** A thread on its own, for at most [fuel] operations. *)
Fixpoint run_thread (fuel : nat) (c : config) (t : thread) (fs : fsys) : thread * fsys :=
  match fuel with
  | O => (t, fs)
  | S f => match t with
           | TDone _ => (t, fs)
           | _ => let '(t', fs') := tstep c t fs in run_thread f c t' fs'
           end
  end.

(** Two threads under a schedule: [false] runs the first, [true] the
    second. *)
Fixpoint run_sched (c : config) (s : list bool) (t1 t2 : thread) (fs : fsys) : thread * thread * fsys :=
  match s with
  | [] => (t1, t2, fs)
  | false :: s' => let '(t1', fs') := tstep c t1 fs in run_sched c s' t1' t2 fs'
  | true :: s' => let '(t2', fs') := tstep c t2 fs in run_sched c s' t1 t2' fs'
  end.

(** The operations a request needs: two for the archive, two per name. *)
Definition thread_fuel (body : option json) : nat :=
  match body with
  | Some (JObj kvs) =>
      match iter_items (default (JArr []) (obj_get (ps "filenames") kvs)) with
      | Ok xs => 2 * length xs + 3
      | Raise _ => 3
      end
  | _ => 1
  end.

(** ** A thread alone is the handler *)

Lemma run_done fuel c r fs : run_thread fuel c (TDone r) fs = (TDone r, fs).
Proof. by destruct fuel. Qed.

(** The outcome of [delete_images] as the thread's final state. *)
Definition as_thread (o : res response * fsys) : thread * fsys :=
  match o with
  | (Ok r, fs') => (TDone r, fs')
  | (Raise e, fs') => (TDone (ServerError e), fs')
  end.

Lemma delete_one_str c f fs :
  delete_one c (JStr f) fs =
  if exists_path fs (src_of c f) then shutil_move (src_of c f) (dest_of c f) fs else (Ok tt, fs).
Proof.
  unfold delete_one, src_of, dest_of. cbv zeta. rewrite (bind_ok (S:=fsys) _ _ fs fs fs) by reflexivity.
  by destruct (exists_path fs (path_join (render (image_dir c)) f)).
Qed.

Lemma run_step fuel c t fs :
  (forall r, t <> TDone r) -> run_thread (S fuel) c t fs = let '(t', fs') := tstep c t fs in run_thread fuel c t' fs'.
Proof. intros Ht. destruct t; [done.. | by destruct (Ht r)]. Qed.

Lemma run_loop c xs : forall fs k,
  run_thread (2 * length xs + 1 + k) c (TLoop xs) fs = as_thread ((for_each xs (delete_one c) ;; mret Success) fs).
Proof.
  induction xs as [|x xs IH]; intros fs k; [cbn; by rewrite run_done|].
  replace (2 * length (x :: xs) + 1 + k) with (S (S (2 * length xs + 1 + k))) by (cbn; lia).
  rewrite run_step by done. cbn [for_each tstep].
  destruct x as [| | |f| |]; try (rewrite run_done; reflexivity).
  rewrite !(bind_run (S:=fsys)), delete_one_str.
  destruct (exists_path fs (src_of c f)).
  - rewrite run_step by done. cbn [tstep].
    destruct (shutil_move (src_of c f) (dest_of c f) fs) as [[]] eqn:E; [| by rewrite run_done].
    rewrite IH. by rewrite (bind_run (S:=fsys)).
  - replace (S (2 * length xs + 1 + k)) with (2 * length xs + 1 + S k) by lia. rewrite IH.
    by rewrite (bind_run (S:=fsys)).
Qed.

Lemma run_after_items c it fs k :
  run_thread (match it with Ok xs => 2 * length xs + 1 | Raise _ => 1 end + k) c (after_items it) fs =
  as_thread ((match it with Ok xs => for_each xs (delete_one c) ;; mret Success | Raise e => raise e end) fs).
Proof. destruct it as [xs|e]; [apply run_loop | exact (run_done _ c (ServerError e) fs)]. Qed.

(** Run on its own, the thread of a request is the handler: within
    [thread_fuel] store operations (and with any more) it ends with the
    answer and the store of [serve_delete]. *)
Theorem thread_alone_refines c body fs k :
  run_thread (thread_fuel body + k) c (start c body) fs = (TDone (serve_delete c body fs).1, (serve_delete c body fs).2).
Proof.
  transitivity (as_thread (delete_images c body fs));
    [|unfold serve_delete; by destruct (delete_images c body fs) as [[]]].
  unfold start, delete_images, thread_fuel. destruct (allow_delete c); cbn [negb]; cbv iota; [|by rewrite run_done].
  destruct body as [[| | | | |kvs]|]; try (by rewrite run_done).
  set (it := iter_items _). rewrite (bind_ok (S:=fsys) _ _ fs fs fs) by reflexivity.
  assert (Hf : forall j, match it with Ok xs => 2 * length xs + 3 | Raise _ => 3 end + j =
                         S (S (match it with Ok xs => 2 * length xs + 1 | Raise _ => 1 end + j))).
  { intros j. destruct it; lia. }
  rewrite Hf, run_step by done. cbn [tstep]. destruct (exists_path fs (archive_path c)).
  - rewrite (bind_ok (S:=fsys) _ _ fs tt fs) by reflexivity.
    replace (S _) with (match it with Ok xs => 2 * length xs + 1 | Raise _ => 1 end + S k) by (destruct it; lia).
    apply run_after_items.
  - rewrite run_step by done. cbn [tstep].
    destruct (makedirs_go [] (image_dir c ++ [ps ".archive"]) fs) as [[u|e] fs'] eqn:E.
    + rewrite (bind_ok (S:=fsys) _ _ fs u fs' E). apply run_after_items.
    + rewrite (bind_err (S:=fsys) _ _ fs e fs' E). by rewrite run_done.
Qed.

(** ** The race on the archive *)

Lemma start_request c names : allow_delete c = true -> start c (request_of names) = TCheck (Ok (JStr <$> names)).
Proof. intros Ha. unfold start, request_of. rewrite Ha. cbn [negb]. by rewrite obj_get_filenames. Qed.

Lemma archive_exists c fs :
  wf fs -> Forall (fun c => plain c = true) (image_dir c) ->
  exists_path fs (archive_path c) = bool_decide (is_Some (fs !! archive_dir c)).
Proof.
  intros Hwf Hd. unfold exists_path. rewrite archive_path_render by done.
  rewrite resolve_render; [| done | apply Forall_app; auto using plain_archive].
  by destruct (fs !! archive_dir c).
Qed.

(** [os.makedirs] of an archive that exists raises [FileExistsError]. *)
Lemma makedirs_archive_exists c fs :
  wf fs -> fs !! image_dir c = Some NDir -> fs !! archive_dir c = Some NDir ->
  makedirs_go [] (image_dir c ++ [ps ".archive"]) fs = (Raise OSError, fs).
Proof. intros Hwf Hd Ha. rewrite makedirs_go_app by done. cbn [makedirs_go app]. unfold archive_dir in Ha. by rewrite Ha. Qed.

(** C19. The first deletions race on [.archive]: on a store without it,
    when two requests both find [.archive] missing before either has
    made it, the second [os.makedirs] raises [FileExistsError]; that
    request is answered with 500 and moves none of its files, while the
    first one goes on to its loop. *)
Theorem archive_creation_race c fs n1 n2 :
  wf fs -> allow_delete c = true -> Forall (fun c => plain c = true) (image_dir c) ->
  fs !! image_dir c = Some NDir -> fs !! archive_dir c = None ->
  run_sched c [false; true; false; true] (start c (request_of n1)) (start c (request_of n2)) fs =
  (TLoop (JStr <$> n1), TDone (ServerError OSError), <[archive_dir c := NDir]> fs).
Proof.
  intros Hwf Ha Hd Hdir Harch. rewrite !start_request by done.
  cbn [run_sched tstep]. rewrite archive_exists, Harch by done.
  rewrite bool_decide_false by (intros [? ?]; discriminate). cbn [run_sched tstep].
  rewrite (makedirs_new fs (image_dir c) (ps ".archive")) by done. cbn [run_sched tstep after_items].
  rewrite makedirs_archive_exists; [done | by apply wf_insert_dir | | apply lookup_insert_eq].
  rewrite lookup_insert_ne; [done | unfold archive_dir; apply not_eq_sym, neq_snoc; done].
Qed.

(** ** Interleavings on a store that has the archive *)

Section Interleaving.

(** Two requests of distinct plain names of files of [IMAGE_DIR], on a
    store [fs0] in which [.archive] exists. *)
Variables (c : config) (fs0 : fsys) (n1 n2 : list pystr).
Hypotheses (Hwf0 : wf fs0) (Hd : Forall (fun c => plain c = true) (image_dir c))
  (Hdir0 : fs0 !! image_dir c = Some NDir) (Harch0 : fs0 !! archive_dir c = Some NDir)
  (Hnd : NoDup (n1 ++ n2)) (Hdel : Forall (deletable c fs0) (n1 ++ n2)).

(** A name moved: gone from the image directory, its file in the archive. *)
Definition moved (fs : fsys) (n : pystr) : Prop :=
  fs !! (image_dir c ++ [n]) = None /\ fs !! (archive_dir c ++ [bak n]) = fs0 !! (image_dir c ++ [n]).

Definition unmoved (fs : fsys) (n : pystr) : Prop :=
  fs !! (image_dir c ++ [n]) = fs0 !! (image_dir c ++ [n]) /\
  fs !! (archive_dir c ++ [bak n]) = fs0 !! (archive_dir c ++ [bak n]).

(** Where the thread of the request for [ns] stands: the names [p] are
    moved, the names [r] are not yet. *)
Definition at_names (t : thread) (ns : list pystr) (fs : fsys) : Prop :=
  exists p r, ns = p ++ r /\ Forall (moved fs) p /\ Forall (unmoved fs) r /\
    ((t = TCheck (Ok (JStr <$> r)) /\ p = []) \/ t = TLoop (JStr <$> r) \/
     (exists f r', r = f :: r' /\ t = TMove f (JStr <$> r')) \/ (t = TDone Success /\ r = [])).

(** Everything the two requests do not name is as it was. *)
Definition untouched (fs : fsys) : Prop :=
  forall k, k <> archive_dir c ->
    (forall n, n ∈ n1 ++ n2 -> k <> image_dir c ++ [n] /\ k <> archive_dir c ++ [bak n]) -> fs !! k = fs0 !! k.

Definition inv (t1 t2 : thread) (fs : fsys) : Prop :=
  wf fs /\ fs !! archive_dir c = Some NDir /\ at_names t1 n1 fs /\ at_names t2 n2 fs /\ untouched fs.

(** The store operations a thread still has to perform. *)
Definition measure (t : thread) : nat :=
  match t with
  | TCheck (Ok xs) => 2 * length xs + 2
  | TLoop xs => 2 * length xs + 1
  | TMove _ xs => 2 * length xs + 2
  | _ => 0
  end.

(** [fs'] agrees with [fs] on the two entries of the name [n]. *)
Definition agree_at (fs fs' : fsys) (n : pystr) : Prop :=
  fs' !! (image_dir c ++ [n]) = fs !! (image_dir c ++ [n]) /\
  fs' !! (archive_dir c ++ [bak n]) = fs !! (archive_dir c ++ [bak n]).

Lemma moved_agree fs fs' n : agree_at fs fs' n -> moved fs n -> moved fs' n.
Proof. intros [E1 E2] [H1 H2]. split; congruence. Qed.

Lemma unmoved_agree fs fs' n : agree_at fs fs' n -> unmoved fs n -> unmoved fs' n.
Proof. intros [E1 E2] [H1 H2]. split; congruence. Qed.

Lemma at_names_frame t ns fs fs' :
  (forall n, n ∈ ns -> agree_at fs fs' n) -> at_names t ns fs -> at_names t ns fs'.
Proof.
  intros Hag (p & r & -> & Hp & Hr & Ht). exists p, r. rewrite Forall_forall in Hp, Hr.
  split; [done|]. split; [|split; [|done]]; apply Forall_forall; intros n Hn.
  - apply (moved_agree fs); [apply Hag; set_solver | auto].
  - apply (unmoved_agree fs); [apply Hag; set_solver | auto].
Qed.

(** Moving [f] leaves the entries of every other name as they are. *)
Lemma move_agree fs f x n :
  n <> f -> agree_at fs (<[archive_dir c ++ [bak f] := NFile x]> (delete (image_dir c ++ [f]) fs)) n.
Proof.
  intros Hnf. split; rewrite lookup_move_other; try done.
  - apply img_neq_arch.
  - by apply snoc_neq_last.
  - apply snoc_neq_last. by intros ?%bak_inj.
  - apply not_eq_sym, img_neq_arch.
Qed.

Lemma move_file f x fs :
  wf fs -> plain f = true -> f <> ps ".archive" -> fs !! archive_dir c = Some NDir ->
  fs !! (image_dir c ++ [f]) = Some (NFile x) -> fs !! (archive_dir c ++ [bak f]) <> Some NDir ->
  exists_path fs (src_of c f) = true /\
  shutil_move (src_of c f) (dest_of c f) fs = (Ok tt, <[archive_dir c ++ [bak f] := NFile x]> (delete (image_dir c ++ [f]) fs)).
Proof.
  intros Hwf Hf Hfa Ha Hx Hb.
  assert (Hex : exists_path fs (src_of c f) = true).
  { unfold exists_path, src_of. rewrite render_join by done.
    rewrite resolve_render; [by rewrite Hx, bool_decide_true | done | apply Forall_app; auto]. }
  split; [done|]. pose proof (delete_one_move c f x fs Hwf Hd Hf Hfa Ha Hx Hb) as Hm.
  by rewrite delete_one_str, Hex in Hm.
Qed.

(** One operation of the thread of [ns] keeps it on its path, costs one
    unit of [measure], and changes only the entries of its own names. *)
Lemma tstep_at t ns fs t' fs' :
  Forall (deletable c fs0) ns -> NoDup ns ->
  wf fs -> fs !! archive_dir c = Some NDir -> at_names t ns fs -> tstep c t fs = (t', fs') ->
  wf fs' /\ fs' !! archive_dir c = Some NDir /\ at_names t' ns fs' /\ measure t' = pred (measure t) /\
  (forall n, n ∉ ns -> agree_at fs fs' n) /\
  (forall k, (forall n, n ∈ ns -> k <> image_dir c ++ [n] /\ k <> archive_dir c ++ [bak n]) -> fs' !! k = fs !! k).
Proof.
  intros Hdl Hndp Hwf Ha (p & r & -> & Hp & Hr & Ht) Hstep.
  destruct Ht as [[-> ->] | [-> | [(f & r' & -> & ->) | [-> ->]]]].
  - cbn [tstep] in Hstep. rewrite archive_exists, Ha, bool_decide_true in Hstep by done.
    injection Hstep as <- <-. split_and!; try done.
    + exists [], r. split_and!; try done. by right; left.
    + cbn. lia.
  - destruct r as [|f r']; cbn [fmap list_fmap tstep] in Hstep.
    + injection Hstep as <- <-. split_and!; try done. exists p, []. split_and!; try done. by right; right; right.
    + apply Forall_app in Hdl as [_ Hdl]. inversion Hdl as [|? ? (Hpl & Hna & [x Hx] & Hb) _]; subst.
      inversion Hr as [|? ? [Hu1 Hu2] _]; subst.
      destruct (move_file f x fs Hwf Hpl Hna Ha) as [Hex _]; [by rewrite Hu1 | by rewrite Hu2|].
      rewrite Hex in Hstep. injection Hstep as <- <-. split_and!; try done.
      * exists p, (f :: r'). split_and!; try done. right; right; left. by exists f, r'.
      * cbn. rewrite !length_fmap. lia.
  - apply Forall_app in Hdl as [_ Hdl]. inversion Hdl as [|? ? (Hpl & Hna & [x Hx] & Hb) _]; subst.
    inversion Hr as [|? ? [Hu1 Hu2] Hr']; subst.
    apply NoDup_app in Hndp as (_ & Hdisj & Hnd'). apply NoDup_cons in Hnd' as [Hfr' _].
    assert (Hfp : f ∉ p) by (intros Hin; by apply (Hdisj f Hin), list_elem_of_here).
    destruct (move_file f x fs Hwf Hpl Hna Ha) as [_ Hmv]; [by rewrite Hu1 | by rewrite Hu2|].
    cbn [tstep] in Hstep. rewrite Hmv in Hstep. injection Hstep as <- <-.
    split_and!.
    + apply wf_move_file; [done | by rewrite Hu1 | done | by rewrite Hu2].
    + rewrite lookup_move_other; [done | by apply neq_snoc | unfold archive_dir; apply snoc_neq_last; by apply not_eq_sym].
    + exists (p ++ [f]), r'. split; [by rewrite <- app_assoc|]. split; [|split; [|by right; left]].
      * apply Forall_app. split.
        -- apply Forall_forall. intros n Hn. rewrite Forall_forall in Hp.
           apply (moved_agree fs); [apply move_agree; by intros -> | auto].
        -- constructor; [|done]. split; [rewrite lookup_insert_ne by apply not_eq_sym, img_neq_arch; apply lookup_delete_eq|].
           rewrite lookup_insert_eq. by rewrite Hx.
      * apply Forall_forall. intros n Hn. rewrite Forall_forall in Hr'.
        apply (unmoved_agree fs); [apply move_agree; by intros -> | auto].
    + cbn. lia.
    + intros n Hn. apply move_agree. intros ->. apply Hn. set_solver.
    + intros k Hk. destruct (Hk f ltac:(set_solver)) as [H1 H2]. by apply lookup_move_other.
  - cbn [tstep] in Hstep. injection Hstep as <- <-. split_and!; try done. exists p, []. split_and!; try done.
    by right; right; right.
Qed.

Lemma untouched_frame fs fs' (ns : list pystr) :
  untouched fs -> (forall n, n ∈ ns -> n ∈ n1 ++ n2) ->
  (forall k, (forall n, n ∈ ns -> k <> image_dir c ++ [n] /\ k <> archive_dir c ++ [bak n]) -> fs' !! k = fs !! k) ->
  untouched fs'.
Proof. intros Hu Hns Hk k Hka Hkn. rewrite Hk by auto. by apply Hu. Qed.

Lemma inv_step1 t1 t2 fs t1' fs' :
  inv t1 t2 fs -> tstep c t1 fs = (t1', fs') -> inv t1' t2 fs' /\ measure t1' = pred (measure t1).
Proof.
  intros (Hwf & Ha & H1 & H2 & Hu) Hs. pose proof (proj1 (Forall_app _ _ _) Hdel) as [Hd1 _].
  pose proof (proj1 (NoDup_app _ _) Hnd) as (Hnd1 & Hdisj & _).
  destruct (tstep_at t1 n1 fs t1' fs' Hd1 Hnd1 Hwf Ha H1 Hs) as (Hwf' & Ha' & H1' & Hm & Hag & Hk).
  split; [|done]. split_and!; try done.
  - apply (at_names_frame _ _ fs); [|done]. intros n Hn. apply Hag. intros Hn1. by apply (Hdisj n).
  - apply (untouched_frame fs _ n1); [done | set_solver | done].
Qed.

Lemma inv_step2 t1 t2 fs t2' fs' :
  inv t1 t2 fs -> tstep c t2 fs = (t2', fs') -> inv t1 t2' fs' /\ measure t2' = pred (measure t2).
Proof.
  intros (Hwf & Ha & H1 & H2 & Hu) Hs. pose proof (proj1 (Forall_app _ _ _) Hdel) as [_ Hd2].
  pose proof (proj1 (NoDup_app _ _) Hnd) as (_ & Hdisj & Hnd2).
  destruct (tstep_at t2 n2 fs t2' fs' Hd2 Hnd2 Hwf Ha H2 Hs) as (Hwf' & Ha' & H2' & Hm & Hag & Hk).
  split; [|done]. split_and!; try done.
  - apply (at_names_frame _ _ fs); [|done]. intros n Hn. apply Hag. intros Hn2. by apply (Hdisj n).
  - apply (untouched_frame fs _ n2); [done | set_solver | done].
Qed.

(** The number of operations a schedule gives to one thread. *)
Definition count_of (b : bool) (s : list bool) : nat := length (filter (fun x => x = b) s).

(** Along any schedule the invariant holds, and each thread's
    [measure] drops by the number of operations it was given. *)
Lemma run_sched_inv s : forall t1 t2 fs, inv t1 t2 fs ->
  let '(t1', t2', fs') := run_sched c s t1 t2 fs in
  inv t1' t2' fs' /\ measure t1' = measure t1 - count_of false s /\ measure t2' = measure t2 - count_of true s.
Proof.
  induction s as [|b s IH]; intros t1 t2 fs Hinv; cbn [run_sched]; [unfold count_of; cbn; split_and!; [done | lia | lia]|].
  destruct b.
  - destruct (tstep c t2 fs) as [t2' fs'] eqn:E. destruct (inv_step2 _ _ _ _ _ Hinv E) as [Hinv' Hm].
    specialize (IH _ _ _ Hinv'). destruct (run_sched c s t1 t2' fs') as [[u1 u2] g]. unfold count_of in *.
    rewrite !filter_cons. rewrite (decide_False (P := true = false)), (decide_True (P := true = true)) by done.
    cbn [length]. destruct IH as (? & ? & ?). split_and!; [done | lia | lia].
  - destruct (tstep c t1 fs) as [t1' fs'] eqn:E. destruct (inv_step1 _ _ _ _ _ Hinv E) as [Hinv' Hm].
    specialize (IH _ _ _ Hinv'). destruct (run_sched c s t1' t2 fs') as [[u1 u2] g]. unfold count_of in *.
    rewrite !filter_cons. rewrite (decide_True (P := false = false)), (decide_False (P := false = true)) by done.
    cbn [length]. destruct IH as (? & ? & ?). split_and!; [done | lia | lia].
Qed.

Lemma at_names_done t ns fs : at_names t ns fs -> measure t = 0 -> t = TDone Success /\ Forall (moved fs) ns.
Proof.
  intros (p & r & -> & Hp & Hr & Ht) Hm.
  destruct Ht as [[-> ->] | [-> | [(f & r' & -> & ->) | [-> ->]]]]; cbn in Hm; try lia.
  split; [done|]. by rewrite app_nil_r.
Qed.

(** The stores in which both requests are done. *)
Definition archived (fs : fsys) : Prop :=
  fs !! archive_dir c = Some NDir /\ Forall (moved fs) (n1 ++ n2) /\ untouched fs.

Lemma archived_unique fsA fsB : archived fsA -> archived fsB -> fsA = fsB.
Proof.
  intros (HaA & HmA & HuA) (HaB & HmB & HuB). apply map_eq. intros k. rewrite Forall_forall in HmA, HmB.
  destruct (decide (k = archive_dir c)) as [->|Hka]; [by rewrite HaA, HaB|].
  destruct (decide (Exists (fun n => k = image_dir c ++ [n] \/ k = archive_dir c ++ [bak n]) (n1 ++ n2))) as [Hex|Hnex].
  - apply Exists_exists in Hex as (n & Hn & [->| ->]); destruct (HmA n Hn), (HmB n Hn); congruence.
  - rewrite HuA, HuB by (done || by apply not_named). done.
Qed.

Lemma inv_init : inv (TCheck (Ok (JStr <$> n1))) (TCheck (Ok (JStr <$> n2))) fs0.
Proof.
  split_and!; try done.
  - exists [], n1. split; [done|]. split; [constructor|]. split; [|by left].
    apply Forall_forall. intros n _. by split.
  - exists [], n2. split; [done|]. split; [constructor|]. split; [|by left].
    apply Forall_forall. intros n _. by split.
Qed.

(** The serial execution, [n1]'s request and then [n2]'s, answers
    [Success] twice and ends in an [archived] store. *)
Lemma serial_archived :
  allow_delete c = true ->
  (serve_delete c (request_of n1) fs0).1 = Success /\
  (serve_delete c (request_of n2) (serve_delete c (request_of n1) fs0).2).1 = Success /\
  archived (serve_delete c (request_of n2) (serve_delete c (request_of n1) fs0).2).2.
Proof.
  intros Ha. pose proof (proj1 (Forall_app _ _ _) Hdel) as [Hd1 Hd2].
  pose proof (proj1 (NoDup_app _ _) Hnd) as (Hnd1 & Hdisj & Hnd2). rewrite Forall_forall in Hd1, Hd2.
  destruct (delete_request_spec c fs0 n1) as (fs1 & Hrun1 & Hwf1 & Ha1 & Hmv1 & Hk1);
    [done | done | done | done | by right | done | by apply Forall_forall |].
  assert (Hna : forall n, n ∈ n1 ++ n2 -> n <> ps ".archive").
  { intros n [Hn|Hn]%elem_of_app; [by destruct (Hd1 n Hn) as (_ & ? & _) | by destruct (Hd2 n Hn) as (_ & ? & _)]. }
  assert (Hd2' : Forall (deletable c fs1) n2).
  { apply Forall_forall. intros m Hm. destruct (Hd2 m Hm) as (Hpl & Hma & [x Hx] & Hb).
    assert (Hm1 : m ∉ n1) by (intros Hin; by apply (Hdisj m)).
    split; [done|]. split; [done|].
    rewrite (kept_entry c fs0 fs1 n1 Hk1 m Hm1 Hma), (kept_backup c fs0 fs1 n1 Hk1 m Hm1). split; [by exists x | done]. }
  destruct (delete_request_spec c fs1 n2) as (fs2 & Hrun2 & Hwf2 & Ha2 & Hmv2 & Hk2);
    [done | done | done | by rewrite (kept_dir c fs0 fs1 n1 Hk1) | by right | done | done |].
  rewrite Hrun1. cbn [fst snd]. rewrite Hrun2. cbn [fst snd]. split; [done|]. split; [done|].
  split; [done|]. split.
  - apply Forall_app. split; apply Forall_forall; intros n Hn.
    + assert (Hn2 : n ∉ n2) by (intros Hin; by apply (Hdisj n)).
      destruct (Hmv1 n Hn) as [E1 E2]. split.
      * rewrite (kept_entry c fs1 fs2 n2 Hk2 n Hn2); [done | apply Hna; set_solver].
      * by rewrite (kept_backup c fs1 fs2 n2 Hk2 n Hn2).
    + assert (Hn1 : n ∉ n1) by (intros Hin; by apply (Hdisj n)).
      destruct (Hmv2 n Hn) as [E1 E2]. split; [done|].
      rewrite E2, (kept_entry c fs0 fs1 n1 Hk1 n Hn1); [done | apply Hna; set_solver].
  - intros k Hka Hkn. rewrite Hk2, Hk1; [done | done | | done |]; intros n Hn; apply Hkn; set_solver.
Qed.

(** C11. Concurrent deletions are serializable once the archive exists:
    for two requests of distinct images, every schedule that gives each
    thread the operations it needs ends exactly as the serial execution
    (the first request, then the second): both answers [Success] and
    the same store. *)
Theorem interleavings_serializable s :
  allow_delete c = true -> (2 * length n1 + 2 <= count_of false s)%nat -> (2 * length n2 + 2 <= count_of true s)%nat ->
  run_sched c s (start c (request_of n1)) (start c (request_of n2)) fs0 =
  (TDone (serve_delete c (request_of n1) fs0).1,
   TDone (serve_delete c (request_of n2) (serve_delete c (request_of n1) fs0).2).1,
   (serve_delete c (request_of n2) (serve_delete c (request_of n1) fs0).2).2).
Proof.
  intros Ha H1 H2. rewrite !start_request by done.
  pose proof (run_sched_inv s _ _ _ inv_init) as Hrun.
  destruct (run_sched c s _ _ fs0) as [[t1 t2] fs]. destruct Hrun as ((_ & Har & Hat1 & Hat2 & Hu) & Hm1 & Hm2).
  cbn [measure] in Hm1, Hm2. rewrite length_fmap in Hm1, Hm2.
  destruct (at_names_done t1 n1 fs Hat1) as [-> Hmv1]; [lia|].
  destruct (at_names_done t2 n2 fs Hat2) as [-> Hmv2]; [lia|].
  destruct (serial_archived Ha) as (-> & -> & Harc).
  f_equal. apply archived_unique; [|exact Harc]. split; [done|]. split; [by apply Forall_app | done].
Qed.

(** C29. No request waits for the other (liveness under a fair
    scheduler): once the archive exists, a request's thread that is
    given [2 * length names + 2] operations has answered [Success],
    whatever the other thread did meanwhile. *)
Theorem requests_finish s :
  allow_delete c = true ->
  ((2 * length n1 + 2 <= count_of false s)%nat ->
   (run_sched c s (start c (request_of n1)) (start c (request_of n2)) fs0).1.1 = TDone Success) /\
  ((2 * length n2 + 2 <= count_of true s)%nat ->
   (run_sched c s (start c (request_of n1)) (start c (request_of n2)) fs0).1.2 = TDone Success).
Proof.
  intros Ha. rewrite !start_request by done.
  pose proof (run_sched_inv s _ _ _ inv_init) as Hrun.
  destruct (run_sched c s _ _ fs0) as [[t1 t2] fs]. destruct Hrun as ((_ & _ & Hat1 & Hat2 & _) & Hm1 & Hm2).
  cbn [measure] in Hm1, Hm2. rewrite length_fmap in Hm1, Hm2. cbn [fst snd].
  split; intros H.
  - apply (at_names_done t1 n1 fs Hat1). lia.
  - apply (at_names_done t2 n2 fs Hat2). lia.
Qed.

End Interleaving.




(** ** Witnesses *)

(** The store of [Archive]'s examples before its first deletion. *)
Definition fresh_fs : fsys :=
  delete [ps "srv"; ps "img"; ps ".archive"] (delete [ps "srv"; ps "img"; ps ".archive"; ps ".b.jpg.bak"] demo_fs).

Lemma archive_creation_race_witness :
  (wf fresh_fs /\ allow_delete demo_cfg = true /\ Forall (fun c => plain c = true) (image_dir demo_cfg) /\
   fresh_fs !! image_dir demo_cfg = Some NDir /\ fresh_fs !! archive_dir demo_cfg = None) /\
  run_sched demo_cfg [false; true; false; true] (start demo_cfg (request_of [ps "a.png"]))
    (start demo_cfg (request_of [ps "b.jpg"])) fresh_fs =
  (TLoop (JStr <$> [ps "a.png"]), TDone (ServerError OSError), <[archive_dir demo_cfg := NDir]> fresh_fs).
Proof.
  assert (H1 : wf fresh_fs) by (apply wf_check_sound; vm_compute; reflexivity).
  assert (H3 : Forall (fun c => plain c = true) (image_dir demo_cfg)) by (apply (bool_decide_unpack _); vm_compute; exact I).
  assert (H4 : fresh_fs !! image_dir demo_cfg = Some NDir) by (vm_compute; reflexivity).
  assert (H5 : fresh_fs !! archive_dir demo_cfg = None) by (vm_compute; reflexivity).
  split; [split_and!; [exact H1 | reflexivity | exact H3 | exact H4 | exact H5]|].
  exact (archive_creation_race demo_cfg fresh_fs [ps "a.png"] [ps "b.jpg"] H1 eq_refl H3 H4 H5).
Defined.

(** The two operations of each request, alternating. *)
Definition demo_sched : list bool := [false; true; false; true; false; true; false; true].

Lemma demo_deletable : Forall (deletable demo_cfg demo_fs) ([ps "a.png"] ++ [ps "b.jpg"]).
Proof.
  repeat constructor; try (vm_compute; reflexivity); try by_decide;
    try (eexists; vm_compute; reflexivity); intros H; vm_compute in H; discriminate.
Qed.

Lemma interleavings_serializable_witness :
  (wf demo_fs /\ Forall (fun c => plain c = true) (image_dir demo_cfg) /\ demo_fs !! image_dir demo_cfg = Some NDir /\
   demo_fs !! archive_dir demo_cfg = Some NDir /\ NoDup ([ps "a.png"] ++ [ps "b.jpg"]) /\
   Forall (deletable demo_cfg demo_fs) ([ps "a.png"] ++ [ps "b.jpg"]) /\ allow_delete demo_cfg = true /\
   (2 * length [ps "a.png"] + 2 <= count_of false demo_sched)%nat /\ (2 * length [ps "b.jpg"] + 2 <= count_of true demo_sched)%nat) /\
  run_sched demo_cfg demo_sched (start demo_cfg (request_of [ps "a.png"])) (start demo_cfg (request_of [ps "b.jpg"])) demo_fs =
  (TDone (serve_delete demo_cfg (request_of [ps "a.png"]) demo_fs).1,
   TDone (serve_delete demo_cfg (request_of [ps "b.jpg"]) (serve_delete demo_cfg (request_of [ps "a.png"]) demo_fs).2).1,
   (serve_delete demo_cfg (request_of [ps "b.jpg"]) (serve_delete demo_cfg (request_of [ps "a.png"]) demo_fs).2).2).
Proof.
  assert (H1 : wf demo_fs) by exact demo_wf.
  assert (H2 : Forall (fun c => plain c = true) (image_dir demo_cfg)) by exact demo_img.
  assert (H3 : demo_fs !! image_dir demo_cfg = Some NDir) by (vm_compute; reflexivity).
  assert (H4 : demo_fs !! archive_dir demo_cfg = Some NDir) by (vm_compute; reflexivity).
  assert (H5 : NoDup ([ps "a.png"] ++ [ps "b.jpg"])) by by_decide.
  assert (H7 : (2 * length [ps "a.png"] + 2 <= count_of false demo_sched)%nat) by (vm_compute; lia).
  assert (H8 : (2 * length [ps "b.jpg"] + 2 <= count_of true demo_sched)%nat) by (vm_compute; lia).
  split; [split_and!; [exact H1 | exact H2 | exact H3 | exact H4 | exact H5 | exact demo_deletable | reflexivity | exact H7 | exact H8]|].
  exact (interleavings_serializable demo_cfg demo_fs [ps "a.png"] [ps "b.jpg"] H1 H2 H3 H4 H5 demo_deletable
           demo_sched eq_refl H7 H8).
Defined.

Lemma requests_finish_witness :
  (wf demo_fs /\ Forall (fun c => plain c = true) (image_dir demo_cfg) /\ demo_fs !! image_dir demo_cfg = Some NDir /\
   demo_fs !! archive_dir demo_cfg = Some NDir /\ NoDup ([ps "a.png"] ++ [ps "b.jpg"]) /\
   Forall (deletable demo_cfg demo_fs) ([ps "a.png"] ++ [ps "b.jpg"]) /\ allow_delete demo_cfg = true) /\
  ((2 * length [ps "a.png"] + 2 <= count_of false [false; false; false; false; true])%nat ->
   (run_sched demo_cfg [false; false; false; false; true] (start demo_cfg (request_of [ps "a.png"]))
      (start demo_cfg (request_of [ps "b.jpg"])) demo_fs).1.1 = TDone Success) /\
  ((2 * length [ps "b.jpg"] + 2 <= count_of true [false; false; false; false; true])%nat ->
   (run_sched demo_cfg [false; false; false; false; true] (start demo_cfg (request_of [ps "a.png"]))
      (start demo_cfg (request_of [ps "b.jpg"])) demo_fs).1.2 = TDone Success).
Proof.
  assert (H3 : demo_fs !! image_dir demo_cfg = Some NDir) by (vm_compute; reflexivity).
  assert (H4 : demo_fs !! archive_dir demo_cfg = Some NDir) by (vm_compute; reflexivity).
  assert (H5 : NoDup ([ps "a.png"] ++ [ps "b.jpg"])) by by_decide.
  split; [split_and!; [exact demo_wf | exact demo_img | exact H3 | exact H4 | exact H5 | exact demo_deletable | reflexivity]|].
  exact (requests_finish demo_cfg demo_fs [ps "a.png"] [ps "b.jpg"] demo_wf demo_img H3 H4 H5 demo_deletable
           [false; false; false; false; true] eq_refl).
Defined.

End Race.
