(* ===== verification/Session.v ===== *)
(** * The gallery in a browser tab

    The page of [HTML_TEMPLATE] and the server together, over time: the
    user acts on the page ([GalleryPage.page_step]); [executeDelete]
    starts a [fetch('/delete', ...)] (lines 138-144) which the server
    handles when it gets to it ([App.handle]); when its promise
    resolves, [if (response.ok) location.reload()] loads the page again
    with the same query.  The pagination links (lines 69-75) and the
    "Show:" menu (line 44) load another query.  Fetches of a document
    the tab has left are still handled by the server, but their
    promises went away with the document: they reload nothing. *)

From Stdlib Require Import String.
From S2P Require Import Prelude PyInt Gallery Archive Serve Html GalleryPage App.
From stdpp Require Import gmap sorting.

Module Session.

Import Gallery Archive Serve App.

(** ** Following a link *)

(** One [key=value] of a query string; a pair without [=] has an
    empty value. *)
Definition split_pair (seg : pystr) : pystr * pystr :=
  (split_first 61%N seg, drop (S (length (split_first 61%N seg))) seg).

(** The query of a relative link [?k=v&...], resolved against [/] by
    the browser and parsed by werkzeug: pairs separated by [&], empty
    pairs dropped.  The page's links hold only letters, digits, [-], [=]
    and [&], which URL decoding leaves as they are. *)
Definition url_query (href : pystr) : query :=
  match href with
  | 63%N :: qs => split_pair <$> filter (fun seg => seg <> []) (split_sep 38%N qs)
  | _ => []
  end.

(** The "Show:" menu: [onchange="location.href='?limit='+this.value"],
    the value of an option being [{{ l }}]. *)
Definition limit_href (l : Z) : pystr := ps "?limit=" ++ z_repr l.

(** The option the menu shows: the last one marked [selected], else the
    first; choosing it again fires no [onchange]. *)
Definition shown_option (opts : list (Z * bool)) : option Z :=
  match last (filter (fun o => o.2 = true) opts) with
  | Some o => Some o.1
  | None => fst <$> head opts
  end.

(** ** The tab *)

(** What the tab shows: the gallery page with its script, or the error
    page of a 500 (no script). *)
Inductive doc :=
  | Shown (v : GalleryPage.view) (u : GalleryPage.ui)
  | Failed.

(** A [fetch('/delete', ...)] of [executeDelete]: the document that
    started it, the names it posts, and [response.ok] once the server
    has answered. *)
Record fetch := { f_doc : nat; f_names : list pystr; f_ok : option bool }.

Record session := {
  s_store : fsys;           (* the file system the server works on *)
  s_query : query;          (* location.search *)
  s_doc : doc;
  s_loads : nat;            (* the number of the current document *)
  s_fetches : list fetch;   (* started and not yet settled *)
}.

(** [response.ok]: a 2xx status. *)
Definition reply_ok (r : reply) : bool :=
  match r with
  | PageReply _ | FileReply (Sent _) | DeleteReply Success => true
  | _ => false
  end.

(** [GET /?q]: the document the server's answer makes. *)
Definition load (c : config) (q : query) (fs : fsys) : doc :=
  match (handle c (get_request (ps "/") q) fs).1 with
  | PageReply v => Shown v (GalleryPage.ui_init (length (GalleryPage.v_cards v)))
  | _ => Failed
  end.

(** The tab as the gallery is first opened. *)
Definition start (c : config) (q : query) (fs : fsys) : session :=
  {| s_store := fs; s_query := q; s_doc := load c q fs; s_loads := 0; s_fetches := [] |}.

(** Going to [?q] (a link, the menu, [location.reload()]): a new
    document. *)
Definition navigate (c : config) (q : query) (s : session) : session :=
  {| s_store := s_store s; s_query := q; s_doc := load c q (s_store s); s_loads := S (s_loads s);
     s_fetches := s_fetches s |}.

Definition with_doc (d : doc) (fs : list fetch) (s : session) : session :=
  {| s_store := s_store s; s_query := s_query s; s_doc := d; s_loads := s_loads s; s_fetches := fs |}.

(** The fetches the current document starts for the bodies [sent]. *)
Definition started (s : session) (sent : list (list pystr)) : list fetch :=
  (fun ns => {| f_doc := s_loads s; f_names := ns; f_ok := None |}) <$> sent.

Inductive action :=
  | OnPage (e : GalleryPage.event)  (* the user on the page *)
  | FollowPrev                      (* the Prev link *)
  | FollowNext                      (* the Next link *)
  | SelectLimit (l : Z)             (* an option of the "Show:" menu *)
  | Reload                          (* the browser's reload button *)
  | Handle (i : nat)                (* the server handles fetch [i] *)
  | Settle (i : nat).               (* the promise of fetch [i] resolves *)

(** One action; [None] when it is not possible. *)
Definition step (c : config) (a : action) (s : session) : option session :=
  match a, s_doc s with
  | OnPage e, Shown v u =>
      u' ← GalleryPage.page_step v (GalleryPage.v_images v) e u;
      Some (with_doc (Shown v u')
              (s_fetches s ++ started s (drop (length (GalleryPage.ui_sent u)) (GalleryPage.ui_sent u'))) s)
  | FollowPrev, Shown v _ => href ← GalleryPage.v_prev v; Some (navigate c (url_query href) s)
  | FollowNext, Shown v _ => href ← GalleryPage.v_next v; Some (navigate c (url_query href) s)
  | SelectLimit l, Shown v _ =>
      if bool_decide (l ∈ (GalleryPage.v_options v).*1 /\ Some l <> shown_option (GalleryPage.v_options v))
      then Some (navigate c (url_query (limit_href l)) s)
      else None
  | Reload, _ => Some (navigate c (s_query s) s)
  | Handle i, _ =>
      match s_fetches s !! i with
      | Some {| f_doc := d; f_names := ns; f_ok := None |} =>
          let '(r, fs') := handle c (delete_request ns) (s_store s) in
          Some {| s_store := fs'; s_query := s_query s; s_doc := s_doc s; s_loads := s_loads s;
                  s_fetches := <[i := {| f_doc := d; f_names := ns; f_ok := Some (reply_ok r) |}]> (s_fetches s) |}
      | _ => None
      end
  | Settle i, _ =>
      match s_fetches s !! i with
      | Some {| f_doc := d; f_ok := Some ok |} =>
          let s1 := with_doc (s_doc s) (delete i (s_fetches s)) s in
          if ok && bool_decide (d = s_loads s) then Some (navigate c (s_query s) s1) else Some s1
      | _ => None
      end
  | _, Failed => None
  end.

(** A sequence of actions. *)
Fixpoint run (c : config) (acts : list action) (s : session) : option session :=
  match acts with
  | [] => Some s
  | a :: acts' => s1 ← step c a s; run c acts' s1
  end.

(** The names the server handles in one action, and along a run. *)
Definition handled (a : action) (s : session) : list pystr :=
  match a with
  | Handle i => match s_fetches s !! i with
                | Some {| f_names := ns; f_ok := None |} => ns
                | _ => []
                end
  | _ => []
  end.

Fixpoint handled_run (c : config) (acts : list action) (s : session) : list pystr :=
  match acts with
  | [] => []
  | a :: acts' => match step c a s with
                  | Some s1 => handled a s ++ handled_run c acts' s1
                  | None => []
                  end
  end.

(** ** The invariant *)

(** A name the page may show: listed, and written into the page's
    JavaScript without quote, backslash or line break. *)
Definition name_ok (n : pystr) : Prop := image_name n /\ Forall (fun ch => GalleryPage.js_plain ch = true) n.

(** The document is a rendering of [index] for this configuration,
    in a state its script can reach. *)
Definition doc_ok (c : config) (d : doc) : Prop :=
  match d with
  | Shown v u => exists pg, v = GalleryPage.render pg /\ pg_allow_delete pg = allow_delete c /\
                   Forall name_ok (pg_images pg) /\ GalleryPage.reachable v (pg_images pg) u
  | Failed => True
  end.

Record inv (c : config) (s : session) : Prop := {
  inv_store : store_ok c (s_store s);
  inv_names : Forall (Forall (fun ch => GalleryPage.js_plain ch = true)) (listing (children (s_store s) (image_dir c)));
  inv_doc : doc_ok c (s_doc s);
  inv_fetches : Forall (fun f => Forall image_name (f_names f)) (s_fetches s);
}.

(** ** Lemmas: the page's requests *)

(** The script only ever adds requests. *)
Lemma page_step_sent v l e u u' :
  GalleryPage.page_step v l e u = Some u' -> GalleryPage.ui_sent u `prefix_of` GalleryPage.ui_sent u'.
Proof.
  intros H. destruct e; cbn [GalleryPage.page_step] in H; repeat case_match;
    try (destruct (GalleryPage.trash_argument _); cbn in H); simplify_eq; cbn;
    unfold GalleryPage.keydown, GalleryPage.handleBatchDelete; repeat case_match; cbn;
    solve [reflexivity | by apply prefix_app_r].
Qed.

Lemma run_events_sent v l es : forall u u',
  GalleryPage.run_events v l es u = Some u' -> GalleryPage.ui_sent u `prefix_of` GalleryPage.ui_sent u'.
Proof.
  induction es as [|e es IH]; intros u u' H; cbn [GalleryPage.run_events] in H; [by injection H as <-|].
  destruct (GalleryPage.page_step v l e u) as [u1|] eqn:E; [|done]. cbn in H.
  etrans; [by eapply page_step_sent | by eapply IH].
Qed.

Lemma drop_prefix {A} (l1 l2 l3 : list A) :
  l1 `prefix_of` l2 -> l2 `prefix_of` l3 -> drop (length l1) l2 ++ drop (length l2) l3 = drop (length l1) l3.
Proof.
  intros [a ->] [b ->]. by rewrite !drop_app_length, <- app_assoc, drop_app_length.
Qed.

(** Events on the page are actions of the tab. *)
Lemma run_on_page c v es : forall u u' s,
  s_doc s = Shown v u -> GalleryPage.run_events v (GalleryPage.v_images v) es u = Some u' ->
  run c (OnPage <$> es) s =
    Some (with_doc (Shown v u') (s_fetches s ++ started s (drop (length (GalleryPage.ui_sent u)) (GalleryPage.ui_sent u'))) s).
Proof.
  induction es as [|e es IH]; intros u u' s Hd Hr; cbn [GalleryPage.run_events] in Hr.
  { injection Hr as <-. rewrite drop_all, app_nil_r. cbn. destruct s; cbn in *; by subst. }
  destruct (GalleryPage.page_step v _ e u) as [u1|] eqn:E; [|done]. cbn in Hr.
  cbn [fmap list_fmap run]. unfold step at 1. rewrite Hd, E. cbn [mbind option_bind].
  rewrite (IH u1 u') by done. cbn. f_equal. unfold with_doc. cbn. f_equal.
  unfold started. rewrite <- app_assoc, <- fmap_app. do 2 f_equal.
  apply drop_prefix; [by eapply page_step_sent | by eapply run_events_sent].
Qed.

(** ** Lemmas: the invariant *)

(** A page loaded from a store the gallery expects shows listed names. *)
Lemma load_ok c q fs :
  store_ok c fs -> Forall (Forall (fun ch => GalleryPage.js_plain ch = true)) (listing (children fs (image_dir c))) ->
  doc_ok c (load c q fs).
Proof.
  intros Hok Hjs. unfold load. rewrite handle_index. cbn [fst].
  destruct (get_index c q fs) as [pg|e] eqn:Hi; [|done]. destruct (encodable _); [|done].
  exists pg. rewrite get_index_children in Hi by apply Hok.
  split; [done|]. split; [by apply index_ok in Hi as (? & _ & ->)|].
  split; [|apply GalleryPage.reach_init].
  apply Forall_forall. intros n Hn. pose proof (elem_of_sublist _ _ _ Hn (index_images _ _ _ _ Hi)) as Hl.
  split; [by apply (listed_image_name c fs) | by eapply Forall_forall in Hjs].
Qed.

Lemma navigate_inv c q s : inv c s -> inv c (navigate c q s).
Proof. intros [Hs Hn Hd Hf]. split; cbn; [done | done | by apply load_ok | done]. Qed.

(** The server on a request of listed names: archived when deletion is
    allowed, [403] and nothing changed otherwise. *)
Lemma handle_names c fs ns :
  store_ok c fs -> Forall image_name ns ->
  exists fs', handle c (delete_request ns) fs = (DeleteReply (if allow_delete c then Success else Forbidden), fs') /\
    store_ok c fs' /\
    listing (children fs' (image_dir c)) =
      filter (fun m => m ∉ (if allow_delete c then ns else [])) (listing (children fs (image_dir c))).
Proof.
  intros Hok Hns. destruct (allow_delete c) eqn:Ha; [by apply delete_names_spec|].
  exists fs. rewrite handle_delete. unfold serve_delete, delete_images. rewrite Ha. cbn.
  split; [done|]. split; [done|]. symmetry. apply filter_all, Forall_forall. set_solver.
Qed.

(** Every action keeps the invariant. *)
Lemma step_inv c a s s' : inv c s -> step c a s = Some s' -> inv c s'.
Proof.
  intros Hi Hs. pose proof Hi as [Hst Hn Hdoc Hf]. unfold step in Hs.
  destruct a as [e| | |l| |i|i].
  - destruct (s_doc s) as [v u|] eqn:Hd; [|done].
    destruct (GalleryPage.page_step v _ e u) as [u'|] eqn:E; [|done]. injection Hs as <-.
    destruct Hdoc as (pg & -> & Ha & Hnames & Hr).
    assert (Hr' : GalleryPage.reachable (GalleryPage.render pg) (pg_images pg) u') by (eapply GalleryPage.reach_step; eauto).
    split; cbn; [done | done | by exists pg |]. apply Forall_app. split; [done|].
    assert (Hjs : Forall (Forall (fun ch => GalleryPage.js_plain ch = true)) (pg_images pg))
      by (eapply Forall_impl; [exact Hnames | by intros n []]).
    pose proof (GalleryPage.sent_requests_sublist pg u' Hr' Hjs) as Hsent.
    unfold started. apply Forall_fmap, Forall_drop. eapply Forall_impl; [exact Hsent|].
    intros ns [_ Hsub]. cbn. apply Forall_forall. intros n Hn'.
    eapply Forall_forall in Hnames; [exact (proj1 Hnames) | by eapply elem_of_sublist].
  - destruct (s_doc s) as [v u|]; [|done]. destruct (GalleryPage.v_prev v); [|done]. injection Hs as <-. by apply navigate_inv.
  - destruct (s_doc s) as [v u|]; [|done]. destruct (GalleryPage.v_next v); [|done]. injection Hs as <-. by apply navigate_inv.
  - destruct (s_doc s) as [v u|]; [|done]. case_bool_decide; [|done]. injection Hs as <-. by apply navigate_inv.
  - destruct (s_doc s); injection Hs as <-; by apply navigate_inv.
  - destruct (s_doc s) eqn:Hd;
    destruct (s_fetches s !! i) as [[d ns [ok|]]|] eqn:Hfi; try done;
    pose proof (Forall_lookup_1 _ _ _ _ Hf Hfi) as Hns; cbn in Hns;
    destruct (handle_names c (s_store s) ns Hst Hns) as (fs' & Hh & Hok' & Hl);
    rewrite Hh in Hs; injection Hs as <-;
    (split; cbn; [done | rewrite Hl; by apply Forall_filter_sub | by rewrite ?Hd | by apply Forall_insert]).
  - assert (Hi1 : inv c (with_doc (s_doc s) (delete i (s_fetches s)) s))
      by (split; cbn; [done | done | done | by apply Forall_delete]).
    destruct (s_doc s);
    destruct (s_fetches s !! i) as [[d ns [ok|]]|] eqn:Hfi; try done;
    destruct (ok && _); injection Hs as <-; by try apply navigate_inv.
Qed.

Lemma run_inv c acts : forall s s', inv c s -> run c acts s = Some s' -> inv c s'.
Proof.
  induction acts as [|a acts IH]; intros s s' Hi Hr; cbn [run] in Hr; [by injection Hr as <-|].
  destruct (step c a s) as [s1|] eqn:E; [|done]. eapply IH; [|exact Hr]. by eapply step_inv.
Qed.

Lemma start_inv c q fs :
  store_ok c fs -> Forall (Forall (fun ch => GalleryPage.js_plain ch = true)) (listing (children fs (image_dir c))) ->
  inv c (start c q fs).
Proof. intros Hok Hjs. split; cbn; [done | done | by apply load_ok | constructor]. Qed.

(** ** Lemmas: links *)

Lemma split_pair_eq k v : 61%N ∉ k -> split_pair (k ++ 61%N :: v) = (k, v).
Proof. intros Hk. unfold split_pair. rewrite split_first_app_sep by done. f_equal. clear Hk. induction k; cbn; auto. Qed.

Lemma no_amp_pair k z : 38%N ∉ k -> 38%N ∉ k ++ 61%N :: z_repr z.
Proof. intros Hk. rewrite not_elem_of_app, not_elem_of_cons. split; [done | split; [done | apply z_repr_no; lia]]. Qed.

(** The Prev and Next links are read back as the query they were
    written from. *)
Lemma url_query_page_href p l : url_query (GalleryPage.page_href p l) = page_query p l.
Proof.
  assert (E : GalleryPage.page_href p l = 63%N :: ((ps "page" ++ 61%N :: z_repr p) ++ 38%N :: (ps "limit" ++ 61%N :: z_repr l)))
    by reflexivity.
  rewrite E. cbv [url_query]. rewrite split_sep_app, split_sep_noslash by (apply no_amp_pair; by_decide).
  rewrite !filter_cons_True, filter_nil by done. cbn [fmap list_fmap].
  rewrite !split_pair_eq by by_decide. reflexivity.
Qed.

Lemma url_query_limit_href l : url_query (limit_href l) = [(ps "limit", z_repr l)].
Proof.
  assert (E : limit_href l = 63%N :: (ps "limit" ++ 61%N :: z_repr l)) by reflexivity.
  rewrite E. cbv [url_query]. rewrite split_sep_noslash by (apply no_amp_pair; by_decide).
  rewrite filter_cons_True, filter_nil by done. cbn [fmap list_fmap]. by rewrite split_pair_eq by by_decide.
Qed.

(** ** Lemmas: runs *)

Lemma run_app c acts1 acts2 s : run c (acts1 ++ acts2) s = run c acts1 s ≫= run c acts2.
Proof.
  revert s. induction acts1 as [|a acts IH]; intros s; [done|]. cbn [app run].
  destruct (step c a s); [apply IH | done].
Qed.

(** The server handles a fetch not yet answered. *)
Lemma step_handle c s i d ns :
  s_fetches s !! i = Some {| f_doc := d; f_names := ns; f_ok := None |} ->
  step c (Handle i) s =
    Some {| s_store := (handle c (delete_request ns) (s_store s)).2; s_query := s_query s; s_doc := s_doc s;
            s_loads := s_loads s;
            s_fetches := <[i := {| f_doc := d; f_names := ns;
                                   f_ok := Some (reply_ok (handle c (delete_request ns) (s_store s)).1) |}]> (s_fetches s) |}.
Proof. intros Hi. unfold step. destruct (s_doc s); rewrite Hi; by destruct (handle _ _ _). Qed.

(** A successful fetch of the current document reloads it. *)
Lemma step_settle_reload c s i ns :
  s_fetches s !! i = Some {| f_doc := s_loads s; f_names := ns; f_ok := Some true |} ->
  step c (Settle i) s = Some (navigate c (s_query s) (with_doc (s_doc s) (delete i (s_fetches s)) s)).
Proof. intros Hi. unfold step. destruct (s_doc s); rewrite Hi; cbn; by rewrite bool_decide_true. Qed.

(** A handled fetch, then its promise: the store after the request and
    a fresh document of the same query. *)
Lemma handle_settle c s i ns fs' :
  s_fetches s !! i = Some {| f_doc := s_loads s; f_names := ns; f_ok := None |} ->
  handle c (delete_request ns) (s_store s) = (DeleteReply Success, fs') ->
  exists s', run c [Handle i; Settle i] s = Some s' /\ s_store s' = fs' /\ s_doc s' = load c (s_query s) fs'.
Proof.
  intros Hi Hh. cbn [run]. rewrite (step_handle c s i _ ns Hi), Hh. cbn [mbind option_bind fst snd].
  rewrite step_settle_reload with (ns := ns); [by eexists|]. cbn [s_fetches].
  apply list_lookup_insert_eq. by apply lookup_lt_Some in Hi.
Qed.

(** Each action changes the listing by the names the server archives. *)
Lemma step_listing c a s s' :
  inv c s -> allow_delete c = true -> step c a s = Some s' ->
  listing (children (s_store s') (image_dir c)) = filter (fun m => m ∉ handled a s) (listing (children (s_store s) (image_dir c))).
Proof.
  intros Hi Ha Hs.
  assert (Hsame : s_store s' = s_store s -> handled a s = [] ->
                  listing (children (s_store s') (image_dir c)) = filter (fun m => m ∉ handled a s) (listing (children (s_store s) (image_dir c)))).
  { intros -> ->. symmetry. apply filter_all, Forall_forall. set_solver. }
  unfold step in Hs. destruct a as [e| | |l| |i|i]; cbn [handled].
  - destruct (s_doc s); [|done]. destruct (GalleryPage.page_step _ _ _ _); [|done]. injection Hs as <-. by apply Hsame.
  - destruct (s_doc s); [|done]. destruct (GalleryPage.v_prev _); [|done]. injection Hs as <-. by apply Hsame.
  - destruct (s_doc s); [|done]. destruct (GalleryPage.v_next _); [|done]. injection Hs as <-. by apply Hsame.
  - destruct (s_doc s); [|done]. case_bool_decide; [|done]. injection Hs as <-. by apply Hsame.
  - destruct (s_doc s); injection Hs as <-; by apply Hsame.
  - destruct (s_fetches s !! i) as [[d ns [ok|]]|] eqn:Hfi; destruct (s_doc s); try done.
    all: pose proof (Forall_lookup_1 _ _ _ _ (inv_fetches _ _ Hi) Hfi) as Hns; cbn in Hns;
      destruct (handle_names c (s_store s) ns (inv_store _ _ Hi) Hns) as (fs' & Hh & _ & Hl);
      rewrite Hh in Hs; injection Hs as <-; cbn [s_store]; by rewrite Hl, Ha.
  - destruct (s_fetches s !! i) as [[d ns [[]|]]|]; destruct (s_doc s); try done;
      repeat case_match; injection Hs as <-; by apply Hsame.
Qed.

(** ** The tab over time *)

(** C12. The invariant of the tab: from a store the gallery expects
    (whose listed names the page's JavaScript carries intact), every
    sequence of actions (the user on the page, links, reloads, the
    server handling fetches in any order, promises settling in any
    order) keeps the store as the gallery expects it, shows a page that
    renders [index] in a state its script can reach, and leaves only
    fetches that name listed image names. *)
Theorem session_invariant c q fs acts s :
  store_ok c fs -> Forall (Forall (fun ch => GalleryPage.js_plain ch = true)) (listing (children fs (image_dir c))) ->
  run c acts (start c q fs) = Some s -> inv c s.
Proof. intros Hok Hjs Hr. eapply run_inv; [|exact Hr]. by apply start_inv. Qed.

(** C8. The gallery only hides what was asked: along any run, the
    listing is the one before without exactly the names of the fetches
    the server handled, whatever pages, reloads and interleavings
    happened. *)
Theorem listing_loses_handled c s acts s' :
  inv c s -> allow_delete c = true -> run c acts s = Some s' ->
  listing (children (s_store s') (image_dir c)) =
    filter (fun m => m ∉ handled_run c acts s) (listing (children (s_store s) (image_dir c))).
Proof.
  revert s. induction acts as [|a acts IH]; intros s Hi Ha Hr; cbn [run handled_run] in *.
  - injection Hr as <-. symmetry. apply filter_all, Forall_forall. set_solver.
  - destruct (step c a s) as [s1|] eqn:E; [|done]. cbn in Hr.
    rewrite (IH s1) by (eauto using step_inv). rewrite (step_listing c a s s1) by done.
    rewrite list_filter_filter. apply list_filter_iff. set_solver.
Qed.

(** C7. Deletion works end to end (liveness): whatever state the tab
    is in, every image the page shows can be archived: after Escape,
    ticking only its box, confirming, the server handling the fetch
    and its promise settling, the image is gone from the listing and
    the tab shows the fresh page of the same query. *)
Theorem tab_deletes_every_image c s v u name :
  inv c s -> allow_delete c = true -> s_doc s = Shown v u -> name ∈ GalleryPage.v_images v ->
  exists acts s', run c acts s = Some s' /\ (name ∉ listing (children (s_store s') (image_dir c))) /\
    s_doc s' = load c (s_query s) (s_store s').
Proof.
  intros Hi Ha Hd Hn. pose proof Hi as [Hst _ Hdoc _]. rewrite Hd in Hdoc. destruct Hdoc as (pg & -> & Hpa & Hnames & Hr).
  apply list_elem_of_lookup_1 in Hn as [i Hi']. cbn [GalleryPage.v_images GalleryPage.render] in Hi'.
  destruct (GalleryPage.delete_one_image pg u i name Hr ltac:(by rewrite Hpa) Hi') as (js & u' & Hrun & _ & Hsent).
  pose proof (run_on_page c _ _ u u' s Hd Hrun) as Hrun1. rewrite Hsent, drop_app_length in Hrun1.
  assert (Hname : image_name name) by (eapply Forall_lookup_1 in Hnames; [exact (proj1 Hnames) | exact Hi']).
  destruct (handle_names c (s_store s) [name] Hst (proj2 (Forall_singleton _ _) Hname)) as (fs' & Hh & _ & Hl).
  rewrite Ha in Hh, Hl.
  destruct (handle_settle c (with_doc (Shown (GalleryPage.render pg) u') (s_fetches s ++ started s [[name]]) s)
              (length (s_fetches s)) [name] fs') as (s' & Hr2 & Hst' & Hdoc').
  { cbn. rewrite lookup_app_r, Nat.sub_diag by lia. reflexivity. }
  { exact Hh. }
  eexists _, s'. split; [rewrite run_app, Hrun1; exact Hr2|]. split; [|by rewrite Hst'].
  rewrite Hst', Hl, list_elem_of_filter. set_solver.
Qed.

(** C25. The pagination links and the "Show:" menu: Prev goes to the
    page before and Next to the page after, with the same [limit];
    choosing another option of the menu goes to page 1 with that
    [limit] (for page numbers and limits below 2^63). *)
Theorem pagination_links c s pg u :
  s_doc s = Shown (GalleryPage.render pg) u -> (Z.abs (pg_page pg) < 2 ^ 63)%Z -> (Z.abs (pg_limit pg) < 2 ^ 63)%Z ->
  ((1 < pg_page pg)%Z -> exists s', step c FollowPrev s = Some s' /\
     arg_int (s_query s') (ps "page") 1 = (pg_page pg - 1)%Z /\ arg_int (s_query s') (ps "limit") 25 = pg_limit pg) /\
  ((pg_page pg < pg_total_pages pg)%Z -> exists s', step c FollowNext s = Some s' /\
     arg_int (s_query s') (ps "page") 1 = (pg_page pg + 1)%Z /\ arg_int (s_query s') (ps "limit") 25 = pg_limit pg) /\
  (forall l, l ∈ [10; 25; 50; 100]%Z -> Some l <> shown_option (GalleryPage.v_options (GalleryPage.render pg)) ->
     exists s', step c (SelectLimit l) s = Some s' /\
     arg_int (s_query s') (ps "page") 1 = 1%Z /\ arg_int (s_query s') (ps "limit") 25 = l).
Proof.
  intros Hd Hp Hl. unfold step. rewrite Hd. split; [|split].
  - intros H1. cbn [GalleryPage.v_prev GalleryPage.render]. rewrite bool_decide_true by done.
    eexists. split; [reflexivity|]. cbn [navigate s_query]. rewrite url_query_page_href. apply arg_int_page_query; lia.
  - intros H1. cbn [GalleryPage.v_next GalleryPage.render]. rewrite bool_decide_true by done.
    eexists. split; [reflexivity|]. cbn [navigate s_query]. rewrite url_query_page_href. apply arg_int_page_query; lia.
  - intros l Hl' Hsel. rewrite bool_decide_true by (split; [cbn; exact Hl' | exact Hsel]). eexists. split; [reflexivity|].
    cbn [navigate s_query]. rewrite url_query_limit_href.
    repeat (apply list_elem_of_cons in Hl' as [->|Hl']; [vm_compute; split; reflexivity|]). set_solver.
Qed.

(** C21. Archiving the whole last page leaves the tab past the end: the
    reload after the fetch asks for the same page number, which now has
    no images, and the page reads "Page p of p-1" with a Prev link and
    no Next (for up to [2^52] images, where [math.ceil(total / limit)]
    is exact). *)
Theorem emptied_last_page c s pg i :
  inv c s -> allow_delete c = true -> get_index c (s_query s) (s_store s) = Ok pg ->
  (0 < pg_limit pg)%Z -> (1 <= pg_page pg)%Z -> (pg_total pg <= 2 ^ 52)%Z -> pg_page pg = pg_total_pages pg ->
  s_fetches s !! i = Some {| f_doc := s_loads s; f_names := pg_images pg; f_ok := None |} ->
  exists s', run c [Handle i; Settle i] s = Some s' /\ s_doc s' = load c (s_query s) (s_store s') /\
    get_index c (s_query s) (s_store s') =
      Ok {| pg_images := []; pg_path := pg_path pg; pg_allow_delete := pg_allow_delete pg;
            pg_page := pg_page pg; pg_limit := pg_limit pg;
            pg_total := (pg_page pg - 1) * pg_limit pg; pg_total_pages := pg_page pg - 1 |}.
Proof.
  intros Hi Ha Hg Hl Hp HT Hlast Hfi. pose proof Hi as [Hst _ _ Hf].
  pose proof (Forall_lookup_1 _ _ _ _ Hf Hfi) as Hns. cbn in Hns.
  destruct (handle_names c (s_store s) (pg_images pg) Hst Hns) as (fs' & Hh & Hok' & Hl'). rewrite Ha in Hh, Hl'.
  destruct (handle_settle c s i (pg_images pg) fs' Hfi Hh) as (s' & Hr & Hst' & Hdoc).
  exists s'. split; [done|]. rewrite Hst'. split; [done|].
  rewrite get_index_children in Hg |- * by apply Hok' || apply Hst.
  eapply index_last_page_gone; [exact Hg | apply NoDup_children | done | done | done | done | exact Hl'].
Qed.

(** ** Witnesses *)

(** Three images, two per page; the tab opens on page 2 (only [a.png])
    and its trash icon is clicked. *)
Definition demo3_fs : fsys := <[[ps "srv"; ps "img"; ps "c.webp"] := NFile 3]> demo_fs.

Definition demo_q : query := page_query 2 2.

Definition demo_start : session := start demo_cfg demo_q demo3_fs.

Definition demo_pg : page := {|
  pg_images := [ps "a.png"]; pg_path := ps "/srv/img"; pg_allow_delete := true;
  pg_page := 2; pg_limit := 2; pg_total := 3; pg_total_pages := 2 |}.

Definition demo_acts : list action := [OnPage (GalleryPage.ClickTrash 0)].

Definition demo_s1 : session := default demo_start (run demo_cfg demo_acts demo_start).

Lemma demo_store_ok : store_ok demo_cfg demo3_fs.
Proof. apply store_check_sound. vm_compute. reflexivity. Qed.

Lemma demo_names_js :
  Forall (Forall (fun ch => GalleryPage.js_plain ch = true)) (listing (children demo3_fs (image_dir demo_cfg))).
Proof. by_decide. Qed.

Lemma demo_run : run demo_cfg demo_acts demo_start = Some demo_s1.
Proof. vm_compute. reflexivity. Qed.

Lemma demo_s1_inv : inv demo_cfg demo_s1.
Proof. eapply run_inv; [apply start_inv; [exact demo_store_ok | exact demo_names_js] | exact demo_run]. Qed.

Lemma session_invariant_witness :
  (store_ok demo_cfg demo3_fs /\
   Forall (Forall (fun ch => GalleryPage.js_plain ch = true)) (listing (children demo3_fs (image_dir demo_cfg))) /\
   run demo_cfg demo_acts (start demo_cfg demo_q demo3_fs) = Some demo_s1) /\
  inv demo_cfg demo_s1.
Proof.
  split; [split; [exact demo_store_ok | split; [exact demo_names_js | exact demo_run]]|].
  exact (session_invariant demo_cfg demo_q demo3_fs demo_acts demo_s1 demo_store_ok demo_names_js demo_run).
Defined.

(** The server handles the trash's fetch and the page reloads:
    [a.png] is the one name gone. *)
Lemma listing_loses_handled_witness :
  (inv demo_cfg demo_s1 /\ allow_delete demo_cfg = true /\
   run demo_cfg [Handle 0; Settle 0] demo_s1 = Some (default demo_s1 (run demo_cfg [Handle 0; Settle 0] demo_s1))) /\
  listing (children (s_store (default demo_s1 (run demo_cfg [Handle 0; Settle 0] demo_s1))) (image_dir demo_cfg)) =
    filter (fun m => m ∉ handled_run demo_cfg [Handle 0; Settle 0] demo_s1)
           (listing (children (s_store demo_s1) (image_dir demo_cfg))).
Proof.
  assert (Hr : run demo_cfg [Handle 0; Settle 0] demo_s1 = Some (default demo_s1 (run demo_cfg [Handle 0; Settle 0] demo_s1)))
    by (vm_compute; reflexivity).
  split; [split; [exact demo_s1_inv | split; [reflexivity | exact Hr]]|].
  exact (listing_loses_handled demo_cfg demo_s1 [Handle 0; Settle 0] _ demo_s1_inv eq_refl Hr).
Defined.

Lemma demo_start_doc :
  s_doc demo_start = Shown (GalleryPage.render demo_pg) (GalleryPage.ui_init 1).
Proof. vm_compute. reflexivity. Qed.

Lemma demo_start_inv : inv demo_cfg demo_start.
Proof. apply start_inv; [exact demo_store_ok | exact demo_names_js]. Qed.

Lemma tab_deletes_every_image_witness :
  (inv demo_cfg demo_start /\ allow_delete demo_cfg = true /\
   s_doc demo_start = Shown (GalleryPage.render demo_pg) (GalleryPage.ui_init 1) /\
   ps "a.png" ∈ GalleryPage.v_images (GalleryPage.render demo_pg)) /\
  exists acts s', run demo_cfg acts demo_start = Some s' /\
    (ps "a.png" ∉ listing (children (s_store s') (image_dir demo_cfg))) /\
    s_doc s' = load demo_cfg (s_query demo_start) (s_store s').
Proof.
  assert (Hn : ps "a.png" ∈ GalleryPage.v_images (GalleryPage.render demo_pg)) by by_decide.
  split; [split; [exact demo_start_inv | split; [reflexivity | split; [exact demo_start_doc | exact Hn]]]|].
  exact (tab_deletes_every_image demo_cfg demo_start _ _ _ demo_start_inv eq_refl demo_start_doc Hn).
Defined.

Lemma pagination_links_witness :
  (s_doc demo_start = Shown (GalleryPage.render demo_pg) (GalleryPage.ui_init 1) /\
   (Z.abs (pg_page demo_pg) < 2 ^ 63)%Z /\ (Z.abs (pg_limit demo_pg) < 2 ^ 63)%Z) /\
  exists s', step demo_cfg FollowPrev demo_start = Some s' /\
    arg_int (s_query s') (ps "page") 1 = 1%Z /\ arg_int (s_query s') (ps "limit") 25 = 2%Z.
Proof.
  assert (Hp : (Z.abs (pg_page demo_pg) < 2 ^ 63)%Z) by (cbn; lia).
  assert (Hl : (Z.abs (pg_limit demo_pg) < 2 ^ 63)%Z) by (cbn; lia).
  split; [split; [exact demo_start_doc | split; [exact Hp | exact Hl]]|].
  exact (proj1 (pagination_links demo_cfg demo_start demo_pg _ demo_start_doc Hp Hl) ltac:(cbn; lia)).
Defined.

(** Archiving [a.png], the only image of page 2, leaves the tab on
    "Page 2 of 1". *)
Lemma emptied_last_page_witness :
  (inv demo_cfg demo_s1 /\ allow_delete demo_cfg = true /\
   get_index demo_cfg (s_query demo_s1) (s_store demo_s1) = Ok demo_pg /\
   (0 < pg_limit demo_pg)%Z /\ (1 <= pg_page demo_pg)%Z /\ (pg_total demo_pg <= 2 ^ 52)%Z /\ pg_page demo_pg = pg_total_pages demo_pg /\
   s_fetches demo_s1 !! 0 = Some {| f_doc := s_loads demo_s1; f_names := pg_images demo_pg; f_ok := None |}) /\
  exists s', run demo_cfg [Handle 0; Settle 0] demo_s1 = Some s' /\
    s_doc s' = load demo_cfg (s_query demo_s1) (s_store s') /\
    get_index demo_cfg (s_query demo_s1) (s_store s') =
      Ok {| pg_images := []; pg_path := pg_path demo_pg; pg_allow_delete := pg_allow_delete demo_pg;
            pg_page := pg_page demo_pg; pg_limit := pg_limit demo_pg;
            pg_total := (pg_page demo_pg - 1) * pg_limit demo_pg; pg_total_pages := pg_page demo_pg - 1 |}.
Proof.
  assert (Hg : get_index demo_cfg (s_query demo_s1) (s_store demo_s1) = Ok demo_pg) by (vm_compute; reflexivity).
  assert (Hl : (0 < pg_limit demo_pg)%Z) by (cbn; lia).
  assert (Hp : (1 <= pg_page demo_pg)%Z) by (cbn; lia).
  assert (HT : (pg_total demo_pg <= 2 ^ 52)%Z) by (vm_compute; discriminate).
  assert (Hf : s_fetches demo_s1 !! 0 = Some {| f_doc := s_loads demo_s1; f_names := pg_images demo_pg; f_ok := None |})
    by (vm_compute; reflexivity).
  split; [split; [exact demo_s1_inv | split; [reflexivity | split; [exact Hg | split; [exact Hl | split; [exact Hp | split; [exact HT | split; [reflexivity | exact Hf]]]]]]]|].
  exact (emptied_last_page demo_cfg demo_s1 demo_pg 0 demo_s1_inv eq_refl Hg Hl Hp HT eq_refl Hf).
Defined.

End Session.
